(** * GPS-disciplined NTP server: a shallow embedding of [GPS.h] and [NTP.h]

    The development follows the two headers of the firmware core.

    - Fixed-width integers are integers in [Z] with the wrap-around of every
      assignment written out ([Bits]).
    - [float] and [double] values are IEEE-754 values of the standard
      library's [SpecFloat], at precisions 24 and 53 ([Flt]).
    - C strings are lists of characters; [strtok], [atoi], [strchr] and
      [String::indexOf] are modelled in [CStr].
    - What the firmware gets from outside (the two hardware clocks, the
      TinyGPS++ decoder, [atof], [snprintf]) is gathered in two type classes.
    - Methods that mutate the object are state transformers in a small state
      monad; every call of [millis()] or [micros()] consumes one clock reading.

    Part I holds the model, Part II the lemmas and theorems. *)

From Stdlib Require Import ZArith Lia Bool List Ascii String SpecFloat.
From stdpp Require Import base list.
From coqutil Require Import Datatypes.RecordSetters.
Import RecordSetters.TriangleBracketNotations.
Local Open Scope Z_scope.

(* ====================================================================== *)
(** * Part I. The model                                                     *)
(* ====================================================================== *)

(** ** Fixed-width integers *)

Module Bits.

Definition wrap (bits x : Z) : Z := x mod 2 ^ bits.

Definition u8 : Z -> Z := wrap 8.
Definition u16 : Z -> Z := wrap 16.
Definition u32 : Z -> Z := wrap 32.
Definition u64 : Z -> Z := wrap 64.

(** [long] and [int] are 32 bits wide on the target; [strtol] saturates. *)
Definition INT_MAX : Z := 2147483647.
Definition INT_MIN : Z := -2147483648.
Definition saturate_int (x : Z) : Z := Z.max INT_MIN (Z.min INT_MAX x).

End Bits.
Export Bits.

(** ** Floating point *)

Module Flt.

Definition f32 := spec_float.
Definition f64 := spec_float.

Definition f32_of_Z (n : Z) : f32 := binary_normalize 24 128 n 0 false.
Definition f64_of_Z (n : Z) : f64 := binary_normalize 53 1024 n 0 false.

(** Conversions between the two formats: exact towards [double], rounded
    to nearest-even towards [float]. *)
Definition f64_of_f32 (x : f32) : f64 :=
  match x with
  | S754_finite s m e => binary_normalize 53 1024 (cond_Zopp s (Zpos m)) e s
  | _ => x
  end.
Definition f32_of_f64 (x : f64) : f32 :=
  match x with
  | S754_finite s m e => binary_normalize 24 128 (cond_Zopp s (Zpos m)) e s
  | _ => x
  end.

(** The [double] literal written [p/q] in decimal, e.g. [0.001 = 1/1000]. *)
Definition f64_lit (p q : Z) : f64 := SFdiv 53 1024 (f64_of_Z p) (f64_of_Z q).

(** C comparison operators; every one of them is false on a NaN. *)
Definition lt (x y : spec_float) : bool := SFltb x y.
Definition le (x y : spec_float) : bool := SFleb x y.
Definition gt (x y : spec_float) : bool := SFltb y x.
Definition ge (x y : spec_float) : bool := SFleb y x.
Definition eq (x y : spec_float) : bool := SFeqb x y.

Definition is_nan (x : spec_float) : bool :=
  match x with S754_nan => true | _ => false end.

(** Truncation towards zero of a finite value, as an integer. *)
Definition trunc (x : spec_float) : Z :=
  match x with
  | S754_finite s m e =>
      let a := if 0 <=? e then Zpos m * 2 ^ e else Zpos m / 2 ^ (- e) in
      cond_Zopp s a
  | _ => 0
  end.

Definition is_finite (x : spec_float) : bool :=
  match x with S754_finite _ _ _ | S754_zero _ => true | _ => false end.

End Flt.

(** ** C strings *)

Module CStr.

Definition NUL : ascii := Ascii.zero.

(** The C-string view of a character buffer ends at the first NUL. *)
Fixpoint c_str (s : list ascii) : list ascii :=
  match s with
  | [] => []
  | c :: s' => if Ascii.eqb c NUL then [] else c :: c_str s'
  end.

Definition is_delim (delims : list ascii) (c : ascii) : bool :=
  existsb (Ascii.eqb c) delims.

Fixpoint skip_delims (delims s : list ascii) : list ascii :=
  match s with
  | [] => []
  | c :: s' => if is_delim delims c then skip_delims delims s' else s
  end.

(** The token up to the next delimiter, and what [strtok] keeps for the
    next call: the text behind that delimiter, or [None] at the end. *)
Fixpoint scan_token (delims s : list ascii) : list ascii * option (list ascii) :=
  match s with
  | [] => ([], None)
  | c :: s' =>
      if is_delim delims c then ([], Some s')
      else let '(tok, rest) := scan_token delims s' in (c :: tok, rest)
  end.

(** [strtok]: leading delimiters are skipped, so a token is never empty
    and a run of delimiters counts as one.  The first call passes
    [Some buffer], later calls the saved position. *)
Definition strtok (saved : option (list ascii)) (delims : list ascii)
  : option (list ascii) * option (list ascii) :=
  match saved with
  | None => (None, None)
  | Some s =>
      match skip_delims delims s with
      | [] => (None, None)
      | s1 => let '(tok, rest) := scan_token delims s1 in (Some tok, rest)
      end
  end.

Definition isspace (c : ascii) : bool :=
  let n := Z.of_N (N_of_ascii c) in (n =? 32) || ((9 <=? n) && (n <=? 13)).

Definition digit_value (c : ascii) : option Z :=
  let n := Z.of_N (N_of_ascii c) in
  if (48 <=? n) && (n <=? 57) then Some (n - 48) else None.

Fixpoint skip_spaces (s : list ascii) : list ascii :=
  match s with
  | [] => []
  | c :: s' => if isspace c then skip_spaces s' else s
  end.

Fixpoint digits (acc : Z) (s : list ascii) : Z :=
  match s with
  | [] => acc
  | c :: s' =>
      match digit_value c with
      | Some d => digits (acc * 10 + d) s'
      | None => acc
      end
  end.

(** [atoi] is [(int) strtol (s, NULL, 10)]: white space, an optional
    sign, then the longest run of digits; anything else ends the number. *)
Definition atoi (s : list ascii) : Z :=
  match skip_spaces s with
  | "-"%char :: r => saturate_int (- digits 0 r)
  | "+"%char :: r => saturate_int (digits 0 r)
  | r => saturate_int (digits 0 r)
  end.

(** Index of the first occurrence of a character ([strchr]). *)
Fixpoint strchr (c : ascii) (s : list ascii) : option nat :=
  match s with
  | [] => None
  | x :: s' => if Ascii.eqb x c then Some O else option_map S (strchr c s')
  end.

Fixpoint starts_with (pat s : list ascii) : bool :=
  match pat, s with
  | [], _ => true
  | _ :: _, [] => false
  | p :: pat', c :: s' => Ascii.eqb p c && starts_with pat' s'
  end.

Fixpoint index_from (pat s : list ascii) (i : Z) : Z :=
  match s with
  | [] => if starts_with pat [] then i else -1
  | _ :: s' => if starts_with pat s then i else index_from pat s' (i + 1)
  end.

(** [String::indexOf]: position of the first occurrence, or -1. *)
Definition indexOf (s : list ascii) (pat : string) : Z :=
  index_from (list_ascii_of_string pat) (c_str s) 0.

Definition chars (s : string) : list ascii := list_ascii_of_string s.

End CStr.


(** ** What the firmware gets from outside *)

(** The two hardware clocks, sampled once per call of [millis()] or
    [micros()]: [millis_at k] is the value returned by the [k]-th clock
    read of a run.  The C library's [atof] and the [%d] and [%.1f]
    conversions of [snprintf] are taken as they come.  A conversion of a
    [double] that does not fit [uint32_t] has no defined result in C++;
    [cast_out_of_range] stands for whatever the target produces, and
    [past_end_byte i] for the byte an array read at index [i] past the end
    of the 12-entry table [daysInMonth] finds. *)
Class Platform := {
  millis_at : nat -> Z;
  micros_at : nat -> Z;
  atof : list ascii -> Flt.f64;
  fmt_d : Z -> list ascii;
  fmt_f1 : Flt.f64 -> list ascii;
  cast_out_of_range : spec_float -> Z;
  past_end_byte : Z -> Z
}.

(** The accessors of the TinyGPS++ decoder that [GPS::updateGPSData] reads. *)
Record TinyView := {
  tg_time_isValid : bool;
  tg_date_isValid : bool;
  tg_hour : Z;
  tg_minute : Z;
  tg_second : Z;
  tg_centisecond : Z;
  tg_day : Z;
  tg_month : Z;
  tg_year : Z;
  tg_location_isValid : bool;
  tg_hdop_isValid : bool;
  tg_hdop : Flt.f64
}.

(** TinyGPS++ is a dependency of the repository, not part of it.  Its
    state is represented by the characters fed to [encode] so far, and
    [tinygps_view] gives what the accessors return after them. *)
Class Decoder := {
  tinygps_view : list ascii -> TinyView
}.

(** ** A state monad for the methods of an object *)

Definition M (S A : Type) : Type := S -> A * S.
Definition ret {S A} (a : A) : M S A := fun s => (a, s).
Definition bind {S A B} (m : M S A) (k : A -> M S B) : M S B :=
  fun s => let '(a, s') := m s in k a s'.
Definition get {S} : M S S := fun s => (s, s).
Definition gets {S A} (f : S -> A) : M S A := fun s => (f s, s).
Definition modify {S} (f : S -> S) : M S unit := fun s => (tt, f s).
Definition exec {S A} (m : M S A) (s : S) : S := snd (m s).
Definition eval {S A} (m : M S A) (s : S) : A := fst (m s).

Declare Scope monad_scope.
Delimit Scope monad_scope with monad.
Notation "x <- m ;; k" := (bind m (fun x => k))
  (at level 100, m at next level, k at level 200, right associativity) : monad_scope.
Notation "m ;; k" := (bind m (fun _ => k))
  (at level 100, k at level 200, right associativity) : monad_scope.
(** [for (i = 0; i < n; i++) body(i)] *)
Fixpoint for_loop {S} (from : nat) (n : nat) (body : nat -> M S unit) : M S unit :=
  match n with
  | O => ret tt
  | Datatypes.S n' => bind (body from) (fun _ => for_loop (Datatypes.S from) n' body)
  end.

(** The index of the first element a predicate accepts: the
    search-and-[break] loops of the source. *)
Fixpoint first_index {A} (p : A -> bool) (l : list A) (i : nat) : option nat :=
  match l with
  | [] => None
  | x :: l' => if p x then Some i else first_index p l' (Datatypes.S i)
  end.

(** [keeps R m]: running [m] moves the state along the relation [R]. *)
Definition keeps {S A} (R : relation S) (m : M S A) : Prop :=
  forall s, R s (exec m s).

(** [same f]: the projection [f] of the state is left as it was. *)
Definition same {S X} (f : S -> X) : relation S := fun s s' => f s' = f s.

(* ---------------------------------------------------------------------- *)
(** ** GPS.h                                                                *)
(* ---------------------------------------------------------------------- *)

Module GPS.
Import CStr.
Local Open Scope monad_scope.

Definition MAX_SATELLITES : Z := 32.
Definition HISTORY_BUFFER_SIZE : Z := 60.
Definition MAX_EVENTS : Z := 50.
Definition GPS_BUFFER_MAX : Z := 120.

Definition GPS_DATA_TIMEOUT : Z := 10000.
Definition GPS_HEARTBEAT_TIMEOUT : Z := 10000.
Definition EVENT_COOLDOWN : Z := 60000.
Definition HISTORY_INTERVAL : Z := 10000.

Definition HEALTH_WEIGHT_SATELLITES : Z := 30.
Definition HEALTH_WEIGHT_HDOP : Z := 25.
Definition HEALTH_WEIGHT_SNR : Z := 20.
Definition HEALTH_WEIGHT_FIX_AGE : Z := 15.
Definition HEALTH_WEIGHT_FIX_MODE : Z := 10.

Inductive EventType :=
| EVENT_GPS_FIX_ACQUIRED
| EVENT_GPS_FIX_LOST
| EVENT_LOW_SATELLITE_COUNT
| EVENT_HIGH_HDOP
| EVENT_HIGH_PDOP
| EVENT_GPS_TIMEOUT
| EVENT_GPS_UNRESPONSIVE
| EVENT_NETWORK_CONNECTED
| EVENT_NETWORK_DISCONNECTED
| EVENT_CONFIG_SAVED
| EVENT_NTP_SERVING_STARTED
| EVENT_SYSTEM_BOOT.

(** The enumerator's value, used as an index into [lastEventTime]. *)
Definition event_index (t : EventType) : nat :=
  match t with
  | EVENT_GPS_FIX_ACQUIRED => 0
  | EVENT_GPS_FIX_LOST => 1
  | EVENT_LOW_SATELLITE_COUNT => 2
  | EVENT_HIGH_HDOP => 3
  | EVENT_HIGH_PDOP => 4
  | EVENT_GPS_TIMEOUT => 5
  | EVENT_GPS_UNRESPONSIVE => 6
  | EVENT_NETWORK_CONNECTED => 7
  | EVENT_NETWORK_DISCONNECTED => 8
  | EVENT_CONFIG_SAVED => 9
  | EVENT_NTP_SERVING_STARTED => 10
  | EVENT_SYSTEM_BOOT => 11
  end%nat.

(** The structures of the header.  Field names are the source's, behind a
    prefix per structure.  Left out: the module-type string of the
    configuration; latitude, longitude, altitude, speed and course and the
    three decoder counters of [GPSData], which are copied from the decoder
    and read by nothing in the two headers; the last-sentence label. *)

Record GPSConfig := {
  cfg_gpgsvEnabled : bool;
  cfg_gpgsaEnabled : bool;
  cfg_configurationComplete : bool;
  cfg_lastConfigCheck : Z;
  cfg_updateRate : Z
}.

Record GPSData := {
  gd_timeValid : bool;
  gd_hour : Z;
  gd_minute : Z;
  gd_second : Z;
  gd_centisecond : Z;
  gd_day : Z;
  gd_month : Z;
  gd_year : Z;
  gd_unixTime : Z;
  gd_lockAcquiredTime : Z;
  gd_lockAcquiredFraction : Z;
  gd_hadPreviousFix : bool;
  gd_valid : bool;
  gd_satellites : Z;
  gd_hdop : Flt.f64;
  gd_pdop : Flt.f64;
  gd_vdop : Flt.f64;
  gd_fixQuality : Z;
  gd_fixMode : Z;
  gd_lastUpdateMillis : Z;
  gd_updateAge : Z
}.

Record SatelliteInfo := {
  prn : Z;
  constellation : Z;
  elevation : Z;
  azimuth : Z;
  snr : Z;
  inUse : bool;
  tracked : bool
}.

Record SatelliteTracking := {
  trk_satellites : list SatelliteInfo;
  trk_count : Z;
  trk_lastUpdate : Z;
  trk_gpsCount : Z;
  trk_glonassCount : Z;
  trk_galileoCount : Z;
  trk_beidouCount : Z;
  trk_qzssCount : Z;
  trk_totalInUse : Z
}.

Record HistoricalDataPoint := {
  hp_timestamp : Z;
  hp_satelliteCount : Z;
  hp_hdop : Flt.f32;
  hp_pdop : Flt.f32;
  hp_fixQuality : Z;
  hp_fixMode : Z;
  hp_avgSNR : Flt.f32;
  hp_hasValidFix : bool
}.

Record HistoricalData := {
  hist_points : list HistoricalDataPoint;
  hist_head : Z;
  hist_count : Z;
  hist_lastRecordTime : Z
}.

Record SystemEvent := {
  ev_type : EventType;
  ev_timestamp : Z;
  ev_message : list ascii
}.

Record EventLog := {
  log_events : list SystemEvent;
  log_head : Z;
  log_count : Z
}.

Record SystemHealth := {
  hl_overallScore : Z;
  hl_gpsScore : Z;
  hl_satelliteScore : Z;
  hl_hdopScore : Z;
  hl_snrScore : Z;
  hl_fixAgeScore : Z;
  hl_fixModeScore : Z;
  hl_criticalAlert : bool;
  hl_warningAlert : bool;
  hl_alertMessage : list ascii;
  hl_lastCalculation : Z
}.

Record AlertThresholds := {
  th_minSatellites : Z;
  th_maxHDOP : Flt.f32;
  th_maxPDOP : Flt.f32;
  th_maxFixAge : Z;
  th_minUptime : Z;
  th_minAvgSNR : Flt.f32
}.

Record WatchdogState := {
  wd_lastCharReceived : Z;
  wd_lastEventTime : list Z;
  wd_unresponsive : bool
}.

(** The function-local [static] variables, which only pace the logging. *)
Record Statics := {
  lastLoggedConstellation : Z;
  lastFixLog : Z;
  lastLoggedSatConstellation : Z;
  lastSatLog : Z;
  lastDebugLog : Z;
  lastSummary : Z
}.

(** The object: the private members of [class GPS], the characters given
    to the decoder so far, and the number of clock reads made so far.
    The log callback is an output only and is not modelled. *)
Record GPSState := {
  tinyGPS : list ascii;
  config : GPSConfig;
  gpsData : GPSData;
  satTracking : SatelliteTracking;
  history : HistoricalData;
  eventLog : EventLog;
  health : SystemHealth;
  thresholds : AlertThresholds;
  watchdog : WatchdogState;
  gpsBuffer : list ascii;
  gpsLineReady : bool;
  statics : Statics;
  ticks : nat
}.

Section Methods.
Context `{Platform} `{Decoder}.

Definition millis : M GPSState Z :=
  fun s => (u32 (millis_at (ticks s)), s <| ticks ::= Datatypes.S |>).

Definition setData (f : GPSData -> GPSData) : M GPSState unit :=
  modify (fun s => s <| gpsData ::= f |>).
Definition setTracking (f : SatelliteTracking -> SatelliteTracking) : M GPSState unit :=
  modify (fun s => s <| satTracking ::= f |>).
Definition setSatellite (i : nat) (f : SatelliteInfo -> SatelliteInfo) : M GPSState unit :=
  setTracking (fun t => t <| trk_satellites ::= alter f i |>).

Definition setHealth (f : SystemHealth -> SystemHealth) : M GPSState unit :=
  modify (fun s => s <| health ::= f |>).
Definition setStatics (f : Statics -> Statics) : M GPSState unit :=
  modify (fun s => s <| statics ::= f |>).

(** *** Event log *)

Definition shouldFireEvent (type : EventType) : M GPSState bool :=
  now <- millis ;;
  last <- gets (fun s => nth (event_index type) (wd_lastEventTime (watchdog s)) 0) ;;
  if u32 (now - last) <? EVENT_COOLDOWN then ret false
  else
    now' <- millis ;;
    modify (fun s => s <| watchdog ::=
      (fun w => w <| wd_lastEventTime ::= <[event_index type := now']> |>) |>) ;;
    ret true.

Definition addEvent (type : EventType) (message : list ascii) : M GPSState unit :=
  now <- millis ;;
  modify (fun s => s <| eventLog ::= (fun l =>
    let event := {| ev_type := type; ev_timestamp := now;
                    ev_message := take 63 (c_str message) |} in
    {| log_events := <[Z.to_nat (log_head l) := event]> (log_events l);
       log_head := Z.rem (log_head l + 1) MAX_EVENTS;
       log_count := if log_count l <? MAX_EVENTS then log_count l + 1 else log_count l |}) |>).

(** [if (cond && shouldFireEvent(type)) addEvent(type, message)]: the
    cooldown is only consulted, and charged, when [cond] holds. *)
Definition fireIf (cond : bool) (type : EventType) (message : list ascii) : M GPSState unit :=
  if cond then
    fire <- shouldFireEvent type ;;
    if fire then addEvent type message else ret tt
  else ret tt.

(** *** Unix time from the calendar fields (in [updateGPSData]) *)

Definition isLeapYear (y : Z) : bool :=
  ((y mod 4 =? 0) && negb (y mod 100 =? 0)) || (y mod 400 =? 0).

Definition daysInMonth : list Z := [31; 28; 31; 30; 31; 30; 31; 31; 30; 31; 30; 31].

Definition daysInMonth_at (i : Z) : Z :=
  match daysInMonth !! Z.to_nat i with
  | Some d => d
  | None => past_end_byte i
  end.

(** [for (uint16_t y = 1970; y < year; y++) days += leapYear ? 366 : 365;] *)
Definition addYears (year : Z) (days : Z) : Z :=
  fold_left (fun days y => u32 (days + (if isLeapYear y then 366 else 365)))
            (seqZ 1970 (year - 1970)) days.

(** [for (uint8_t m = 1; m < month; m++) { days += daysInMonth[m - 1];
     if (m == 2 && leapYear(year)) days++; }] *)
Definition addMonths (year month : Z) (days : Z) : Z :=
  fold_left (fun days m =>
               let days := u32 (days + daysInMonth_at (m - 1)) in
               if (m =? 2) && isLeapYear year then u32 (days + 1) else days)
            (seqZ 1 (month - 1)) days.

Definition daysSinceEpoch (year month day : Z) : Z :=
  u32 (addMonths year month (addYears year 0) + (day - 1)).

Definition unixTimeOf (year month day hour minute second : Z) : Z :=
  u32 (daysSinceEpoch year month day * 86400 + hour * 3600 + minute * 60 + second).

(** *** Snapshot aggregation *)

Definition updateFixQuality : M GPSState unit :=
  setData (fun d =>
    let q :=
      if negb (gd_valid d) && negb (gd_timeValid d) then 0
      else if gd_valid d && Flt.le (gd_hdop d) (Flt.f64_of_Z 2)
              && (8 <=? gd_satellites d) && (gd_fixMode d =? 3) then 3
      else if gd_valid d && Flt.le (gd_hdop d) (Flt.f64_of_Z 5)
              && (6 <=? gd_satellites d) then 2
      else if gd_valid d && (4 <=? gd_satellites d) then 1
      else 0 in
    d <| gd_fixQuality := q |>).

Definition updateTime (v : TinyView) : M GPSState unit :=
  if tg_time_isValid v && tg_date_isValid v then
    wasInvalid <- gets (fun s => negb (gd_timeValid (gpsData s))) ;;
    setData (fun d => d <| gd_timeValid := true |>
                        <| gd_hour := u8 (tg_hour v) |>
                        <| gd_minute := u8 (tg_minute v) |>
                        <| gd_second := u8 (tg_second v) |>
                        <| gd_centisecond := u16 (tg_centisecond v) |>
                        <| gd_day := u8 (tg_day v) |>
                        <| gd_month := u8 (tg_month v) |>
                        <| gd_year := u16 (tg_year v) |>) ;;
    (if wasInvalid then
       now <- millis ;;
       setData (fun d => d <| gd_lockAcquiredTime := now |>
                           <| gd_lockAcquiredFraction := gd_centisecond d |>)
     else ret tt) ;;
    setData (fun d => d <| gd_hadPreviousFix := true |>) ;;
    setData (fun d => d <| gd_unixTime :=
      unixTimeOf (gd_year d) (gd_month d) (gd_day d)
                 (gd_hour d) (gd_minute d) (gd_second d) |>) ;;
    now <- millis ;;
    setData (fun d => d <| gd_lastUpdateMillis := now |>) ;;
    fireIf wasInvalid EVENT_GPS_FIX_ACQUIRED (chars "GPS time acquired")
  else
    setData (fun d => d <| gd_timeValid := false |> <| gd_hadPreviousFix := false |>).

Definition updatePosition (v : TinyView) : M GPSState unit :=
  if tg_location_isValid v then
    wasInvalid <- gets (fun s => negb (gd_valid (gpsData s))) ;;
    setData (fun d => d <| gd_valid := true |>) ;;
    now <- millis ;;
    setData (fun d => d <| gd_lastUpdateMillis := now |>) ;;
    fireIf wasInvalid EVENT_GPS_FIX_ACQUIRED (chars "GPS position fix acquired")
  else
    wasValid <- gets (fun s => gd_valid (gpsData s)) ;;
    fireIf wasValid EVENT_GPS_FIX_LOST (chars "GPS position fix lost") ;;
    setData (fun d => d <| gd_valid := false |>).

Definition updateGPSData : M GPSState unit :=
  v <- gets (fun s => tinygps_view (tinyGPS s)) ;;
  updateTime v ;;
  updatePosition v ;;
  (* the tracked in-use count, not the decoder's *)
  modify (fun s => s <| gpsData ::=
    (fun d => d <| gd_satellites := trk_totalInUse (satTracking s) |>) |>) ;;
  s <- get ;;
  fireIf (gd_satellites (gpsData s) <? th_minSatellites (thresholds s))
         EVENT_LOW_SATELLITE_COUNT
         (chars "Low satellite count: " ++ fmt_d (gd_satellites (gpsData s))) ;;
  (* the paced debug comparison with the decoder's count *)
  now <- millis ;;
  last <- gets (fun s => lastDebugLog (statics s)) ;;
  (if 30000 <? u32 (now - last) then
     now' <- millis ;; setStatics (fun x => x <| lastDebugLog := now' |>)
   else ret tt) ;;
  (if tg_hdop_isValid v then
     setData (fun d => d <| gd_hdop := tg_hdop v |>) ;;
     s <- get ;;
     fireIf (Flt.gt (gd_hdop (gpsData s)) (Flt.f64_of_f32 (th_maxHDOP (thresholds s))))
            EVENT_HIGH_HDOP (chars "High HDOP: " ++ fmt_f1 (gd_hdop (gpsData s)))
   else ret tt) ;;
  s <- get ;;
  fireIf (Flt.gt (gd_pdop (gpsData s)) (Flt.f64_of_f32 (th_maxPDOP (thresholds s))))
         EVENT_HIGH_PDOP (chars "High PDOP: " ++ fmt_f1 (gd_pdop (gpsData s))) ;;
  updateFixQuality ;;
  last <- gets (fun s => gd_lastUpdateMillis (gpsData s)) ;;
  if 0 <? last then
    now <- millis ;;
    setData (fun d => d <| gd_updateAge := u32 (now - last) |>)
  else ret tt.

Definition countInUse (t : SatelliteTracking) (sat : SatelliteInfo) : SatelliteTracking :=
  if negb (tracked sat) then t
  else if inUse sat then
    (match constellation sat with
     | 1 => t <| trk_gpsCount ::= Z.succ |>
     | 2 => t <| trk_glonassCount ::= Z.succ |>
     | 3 => t <| trk_galileoCount ::= Z.succ |>
     | 4 => t <| trk_beidouCount ::= Z.succ |>
     | 5 => t <| trk_qzssCount ::= Z.succ |>
     | _ => t
     end) <| trk_totalInUse ::= Z.succ |>
  else t.

Definition updateConstellationCounts : M GPSState unit :=
  setTracking (fun t =>
    fold_left countInUse (take (Z.to_nat (trk_count t)) (trk_satellites t))
      (t <| trk_gpsCount := 0 |> <| trk_glonassCount := 0 |>
         <| trk_galileoCount := 0 |> <| trk_beidouCount := 0 |>
         <| trk_qzssCount := 0 |> <| trk_totalInUse := 0 |>)) ;;
  now <- millis ;;
  last <- gets (fun s => lastSummary (statics s)) ;;
  if 10000 <? u32 (now - last) then
    now' <- millis ;; setStatics (fun x => x <| lastSummary := now' |>)
  else ret tt.

(** The mean of the nonzero SNR values of the tracked satellites (of one
    constellation unless [constellationId = 0]), summed and divided in
    single precision. *)
Definition snrSum (constellationId : Z) (t : SatelliteTracking) : Flt.f32 * Z :=
  fold_left (fun '(sum, n) sat =>
               if negb (tracked sat) then (sum, n)
               else if negb (constellationId =? 0)
                       && negb (constellation sat =? constellationId) then (sum, n)
               else if snr sat =? 0 then (sum, n)
               else (SFadd 24 128 sum (Flt.f32_of_Z (snr sat)), n + 1))
            (take (Z.to_nat (trk_count t)) (trk_satellites t))
            (Flt.f32_of_Z 0, 0).

Definition getAverageSNR (constellationId : Z) (s : GPSState) : Flt.f32 :=
  let '(sum, n) := snrSum constellationId (satTracking s) in
  if 0 <? n then SFdiv 24 128 sum (Flt.f32_of_Z n) else Flt.f32_of_Z 0.

Definition addHistoricalPoint : M GPSState unit :=
  now <- millis ;;
  last <- gets (fun s => hist_lastRecordTime (history s)) ;;
  if u32 (now - last) <? HISTORY_INTERVAL then ret tt
  else
    stamp <- millis ;;
    modify (fun s => s <| history ::= (fun h =>
      let d := gpsData s in
      let point := {| hp_timestamp := stamp;
                      hp_satelliteCount := u8 (gd_satellites d);
                      hp_hdop := Flt.f32_of_f64 (gd_hdop d);
                      hp_pdop := Flt.f32_of_f64 (gd_pdop d);
                      hp_fixQuality := gd_fixQuality d;
                      hp_fixMode := gd_fixMode d;
                      hp_avgSNR := getAverageSNR 0 s;
                      hp_hasValidFix := gd_valid d |} in
      h <| hist_points ::= <[Z.to_nat (hist_head h) := point]> |>
        <| hist_head := Z.rem (hist_head h + 1) HISTORY_BUFFER_SIZE |>
        <| hist_count := if hist_count h <? HISTORY_BUFFER_SIZE
                         then hist_count h + 1 else hist_count h |>) |>) ;;
    now' <- millis ;;
    modify (fun s => s <| history ::= (fun h => h <| hist_lastRecordTime := now' |>) |>).

Definition checkStaleness : M GPSState unit :=
  s <- get ;;
  if GPS_DATA_TIMEOUT <? gd_updateAge (gpsData s) then
    fireIf (gd_valid (gpsData s) || gd_timeValid (gpsData s))
           EVENT_GPS_TIMEOUT (chars "GPS data timeout") ;;
    setData (fun d => d <| gd_valid := false |> <| gd_timeValid := false |>)
  else ret tt.

Definition checkHeartbeat : M GPSState unit :=
  now <- millis ;;
  s <- get ;;
  if GPS_HEARTBEAT_TIMEOUT <? u32 (now - wd_lastCharReceived (watchdog s)) then
    if negb (wd_unresponsive (watchdog s)) then
      fire <- shouldFireEvent EVENT_GPS_UNRESPONSIVE ;;
      if fire then
        addEvent EVENT_GPS_UNRESPONSIVE (chars "GPS module not responding") ;;
        modify (fun s => s <| watchdog ::= (fun w => w <| wd_unresponsive := true |>) |>)
      else ret tt
    else ret tt
  else ret tt.

(** *** Health engine *)

Definition calculateSatelliteScore (s : GPSState) : Z :=
  let sats := gd_satellites (gpsData s) in
  if 12 <=? sats then 100
  else if 8 <=? sats then 80
  else if 6 <=? sats then 60
  else if 4 <=? sats then 40
  else if 1 <=? sats then 20
  else 0.

Definition calculateHDOPScore (s : GPSState) : Z :=
  let hdop := gd_hdop (gpsData s) in
  if Flt.eq hdop (Flt.f64_of_Z 0) then 0
  else if Flt.le hdop (Flt.f64_of_Z 1) then 100
  else if Flt.le hdop (Flt.f64_of_Z 2) then 80
  else if Flt.le hdop (Flt.f64_of_Z 5) then 60
  else if Flt.le hdop (Flt.f64_of_Z 10) then 40
  else if Flt.le hdop (Flt.f64_of_Z 20) then 20
  else 10.

Definition calculateSNRScore (s : GPSState) : Z :=
  let avgSNR := getAverageSNR 0 s in
  if Flt.eq avgSNR (Flt.f32_of_Z 0) then 0
  else if Flt.ge avgSNR (Flt.f32_of_Z 40) then 100
  else if Flt.ge avgSNR (Flt.f32_of_Z 35) then 80
  else if Flt.ge avgSNR (Flt.f32_of_Z 30) then 60
  else if Flt.ge avgSNR (Flt.f32_of_Z 25) then 40
  else if Flt.ge avgSNR (Flt.f32_of_Z 20) then 20
  else 10.

Definition calculateFixAgeScore (s : GPSState) : Z :=
  let age := gd_updateAge (gpsData s) in
  if age <? 1000 then 100
  else if age <? 2000 then 80
  else if age <? 5000 then 60
  else if age <? 10000 then 40
  else if age <? 30000 then 20
  else 0.

Definition calculateFixModeScore (s : GPSState) : Z :=
  match gd_fixMode (gpsData s) with
  | 3 => 100
  | 2 => 60
  | 1 => 0
  | _ => 0
  end.

Definition setAlert (critical warning : bool) (message : list ascii) : M GPSState unit :=
  setHealth (fun h => h <| hl_criticalAlert := critical |>
                        <| hl_warningAlert := warning |>
                        <| hl_alertMessage := take 127 (c_str message) |>).

Definition updateAlerts : M GPSState unit :=
  now <- millis ;;
  s <- get ;;
  if now <? th_minUptime (thresholds s) then ret tt
  else
    let d := gpsData s in
    let th := thresholds s in
    let avgSNR := getAverageSNR 0 s in
    if wd_unresponsive (watchdog s) then
      setAlert true false (chars "GPS module unresponsive")
    else if negb (gd_timeValid d) && negb (gd_valid d) then
      setAlert true false (chars "No GPS fix")
    else if GPS_DATA_TIMEOUT <? gd_updateAge d then
      setAlert true false (chars "GPS data timeout")
    else if gd_satellites d <? th_minSatellites th then
      setAlert false true (chars "Low satellite count: " ++ fmt_d (gd_satellites d))
    else if Flt.gt (gd_hdop d) (Flt.f64_of_f32 (th_maxHDOP th)) then
      setAlert false true (chars "High HDOP: " ++ fmt_f1 (gd_hdop d))
    else if Flt.gt (gd_pdop d) (Flt.f64_of_f32 (th_maxPDOP th)) then
      setAlert false true (chars "High PDOP: " ++ fmt_f1 (gd_pdop d))
    else if Flt.gt avgSNR (Flt.f32_of_Z 0) && Flt.lt avgSNR (th_minAvgSNR th) then
      setAlert false true
        (chars "Low signal strength: " ++ fmt_f1 (Flt.f64_of_f32 avgSNR) ++ chars " dB")
    else
      setAlert false false [].

Definition calculateHealth : M GPSState unit :=
  modify (fun s => s <| health ::= (fun h =>
     h <| hl_satelliteScore := u8 (calculateSatelliteScore s) |>
       <| hl_hdopScore := u8 (calculateHDOPScore s) |>
       <| hl_snrScore := u8 (calculateSNRScore s) |>
       <| hl_fixAgeScore := u8 (calculateFixAgeScore s) |>
       <| hl_fixModeScore := u8 (calculateFixModeScore s) |>) |>) ;;
  setHealth (fun h => h <| hl_gpsScore :=
     u8 (Z.quot (hl_satelliteScore h * HEALTH_WEIGHT_SATELLITES
                 + hl_hdopScore h * HEALTH_WEIGHT_HDOP
                 + hl_snrScore h * HEALTH_WEIGHT_SNR
                 + hl_fixAgeScore h * HEALTH_WEIGHT_FIX_AGE
                 + hl_fixModeScore h * HEALTH_WEIGHT_FIX_MODE) 100) |>) ;;
  setHealth (fun h => h <| hl_overallScore := hl_gpsScore h |>) ;;
  updateAlerts ;;
  now <- millis ;;
  setHealth (fun h => h <| hl_lastCalculation := now |>).

(** *** Satellite table *)

Definition clearSatelliteTracking : M GPSState unit :=
  setTracking (fun t =>
    t <| trk_count := 0 |> <| trk_gpsCount := 0 |> <| trk_glonassCount := 0 |>
      <| trk_galileoCount := 0 |> <| trk_beidouCount := 0 |>
      <| trk_qzssCount := 0 |> <| trk_totalInUse := 0 |>
      <| trk_satellites ::=
           (fun l => map (fun sat => sat <| tracked := false |>)
                         (take (Z.to_nat MAX_SATELLITES) l)
                     ++ drop (Z.to_nat MAX_SATELLITES) l) |>).

Definition cleanupStaleSatellites : M GPSState unit :=
  now <- millis ;;
  last <- gets (fun s => trk_lastUpdate (satTracking s)) ;;
  if 30000 <? u32 (now - last) then clearSatelliteTracking else ret tt.

Definition detectConstellationFromPRN (prn : Z) : Z :=
  if (1 <=? prn) && (prn <=? 32) then 1
  else if (65 <=? prn) && (prn <=? 96) then 2
  else if (193 <=? prn) && (prn <=? 202) then 5
  else if (301 <=? prn) && (prn <=? 336) then 3
  else if (401 <=? prn) && (prn <=? 437) then 4
  else 1.

(** *** Sentence parser *)

Definition visibleEntry (prnv elevationv azimuthv snrv : Z) (sat : SatelliteInfo)
  : SatelliteInfo :=
  sat <| prn := u8 prnv |> <| constellation := 0 |> <| elevation := u8 elevationv |>
      <| azimuth := u16 azimuthv |> <| snr := u8 snrv |>
      <| tracked := true |> <| inUse := false |>.

(** One satellite of a visibility sentence: the entry with that PRN among
    the first [count], else the first slot that is not tracked. *)
Definition storeVisible (prnv elevationv azimuthv snrv : Z) : M GPSState unit :=
  setTracking (fun t =>
    let known := take (Z.to_nat (trk_count t)) (trk_satellites t) in
    let '(slotIndex, t) :=
      match first_index (fun sat => prn sat =? prnv) known 0 with
      | Some i => (Some i, t)
      | None =>
          match first_index (fun sat => negb (tracked sat))
                            (take (Z.to_nat MAX_SATELLITES) (trk_satellites t)) 0 with
          | Some i =>
              (Some i, if trk_count t <=? Z.of_nat i
                       then t <| trk_count := Z.of_nat i + 1 |> else t)
          | None => (None, t)
          end
      end in
    match slotIndex with
    | Some i =>
        if Z.of_nat i <? MAX_SATELLITES
        then t <| trk_satellites ::= alter (visibleEntry prnv elevationv azimuthv snrv) i |>
        else t
    | None => t
    end).

Definition numberOrZero (token : list ascii) : Z :=
  if (0 <? length token)%nat then atoi token else 0.

(** The loop over the (up to four) satellites of a visibility sentence;
    every early exit is a [break]. *)
Fixpoint gsvSatellites (n : nat) (p : option (list ascii)) : M GPSState unit :=
  match n with
  | O => ret tt
  | Datatypes.S n' =>
      let '(token, p) := strtok p (chars ",") in
      match token with
      | None => ret tt
      | Some tok =>
          if (length tok =? 0)%nat then ret tt
          else
            let prnv := atoi tok in
            if prnv =? 0 then ret tt
            else
              let '(token, p) := strtok p (chars ",") in
              match token with
              | None => ret tt
              | Some tok =>
                  let elevationv := numberOrZero tok in
                  let '(token, p) := strtok p (chars ",") in
                  match token with
                  | None => ret tt
                  | Some tok =>
                      let azimuthv := numberOrZero tok in
                      let '(token, p) := strtok p (chars ",*") in
                      match token with
                      | None => ret tt
                      | Some tok =>
                          let snrv := numberOrZero tok in
                          storeVisible prnv elevationv azimuthv snrv ;;
                          gsvSatellites n' p
                      end
                  end
              end
      end
  end.

Definition parseGSVSentence (sentence : list ascii) (constellationType : Z)
  : M GPSState unit :=
  let buffer := take 127 (c_str sentence) in
  let '(token, p) := strtok (Some buffer) (chars ",") in
  match token with
  | None => ret tt
  | Some _ =>
      let '(token, p) := strtok p (chars ",") in      (* totalMessages *)
      match token with
      | None => ret tt
      | Some _ =>
          let '(token, p) := strtok p (chars ",") in  (* messageNumber *)
          match token with
          | None => ret tt
          | Some _ =>
              let '(token, p) := strtok p (chars ",") in
              match token with
              | None => ret tt
              | Some _ =>
                  gsvSatellites 4 p ;;
                  now <- millis ;;
                  setTracking (fun t => t <| trk_lastUpdate := now |>)
              end
          end
      end
  end.

Definition parseGPGSVSentence (sentence : list ascii) := parseGSVSentence sentence 1.
Definition parseGLGSVSentence (sentence : list ascii) := parseGSVSentence sentence 2.
Definition parseGAGSVSentence (sentence : list ascii) := parseGSVSentence sentence 3.
Definition parseGBGSVSentence (sentence : list ascii) := parseGSVSentence sentence 4.

Definition parseGNGSVSentence (sentence : list ascii) : M GPSState unit :=
  let buffer := take 127 (c_str sentence) in
  let '(token, p) := strtok (Some buffer) (chars ",") in
  match token with
  | None => ret tt
  | Some _ =>
      let '(_, p) := strtok p (chars ",") in
      let '(_, p) := strtok p (chars ",") in
      let '(_, p) := strtok p (chars ",") in
      let '(token, p) := strtok p (chars ",") in
      match token with
      | Some tok =>
          if (0 <? length tok)%nat
          then parseGSVSentence sentence (detectConstellationFromPRN (atoi tok))
          else ret tt
      | None => ret tt
      end
  end.

(** [if (changed || millis() - last > 30000) { ...; last = millis(); }] *)
Definition paceLog (changed : bool) (last : Statics -> Z)
    (update : Z -> Statics -> Statics) : M GPSState unit :=
  go <- (if changed then ret true
         else now <- millis ;;
              l <- gets (fun s => last (statics s)) ;;
              ret (30000 <? u32 (now - l))) ;;
  if go then now' <- millis ;; setStatics (update now') else ret tt.

(** One PRN of an in-use sentence: matched by PRN among the first [count]
    entries, appended when absent and the table has room. *)
Definition markInUse (prnv constellationType : Z) : M GPSState unit :=
  setTracking (fun t =>
    let known := take (Z.to_nat (trk_count t)) (trk_satellites t) in
    match first_index (fun sat => prn sat =? prnv) known 0 with
    | Some j =>
        t <| trk_satellites ::=
               alter (fun sat => sat <| inUse := true |>
                                     <| constellation := constellationType |>
                                     <| tracked := true |>) j |>
    | None =>
        if trk_count t <? MAX_SATELLITES then
          t <| trk_satellites ::=
                 alter (fun sat => sat <| prn := u8 prnv |>
                                       <| constellation := constellationType |>
                                       <| inUse := true |> <| tracked := true |>
                                       <| elevation := 0 |> <| azimuth := 0 |>
                                       <| snr := 0 |>) (Z.to_nat (trk_count t)) |>
            <| trk_count ::= Z.succ |>
        else t
    end).

(** The loop over the twelve PRN fields; a missing, empty or zero token is
    skipped with [continue].  Returns the tokenizer position. *)
Fixpoint gsaSatellites (n : nat) (p : option (list ascii)) (constellationType : Z)
  : M GPSState (option (list ascii)) :=
  match n with
  | O => ret p
  | Datatypes.S n' =>
      let '(token, p) := strtok p (chars ",*") in
      match token with
      | None => gsaSatellites n' p constellationType
      | Some tok =>
          if (length tok =? 0)%nat then gsaSatellites n' p constellationType
          else
            let prnv := atoi tok in
            if prnv =? 0 then gsaSatellites n' p constellationType
            else markInUse prnv constellationType ;;
                 gsaSatellites n' p constellationType
      end
  end.

Definition parseDOP (p : option (list ascii)) (store : Flt.f64 -> GPSData -> GPSData)
  : M GPSState (option (list ascii)) :=
  let '(token, p) := strtok p (chars ",*") in
  match token with
  | Some tok =>
      (if (0 <? length tok)%nat then setData (store (atof tok)) else ret tt) ;;
      ret p
  | None => ret p
  end.

Definition markSatellitesInUse (sentence : list ascii) (constellationType : Z)
  : M GPSState unit :=
  let buffer := take 127 (c_str sentence) in
  let '(token, p) := strtok (Some buffer) (chars ",") in
  match token with
  | None => ret tt
  | Some _ =>
      let '(_, p) := strtok p (chars ",") in          (* mode *)
      let '(token, p) := strtok p (chars ",") in      (* fix type *)
      match token with
      | Some tok =>
          setData (fun d => d <| gd_fixMode := u8 (atoi tok) |>) ;;
          changed <- gets (fun s =>
            negb (constellationType =? lastLoggedConstellation (statics s))) ;;
          paceLog changed lastFixLog
            (fun now x => x <| lastLoggedConstellation := constellationType |>
                            <| lastFixLog := now |>)
      | None => ret tt
      end ;;
      p <- gsaSatellites 12 p constellationType ;;
      p <- parseDOP p (fun v d => d <| gd_pdop := v |>) ;;
      p <- parseDOP p (fun v d => d <| gd_hdop := v |>) ;;
      _ <- parseDOP p (fun v d => d <| gd_vdop := v |>) ;;
      changed <- gets (fun s =>
        negb (constellationType =? lastLoggedSatConstellation (statics s))) ;;
      paceLog changed lastSatLog
        (fun now x => x <| lastLoggedSatConstellation := constellationType |>
                        <| lastSatLog := now |>)
  end.

Definition parseGPGSASentence (sentence : list ascii) := markSatellitesInUse sentence 1.

(** The position the backwards scan of [parseGNGSASentence] stops at:
    the nearest [','] at or before index [k], or 0. *)
Fixpoint lastCommaFrom (buffer : list ascii) (k : nat) : nat :=
  match k with
  | O => O
  | Datatypes.S k' =>
      match buffer !! k with
      | Some c => if Ascii.eqb c ","%char then k else lastCommaFrom buffer k'
      | None => lastCommaFrom buffer k'
      end
  end.

(** When the sentence starts with the asterisk the scan reads the byte in
    front of the buffer; whatever it finds there, the system id is then
    taken from text that starts with ['*'], is 0, and the function
    returns. *)
Definition parseGNGSASentence (sentence : list ascii) : M GPSState unit :=
  let buffer := take 127 (c_str sentence) in
  match strchr "*"%char buffer with
  | None => ret tt
  | Some O => ret tt
  | Some (Datatypes.S a) =>
      let lastComma := lastCommaFrom buffer a in
      match buffer !! lastComma with
      | Some ","%char =>
          let systemId := atoi (drop (Datatypes.S lastComma) buffer) in
          if (systemId <? 1) || (6 <? systemId) then ret tt
          else
            let constellationType := u8 systemId in
            (if constellationType =? 1 then
               setTracking (fun t =>
                 t <| trk_satellites ::= (fun l =>
                        map (fun sat => sat <| inUse := false |>)
                            (take (Z.to_nat (trk_count t)) l)
                        ++ drop (Z.to_nat (trk_count t)) l) |>)
             else ret tt) ;;
            markSatellitesInUse sentence constellationType
      | _ => ret tt
      end
  end.

Definition contains (sentence : list ascii) (pat : string) : bool :=
  0 <=? indexOf sentence pat.

Definition detectCapabilities (sentence : list ascii) : M GPSState unit :=
  complete <- gets (fun s => cfg_configurationComplete (config s)) ;;
  if complete then ret tt
  else
    (if contains sentence "GPGSV" || contains sentence "GNGSV"
     then modify (fun s => s <| config ::= (fun c => c <| cfg_gpgsvEnabled := true |>) |>)
     else ret tt) ;;
    (if contains sentence "GPGSA" || contains sentence "GNGSA"
     then modify (fun s => s <| config ::= (fun c => c <| cfg_gpgsaEnabled := true |>) |>)
     else ret tt) ;;
    now <- millis ;;
    last <- gets (fun s => cfg_lastConfigCheck (config s)) ;;
    if 10000 <? u32 (now - last)
    then modify (fun s => s <| config ::=
                   (fun c => c <| cfg_configurationComplete := true |>) |>)
    else ret tt.

Definition parseNMEASentence (sentence : list ascii) : M GPSState unit :=
  detectCapabilities sentence ;;
  if contains sentence "GPGSV" then parseGPGSVSentence (c_str sentence)
  else if contains sentence "GLGSV" then parseGLGSVSentence (c_str sentence)
  else if contains sentence "GAGSV" then parseGAGSVSentence (c_str sentence)
  else if contains sentence "GBGSV" then parseGBGSVSentence (c_str sentence)
  else if contains sentence "GNGSV" then parseGNGSVSentence (c_str sentence)
  else if contains sentence "GPGSA" then parseGPGSASentence (c_str sentence)
  else if contains sentence "GNGSA" then parseGNGSASentence (c_str sentence)
  else ret tt.

(** *** The processing cycle *)

(** One iteration of the read loop of [process], for the character [c]
    just read from the serial link. *)
Definition processChar (c : ascii) : M GPSState unit :=
  now <- millis ;;
  modify (fun s => s <| watchdog ::= (fun w => w <| wd_lastCharReceived := now |>) |>) ;;
  unresponsive <- gets (fun s => wd_unresponsive (watchdog s)) ;;
  (if unresponsive then
     modify (fun s => s <| watchdog ::= (fun w => w <| wd_unresponsive := false |>) |>) ;;
     addEvent EVENT_SYSTEM_BOOT (chars "GPS module recovered")
   else ret tt) ;;
  modify (fun s => s <| tinyGPS ::= (fun fed => fed ++ [c]) |>) ;;
  modify (fun s =>
    if Ascii.eqb c "$"%char then s <| gpsBuffer := chars "$" |>
    else if Ascii.eqb c "010"%char then s <| gpsLineReady := true |>
    else if Z.of_nat (length (gpsBuffer s)) <? GPS_BUFFER_MAX
    then s <| gpsBuffer ::= (fun b => b ++ [c]) |>
    else s <| gpsBuffer := [] |>) ;;
  ready <- gets gpsLineReady ;;
  if ready then
    modify (fun s => s <| gpsLineReady := false |>) ;;
    line <- gets gpsBuffer ;;
    parseNMEASentence line ;;
    modify (fun s => s <| gpsBuffer := [] |>)
  else ret tt.

Fixpoint readLoop (available : list ascii) : M GPSState unit :=
  match available with
  | [] => ret tt
  | c :: rest => processChar c ;; readLoop rest
  end.

(** [GPS::process], given the characters the serial link delivers while
    the read loop runs. *)
Definition process (available : list ascii) : M GPSState unit :=
  readLoop available ;;
  updateGPSData ;;
  updateConstellationCounts ;;
  addHistoricalPoint ;;
  checkStaleness ;;
  checkHeartbeat ;;
  calculateHealth.

(** *** Queries *)

(** The loop shared by [getSatellitesByConstellation] and
    [getSatellitesInUse]: the entries copied to the caller's buffer, in
    the order they are copied; the value returned is their number.  Once
    [found] has reached [maxCount] the loop is left, which is the same as
    walking on without copying. *)
Definition copyMatching (keep : SatelliteInfo -> bool) (maxCount : Z) (s : GPSState)
  : list SatelliteInfo :=
  let t := satTracking s in
  fold_left (fun found sat =>
               if (Z.of_nat (length found) <? maxCount) && keep sat
               then found ++ [sat] else found)
            (take (Z.to_nat (trk_count t)) (trk_satellites t)) [].

Definition getSatellitesByConstellation (constellationId maxCount : Z) (s : GPSState)
  : list SatelliteInfo :=
  copyMatching (fun sat => tracked sat && (constellation sat =? constellationId)) maxCount s.

Definition getSatellitesInUse (maxCount : Z) (s : GPSState) : list SatelliteInfo :=
  copyMatching (fun sat => tracked sat && inUse sat) maxCount s.

(** One iteration of the loop of [getBestSatellite] on the pair of [best]
    and [bestSNR]; [None] is the null pointer. *)
Definition strongerOf (constellationId : Z) (acc : option SatelliteInfo * Z)
    (sat : SatelliteInfo) : option SatelliteInfo * Z :=
  let '(best, bestSNR) := acc in
  if negb (tracked sat) then (best, bestSNR)
  else if negb (constellationId =? 0) && negb (constellation sat =? constellationId)
  then (best, bestSNR)
  else if bestSNR <? snr sat then (Some sat, snr sat)
  else (best, bestSNR).

Definition getBestSatellite (constellationId : Z) (s : GPSState) : option SatelliteInfo :=
  let t := satTracking s in
  fst (fold_left (strongerOf constellationId)
                 (take (Z.to_nat (trk_count t)) (trk_satellites t))
                 (None, 0)).

End Methods.

(** *** The object after [begin] *)

Definition zeroSatellite : SatelliteInfo :=
  {| prn := 0; constellation := 0; elevation := 0; azimuth := 0; snr := 0;
     inUse := false; tracked := false |}.

Definition zeroData : GPSData :=
  {| gd_timeValid := false; gd_hour := 0; gd_minute := 0; gd_second := 0;
     gd_centisecond := 0; gd_day := 0; gd_month := 0; gd_year := 0;
     gd_unixTime := 0; gd_lockAcquiredTime := 0; gd_lockAcquiredFraction := 0;
     gd_hadPreviousFix := false; gd_valid := false; gd_satellites := 0;
     gd_hdop := S754_zero false; gd_pdop := S754_zero false;
     gd_vdop := S754_zero false; gd_fixQuality := 0; gd_fixMode := 0;
     gd_lastUpdateMillis := 0; gd_updateAge := 0 |}.

Definition defaultThresholds : AlertThresholds :=
  {| th_minSatellites := 4;
     th_maxHDOP := Flt.f32_of_Z 5;
     th_maxPDOP := Flt.f32_of_Z 8;
     th_maxFixAge := 60000;
     th_minUptime := 300000;
     th_minAvgSNR := Flt.f32_of_Z 25 |}.

Definition zeroPoint : HistoricalDataPoint :=
  {| hp_timestamp := 0; hp_satelliteCount := 0; hp_hdop := S754_zero false;
     hp_pdop := S754_zero false; hp_fixQuality := 0; hp_fixMode := 0;
     hp_avgSNR := S754_zero false; hp_hasValidFix := false |}.

Definition zeroEvent : SystemEvent :=
  {| ev_type := EVENT_GPS_FIX_ACQUIRED; ev_timestamp := 0; ev_message := [] |}.

(** The members as [begin] leaves them when it runs on zero-initialised
    storage with both of its clock reads giving [now], up to its last
    statement: the boot event that [addEvent] then puts in the log is not
    in this state, and the clock-read count starts at 0. *)
Definition afterBegin (now : Z) (updateRate : Z) : GPSState :=
  {| tinyGPS := [];
     config := {| cfg_gpgsvEnabled := false; cfg_gpgsaEnabled := false;
                  cfg_configurationComplete := false;
                  cfg_lastConfigCheck := now; cfg_updateRate := updateRate |};
     gpsData := zeroData;
     satTracking := {| trk_satellites := replicate 32 zeroSatellite;
                       trk_count := 0; trk_lastUpdate := 0;
                       trk_gpsCount := 0; trk_glonassCount := 0;
                       trk_galileoCount := 0; trk_beidouCount := 0;
                       trk_qzssCount := 0; trk_totalInUse := 0 |};
     history := {| hist_points := replicate 60 zeroPoint; hist_head := 0;
                   hist_count := 0; hist_lastRecordTime := 0 |};
     eventLog := {| log_events := replicate 50 zeroEvent; log_head := 0;
                    log_count := 0 |};
     health := {| hl_overallScore := 0; hl_gpsScore := 0; hl_satelliteScore := 0;
                  hl_hdopScore := 0; hl_snrScore := 0; hl_fixAgeScore := 0;
                  hl_fixModeScore := 0; hl_criticalAlert := false;
                  hl_warningAlert := false; hl_alertMessage := [];
                  hl_lastCalculation := 0 |};
     thresholds := defaultThresholds;
     watchdog := {| wd_lastCharReceived := now; wd_lastEventTime := replicate 12 0;
                    wd_unresponsive := false |};
     gpsBuffer := [];
     gpsLineReady := false;
     statics := {| lastLoggedConstellation := 0; lastFixLog := 0;
                   lastLoggedSatConstellation := 0; lastSatLog := 0;
                   lastDebugLog := 0; lastSummary := 0 |};
     ticks := 0 |}.

(** [memset(&gpsData, 0, sizeof(GPSData))] gives [zeroData]. *)
Definition reset : M GPSState unit :=
  clearSatelliteTracking ;;
  modify (fun s => s <| history ::= (fun h =>
    h <| hist_head := 0 |> <| hist_count := 0 |> <| hist_lastRecordTime := 0 |>) |>) ;;
  modify (fun s => s <| eventLog ::= (fun l =>
    l <| log_head := 0 |> <| log_count := 0 |>) |>) ;;
  modify (fun s => s <| gpsData := zeroData |>) ;;
  modify (fun s => s <| gpsBuffer := [] |>) ;;
  modify (fun s => s <| gpsLineReady := false |>).

End GPS.

(* ---------------------------------------------------------------------- *)
(** ** web_api.h: the readers of the two ring buffers                       *)
(* ---------------------------------------------------------------------- *)

(** Of [generateEventsJSON] and [generateHistoryJSON] the index
    arithmetic is modelled: the entries their loops visit, in the order
    they visit them.  The JSON document they fill is not. *)
Module WebApi.

(** [startIdx = (head - 1 + MAX_EVENTS) % MAX_EVENTS], then for
    [i < count]: [idx = (startIdx - i + MAX_EVENTS) % MAX_EVENTS]. *)
Definition eventsVisited (l : GPS.EventLog) : list GPS.SystemEvent :=
  let startIdx := Z.rem (GPS.log_head l - 1 + GPS.MAX_EVENTS) GPS.MAX_EVENTS in
  map (fun i =>
         let idx := Z.rem (startIdx - Z.of_nat i + GPS.MAX_EVENTS) GPS.MAX_EVENTS in
         nth (Z.to_nat idx) (GPS.log_events l) GPS.zeroEvent)
      (seq 0 (Z.to_nat (GPS.log_count l))).

(** [startIdx = (head - count + SIZE) % SIZE], then for [i < count]:
    [idx = (startIdx + i) % SIZE]. *)
Definition pointsVisited (h : GPS.HistoricalData) : list GPS.HistoricalDataPoint :=
  let startIdx :=
    Z.rem (GPS.hist_head h - GPS.hist_count h + GPS.HISTORY_BUFFER_SIZE)
          GPS.HISTORY_BUFFER_SIZE in
  map (fun i =>
         let idx := Z.rem (startIdx + Z.of_nat i) GPS.HISTORY_BUFFER_SIZE in
         nth (Z.to_nat idx) (GPS.hist_points h) GPS.zeroPoint)
      (seq 0 (Z.to_nat (GPS.hist_count h))).

End WebApi.

(* ---------------------------------------------------------------------- *)
(** ** NTP.h                                                                *)
(* ---------------------------------------------------------------------- *)

Module NTP.
Local Open Scope monad_scope.

Definition NTP_PACKET_SIZE : Z := 48.
Definition NTP_PORT : Z := 123.
Definition NTP_EPOCH_OFFSET : Z := 2208988800.

Definition NTP_DEFAULT_CLIENT_INTERVAL : Z := 1000.
Definition NTP_DEFAULT_GLOBAL_RATE : Z := 1000.
Definition NTP_DEFAULT_MAX_CLIENTS : Z := 50.
Definition NTP_AGGRESSIVE_THRESHOLD : Z := 10.

Definition NTP_MIN_SATELLITES : Z := 4.
Definition NTP_MAX_HDOP : Flt.f32 := Flt.f32_of_Z 10.
Definition NTP_MAX_FIX_AGE : Z := 5000.

(** Bytes are integers in [0, 255]; an [IPAddress] is its 32-bit value. *)
Definition byte := Z.

Record NTPConfig := {
  enabled : bool;
  port : Z;
  rateLimitEnabled : bool;
  perClientMinInterval : Z;
  globalMaxRequestsPerSec : Z;
  maxClients : Z;
  broadcastEnabled : bool;
  broadcastInterval : Z;
  autoBroadcast : bool;
  stratum : Z;
  referenceID : list byte;
  minSatellites : Z;
  maxHDOP : Flt.f32;
  maxFixAge : Z
}.

Record NTPClient := {
  ip : Z;
  lastRequest : Z;
  requestCount : Z;
  lastPollInterval : Z;
  averageInterval : Z;
  aggressiveCount : Z;
  aggressive : bool;
  rateLimited : bool;
  version : Z
}.

Record NTPMetrics := {
  totalRequests : Z;
  validResponses : Z;
  invalidRequests : Z;
  rateLimitedRequests : Z;
  kodSent : Z;
  noGPSDropped : Z;
  poorQualityDropped : Z;
  broadcastsSent : Z;
  averageResponseTime : Flt.f32;
  peakResponseTime : Z;
  lastRequestTime : Z;
  uniqueClients : Z;
  clientVersions : list Z;
  requestsByStratum : list Z;
  currentlyServing : bool;
  servingStartTime : Z;
  lastServingStopTime : Z
}.

Record GlobalRateLimit := {
  requestsThisSecond : Z;
  lastSecondReset : Z;
  droppedThisSecond : Z
}.

Record NTPTimestamp := {
  seconds : Z;
  fraction : Z
}.

(** A datagram waiting on the socket, and a datagram written to it.  Every
    datagram sent is recorded with the method that sent it. *)
Record Datagram := {
  remoteIP : Z;
  remotePort : Z;
  payload : list byte
}.

Inductive Sender := NormalReply | KissOfDeath | Broadcast.

Record Sent := {
  sender : Sender;
  destIP : Z;
  destPort : Z;
  bytes : list byte
}.

(** The two byte arrays a [byte*] of this class can point into: the
    member [packetBuffer], and the local array [request] of
    [sendBroadcast]. *)
Inductive BytePtr := PacketBuffer | BroadcastRequest.

(** The object: the private members of [class NTP], the two [static]
    locals of [microsToNTP], the local array of [sendBroadcast], what has
    been written to the socket, and the number of clock reads so far. *)
Record NTPState := {
  config : NTPConfig;
  metrics : NTPMetrics;
  globalRateLimit : GlobalRateLimit;
  clients : list NTPClient;
  clientCount : Z;
  packetBuffer : list byte;
  lastBroadcast : Z;
  lastCleanup : Z;
  lastGPSUpdateMicros : Z;
  gpsUpdateMillis : Z;
  request : list byte;
  sent : list Sent;
  ticks : nat
}.

Definition zeroClient : NTPClient :=
  {| ip := 0; lastRequest := 0; requestCount := 0; lastPollInterval := 0;
     averageInterval := 0; aggressiveCount := 0; aggressive := false;
     rateLimited := false; version := 0 |}.

Section Methods.
Context `{Platform}.

(** The snapshot [gpsRef->getData()] refers to during the call. *)
Variable gpsData : GPS.GPSData.

Definition millis : M NTPState Z :=
  fun s => (u32 (millis_at (ticks s)), s <| ticks ::= Datatypes.S |>).
Definition micros : M NTPState Z :=
  fun s => (u32 (micros_at (ticks s)), s <| ticks ::= Datatypes.S |>).

Definition setMetrics (f : NTPMetrics -> NTPMetrics) : M NTPState unit :=
  modify (fun s => s <| metrics ::= f |>).
Definition setClient (i : nat) (f : NTPClient -> NTPClient) : M NTPState unit :=
  modify (fun s => s <| clients ::= alter f i |>).
Definition client (i : nat) (s : NTPState) : NTPClient :=
  nth i (clients s) zeroClient.

(** *** Byte buffers *)

Definition buffer (p : BytePtr) (s : NTPState) : list byte :=
  match p with
  | PacketBuffer => packetBuffer s
  | BroadcastRequest => request s
  end.

Definition load (p : BytePtr) (i : nat) (s : NTPState) : byte :=
  nth i (buffer p s) 0.

Definition store (p : BytePtr) (i : nat) (v : byte) : M NTPState unit :=
  modify (fun s =>
    match p with
    | PacketBuffer => s <| packetBuffer ::= <[i := v]> |>
    | BroadcastRequest => s <| request ::= <[i := v]> |>
    end).

(** [memset (p, 0, NTP_PACKET_SIZE)] *)
Definition memset0 (p : BytePtr) : M NTPState unit :=
  for_loop 0 48 (fun i => store p i 0).

(** [memcpy (&dst[to], &src[from], n)] between the buffers, byte by byte. *)
Definition memcpy (dst : BytePtr) (to : nat) (src : BytePtr) (from : nat) (n : nat)
  : M NTPState unit :=
  for_loop 0 n (fun i =>
    b <- gets (load src (from + i)) ;;
    store dst (to + i) b).

(** [memcpy (&dst[to], data, length data)] from a constant. *)
Definition memcpy_const (dst : BytePtr) (to : nat) (data : list byte) : M NTPState unit :=
  for_loop 0 (length data) (fun i => store dst (to + i) (nth i data 0)).

Definition extractPollInterval (packet : BytePtr) (s : NTPState) : Z :=
  let poll := load packet 2 s in
  let poll := if poll <? 4 then 4 else poll in
  let poll := if 10 <? poll then 10 else poll in
  poll.

Definition extractVersion (packet : BytePtr) (s : NTPState) : Z :=
  Z.land (Z.shiftr (load packet 0 s) 3) 7.

Definition extractStratum (packet : BytePtr) (s : NTPState) : Z :=
  load packet 1 s.

(** *** Validation and quality gate *)

(** The scan for a nonzero originate timestamp at the end of the source
    function sets a local that nothing reads. *)
Definition validateNTPRequest (packet : BytePtr) (s : NTPState) : bool :=
  let version := extractVersion packet s in
  if (version <? 3) || (4 <? version) then false
  else
    let mode := Z.land (load packet 0 s) 7 in
    if negb (mode =? 3) then false
    else
      let stratum := load packet 1 s in
      if 16 <? stratum then false
      else true.

Definition isGPSQualitySufficient (s : NTPState) : bool :=
  if negb (GPS.gd_timeValid gpsData) then false
  else if GPS.gd_satellites gpsData <? minSatellites (config s) then false
  else if Flt.gt (GPS.gd_hdop gpsData) (Flt.f64_of_f32 (maxHDOP (config s))) then false
  else if maxFixAge (config s) <? GPS.gd_updateAge gpsData then false
  else true.

(** *** Rate limiting *)

Definition checkGlobalRateLimit : M NTPState bool :=
  now <- millis ;;
  modify (fun s =>
    if 1000 <? u32 (now - lastSecondReset (globalRateLimit s)) then
      s <| globalRateLimit :=
             {| requestsThisSecond := 0; droppedThisSecond := 0;
                lastSecondReset := now |} |>
    else s) ;;
  s <- get ;;
  if globalMaxRequestsPerSec (config s) <=? requestsThisSecond (globalRateLimit s)
  then ret false
  else
    modify (fun s => s <| globalRateLimit ::=
      (fun g => g <| requestsThisSecond ::= (fun n => u32 (n + 1)) |>) |>) ;;
    ret true.

Definition resetClient (clientIP : Z) (c : NTPClient) : NTPClient :=
  c <| ip := clientIP |> <| requestCount := 0 |> <| lastRequest := 0 |>
    <| aggressiveCount := 0 |> <| aggressive := false |>
    <| rateLimited := false |> <| averageInterval := 0 |>.

(** The scan for the least [lastRequest] over slots [1 .. maxClients - 1],
    starting from slot 0; the first least entry wins. *)
Definition oldestClient (s : NTPState) : nat :=
  snd (fold_left
         (fun '(oldestTime, oldestIndex) i =>
            if lastRequest (client i s) <? oldestTime
            then (lastRequest (client i s), i)
            else (oldestTime, oldestIndex))
         (seq 1 (Z.to_nat (maxClients (config s)) - 1))
         (lastRequest (client 0 s), 0%nat)).

(** The returned pointer is the index of the entry in [clients]. *)
Definition findOrCreateClient (clientIP : Z) : M NTPState nat :=
  s <- get ;;
  match first_index (fun c => ip c =? clientIP)
                    (take (Z.to_nat (clientCount s)) (clients s)) 0 with
  | Some i => ret i
  | None =>
      if clientCount s <? maxClients (config s) then
        let i := Z.to_nat (clientCount s) in
        modify (fun s => s <| clientCount ::= Z.succ |>) ;;
        setClient i (resetClient clientIP) ;;
        modify (fun s => s <| metrics ::=
          (fun m => m <| uniqueClients := u32 (clientCount s) |>) |>) ;;
        ret i
      else
        let i := oldestClient s in
        setClient i (resetClient clientIP) ;;
        ret i
  end.

Definition updateClientStats (i : nat) (pollInterval : Z) : M NTPState unit :=
  setClient i (fun c => c <| requestCount ::= (fun n => u32 (n + 1)) |>
                          <| lastPollInterval := pollInterval |>) ;;
  now <- millis ;;
  setClient i (fun c =>
    if averageInterval c =? 0 then
      c <| averageInterval := u32 (now - lastRequest c) |>
    else
      let thisInterval := u32 (now - lastRequest c) in
      c <| averageInterval := Z.quot (u32 (u32 (averageInterval c * 3) + thisInterval)) 4 |>).

Definition checkClientRateLimit (clientIP : Z) (pollInterval : Z) : M NTPState bool :=
  i <- findOrCreateClient clientIP ;;
  now <- millis ;;
  s <- get ;;
  let timeSinceLastRequest := u32 (now - lastRequest (client i s)) in
  if timeSinceLastRequest <? perClientMinInterval (config s) then
    setClient i (fun c => c <| rateLimited := true |>
                            <| aggressiveCount ::= (fun n => u16 (n + 1)) |>) ;;
    setClient i (fun c => if NTP_AGGRESSIVE_THRESHOLD <? aggressiveCount c
                          then c <| aggressive := true |> else c) ;;
    ret false
  else
    updateClientStats i pollInterval ;;
    setClient i (fun c => c <| lastRequest := now |> <| rateLimited := false |>) ;;
    ret true.

(** *** Timestamps *)

(** [(uint32_t) x] for a [double] [x]. *)
Definition to_uint32 (x : Flt.f64) : Z :=
  if Flt.is_finite x && (0 <=? Flt.trunc x) && (Flt.trunc x <? 2 ^ 32)
  then Flt.trunc x else cast_out_of_range x.

Definition calculateRootDelayDispersion : Flt.f32 * Flt.f32 :=
  let pdop := GPS.gd_pdop gpsData in
  let rootDelay :=
    if Flt.lt pdop (Flt.f64_of_Z 2) then Flt.f32_of_f64 (Flt.f64_lit 1 1000)
    else if Flt.lt pdop (Flt.f64_of_Z 5) then Flt.f32_of_f64 (Flt.f64_lit 5 1000)
    else Flt.f32_of_f64 (Flt.f64_lit 10 1000) in
  let rootDispersion :=
    Flt.f32_of_f64
      (SFadd 53 1024
         (SFdiv 53 1024 (Flt.f64_of_Z (GPS.gd_updateAge gpsData)) (Flt.f64_of_Z 1000))
         (SFmul 53 1024 (GPS.gd_hdop gpsData) (Flt.f64_lit 1 1000))) in
  let rootDispersion :=
    if Flt.gt (Flt.f64_of_f32 rootDispersion) (Flt.f64_of_Z 1)
    then Flt.f32_of_Z 1 else rootDispersion in
  (rootDelay, rootDispersion).

(** [(uint32_t)(seconds * 65536.0)] *)
Definition fixed16_16 (secs : Flt.f32) : Z :=
  to_uint32 (SFmul 53 1024 (Flt.f64_of_f32 secs) (Flt.f64_of_Z 65536)).

Definition gpsTimeToNTP : NTPTimestamp :=
  {| seconds := u32 (GPS.gd_unixTime gpsData + NTP_EPOCH_OFFSET);
     fraction := u32 (Z.quot (u64 (GPS.gd_centisecond gpsData * 4294967296)) 100) |}.

Definition microsToNTP (currentMicros : Z) : M NTPState NTPTimestamp :=
  let ts := gpsTimeToNTP in
  modify (fun s =>
    if negb (GPS.gd_lastUpdateMillis gpsData =? gpsUpdateMillis s)
    then s <| lastGPSUpdateMicros := currentMicros |>
           <| gpsUpdateMillis := GPS.gd_lastUpdateMillis gpsData |>
    else s) ;;
  s <- get ;;
  let elapsedMicros := u32 (currentMicros - lastGPSUpdateMicros s) in
  let microsFraction := Z.quot (u64 (elapsedMicros * 4294967296)) 1000000 in
  let newFraction := u64 (fraction ts + microsFraction) in
  if 4294967295 <? newFraction then
    ret {| seconds := u32 (seconds ts + Z.shiftr newFraction 32);
           fraction := Z.land newFraction 4294967295 |}
  else
    ret {| seconds := seconds ts; fraction := u32 newFraction |}.

Definition byteOf (word : Z) (shift : Z) : byte := Z.land (Z.shiftr word shift) 255.

Definition writeWord (packet : BytePtr) (offset : nat) (word : Z) : M NTPState unit :=
  store packet (offset + 0) (byteOf word 24) ;;
  store packet (offset + 1) (byteOf word 16) ;;
  store packet (offset + 2) (byteOf word 8) ;;
  store packet (offset + 3) (Z.land word 255).

Definition writeNTPTimestamp (packet : BytePtr) (offset : nat) (ts : NTPTimestamp)
  : M NTPState unit :=
  writeWord packet offset (seconds ts) ;;
  writeWord packet (offset + 4) (fraction ts).

(** *** Replies *)

(** [packet] and [request] are pointers: every read of [request] sees the
    writes made through [packet] before it when the two point into the
    same array. *)
Definition buildNTPPacket (packet request : BytePtr)
    (receiveTimeMicros transmitTimeMicros : Z) : M NTPState unit :=
  memset0 packet ;;
  let leapIndicator :=
    if negb (GPS.gd_timeValid gpsData) || (2000 <? GPS.gd_updateAge gpsData)
    then 3 else 0 in
  version <- gets (extractVersion request) ;;
  let mode := 4 in
  store packet 0 (u8 (Z.lor (Z.lor (Z.shiftl leapIndicator 6) (Z.shiftl version 3)) mode)) ;;
  stratum <- gets (fun s => stratum (config s)) ;;
  store packet 1 stratum ;;
  poll <- gets (extractPollInterval request) ;;
  store packet 2 poll ;;
  store packet 3 236 ;;
  let '(rootDelaySeconds, rootDispersionSeconds) := calculateRootDelayDispersion in
  writeWord packet 4 (fixed16_16 rootDelaySeconds) ;;
  writeWord packet 8 (fixed16_16 rootDispersionSeconds) ;;
  referenceID <- gets (fun s => referenceID (config s)) ;;
  memcpy_const packet 12 (take 4 referenceID) ;;
  let lockFraction := GPS.gd_lockAcquiredFraction gpsData in
  let refSeconds := u32 (GPS.gd_unixTime gpsData + NTP_EPOCH_OFFSET) in
  let refFraction := u32 (Z.quot (u64 (lockFraction * 4294967296)) 100) in
  writeNTPTimestamp packet 16 {| seconds := refSeconds; fraction := refFraction |} ;;
  memcpy packet 24 request 40 8 ;;
  receiveTime <- microsToNTP receiveTimeMicros ;;
  writeNTPTimestamp packet 32 receiveTime ;;
  transmitTime <- microsToNTP transmitTimeMicros ;;
  writeNTPTimestamp packet 40 transmitTime.

(** [beginPacket], [write (packetBuffer, NTP_PACKET_SIZE)], [endPacket] *)
Definition udpSend (via : Sender) (toIP toPort : Z) : M NTPState unit :=
  modify (fun s => s <| sent ::= (fun out =>
    out ++ [{| sender := via; destIP := toIP; destPort := toPort;
               bytes := take 48 (packetBuffer s) |}]) |>).

Definition sendNTPResponse (clientIP clientPort : Z) (request : BytePtr)
    (receiveTimeMicros : Z) : M NTPState unit :=
  transmitTimeMicros <- micros ;;
  buildNTPPacket PacketBuffer request receiveTimeMicros transmitTimeMicros ;;
  udpSend NormalReply clientIP clientPort.

Definition sendKissOfDeath (clientIP clientPort : Z) (kissCode : string)
  : M NTPState unit :=
  memset0 PacketBuffer ;;
  store PacketBuffer 0 220 ;;
  store PacketBuffer 1 0 ;;
  memcpy_const PacketBuffer 12
    (take 4 (map (fun c => Z.of_N (N_of_ascii c)) (list_ascii_of_string kissCode))) ;;
  udpSend KissOfDeath clientIP clientPort ;;
  setMetrics (fun m => m <| kodSent ::= (fun n => u32 (n + 1)) |>).

Definition sendBroadcast : M NTPState unit :=
  s <- get ;;
  if negb (broadcastEnabled (config s)) then ret tt
  else if negb (isGPSQualitySufficient s) then ret tt
  else
    modify (fun s => s <| request := replicate 48 0 |>) ;;
    store BroadcastRequest 0 35 ;;
    store BroadcastRequest 2 6 ;;
    now <- micros ;;
    buildNTPPacket PacketBuffer BroadcastRequest now now ;;
    b0 <- gets (load PacketBuffer 0) ;;
    store PacketBuffer 0 (Z.lor (Z.land b0 248) 5) ;;
    udpSend Broadcast 4294967295 NTP_PORT ;;
    now <- millis ;;
    modify (fun s => s <| lastBroadcast := now |>) ;;
    setMetrics (fun m => m <| broadcastsSent ::= (fun n => u32 (n + 1)) |>).

(** *** Request handling *)

Definition recordResponseTime (responseTime : Z) : M NTPState unit :=
  setMetrics (fun m =>
    if peakResponseTime m <? responseTime
    then m <| peakResponseTime := responseTime |> else m) ;;
  setMetrics (fun m =>
    if Flt.eq (averageResponseTime m) (Flt.f32_of_Z 0) then
      m <| averageResponseTime := Flt.f32_of_Z responseTime |>
    else
      m <| averageResponseTime :=
             Flt.f32_of_f64
               (SFadd 53 1024
                  (SFmul 53 1024 (Flt.f64_of_f32 (averageResponseTime m)) (Flt.f64_lit 9 10))
                  (SFmul 53 1024 (Flt.f64_of_Z responseTime) (Flt.f64_lit 1 10))) |>).

Definition countVersionAndStratum : M NTPState unit :=
  version <- gets (extractVersion PacketBuffer) ;;
  (if (1 <=? version) && (version <=? 4) then
     setMetrics (fun m => m <| clientVersions ::=
       alter (fun n => u8 (n + 1)) (Z.to_nat (version - 1)) |>)
   else
     setMetrics (fun m => m <| clientVersions ::= alter (fun n => u8 (n + 1)) 4%nat |>)) ;;
  clientStratum <- gets (extractStratum PacketBuffer) ;;
  if clientStratum <=? 16 then
    setMetrics (fun m => m <| requestsByStratum ::=
      alter (fun n => u32 (n + 1)) (Z.to_nat clientStratum) |>)
  else ret tt.

(** [incoming] is the datagram [udpRef->parsePacket()] finds, if any. *)
Definition handleNTPRequests (incoming : option Datagram) : M NTPState unit :=
  let packetSize :=
    match incoming with
    | Some dg => Z.of_nat (length (payload dg))
    | None => 0
    end in
  match incoming with
  | Some dg =>
      if negb (packetSize =? NTP_PACKET_SIZE) then
        if 0 <? packetSize
        then setMetrics (fun m => m <| invalidRequests ::= (fun n => u32 (n + 1)) |>)
        else ret tt
      else
        receiveTimeMicros <- micros ;;
        let clientIP := remoteIP dg in
        let clientPort := remotePort dg in
        modify (fun s => s <| packetBuffer := payload dg |>) ;;
        globalOk <- checkGlobalRateLimit ;;
        if negb globalOk then
          setMetrics (fun m => m <| rateLimitedRequests ::= (fun n => u32 (n + 1)) |>) ;;
          modify (fun s => s <| globalRateLimit ::=
            (fun g => g <| droppedThisSecond ::= (fun n => u32 (n + 1)) |>) |>)
        else
          valid <- gets (validateNTPRequest PacketBuffer) ;;
          if negb valid then
            setMetrics (fun m => m <| invalidRequests ::= (fun n => u32 (n + 1)) |>)
          else
            quality <- gets isGPSQualitySufficient ;;
            if negb quality then
              setMetrics (fun m => m <| noGPSDropped ::= (fun n => u32 (n + 1)) |>) ;;
              sendKissOfDeath clientIP clientPort "DENY"
            else
              pollInterval <- gets (extractPollInterval PacketBuffer) ;;
              limiting <- gets (fun s => rateLimitEnabled (config s)) ;;
              clientOk <- (if limiting then checkClientRateLimit clientIP pollInterval
                           else ret true) ;;
              if negb clientOk then
                setMetrics (fun m => m <| rateLimitedRequests ::= (fun n => u32 (n + 1)) |>) ;;
                sendKissOfDeath clientIP clientPort "RATE"
              else
                requestStart <- millis ;;
                _ <- micros ;;
                sendNTPResponse clientIP clientPort PacketBuffer receiveTimeMicros ;;
                setMetrics (fun m => m <| totalRequests ::= (fun n => u32 (n + 1)) |>
                                       <| validResponses ::= (fun n => u32 (n + 1)) |>) ;;
                now <- millis ;;
                setMetrics (fun m => m <| lastRequestTime := now |>) ;;
                now' <- millis ;;
                recordResponseTime (u32 (now' - requestStart)) ;;
                countVersionAndStratum
  | None => ret tt
  end.

(** *** Housekeeping *)

Definition NTP_CLIENT_TIMEOUT : Z := 3600000.

(** [for (j = i; j < clientCount - 1; j++) clients[j] = clients[j + 1];] *)
Definition shiftDown (i : nat) : M NTPState unit :=
  n <- gets clientCount ;;
  for_loop i (Z.to_nat (n - 1) - i) (fun j =>
    modify (fun s => s <| clients ::= <[j := client (j + 1) s]> |>)).

(** The loop of [cleanupStaleClients] from index [i] on.  An iteration
    either removes the entry at [i], after which the [i--] of the body
    and the [i++] of the loop leave [i] where it is, or steps to the next
    entry: [clientCount - i] goes down by one each time, so the loop
    test fails after at most [clientCount] iterations, which is the
    [fuel] it is run with. *)
Fixpoint staleScan (fuel : nat) (now : Z) (i : nat) (removed : Z) : M NTPState Z :=
  match fuel with
  | O => ret removed
  | Datatypes.S fuel' =>
      s <- get ;;
      if Z.of_nat i <? clientCount s then
        if NTP_CLIENT_TIMEOUT <? u32 (now - lastRequest (client i s)) then
          shiftDown i ;;
          modify (fun s => s <| clientCount ::= Z.pred |>) ;;
          staleScan fuel' now i (removed + 1)
        else staleScan fuel' now (Datatypes.S i) removed
      else ret removed
  end.

Definition cleanupStaleClients : M NTPState unit :=
  now <- millis ;;
  n <- gets clientCount ;;
  removed <- staleScan (Z.to_nat n) now 0 0 ;;
  if 0 <? removed then
    modify (fun s => s <| metrics ::=
      (fun m => m <| uniqueClients := u32 (clientCount s) |>) |>)
  else ret tt.

Definition updateMetricsState : M NTPState unit :=
  wasServing <- gets (fun s => currentlyServing (metrics s)) ;;
  serving <- gets isGPSQualitySufficient ;;
  setMetrics (fun m => m <| currentlyServing := serving |>) ;;
  if serving && negb wasServing then
    now <- millis ;; setMetrics (fun m => m <| servingStartTime := now |>)
  else if negb serving && wasServing then
    now <- millis ;; setMetrics (fun m => m <| lastServingStopTime := now |>)
  else ret tt.

(** [NTP::process], given the datagram [parsePacket] would find. *)
Definition process (incoming : option Datagram) : M NTPState unit :=
  isEnabled <- gets (fun s => enabled (config s)) ;;
  if negb isEnabled then ret tt
  else
    handleNTPRequests incoming ;;
    cfg <- gets config ;;
    (if broadcastEnabled cfg && autoBroadcast cfg then
       now <- millis ;;
       last <- gets lastBroadcast ;;
       if broadcastInterval cfg * 1000 <? u32 (now - last) then sendBroadcast else ret tt
     else ret tt) ;;
    now <- millis ;;
    last <- gets lastCleanup ;;
    (if 300000 <? u32 (now - last) then
       cleanupStaleClients ;;
       now' <- millis ;;
       modify (fun s => s <| lastCleanup := now' |>)
     else ret tt) ;;
    updateMetricsState.

Definition isServing (s : NTPState) : bool := currentlyServing (metrics s).

Definition getStatusString (s : NTPState) : list ascii :=
  if negb (enabled (config s)) then CStr.chars "Disabled"
  else if negb (isGPSQualitySufficient s) then
    if negb (GPS.gd_timeValid gpsData) then CStr.chars "No GPS Time"
    else if GPS.gd_satellites gpsData <? minSatellites (config s) then
      CStr.chars "Low Satellites (" ++ fmt_d (GPS.gd_satellites gpsData) ++ CStr.chars ")"
    else if Flt.gt (GPS.gd_hdop gpsData) (Flt.f64_of_f32 (maxHDOP (config s))) then
      CStr.chars "High HDOP (" ++ fmt_f1 (GPS.gd_hdop gpsData) ++ CStr.chars ")"
    else if maxFixAge (config s) <? GPS.gd_updateAge gpsData then
      CStr.chars "Stale GPS Fix"
    else CStr.chars "GPS Quality Insufficient"
  else CStr.chars "Serving - Stratum " ++ fmt_d (stratum (config s)).

End Methods.

(** *** The object after [begin] *)

Definition getDefaultConfig : NTPConfig :=
  {| enabled := true;
     port := NTP_PORT;
     rateLimitEnabled := true;
     perClientMinInterval := NTP_DEFAULT_CLIENT_INTERVAL;
     globalMaxRequestsPerSec := NTP_DEFAULT_GLOBAL_RATE;
     maxClients := NTP_DEFAULT_MAX_CLIENTS;
     broadcastEnabled := false;
     broadcastInterval := 64;
     autoBroadcast := true;
     stratum := 1;
     referenceID := [71; 80; 83; 0; 0];
     minSatellites := NTP_MIN_SATELLITES;
     maxHDOP := NTP_MAX_HDOP;
     maxFixAge := NTP_MAX_FIX_AGE |}.

Definition zeroMetrics : NTPMetrics :=
  {| totalRequests := 0; validResponses := 0; invalidRequests := 0;
     rateLimitedRequests := 0; kodSent := 0; noGPSDropped := 0;
     poorQualityDropped := 0; broadcastsSent := 0;
     averageResponseTime := S754_zero false; peakResponseTime := 0;
     lastRequestTime := 0; uniqueClients := 0;
     clientVersions := replicate 5 0; requestsByStratum := replicate 17 0;
     currentlyServing := false; servingStartTime := 0; lastServingStopTime := 0 |}.

(** The members as [begin (gps, udp, cfg)] leaves them when it runs at
    time [now]. *)
Definition afterBegin (cfg : NTPConfig) (now : Z) : NTPState :=
  {| config := cfg;
     metrics := zeroMetrics;
     globalRateLimit := {| requestsThisSecond := 0; lastSecondReset := now;
                           droppedThisSecond := 0 |};
     clients := replicate (Z.to_nat (maxClients cfg)) zeroClient;
     clientCount := 0;
     packetBuffer := replicate 48 0;
     lastBroadcast := 0;
     lastCleanup := 0;
     lastGPSUpdateMicros := 0;
     gpsUpdateMillis := 0;
     request := replicate 48 0;
     sent := [];
     ticks := 0 |}.

End NTP.

(* ---------------------------------------------------------------------- *)
(** ** Vocabulary of the statements                                         *)
(* ---------------------------------------------------------------------- *)

(** *** The calendar, said without loops *)

Module Calendar.

(** The Gregorian rule: every fourth year is a leap year, except the
    centuries, except again every fourth century. *)
Definition gregorianLeap (y : Z) : Prop :=
  (y mod 4 = 0 /\ y mod 100 <> 0) \/ y mod 400 = 0.

(** Leap years among the years 1 .. [y - 1]. *)
Definition leapYearsBefore (y : Z) : Z :=
  (y - 1) / 4 - (y - 1) / 100 + (y - 1) / 400.

(** Days from 1970-01-01 to January 1st of year [y]. *)
Definition daysBeforeYear (y : Z) : Z :=
  365 * (y - 1970) + (leapYearsBefore y - leapYearsBefore 1970).

Definition monthLength (leap : bool) (m : Z) : Z :=
  match m with
  | 2 => if leap then 29 else 28
  | 4 | 6 | 9 | 11 => 30
  | _ => 31
  end.

(** Days from January 1st to the first of month [m] of the same year. *)
Definition daysBeforeMonth (leap : bool) (m : Z) : Z :=
  match m with
  | 1 => 0 | 2 => 31 | 3 => 59 | 4 => 90 | 5 => 120 | 6 => 151
  | 7 => 181 | 8 => 212 | 9 => 243 | 10 => 273 | 11 => 304 | _ => 334
  end + (if leap && (2 <? m) then 1 else 0).

(** Days from 1970-01-01 to the date [y]-[m]-[d]. *)
Definition gregorianDays (y m d : Z) : Z :=
  daysBeforeYear y + daysBeforeMonth (GPS.isLeapYear y) m + (d - 1).

Definition validDate (y m d : Z) : Prop :=
  1970 <= y /\ 1 <= m <= 12 /\ 1 <= d <= monthLength (GPS.isLeapYear y) m.

Definition validTime (h mi s : Z) : Prop :=
  0 <= h <= 23 /\ 0 <= mi <= 59 /\ 0 <= s <= 59.

End Calendar.

(** *** The satellite table *)

(** Every slot that holds a tracked entry still holds a tracked entry. *)
Definition trackedGrows (t t' : GPS.SatelliteTracking) : Prop :=
  forall i sat,
    GPS.trk_satellites t !! i = Some sat -> GPS.tracked sat = true ->
    exists sat', GPS.trk_satellites t' !! i = Some sat' /\ GPS.tracked sat' = true.

(** The two properties of a processing cycle that are followed through
    the methods: the unix time is not touched, no tracked flag is cleared. *)
Definition unixTimeKept : relation GPS.GPSState :=
  same (fun s => GPS.gd_unixTime (GPS.gpsData s)).

Definition trackedKept : relation GPS.GPSState :=
  fun s s' => trackedGrows (GPS.satTracking s) (GPS.satTracking s').

(** The five component scores and the overall score. *)
Definition scores (s : GPS.GPSState) : Z * Z * Z * Z * Z * Z :=
  let h := GPS.health s in
  (GPS.hl_satelliteScore h, GPS.hl_hdopScore h, GPS.hl_snrScore h,
   GPS.hl_fixAgeScore h, GPS.hl_fixModeScore h, GPS.hl_overallScore h).

(** The identifiers of the entries in use, in table order. *)
Definition inUsePRNs (t : GPS.SatelliteTracking) : list Z :=
  map GPS.prn
      (List.filter GPS.inUse (take (Z.to_nat (GPS.trk_count t)) (GPS.trk_satellites t))).

(** An entry [updateConstellationCounts] counts as in use; the in-use
    total of the table and the satellite count of the snapshot. *)
Definition counted (sat : GPS.SatelliteInfo) : bool := GPS.tracked sat && GPS.inUse sat.
Definition inUseTotal (s : GPS.GPSState) : Z := GPS.trk_totalInUse (GPS.satTracking s).
Definition satellitesShown (s : GPS.GPSState) : Z := GPS.gd_satellites (GPS.gpsData s).

(** Every stored identifier is a byte, the member being a [uint8_t]; the
    number of tracked entries. *)
Definition prnsFit (t : GPS.SatelliteTracking) : Prop :=
  Forall (fun sat => 0 <= GPS.prn sat < 256) (GPS.trk_satellites t).
Definition trackedEntries (t : GPS.SatelliteTracking) : nat :=
  length (List.filter GPS.tracked (GPS.trk_satellites t)).

(** An entry [getBestSatellite] and [getAverageSNR] consider for a
    constellation ([0]: any). *)
Definition candidate (constellationId : Z) (sat : GPS.SatelliteInfo) : bool :=
  GPS.tracked sat
  && ((constellationId =? 0) || (GPS.constellation sat =? constellationId)).

(** *** The bounds of the arrays *)

(** The arrays have their declared sizes and every index and count kept
    beside them is within bounds. *)
Definition tableOk (t : GPS.SatelliteTracking) : Prop :=
  length (GPS.trk_satellites t) = 32%nat /\ 0 <= GPS.trk_count t <= GPS.MAX_SATELLITES.
Definition logOk (l : GPS.EventLog) : Prop :=
  length (GPS.log_events l) = 50%nat
  /\ 0 <= GPS.log_head l < GPS.MAX_EVENTS /\ 0 <= GPS.log_count l <= GPS.MAX_EVENTS.
Definition historyOk (h : GPS.HistoricalData) : Prop :=
  length (GPS.hist_points h) = 60%nat
  /\ 0 <= GPS.hist_head h < GPS.HISTORY_BUFFER_SIZE
  /\ 0 <= GPS.hist_count h <= GPS.HISTORY_BUFFER_SIZE.
Definition wellFormed (s : GPS.GPSState) : Prop :=
  tableOk (GPS.satTracking s) /\ logOk (GPS.eventLog s) /\ historyOk (GPS.history s)
  /\ length (GPS.wd_lastEventTime (GPS.watchdog s)) = 12%nat
  /\ Z.of_nat (length (GPS.gpsBuffer s)) <= GPS.GPS_BUFFER_MAX.
Definition staysWellFormed : relation GPS.GPSState :=
  fun s s' => wellFormed s -> wellFormed s'.

(** *** The cooldown of the events *)

(** The clock does not go back; the cooldown stamps; a clock read that
    falls within the cooldown of every stamp; a step that logs nothing
    and leaves the stamps and the unresponsive flag alone. *)
Definition ticksGrow : relation GPS.GPSState :=
  fun s s' => (GPS.ticks s <= GPS.ticks s')%nat.
Definition stamps (s : GPS.GPSState) : list Z := GPS.wd_lastEventTime (GPS.watchdog s).
Definition coolingDown `{Platform} (since : list Z) (k : nat) : Prop :=
  forall i, u32 (u32 (millis_at k) - nth i since 0) < GPS.EVENT_COOLDOWN.
Definition eventsKept (s s' : GPS.GPSState) : Prop :=
  stamps s' = stamps s
  /\ GPS.wd_unresponsive (GPS.watchdog s') = GPS.wd_unresponsive (GPS.watchdog s)
  /\ GPS.eventLog s' = GPS.eventLog s.
Definition quietUntil `{Platform} (K : nat) : relation GPS.GPSState :=
  fun s s' =>
    (GPS.ticks s <= GPS.ticks s')%nat
    /\ ((GPS.ticks s' <= K)%nat ->
        GPS.wd_unresponsive (GPS.watchdog s) = false ->
        (forall k, (GPS.ticks s <= k < K)%nat -> coolingDown (stamps s) k) ->
        eventsKept s s').

(** *** The age of the fix *)

(** A step that does not turn the clock back and leaves the time of the
    last update and the age alone; and one that leaves the time of the
    last update alone and, if that time is not zero, has set the age to
    the distance from it to a clock read of its own. *)
Definition ageKept : relation GPS.GPSState :=
  fun s s' =>
    (GPS.ticks s <= GPS.ticks s')%nat
    /\ GPS.gd_lastUpdateMillis (GPS.gpsData s') = GPS.gd_lastUpdateMillis (GPS.gpsData s)
    /\ GPS.gd_updateAge (GPS.gpsData s') = GPS.gd_updateAge (GPS.gpsData s).

Definition ageRenewed `{Platform} : relation GPS.GPSState :=
  fun s s' =>
    (GPS.ticks s <= GPS.ticks s')%nat
    /\ GPS.gd_lastUpdateMillis (GPS.gpsData s') = GPS.gd_lastUpdateMillis (GPS.gpsData s)
    /\ (0 < GPS.gd_lastUpdateMillis (GPS.gpsData s) ->
        exists k, (GPS.ticks s <= k < GPS.ticks s')%nat
                  /\ GPS.gd_updateAge (GPS.gpsData s')
                     = u32 (u32 (millis_at k) - GPS.gd_lastUpdateMillis (GPS.gpsData s))).

(** *** Sentences on the serial link *)

(** The object after [chars] have been read, none of which starts or
    ends a sentence, while the module is responsive and the buffer has
    room; and the object as the parser finds it when the line
    ['$'], [body], line feed has been read. *)
Definition absorbed `{Platform} (chars : list ascii) (s : GPS.GPSState) : GPS.GPSState :=
  s <| GPS.ticks := (GPS.ticks s + length chars)%nat |>
    <| GPS.watchdog ::= (fun w =>
         w <| GPS.wd_lastCharReceived :=
                match chars with
                | [] => GPS.wd_lastCharReceived w
                | _ => u32 (millis_at (GPS.ticks s + length chars - 1))
                end |>) |>
    <| GPS.tinyGPS ::= (fun fed => fed ++ chars) |>
    <| GPS.gpsBuffer ::= (fun b => b ++ chars) |>.

Definition lineRead `{Platform} (body : list ascii) (s : GPS.GPSState) : GPS.GPSState :=
  s <| GPS.ticks := (GPS.ticks s + length body + 2)%nat |>
    <| GPS.watchdog ::= (fun w =>
         w <| GPS.wd_lastCharReceived :=
                u32 (millis_at (GPS.ticks s + length body + 1)) |>) |>
    <| GPS.tinyGPS ::= (fun fed => fed ++ "$"%char :: body ++ ["010"%char]) |>
    <| GPS.gpsBuffer := "$"%char :: body |>.

(** *** Sentences, field by field *)

Module Nmea.
Import CStr.

(** The fields of a sentence: the text between one separator ([,] or
    [*]) and the next, the empty fields included. *)
Fixpoint fields (cur s : list ascii) : list (list ascii) :=
  match s with
  | [] => [rev cur]
  | c :: s' =>
      if is_delim [","%char; "*"%char] c then rev cur :: fields [] s'
      else fields (c :: cur) s'
  end.

(** The tokens the first [n] calls of [strtok] hand out. *)
Fixpoint tokens (n : nat) (saved : option (list ascii)) (delims : list ascii)
  : list (list ascii) :=
  match n with
  | O => []
  | Datatypes.S n' =>
      match strtok saved delims with
      | (Some tok, rest) => tok :: tokens n' rest delims
      | (None, _) => []
      end
  end.

(** The identifiers an in-use sentence lists: those of its twelve
    satellite fields, the fourth to the fifteenth, that are not empty. *)
Definition listedInUse (sentence : list ascii) : list Z :=
  map atoi (List.filter (fun f => negb (Nat.eqb (length f) 0))
                        (take 12 (drop 3 (fields [] sentence)))).

End Nmea.

(** *** Requests and replies *)

Module Wire.
Import NTP.

Definition codes (text : string) : list byte :=
  map (fun c => Z.of_N (N_of_ascii c)) (list_ascii_of_string text).

(** The fields of a 48-byte frame the claims speak of. *)
Definition referenceId (frame : list byte) : list byte := take 4 (drop 12 frame).
Definition originateTimestamp (frame : list byte) : list byte := take 8 (drop 24 frame).
Definition transmitTimestamp (frame : list byte) : list byte := take 8 (drop 40 frame).
Definition pollByte (frame : list byte) : byte := nth 2 frame 0.

(** The poll byte clamped into 4 .. 10. *)
Definition clampPoll (poll : Z) : Z := Z.min 10 (Z.max 4 poll).

(** The object once the datagram has been taken from the socket:
    [micros()] has been read and the payload is in [packetBuffer]. *)
Definition received (dg : Datagram) (s : NTPState) : NTPState :=
  s <| ticks ::= Datatypes.S |> <| packetBuffer := payload dg |>.

(** The 48 bytes of a kiss-of-death frame. *)
Definition kissFrame (code : string) : list byte :=
  [220; 0; 0; 0; 0; 0; 0; 0; 0; 0; 0; 0] ++ take 4 (codes code ++ replicate 4 0)
  ++ replicate 32 0.

(** What [sendKissOfDeath] adds to a state: the frame in the buffer and
    on the socket, and one more kiss of death counted. *)
Definition denied (code : string) (dg : Datagram) (s : NTPState) : NTPState :=
  s <| packetBuffer := kissFrame code |>
    <| sent ::= (fun out => out ++ [{| sender := KissOfDeath; destIP := remoteIP dg;
                                       destPort := remotePort dg;
                                       bytes := kissFrame code |}]) |>
    <| metrics ::= (fun m => m <| kodSent ::= (fun n => u32 (n + 1)) |>) |>.

(** What a denied request does to the entry of its source. *)
Definition penalised (c : NTPClient) : NTPClient :=
  let n := u16 (aggressiveCount c + 1) in
  c <| rateLimited := true |> <| aggressiveCount := n |>
    <| aggressive := aggressive c || (NTP_AGGRESSIVE_THRESHOLD <? n) |>.


(** Format validation as the state machine words it: version 3 or 4,
    client mode, stratum at most 16. *)
Definition validFrame (frame : list byte) : bool :=
  let flags := nth 0 frame 0 in
  let version := Z.land (Z.shiftr flags 3) 7 in
  ((version =? 3) || (version =? 4))
  && (Z.land flags 7 =? 3)
  && (nth 1 frame 0 <=? 16).

Definition countInvalid (s : NTPState) : NTPState :=
  s <| metrics ::= (fun m => m <| invalidRequests ::= (fun n => u32 (n + 1)) |>) |>.

Definition countRateLimited (s : NTPState) : NTPState :=
  s <| metrics ::= (fun m => m <| rateLimitedRequests ::= (fun n => u32 (n + 1)) |>) |>.

Definition countDropped (s : NTPState) : NTPState :=
  s <| globalRateLimit ::= (fun g => g <| droppedThisSecond ::= (fun n => u32 (n + 1)) |>) |>.

Definition countNoGPS (s : NTPState) : NTPState :=
  s <| metrics ::= (fun m => m <| noGPSDropped ::= (fun n => u32 (n + 1)) |>) |>.

(** The quality gate, condition by condition. *)
Definition qualityGate (gps : GPS.GPSData) (cfg : NTPConfig) : Prop :=
  GPS.gd_timeValid gps = true
  /\ minSatellites cfg <= GPS.gd_satellites gps
  /\ Flt.gt (GPS.gd_hdop gps) (Flt.f64_of_f32 (maxHDOP cfg)) = false
  /\ GPS.gd_updateAge gps <= maxFixAge cfg.

(** The window of the global limiter as a read of the clock at [now]
    leaves it. *)
Definition windowAt (now : Z) (g : GlobalRateLimit) : GlobalRateLimit :=
  if 1000 <? u32 (now - lastSecondReset g)
  then {| requestsThisSecond := 0; droppedThisSecond := 0; lastSecondReset := now |}
  else g.

(** What the frame lemmas of the reply path follow: the buffer the
    frames are built in and the frames that left the socket. *)
Definition wire (s : NTPState) : list byte * list Sent := (packetBuffer s, sent s).

(** The index of the entry of a source that is already in the table. *)
Definition trackedAt (clientIP : Z) (s : NTPState) : option nat :=
  first_index (fun c => ip c =? clientIP)
              (take (Z.to_nat (clientCount s)) (clients s)) 0.

(** The table of sources as [begin] allocates it: at least one entry,
    [clientCount] within it, and [maxClients] entries in the array. *)
Definition tableFits (s : NTPState) : Prop :=
  0 < maxClients (config s)
  /\ 0 <= clientCount s <= maxClients (config s)
  /\ (Z.to_nat (maxClients (config s)) <= length (clients s))%nat.

(** The four counters a datagram can end up in, and [totalRequests]. *)
Definition tally (s : NTPState) : Z * Z * Z * Z * Z :=
  let m := metrics s in
  (invalidRequests m, rateLimitedRequests m, noGPSDropped m, validResponses m,
   totalRequests m).

(** The number a run of bytes denotes, most significant byte first. *)
Definition bigEndian (octets : list byte) : Z :=
  fold_left (fun acc b => acc * 256 + b) octets 0.

(** A timestamp as a 64-bit fixed-point number of seconds. *)
Definition fixed64 (ts : NTPTimestamp) : Z := seconds ts * 2 ^ 32 + fraction ts.

(** The four bytes of a word and the eight bytes of a timestamp as
    [writeNTPTimestamp] lays them out. *)
Definition wordBytes (w : Z) : list byte :=
  [byteOf w 24; byteOf w 16; byteOf w 8; Z.land w 255].

Definition stampBytes (ts : NTPTimestamp) : list byte :=
  wordBytes (seconds ts) ++ wordBytes (fraction ts).

(** The entries of the client table in use, and an entry that
    [cleanupStaleClients] leaves in place at time [now]. *)
Definition liveClients (s : NTPState) : list NTPClient :=
  take (Z.to_nat (clientCount s)) (clients s).
Definition recent (now : Z) (c : NTPClient) : Prop :=
  u32 (now - lastRequest c) <= NTP_CLIENT_TIMEOUT.
#[global] Instance recent_dec now c : Decision (recent now c) :=
  Z_le_dec _ _.

End Wire.

(* ---------------------------------------------------------------------- *)
(** ** Scenarios                                                            *)
(* ---------------------------------------------------------------------- *)

(** A concrete platform and decoder to run the model on. *)
Module Scenario.
Import CStr.

Fixpoint fractionDigits (num den : Z) (s : list ascii) : Z * Z :=
  match s with
  | [] => (num, den)
  | c :: s' =>
      match digit_value c with
      | Some d => fractionDigits (num * 10 + d) (den * 10) s'
      | None => (num, den)
      end
  end.

Fixpoint afterDigits (s : list ascii) : list ascii :=
  match s with
  | [] => []
  | c :: s' => match digit_value c with Some _ => afterDigits s' | None => s end
  end.

(** [atof] on unsigned decimal text such as ["1.8"]: the quotient of two
    integers that are exact in binary64, rounded once. *)
Definition decimal (s : list ascii) : Flt.f64 :=
  match afterDigits s with
  | "."%char :: r =>
      let '(num, den) := fractionDigits (digits 0 s) 1 r in
      SFdiv 53 1024 (Flt.f64_of_Z num) (Flt.f64_of_Z den)
  | _ => Flt.f64_of_Z (digits 0 s)
  end.

Fixpoint decimalDigits (fuel : nat) (n : Z) (acc : list ascii) : list ascii :=
  match fuel with
  | O => acc
  | Datatypes.S fuel' =>
      let acc := ascii_of_N (Z.to_N (48 + n mod 10)) :: acc in
      if n / 10 =? 0 then acc else decimalDigits fuel' (n / 10) acc
  end.

Definition showInt (n : Z) : list ascii :=
  if n <? 0 then "-"%char :: decimalDigits 12 (- n) [] else decimalDigits 12 n [].

(** [n / d] for [0 <= n] and [0 < d], rounded to the nearest integer,
    the even one of two that are equally near. *)
Definition nearest (n d : Z) : Z :=
  let q := n / d in
  let r := n mod d in
  if 2 * r <? d then q
  else if d <? 2 * r then q + 1
  else if Z.even q then q else q + 1.

(** ["%.1f"]: the exact value of the argument rounded to one decimal. *)
Definition showTenths (x : Flt.f64) : list ascii :=
  let sign (s : bool) : list ascii := if s then ["-"%char] else [] in
  match x with
  | S754_nan => CStr.chars "nan"
  | S754_infinity s => sign s ++ CStr.chars "inf"
  | S754_zero s => sign s ++ CStr.chars "0.0"
  | S754_finite s m e =>
      let t := if 0 <=? e then 10 * Zpos m * 2 ^ e
               else nearest (10 * Zpos m) (2 ^ (- e)) in
      sign s ++ decimalDigits (Datatypes.S (Z.to_nat (Z.log2 (t / 10)))) (t / 10) []
             ++ "."%char :: decimalDigits 1 (t mod 10) []
  end.

(** Clocks that start at [ms0] and [us0] and advance by one millisecond,
    respectively 40 microseconds, per read. *)
Definition platform (ms0 us0 : Z) : Platform :=
  {| millis_at := fun k => ms0 + Z.of_nat k;
     micros_at := fun k => us0 + 40 * Z.of_nat k;
     atof := decimal;
     fmt_d := showInt;
     fmt_f1 := showTenths;
     cast_out_of_range := fun _ => 0;
     past_end_byte := fun _ => 0 |}.

(** A decoder that reports the same view whatever it is fed. *)
Definition decoder (v : TinyView) : Decoder := {| tinygps_view := fun _ => v |}.

Definition noFix : TinyView :=
  {| tg_time_isValid := false; tg_date_isValid := false; tg_hour := 0;
     tg_minute := 0; tg_second := 0; tg_centisecond := 0; tg_day := 0;
     tg_month := 0; tg_year := 2000; tg_location_isValid := false;
     tg_hdop_isValid := false; tg_hdop := S754_zero false |}.

Definition fixAt (y m d h mi s : Z) : TinyView :=
  {| tg_time_isValid := true; tg_date_isValid := true; tg_hour := h;
     tg_minute := mi; tg_second := s; tg_centisecond := 0; tg_day := d;
     tg_month := m; tg_year := y; tg_location_isValid := true;
     tg_hdop_isValid := true; tg_hdop := Flt.f64_lit 15 10 |}.

(** The health scenario: ten satellites in use with signal strengths 36
    and 40 alternating (mean 38), HDOP 1.5, a fix 500 ms old, 3D. *)
Definition usedSatellite (id strength : Z) : GPS.SatelliteInfo :=
  {| GPS.prn := id; GPS.constellation := 1; GPS.elevation := 45;
     GPS.azimuth := 10 * id; GPS.snr := strength;
     GPS.inUse := true; GPS.tracked := true |}.

Definition tenSatellites : list GPS.SatelliteInfo :=
  map (fun id => usedSatellite id (if Z.even id then 36 else 40)) (seqZ 1 10)
  ++ replicate 22 GPS.zeroSatellite.

Definition healthScenario : GPS.GPSState :=
  let s := GPS.afterBegin 1000 1 in
  s <| GPS.gpsData :=
         GPS.zeroData <| GPS.gd_timeValid := true |> <| GPS.gd_valid := true |>
                      <| GPS.gd_satellites := 10 |>
                      <| GPS.gd_hdop := Flt.f64_lit 15 10 |>
                      <| GPS.gd_pdop := Flt.f64_lit 18 10 |>
                      <| GPS.gd_fixMode := 3 |>
                      <| GPS.gd_lastUpdateMillis := 4500 |>
                      <| GPS.gd_updateAge := 500 |> |>
    <| GPS.satTracking ::=
         (fun t => t <| GPS.trk_satellites := tenSatellites |>
                     <| GPS.trk_count := 10 |> <| GPS.trk_totalInUse := 10 |>) |>.

(** The server with its default configuration, started at 1000 ms, and
    the same server with the global budget of the running second used up. *)
Definition fresh : NTP.NTPState := NTP.afterBegin NTP.getDefaultConfig 1000.

Definition flooded : NTP.NTPState :=
  fresh <| NTP.globalRateLimit :=
             {| NTP.requestsThisSecond := 1000; NTP.lastSecondReset := 4900;
                NTP.droppedThisSecond := 0 |} |>.

(** A version-4 client request from 192.168.1.10:40000 with the given
    poll exponent and transmit timestamp, and a version-2 one. *)
Definition requestFrame (flags poll : Z) (transmit : list Z) : NTP.Datagram :=
  {| NTP.remoteIP := 3232235786; NTP.remotePort := 40000;
     NTP.payload := [flags; 0; poll; 236] ++ replicate 36 0 ++ transmit |}.

Definition clientRequest : NTP.Datagram :=
  requestFrame 35 6 [233; 140; 65; 192; 18; 52; 86; 120].

Definition version2Request : NTP.Datagram :=
  requestFrame 19 6 [233; 140; 65; 192; 18; 52; 86; 120].

(** The source of [clientRequest] already in the table, last served at
    4900 ms, with [count] earlier denials on its record. *)
Definition knownClient (count : Z) : NTP.NTPClient :=
  {| NTP.ip := 3232235786; NTP.lastRequest := 4900; NTP.requestCount := 7;
     NTP.lastPollInterval := 6; NTP.averageInterval := 1000;
     NTP.aggressiveCount := count; NTP.aggressive := 10 <? count;
     NTP.rateLimited := false; NTP.version := 0 |}.

Definition withClient (count : Z) (s : NTP.NTPState) : NTP.NTPState :=
  s <| NTP.clients ::= <[0%nat := knownClient count]> |> <| NTP.clientCount := 1 |>.

(** Snapshots: a good fix; the same with three satellites in use; the
    same with an HDOP that is not a number. *)
Definition goodFix : GPS.GPSData :=
  GPS.zeroData <| GPS.gd_timeValid := true |> <| GPS.gd_hour := 12 |>
               <| GPS.gd_day := 1 |> <| GPS.gd_month := 3 |> <| GPS.gd_year := 2024 |>
               <| GPS.gd_unixTime := 1709294400 |> <| GPS.gd_lockAcquiredTime := 2000 |>
               <| GPS.gd_hadPreviousFix := true |> <| GPS.gd_valid := true |>
               <| GPS.gd_satellites := 10 |> <| GPS.gd_hdop := Flt.f64_lit 15 10 |>
               <| GPS.gd_pdop := Flt.f64_lit 18 10 |> <| GPS.gd_vdop := Flt.f64_lit 12 10 |>
               <| GPS.gd_fixQuality := 3 |> <| GPS.gd_fixMode := 3 |>
               <| GPS.gd_lastUpdateMillis := 4500 |> <| GPS.gd_updateAge := 500 |>.

(** A server whose table holds two sources and is full: the source of
    [clientRequest], last served at 4900 ms, and 10.0.0.1, last served at
    3000 ms.  [stranger] is a source that is in neither table. *)
Definition crowded : NTP.NTPState :=
  fresh <| NTP.config ::= (fun c => c <| NTP.maxClients := 2 |>) |>
        <| NTP.clients := [knownClient 3;
                           (knownClient 0) <| NTP.ip := 167772161 |>
                                           <| NTP.lastRequest := 3000 |>] |>
        <| NTP.clientCount := 2 |>.

Definition stranger : Z := 3232236000.

(** The fresh server with broadcasting switched on. *)
Definition broadcasting : NTP.NTPState :=
  fresh <| NTP.config ::= (fun c => c <| NTP.broadcastEnabled := true |>) |>.

Definition threeSatellites : GPS.GPSData := goodFix <| GPS.gd_satellites := 3 |>.

Definition hdopNaN : GPS.GPSData := goodFix <| GPS.gd_hdop := S754_nan |>.

Definition CR : ascii := "013"%char.
Definition LF : ascii := "010"%char.
Definition line (s : string) : list ascii := chars s ++ [CR; LF].

(** A visibility sentence with the satellites 10, 12 and 15, and the
    in-use sentence of a 3D fix on these three: nine empty satellite
    fields, PDOP 1.8, HDOP 1.0, VDOP 1.5, system id 1. *)
Definition visibilityText : string :=
  "$GPGSV,1,1,03,10,45,120,38,12,30,200,35,15,60,090,40*49".
Definition inUseText : string :=
  "$GNGSA,A,3,10,12,15,,,,,,,,,,1.8,1.0,1.5,1*3B".

(** The receiver object started at 1000 ms, and the same object once the
    visibility sentence has come in during a cycle that starts at
    1000 ms. *)
Definition started : GPS.GPSState := GPS.afterBegin 1000 1.

Definition afterVisibility : GPS.GPSState :=
  exec (@GPS.process (platform 1000 1000000) (decoder noFix) (line visibilityText))
       started.

(** A visibility entry for satellite 301 stored in a table. *)
Definition galileo (s : GPS.GPSState) : GPS.GPSState :=
  exec (GPS.storeVisible 301 45 120 38) s.

End Scenario.

(* ====================================================================== *)
(** * Part II. Lemmas and theorems                                          *)
(* ====================================================================== *)

(** ** Fixed-width integers *)

Lemma u8_small x : 0 <= x < 256 -> u8 x = x.
Proof. intros Hx. apply Z.mod_small. exact Hx. Qed.

Lemma u16_small x : 0 <= x < 65536 -> u16 x = x.
Proof. intros Hx. apply Z.mod_small. exact Hx. Qed.

Lemma u32_small x : 0 <= x < 2 ^ 32 -> u32 x = x.
Proof. intros Hx. apply Z.mod_small. exact Hx. Qed.

Lemma u32_range x : 0 <= u32 x < 2 ^ 32.
Proof. apply Z.mod_pos_bound. reflexivity. Qed.

(** Rewrites [u32 x] to [x] from the inside out wherever [lia] bounds [x]. *)
Ltac u32_norm :=
  repeat match goal with
  | |- context [u32 ?x] =>
      lazymatch x with
      | context [u32 _] => fail
      | _ => rewrite (u32_small x) by lia
      end
  end.

(** ** The monad *)

Lemma exec_bind {S A B} (m : M S A) (k : A -> M S B) (s : S) :
  exec (bind m k) s = exec (k (eval m s)) (exec m s).
Proof. unfold exec, eval, bind. destruct (m s) as [a s']. reflexivity. Qed.

Lemma eval_bind {S A B} (m : M S A) (k : A -> M S B) (s : S) :
  eval (bind m k) s = eval (k (eval m s)) (exec m s).
Proof. unfold exec, eval, bind. destruct (m s) as [a s']. reflexivity. Qed.

(** For a preorder [R], [keeps R] is closed under sequencing, so it is
    shown method by method. *)
Section Keeps.
Context {S : Type} (R : relation S) `{!PreOrder R}.

Lemma keeps_ret {A} (a : A) : keeps R (ret a).
Proof. intros s. reflexivity. Qed.

Lemma keeps_get : keeps R get.
Proof. intros s. reflexivity. Qed.

Lemma keeps_gets {A} (f : S -> A) : keeps R (gets f).
Proof. intros s. reflexivity. Qed.

Lemma keeps_modify (f : S -> S) : (forall s, R s (f s)) -> keeps R (modify f).
Proof. intros Hf s. apply Hf. Qed.

Lemma keeps_bind {A B} (m : M S A) (k : A -> M S B) :
  keeps R m -> (forall a, keeps R (k a)) -> keeps R (bind m k).
Proof.
  intros Hm Hk s. rewrite exec_bind.
  transitivity (exec m s); [apply Hm | apply Hk].
Qed.

Lemma keeps_for_loop (body : nat -> M S unit) (n from : nat) :
  (forall i, keeps R (body i)) -> keeps R (for_loop from n body).
Proof.
  intros Hb. revert from. induction n as [|n IH]; intros from; cbn [for_loop].
  - apply keeps_ret.
  - apply keeps_bind; [apply Hb | intros _; apply IH].
Qed.

End Keeps.

#[local] Instance same_preorder {S X} (f : S -> X) : PreOrder (same f).
Proof.
  split.
  - intros s. reflexivity.
  - intros s1 s2 s3 H12 H23. unfold same in *. congruence.
Qed.

(** ** Unix time (claim C6) *)

Section CalendarFacts.
Import Calendar GPS.
Context `{Platform}.

Lemma leapYearsBefore_step y :
  leapYearsBefore (y + 1) - leapYearsBefore y = if isLeapYear y then 1 else 0.
Proof.
  unfold leapYearsBefore, isLeapYear.
  replace (y + 1 - 1) with y by lia.
  destruct (Z.eqb_spec (y mod 4) 0), (Z.eqb_spec (y mod 100) 0),
           (Z.eqb_spec (y mod 400) 0); simpl;
    Z.div_mod_to_equations; lia.
Qed.

(** The code's leap-year test is the Gregorian rule. *)
Lemma isLeapYear_gregorian y : isLeapYear y = true <-> gregorianLeap y.
Proof.
  unfold isLeapYear, gregorianLeap.
  rewrite orb_true_iff, andb_true_iff, negb_true_iff, !Z.eqb_eq, Z.eqb_neq.
  reflexivity.
Qed.

Lemma daysBeforeYear_step y :
  daysBeforeYear (y + 1) = daysBeforeYear y + (if isLeapYear y then 366 else 365).
Proof.
  unfold daysBeforeYear. pose proof (leapYearsBefore_step y).
  destruct (isLeapYear y); lia.
Qed.

Lemma daysBeforeYear_bounds y :
  1970 <= y -> 365 * (y - 1970) <= daysBeforeYear y <= 366 * (y - 1970).
Proof.
  intros Hy. unfold daysBeforeYear, leapYearsBefore.
  Z.div_mod_to_equations. lia.
Qed.

Lemma daysBeforeMonth_bounds leap m : 0 <= daysBeforeMonth leap m <= 335.
Proof.
  unfold daysBeforeMonth.
  destruct (leap && (2 <? m)); destruct m as [|p|p]; try lia;
    do 4 (try destruct p as [p|p|]); lia.
Qed.

(** The loop over the years adds up to the closed form, without wrapping. *)
Lemma addYears_spec (n : nat) :
  Z.of_nat n <= 65535 ->
  addYears (1970 + Z.of_nat n) 0 = daysBeforeYear (1970 + Z.of_nat n).
Proof.
  unfold addYears. replace (1970 + Z.of_nat n - 1970) with (Z.of_nat n) by lia.
  induction n as [|n IH]; intros Hn.
  - reflexivity.
  - rewrite seqZ_S, fold_left_app. cbn [fold_left].
    rewrite IH by lia.
    replace (1970 + Z.of_nat (Datatypes.S n)) with (1970 + Z.of_nat n + 1) by lia.
    rewrite daysBeforeYear_step.
    pose proof (daysBeforeYear_bounds (1970 + Z.of_nat n) ltac:(lia)).
    apply u32_small. destruct (isLeapYear _); lia.
Qed.

Ltac eval_closed :=
  repeat match goal with
  | |- context [seqZ ?a ?b] =>
      let l := eval vm_compute in (seqZ a b) in change (seqZ a b) with l
  | |- context [daysInMonth_at ?i] =>
      let r := eval vm_compute in (daysInMonth !! Z.to_nat i) in
      match r with Some ?d => change (daysInMonth_at i) with d end
  | |- context [?a =? ?b] =>
      let r := eval vm_compute in (a =? b) in
      match r with true => idtac | false => idtac end;
      change (a =? b) with r
  end.

Lemma addMonths_spec year month days :
  1 <= month <= 12 -> 0 <= days <= 2 ^ 31 ->
  addMonths year month days = days + daysBeforeMonth (isLeapYear year) month.
Proof.
  intros Hm Hd. unfold addMonths.
  assert (Hc : month = 1 \/ month = 2 \/ month = 3 \/ month = 4 \/
               month = 5 \/ month = 6 \/ month = 7 \/ month = 8 \/
               month = 9 \/ month = 10 \/ month = 11 \/ month = 12) by lia.
  destruct (isLeapYear year);
    repeat (destruct Hc as [-> | Hc]); try subst month;
    eval_closed; cbn [fold_left]; eval_closed; cbn [andb];
    u32_norm; unfold daysBeforeMonth;
    cbn [andb Z.ltb Z.compare Pos.compare Pos.compare_cont]; lia.
Qed.

Lemma daysSinceEpoch_spec year month day :
  1970 <= year <= 65535 -> 1 <= month <= 12 -> 1 <= day <= 31 ->
  daysSinceEpoch year month day = gregorianDays year month day.
Proof.
  intros Hy Hm Hd. unfold daysSinceEpoch, gregorianDays.
  replace year with (1970 + Z.of_nat (Z.to_nat (year - 1970))) at 2 by lia.
  rewrite addYears_spec by lia.
  replace (1970 + Z.of_nat (Z.to_nat (year - 1970))) with year by lia.
  pose proof (daysBeforeYear_bounds year ltac:(lia)).
  pose proof (daysBeforeMonth_bounds (isLeapYear year) month).
  rewrite addMonths_spec by lia.
  apply u32_small. lia.
Qed.

Lemma monthLength_le_31 leap m : monthLength leap m <= 31.
Proof.
  unfold monthLength. destruct leap; destruct m as [|p|p]; try lia;
    do 4 (try destruct p as [p|p|]); lia.
Qed.

(** The stored value is the calendar value modulo 2^32 ... *)
Lemma unixTimeOf_spec y m d h mi s :
  validDate y m d -> y <= 65535 ->
  unixTimeOf y m d h mi s
  = (86400 * gregorianDays y m d + 3600 * h + 60 * mi + s) mod 2 ^ 32.
Proof.
  intros (Hy & Hm & Hd) Hy'. unfold unixTimeOf.
  pose proof (monthLength_le_31 (isLeapYear y) m).
  rewrite daysSinceEpoch_spec by lia.
  unfold u32, wrap. f_equal. lia.
Qed.

(** ... and the calendar value itself through the year 2105. *)
Lemma gregorian_fits y m d h mi s :
  validDate y m d -> validTime h mi s -> y <= 2105 ->
  0 <= 86400 * gregorianDays y m d + 3600 * h + 60 * mi + s < 2 ^ 32.
Proof.
  intros (Hy & Hm & Hd) (Hh & Hmi & Hs) Hy'.
  pose proof (monthLength_le_31 (isLeapYear y) m).
  pose proof (daysBeforeMonth_bounds (isLeapYear y) m).
  assert (Hdays : 0 <= gregorianDays y m d <= 49672).
  { unfold gregorianDays.
    assert (Hn : daysBeforeYear y + daysBeforeMonth (isLeapYear y) m + (d - 1)
                 < daysBeforeYear (y + 1)).
    { rewrite daysBeforeYear_step. unfold daysBeforeMonth, monthLength in *.
      destruct (isLeapYear y);
        assert (Hc : m = 1 \/ m = 2 \/ m = 3 \/ m = 4 \/ m = 5 \/ m = 6 \/
                     m = 7 \/ m = 8 \/ m = 9 \/ m = 10 \/ m = 11 \/ m = 12) by lia;
        repeat (destruct Hc as [-> | Hc]); try subst m; cbn in *; lia. }
    pose proof (daysBeforeYear_bounds y ltac:(lia)).
    assert (daysBeforeYear (y + 1) <= 49673).
    { unfold daysBeforeYear, leapYearsBefore. Z.div_mod_to_equations. lia. }
    lia. }
  lia.
Qed.

End CalendarFacts.

(** ** Frame reasoning for the methods of [GPS] *)

Create HintDb frames.

(** One structural step on a goal [keeps R m]. *)
Ltac keeps_step close :=
  lazymatch goal with
  | |- keeps _ (bind _ _) => apply keeps_bind; [exact _ | idtac | intros ?]
  | |- keeps _ (ret _) => apply keeps_ret; exact _
  | |- keeps _ get => apply keeps_get; exact _
  | |- keeps _ (gets _) => apply keeps_gets; exact _
  | |- keeps _ (modify _) => apply keeps_modify; intros ?; close
  | |- keeps _ (let _ := _ in _) => cbv zeta
  | |- keeps _ (if ?b then _ else _) => destruct b
  | |- keeps _ (match ?x with _ => _ end) => destruct x
  end.

Lemma trackedGrows_refl t : trackedGrows t t.
Proof. intros i sat Hi Ht. eauto. Qed.

Lemma trackedGrows_trans t1 t2 t3 :
  trackedGrows t1 t2 -> trackedGrows t2 t3 -> trackedGrows t1 t3.
Proof.
  intros H12 H23 i sat Hi Ht.
  destruct (H12 i sat Hi Ht) as (sat' & Hi' & Ht'). eauto.
Qed.

Lemma trackedGrows_same_table t t' :
  GPS.trk_satellites t' = GPS.trk_satellites t -> trackedGrows t t'.
Proof. intros Heq i sat Hi Ht. rewrite Heq. eauto. Qed.

(** Rewriting one slot by a function that leaves tracked entries tracked. *)
Lemma trackedGrows_alter t t' (g : GPS.SatelliteInfo -> GPS.SatelliteInfo) i :
  GPS.trk_satellites t' = alter g i (GPS.trk_satellites t) ->
  (forall sat, GPS.tracked sat = true -> GPS.tracked (g sat) = true) ->
  trackedGrows t t'.
Proof.
  intros Heq Hg j sat Hj Ht. rewrite Heq.
  destruct (decide (i = j)) as [->|Hne].
  - exists (g sat). rewrite list_lookup_alter_eq, Hj. auto.
  - exists sat. rewrite list_lookup_alter_ne by exact Hne. auto.
Qed.

(** Rewriting the first [n] slots by such a function. *)
Lemma trackedGrows_map_take t t' (g : GPS.SatelliteInfo -> GPS.SatelliteInfo) n :
  GPS.trk_satellites t'
  = map g (take n (GPS.trk_satellites t)) ++ drop n (GPS.trk_satellites t) ->
  (forall sat, GPS.tracked sat = true -> GPS.tracked (g sat) = true) ->
  trackedGrows t t'.
Proof.
  intros Heq Hg j sat Hj Ht. rewrite Heq.
  destruct (decide (j < n)%nat) as [Hlt|Hge].
  - exists (g sat). split; [|auto].
    rewrite lookup_app_l by (rewrite length_map, length_take;
                             apply lookup_lt_Some in Hj; lia).
    rewrite list_lookup_fmap, lookup_take_lt by exact Hlt. rewrite Hj. reflexivity.
  - exists sat. split; [|auto].
    apply lookup_lt_Some in Hj as Hlen.
    rewrite lookup_app_r by (rewrite length_map, length_take; lia).
    rewrite length_map, length_take, lookup_drop.
    replace (n + (j - n `min` length (GPS.trk_satellites t)))%nat with j by lia.
    exact Hj.
Qed.

(** The methods below are shown to move the state along any preorder [R]
    that tolerates (1) writes to members other than the snapshot and the
    satellite table, (2) writes to the snapshot that leave [unixTime]
    alone and (3) writes to the table under which tracked entries stay
    tracked.  "The unix time is not touched" and "no tracked flag is
    cleared" are two such preorders. *)
Section GPSFrames.
Import GPS CStr.
Context `{Platform} `{Decoder}.
Context (R : relation GPSState) `{!PreOrder R}.

Hypothesis R_other : forall s s',
  gpsData s' = gpsData s -> satTracking s' = satTracking s -> R s s'.
Hypothesis R_data : forall s g,
  gd_unixTime (g (gpsData s)) = gd_unixTime (gpsData s) -> R s (s <| gpsData ::= g |>).
Hypothesis R_tracking : forall s g,
  trackedGrows (satTracking s) (g (satTracking s)) -> R s (s <| satTracking ::= g |>).

Ltac split_cases :=
  repeat match goal with
         | |- context [if ?b then _ else _] => destruct b
         | |- context [match ?x with _ => _ end] => destruct x
         end.

(** Case analysis on the scrutinees that are not themselves a [match]. *)
Ltac inner_cases :=
  repeat match goal with
         | |- context [match ?x with _ => _ end] =>
             lazymatch x with
             | context [match _ with _ => _ end] => fail
             | _ => destruct x; cbv beta iota
             end
         end.

Ltac frame_close :=
  cbv beta;
  first [ apply R_other; split_cases; reflexivity
        | apply R_data; cbn; split_cases; reflexivity
        | apply R_tracking, trackedGrows_same_table; reflexivity
        | split_cases; first [ reflexivity | apply R_other; reflexivity ] ].

Ltac frame :=
  repeat (first [ solve [auto with frames nocore]
                | keeps_step frame_close
                | progress unfold setAlert, setData, setTracking, setHealth, setStatics ]).

Lemma keeps_millis : keeps R millis.
Proof. intros s. apply R_other; reflexivity. Qed.
#[local] Hint Resolve keeps_millis : frames.

Lemma keeps_shouldFireEvent type : keeps R (shouldFireEvent type).
Proof. unfold shouldFireEvent. frame. Qed.
#[local] Hint Resolve keeps_shouldFireEvent : frames.

Lemma keeps_addEvent type message : keeps R (addEvent type message).
Proof. unfold addEvent. frame. Qed.
#[local] Hint Resolve keeps_addEvent : frames.

Lemma keeps_fireIf cond type message : keeps R (fireIf cond type message).
Proof. unfold fireIf. frame. Qed.
#[local] Hint Resolve keeps_fireIf : frames.

Lemma keeps_updateFixQuality : keeps R updateFixQuality.
Proof. unfold updateFixQuality. frame. Qed.
#[local] Hint Resolve keeps_updateFixQuality : frames.

Lemma keeps_updatePosition v : keeps R (updatePosition v).
Proof. unfold updatePosition. frame. Qed.
#[local] Hint Resolve keeps_updatePosition : frames.

(** What [updateGPSData] does after [updateTime]. *)
Lemma updateGPSData_after_updateTime s :
  R (exec (updateTime (tinygps_view (tinyGPS s))) s) (exec updateGPSData s).
Proof.
  unfold updateGPSData. rewrite exec_bind. cbn [gets exec eval fst snd].
  rewrite exec_bind.
  generalize (exec (updateTime (tinygps_view (tinyGPS s))) s).
  generalize (eval (updateTime (tinygps_view (tinyGPS s))) s).
  intros u.
  match goal with |- forall s1, R s1 (exec ?m s1) => change (keeps R m) end.
  frame.
Qed.

Lemma fold_countInUse_table l t :
  trk_satellites (fold_left countInUse l t) = trk_satellites t.
Proof.
  revert t. induction l as [|sat l IH]; intros t; cbn [fold_left]; [reflexivity|].
  rewrite IH. unfold countInUse.
  destruct (tracked sat), (inUse sat); cbn; try reflexivity.
  destruct (constellation sat) as [|p|p]; try reflexivity.
  do 3 (try destruct p as [p|p|]); reflexivity.
Qed.

Lemma keeps_updateConstellationCounts : keeps R updateConstellationCounts.
Proof.
  unfold updateConstellationCounts, setTracking.
  apply keeps_bind; [exact _ | | intros _; frame].
  apply keeps_modify. intros s. apply R_tracking.
  apply trackedGrows_same_table. rewrite fold_countInUse_table. reflexivity.
Qed.
#[local] Hint Resolve keeps_updateConstellationCounts : frames.

Lemma keeps_addHistoricalPoint : keeps R addHistoricalPoint.
Proof. unfold addHistoricalPoint. frame. Qed.
#[local] Hint Resolve keeps_addHistoricalPoint : frames.

Lemma keeps_checkStaleness : keeps R checkStaleness.
Proof. unfold checkStaleness. frame. Qed.
#[local] Hint Resolve keeps_checkStaleness : frames.

Lemma keeps_checkHeartbeat : keeps R checkHeartbeat.
Proof. unfold checkHeartbeat. frame. Qed.
#[local] Hint Resolve keeps_checkHeartbeat : frames.

Lemma keeps_updateAlerts : keeps R updateAlerts.
Proof. unfold updateAlerts. frame. Qed.
#[local] Hint Resolve keeps_updateAlerts : frames.

Lemma keeps_calculateHealth : keeps R calculateHealth.
Proof. unfold calculateHealth. frame. Qed.
#[local] Hint Resolve keeps_calculateHealth : frames.

Lemma keeps_storeVisible prnv elevationv azimuthv snrv :
  keeps R (storeVisible prnv elevationv azimuthv snrv).
Proof.
  unfold storeVisible, setTracking. apply keeps_modify. intros s.
  apply R_tracking. inner_cases;
    first [ apply trackedGrows_refl
          | apply trackedGrows_same_table; reflexivity
          | eapply trackedGrows_alter; [cbn; reflexivity | intros sat _; reflexivity] ].
Qed.
#[local] Hint Resolve keeps_storeVisible : frames.

Lemma keeps_gsvSatellites n p : keeps R (gsvSatellites n p).
Proof.
  revert p. induction n as [|n IH]; intros p; cbn [gsvSatellites]; frame.
Qed.
#[local] Hint Resolve keeps_gsvSatellites : frames.

Lemma keeps_parseGSVSentence sentence constellationType :
  keeps R (parseGSVSentence sentence constellationType).
Proof.
  unfold parseGSVSentence. frame.
Qed.
#[local] Hint Resolve keeps_parseGSVSentence : frames.

Lemma keeps_parseGNGSVSentence sentence : keeps R (parseGNGSVSentence sentence).
Proof. unfold parseGNGSVSentence. frame. Qed.
#[local] Hint Resolve keeps_parseGNGSVSentence : frames.

Lemma keeps_paceLog changed last update : keeps R (paceLog changed last update).
Proof. unfold paceLog. frame. Qed.
#[local] Hint Resolve keeps_paceLog : frames.

Lemma keeps_markInUse prnv constellationType :
  keeps R (markInUse prnv constellationType).
Proof.
  unfold markInUse, setTracking. apply keeps_modify. intros s.
  apply R_tracking. inner_cases;
    first [ apply trackedGrows_refl
          | apply trackedGrows_same_table; reflexivity
          | eapply trackedGrows_alter; [cbn; reflexivity | intros sat _; reflexivity] ].
Qed.
#[local] Hint Resolve keeps_markInUse : frames.

Lemma keeps_gsaSatellites n p constellationType :
  keeps R (gsaSatellites n p constellationType).
Proof.
  revert p. induction n as [|n IH]; intros p; cbn [gsaSatellites]; frame.
Qed.
#[local] Hint Resolve keeps_gsaSatellites : frames.

Lemma keeps_parseDOP p store :
  (forall v d, gd_unixTime (store v d) = gd_unixTime d) ->
  keeps R (parseDOP p store).
Proof.
  intros Hstore. unfold parseDOP. frame.
  apply keeps_modify. intros s. apply R_data, Hstore.
Qed.

Lemma keeps_markSatellitesInUse sentence constellationType :
  keeps R (markSatellitesInUse sentence constellationType).
Proof.
  unfold markSatellitesInUse. frame.
  all: apply keeps_parseDOP; reflexivity.
Qed.
#[local] Hint Resolve keeps_markSatellitesInUse : frames.

Lemma keeps_parseGNGSASentence sentence : keeps R (parseGNGSASentence sentence).
Proof.
  unfold parseGNGSASentence. frame.
  apply keeps_modify. intros s.
  apply R_tracking. eapply trackedGrows_map_take; [cbn; reflexivity|].
  intros sat Ht. exact Ht.
Qed.
#[local] Hint Resolve keeps_parseGNGSASentence : frames.

Lemma keeps_detectCapabilities sentence : keeps R (detectCapabilities sentence).
Proof. unfold detectCapabilities. frame. Qed.
#[local] Hint Resolve keeps_detectCapabilities : frames.

Lemma keeps_parseNMEASentence sentence : keeps R (parseNMEASentence sentence).
Proof.
  unfold parseNMEASentence, parseGPGSVSentence, parseGLGSVSentence,
    parseGAGSVSentence, parseGBGSVSentence, parseGPGSASentence.
  frame.
Qed.
#[local] Hint Resolve keeps_parseNMEASentence : frames.

Lemma keeps_processChar c : keeps R (processChar c).
Proof. unfold processChar. frame. Qed.
#[local] Hint Resolve keeps_processChar : frames.

Lemma keeps_readLoop available : keeps R (readLoop available).
Proof. induction available as [|c rest IH]; cbn [readLoop]; frame. Qed.
#[local] Hint Resolve keeps_readLoop : frames.

(** What [process] does after the read loop and [updateTime]. *)
Lemma process_after_updateTime available s :
  let s1 := exec (readLoop available) s in
  R (exec (updateTime (tinygps_view (tinyGPS s1))) s1) (exec (process available) s).
Proof.
  intros s1. unfold process. rewrite exec_bind. fold s1.
  rewrite exec_bind.
  transitivity (exec updateGPSData s1).
  - apply updateGPSData_after_updateTime.
  - generalize (eval updateGPSData s1). generalize (exec updateGPSData s1).
    intros s2 u.
    revert s2. match goal with |- forall s2, R s2 (exec ?m s2) => change (keeps R m) end.
    frame.
Qed.

End GPSFrames.

(** The two preorders the frame lemmas are used at. *)

#[local] Instance trackedKept_preorder : PreOrder trackedKept.
Proof.
  split.
  - intros s. apply trackedGrows_refl.
  - intros s1 s2 s3. apply trackedGrows_trans.
Qed.

Lemma unixTimeKept_other s s' :
  GPS.gpsData s' = GPS.gpsData s -> GPS.satTracking s' = GPS.satTracking s ->
  unixTimeKept s s'.
Proof. intros Hd _. unfold unixTimeKept, same. rewrite Hd. reflexivity. Qed.

Lemma unixTimeKept_data s g :
  GPS.gd_unixTime (g (GPS.gpsData s)) = GPS.gd_unixTime (GPS.gpsData s) ->
  unixTimeKept s (s <| GPS.gpsData ::= g |>).
Proof. intros Hg. exact Hg. Qed.

Lemma unixTimeKept_tracking s g :
  trackedGrows (GPS.satTracking s) (g (GPS.satTracking s)) ->
  unixTimeKept s (s <| GPS.satTracking ::= g |>).
Proof. intros _. reflexivity. Qed.

Lemma trackedKept_other s s' :
  GPS.gpsData s' = GPS.gpsData s -> GPS.satTracking s' = GPS.satTracking s ->
  trackedKept s s'.
Proof. intros _ Ht. unfold trackedKept. rewrite Ht. apply trackedGrows_refl. Qed.

Lemma trackedKept_data s g :
  GPS.gd_unixTime (g (GPS.gpsData s)) = GPS.gd_unixTime (GPS.gpsData s) ->
  trackedKept s (s <| GPS.gpsData ::= g |>).
Proof. intros _. apply trackedGrows_refl. Qed.

Lemma trackedKept_tracking s g :
  trackedGrows (GPS.satTracking s) (g (GPS.satTracking s)) ->
  trackedKept s (s <| GPS.satTracking ::= g |>).
Proof. intros Hg. exact Hg. Qed.

(** ** Claim C6: unix time of the snapshot *)

Section UnixTime.
Import GPS Calendar.
Context `{Platform} `{Decoder}.

(** With a valid time and date in the decoder, [updateTime] stores the
    unix time the loops compute from the fields as they are stored. *)
Lemma updateTime_unixTime v s :
  tg_time_isValid v = true -> tg_date_isValid v = true ->
  gd_unixTime (gpsData (exec (updateTime v) s))
  = unixTimeOf (u16 (tg_year v)) (u8 (tg_month v)) (u8 (tg_day v))
               (u8 (tg_hour v)) (u8 (tg_minute v)) (u8 (tg_second v)).
Proof.
  intros Ht Hd. unfold updateTime. rewrite Ht, Hd. cbn [andb].
  repeat (rewrite exec_bind; cbn [gets modify setData exec eval fst snd]).
  rewrite (keeps_fireIf unixTimeKept unixTimeKept_other).
  destruct (gd_timeValid (gpsData s)); reflexivity.
Qed.

(** Claim C6, amended.  For every valid calendar input the decoder
    reports (year at least 1970 and within the 16 bits of the field), the
    unix timestamp of the snapshot after the cycle is
    86400 * days + 3600 * hour + 60 * minute + second modulo 2^32, where
    days counts the days from 1970-01-01 under the Gregorian rule; through
    the year 2105 it is that number itself. *)
Theorem C6_unix_time_of_snapshot available s :
  let s1 := exec (readLoop available) s in
  let v := tinygps_view (tinyGPS s1) in
  let calendar :=
    86400 * gregorianDays (tg_year v) (tg_month v) (tg_day v)
    + 3600 * tg_hour v + 60 * tg_minute v + tg_second v in
  tg_time_isValid v = true -> tg_date_isValid v = true ->
  validDate (tg_year v) (tg_month v) (tg_day v) ->
  validTime (tg_hour v) (tg_minute v) (tg_second v) ->
  tg_year v <= 65535 ->
  gd_unixTime (gpsData (exec (process available) s)) = calendar mod 2 ^ 32
  /\ (tg_year v <= 2105 ->
      gd_unixTime (gpsData (exec (process available) s)) = calendar).
Proof.
  intros s1 v calendar Ht Hd Hdate Htime Hy.
  pose proof (process_after_updateTime unixTimeKept unixTimeKept_other
                unixTimeKept_data unixTimeKept_tracking available s) as Hk.
  cbv zeta in Hk. fold s1 in Hk. fold v in Hk.
  unfold unixTimeKept, same in Hk. rewrite Hk.
  rewrite updateTime_unixTime by assumption.
  destruct Hdate as (Hy0 & Hm & Hday). destruct Htime as (Hh & Hmi & Hs).
  pose proof (monthLength_le_31 (isLeapYear (tg_year v)) (tg_month v)).
  rewrite u16_small, !u8_small by lia.
  assert (Hspec : unixTimeOf (tg_year v) (tg_month v) (tg_day v)
                             (tg_hour v) (tg_minute v) (tg_second v)
                  = calendar mod 2 ^ 32).
  { apply unixTimeOf_spec; [repeat split; lia | lia]. }
  split; [exact Hspec|].
  intros Hy'. rewrite Hspec. apply Z.mod_small.
  apply gregorian_fits; repeat split; lia.
Qed.

End UnixTime.

(** The theorem at 2024-03-01 12:00:00: the snapshot holds 1709294400. *)
Lemma C6_unix_time_witness :
  (Calendar.validDate 2024 3 1 /\ Calendar.validTime 12 0 0)
  /\ GPS.gd_unixTime
       (GPS.gpsData
          (exec (@GPS.process (Scenario.platform 5000 5000000)
                   (Scenario.decoder (Scenario.fixAt 2024 3 1 12 0 0)) [])
                (GPS.afterBegin 1000 1)))
     = 1709294400.
Proof.
  assert (Hdate : Calendar.validDate 2024 3 1)
    by (unfold Calendar.validDate; cbn; lia).
  assert (Htime : Calendar.validTime 12 0 0)
    by (unfold Calendar.validTime; lia).
  split; [split; assumption|].
  refine (proj2 (@C6_unix_time_of_snapshot (Scenario.platform 5000 5000000)
                   (Scenario.decoder (Scenario.fixAt 2024 3 1 12 0 0)) []
                   (GPS.afterBegin 1000 1) eq_refl eq_refl Hdate Htime _) _);
    cbn; lia.
Defined.

(** Claim C6 as stated fails past the range of 32 bits: for the valid
    date 2107-01-01 00:00:00 the snapshot holds 28315904, not the
    4323283200 seconds the calendar gives. *)
Lemma C6_counterexample :
  Calendar.validDate 2107 1 1 /\ Calendar.validTime 0 0 0
  /\ GPS.gd_unixTime
       (GPS.gpsData
          (exec (@GPS.process (Scenario.platform 5000 5000000)
                   (Scenario.decoder (Scenario.fixAt 2107 1 1 0 0 0)) [])
                (GPS.afterBegin 1000 1)))
     <> 86400 * Calendar.gregorianDays 2107 1 1 + 3600 * 0 + 60 * 0 + 0.
Proof.
  split; [unfold Calendar.validDate; cbn; lia|].
  split; [unfold Calendar.validTime; lia|].
  vm_compute. discriminate.
Qed.

(** ** Claim C5: the health scenario *)

Section Health.
Import GPS.
Context `{Platform}.

(** Closes a goal [same f s (g s)] where [g] does not write what [f] reads. *)
Ltac same_close :=
  unfold same, scores; cbn;
  repeat match goal with
         | |- context [if ?b then _ else _] => destruct b; cbn
         end;
  reflexivity.

Lemma millis_scores : keeps (same scores) millis.
Proof. intros s. reflexivity. Qed.

Lemma updateAlerts_scores : keeps (same scores) updateAlerts.
Proof.
  unfold updateAlerts.
  repeat (first [ apply millis_scores
                | keeps_step same_close
                | progress unfold setAlert, setHealth ]).
Qed.

Lemma calculateHealth_scores s :
  scores (exec calculateHealth s)
  = let sat := u8 (calculateSatelliteScore s) in
    let hdop := u8 (calculateHDOPScore s) in
    let snr := u8 (calculateSNRScore s) in
    let age := u8 (calculateFixAgeScore s) in
    let mode := u8 (calculateFixModeScore s) in
    (sat, hdop, snr, age, mode,
     u8 (Z.quot (sat * HEALTH_WEIGHT_SATELLITES + hdop * HEALTH_WEIGHT_HDOP
                 + snr * HEALTH_WEIGHT_SNR + age * HEALTH_WEIGHT_FIX_AGE
                 + mode * HEALTH_WEIGHT_FIX_MODE) 100)).
Proof.
  unfold calculateHealth.
  repeat (rewrite exec_bind; cbn [modify setHealth exec eval fst snd]).
  match goal with
  | |- context [exec updateAlerts ?s3] =>
      transitivity (scores (exec updateAlerts s3)); [reflexivity|]
  end.
  rewrite updateAlerts_scores. reflexivity.
Qed.

(** Claim C5, amended.  With ten satellites in use, HDOP 1.5, a mean SNR
    of 38, a fix 500 ms old and a 3D fix, the component scores are
    (80, 80, 80, 100, 100) and the overall score is
    (80*30 + 80*25 + 80*20 + 100*15 + 100*10) / 100 = 8500 / 100 = 85. *)
Theorem C5_health_scenario s :
  gd_satellites (gpsData s) = 10 ->
  gd_hdop (gpsData s) = Flt.f64_lit 15 10 ->
  getAverageSNR 0 s = Flt.f32_of_Z 38 ->
  gd_updateAge (gpsData s) = 500 ->
  gd_fixMode (gpsData s) = 3 ->
  scores (exec calculateHealth s) = (80, 80, 80, 100, 100, 85)
  /\ (80 * 30 + 80 * 25 + 80 * 20 + 100 * 15 + 100 * 10) / 100 = 85.
Proof.
  intros Hsat Hhdop Hsnr Hage Hmode. split; [|reflexivity].
  rewrite calculateHealth_scores.
  unfold calculateSatelliteScore, calculateHDOPScore, calculateSNRScore,
    calculateFixAgeScore, calculateFixModeScore.
  rewrite Hsat, Hhdop, Hsnr, Hage, Hmode. reflexivity.
Qed.

End Health.

(** The theorem at the scenario state. *)
Lemma C5_health_witness :
  (GPS.gd_satellites (GPS.gpsData Scenario.healthScenario) = 10
   /\ GPS.gd_hdop (GPS.gpsData Scenario.healthScenario) = Flt.f64_lit 15 10
   /\ GPS.getAverageSNR 0 Scenario.healthScenario = Flt.f32_of_Z 38
   /\ GPS.gd_updateAge (GPS.gpsData Scenario.healthScenario) = 500
   /\ GPS.gd_fixMode (GPS.gpsData Scenario.healthScenario) = 3)
  /\ scores (exec (@GPS.calculateHealth (Scenario.platform 5000 5000000))
                  Scenario.healthScenario)
     = (80, 80, 80, 100, 100, 85).
Proof.
  split; [repeat split; reflexivity|].
  exact (proj1 (@C5_health_scenario (Scenario.platform 5000 5000000)
                  Scenario.healthScenario eq_refl eq_refl eq_refl eq_refl eq_refl)).
Defined.

(** Claim C5 as stated fails on its last number: in the scenario the
    component scores are as claimed, the overall score is 85, and so is
    the quotient the claim writes down; neither is 84. *)
Lemma C5_counterexample :
  GPS.gd_satellites (GPS.gpsData Scenario.healthScenario) = 10
  /\ GPS.gd_hdop (GPS.gpsData Scenario.healthScenario) = Flt.f64_lit 15 10
  /\ GPS.getAverageSNR 0 Scenario.healthScenario = Flt.f32_of_Z 38
  /\ GPS.gd_updateAge (GPS.gpsData Scenario.healthScenario) = 500
  /\ GPS.gd_fixMode (GPS.gpsData Scenario.healthScenario) = 3
  /\ GPS.hl_overallScore
       (GPS.health (exec (@GPS.calculateHealth (Scenario.platform 5000 5000000))
                         Scenario.healthScenario)) <> 84
  /\ (80 * 30 + 80 * 25 + 80 * 20 + 100 * 15 + 100 * 10) / 100 <> 84.
Proof. repeat split; try reflexivity; vm_compute; discriminate. Qed.

(** ** The satellite table (claims C3 and C4) *)

(** *** The tokenizer *)

Lemma skip_delims_head delims s c rest :
  CStr.skip_delims delims s = c :: rest -> CStr.is_delim delims c = false.
Proof.
  induction s as [|x s IH]; cbn [CStr.skip_delims]; [discriminate|].
  destruct (CStr.is_delim delims x) eqn:Hx; [exact IH|].
  intros Heq. injection Heq as -> _. exact Hx.
Qed.

(** [strtok] never hands out an empty token: the test [strlen (token) == 0]
    of [markSatellitesInUse] never holds. *)
Lemma strtok_nonempty saved delims tok rest :
  CStr.strtok saved delims = (Some tok, rest) -> tok <> [].
Proof.
  unfold CStr.strtok. destruct saved as [s|]; [|discriminate].
  destruct (CStr.skip_delims delims s) as [|c s1] eqn:Hskip; [discriminate|].
  apply skip_delims_head in Hskip. cbn [CStr.scan_token]. rewrite Hskip.
  destruct (CStr.scan_token delims s1) as [tok1 rest1].
  intros Heq. injection Heq as <- _. discriminate.
Qed.

(** A run of separators counts as one: an empty field is passed over. *)
Lemma strtok_empty_field delims d s :
  CStr.is_delim delims d = true ->
  CStr.strtok (Some (d :: s)) delims = CStr.strtok (Some s) delims.
Proof. intros Hd. unfold CStr.strtok. cbn [CStr.skip_delims]. rewrite Hd. reflexivity. Qed.

(** The eleven tokens of the in-use sentence of the scenario as the line
    buffer holds it, the carriage return at its end, and the numbers
    [atoi] reads in those that follow the fix type. *)
Lemma inUseText_tokens :
  let buffer := CStr.chars Scenario.inUseText ++ [Scenario.CR] in
  Nmea.tokens 15 (Some buffer) (CStr.chars ",*")
  = map CStr.chars ["$GNGSA"; "A"; "3"; "10"; "12"; "15"; "1.8"; "1.0"; "1.5"; "1"]%string
    ++ [CStr.chars "3B" ++ [Scenario.CR]]
  /\ map CStr.atoi (drop 3 (Nmea.tokens 15 (Some buffer) (CStr.chars ",*")))
     = [10; 12; 15; 1; 1; 1; 1; 3].
Proof. split; vm_compute; reflexivity. Qed.

(** *** A cycle clears no tracked flag *)

Section Tracked.
Import GPS.
Context `{Platform} `{Decoder}.

Lemma keeps_tracked_updateTime v : keeps trackedKept (updateTime v).
Proof.
  unfold updateTime, setData.
  repeat first [ apply (keeps_fireIf trackedKept trackedKept_other)
               | apply (keeps_millis trackedKept trackedKept_other)
               | keeps_step ltac:(exact (trackedGrows_refl _)) ].
Qed.

(** Whatever the serial link delivers and whatever the clock reads, every
    slot that holds a tracked entry before [process] holds one after it. *)
Lemma process_keeps_tracked available : keeps trackedKept (process available).
Proof.
  intros s.
  transitivity (exec (readLoop available) s).
  { apply (keeps_readLoop trackedKept trackedKept_other trackedKept_data
             trackedKept_tracking). }
  etransitivity; [apply keeps_tracked_updateTime|].
  apply (process_after_updateTime trackedKept trackedKept_other trackedKept_data
           trackedKept_tracking).
Qed.

End Tracked.

(** Claim C3.  The in-use sentence of a 3D fix on the satellites 10, 12
    and 15 (nine empty satellite fields, then PDOP 1.8, HDOP 1.0, VDOP 1.5
    and system id 1) arrives after the visibility sentence that lists
    these three.  After the cycle the entries in use are 10, 12, 15, 1
    and 3: the tokenizer passes over the empty fields, so the twelve reads
    of the satellite loop run on over the three DOP values, the system id
    and the checksum, and [atoi] reads satellite 1 in ["1.8"], ["1.0"],
    ["1.5"] and ["1"] and satellite 3 in the checksum ["3B"]. *)
Theorem C3_in_use_restart :
  let s' := exec (@GPS.process (Scenario.platform 1000 1000000)
                    (Scenario.decoder Scenario.noFix)
                    (Scenario.line Scenario.visibilityText
                     ++ Scenario.line Scenario.inUseText))
                 Scenario.started in
  Nmea.listedInUse (CStr.chars Scenario.inUseText) = [10; 12; 15]
  /\ inUsePRNs (GPS.satTracking s') = [10; 12; 15; 1; 3]
  /\ GPS.trk_totalInUse (GPS.satTracking s') = 5.
Proof. repeat split; vm_compute; reflexivity. Qed.

(** Claim C4.  The visibility sentence comes in during a cycle that
    starts at 1000 ms and leaves three tracked entries and the update
    time 1058 of the table.  A cycle that starts at 40000 ms, more than
    30 s later, and reads nothing leaves the three entries tracked and the
    count at 3: [process] does not call [cleanupStaleSatellites], which at
    that time would have cleared them. *)
Theorem C4_age_out :
  let late := Scenario.platform 40000 40000000 in
  let s := Scenario.afterVisibility in
  let s' := exec (@GPS.process late (Scenario.decoder Scenario.noFix) []) s in
  let aged := exec (@GPS.cleanupStaleSatellites late) s in
  (GPS.trk_lastUpdate (GPS.satTracking s) = 1058
   /\ 30000 < @millis_at late (GPS.ticks s) - GPS.trk_lastUpdate (GPS.satTracking s))
  /\ (map GPS.tracked (take 3 (GPS.trk_satellites (GPS.satTracking s)))
      = [true; true; true]
      /\ map GPS.tracked (take 3 (GPS.trk_satellites (GPS.satTracking s')))
         = [true; true; true]
      /\ GPS.trk_count (GPS.satTracking s') = 3)
  /\ (map GPS.tracked (take 3 (GPS.trk_satellites (GPS.satTracking aged)))
      = [false; false; false]
      /\ GPS.trk_count (GPS.satTracking aged) = 0).
Proof. repeat split; vm_compute; reflexivity. Qed.

(** ** Running the methods of [NTP] *)

Lemma bind_run {S A B} (m : M S A) (k : A -> M S B) s a s' :
  m s = (a, s') -> bind m k s = k a s'.
Proof. intros Hm. unfold bind. rewrite Hm. reflexivity. Qed.

Lemma bind_modify {S B} (f : S -> S) (k : unit -> M S B) s :
  bind (modify f) k s = k tt (f s).
Proof. reflexivity. Qed.

Lemma bind_gets {S A B} (f : S -> A) (k : A -> M S B) s :
  bind (gets f) k s = k (f s) s.
Proof. reflexivity. Qed.

Lemma bind_get {S B} (k : S -> M S B) s : bind get k s = k s s.
Proof. reflexivity. Qed.

Lemma bind_ret {S A B} (a : A) (k : A -> M S B) s : bind (ret a) k s = k a s.
Proof. reflexivity. Qed.

Lemma run_eq {S A} (m : M S A) s : m s = (eval m s, exec m s).
Proof. unfold eval, exec. destruct (m s). reflexivity. Qed.

Section NTPRuns.
Import NTP Wire.
Context `{Platform} (gps : GPS.GPSData).

Lemma bind_micros {B} (k : Z -> M NTPState B) s :
  bind micros k s = k (u32 (micros_at (ticks s))) (s <| ticks ::= Datatypes.S |>).
Proof. reflexivity. Qed.

Lemma bind_millis {B} (k : Z -> M NTPState B) s :
  bind millis k s = k (u32 (millis_at (ticks s))) (s <| ticks ::= Datatypes.S |>).
Proof. reflexivity. Qed.

Ltac run :=
  repeat first [ rewrite bind_modify | rewrite bind_gets | rewrite bind_get
               | rewrite bind_ret | rewrite bind_micros | rewrite bind_millis ].

Lemma checkGlobalRateLimit_run s :
  let now := u32 (millis_at (ticks s)) in
  let g := windowAt now (globalRateLimit s) in
  let s1 := s <| ticks ::= Datatypes.S |> <| globalRateLimit := g |> in
  checkGlobalRateLimit s
  = if globalMaxRequestsPerSec (config s) <=? requestsThisSecond g
    then (false, s1)
    else (true, s1 <| globalRateLimit ::=
                   (fun g => g <| requestsThisSecond ::= (fun n => u32 (n + 1)) |>) |>).
Proof.
  intros now g s1. unfold checkGlobalRateLimit. run.
  subst s1 g now. unfold windowAt. destruct s as [cfg m g cl n buf lb lc lu gu rq out k].
  cbn. destruct (1000 <? _); cbn; destruct (_ <=? _); reflexivity.
Qed.

(** The global check touches the clock-read counter and its own window. *)
Lemma checkGlobalRateLimit_frame s :
  let s' := exec checkGlobalRateLimit s in
  config s' = config s /\ clients s' = clients s /\ clientCount s' = clientCount s
  /\ packetBuffer s' = packetBuffer s /\ sent s' = sent s /\ metrics s' = metrics s
  /\ ticks s' = Datatypes.S (ticks s).
Proof.
  cbv zeta. unfold exec. rewrite checkGlobalRateLimit_run. cbv zeta.
  destruct (_ <=? _); cbn; repeat split; reflexivity.
Qed.

(** [memset] on a buffer of the frame size. *)
Lemma zero_frame (l : list byte) :
  length l = 48%nat ->
  fold_left (fun l i => <[i := 0]> l) (seq 0 48) l = replicate 48 0.
Proof.
  intros Hl.
  do 48 (destruct l as [|? l]; [discriminate Hl|]).
  destruct l; [reflexivity | discriminate Hl].
Qed.

Lemma memset0_run s :
  length (packetBuffer s) = 48%nat ->
  exec (memset0 PacketBuffer) s = s <| packetBuffer := replicate 48 0 |>.
Proof.
  intros Hl. rewrite <- (zero_frame _ Hl).
  destruct s as [cfg m g cl n buf lb lc lu gu rq out k]. reflexivity.
Qed.

Lemma sendKissOfDeath_run (code : string) dg s :
  length (packetBuffer s) = 48%nat ->
  exec (sendKissOfDeath (remoteIP dg) (remotePort dg) code) s = denied code dg s.
Proof.
  intros Hl. unfold sendKissOfDeath. rewrite exec_bind, memset0_run by exact Hl.
  destruct s as [cfg m g cl n buf lb lc lu gu rq out k].
  destruct code as [|c1 [|c2 [|c3 [|c4 rest]]]]; reflexivity.
Qed.

Lemma validateNTPRequest_spec s :
  validateNTPRequest PacketBuffer s = validFrame (packetBuffer s).
Proof.
  unfold validateNTPRequest, validFrame, extractVersion, load, buffer.
  set (v := Z.land (Z.shiftr (nth 0 (packetBuffer s) 0) 3) 7).
  destruct (Z.ltb_spec v 3), (Z.ltb_spec 4 v), (Z.eqb_spec v 3), (Z.eqb_spec v 4);
    try lia; cbn;
    destruct (Z.land (nth 0 (packetBuffer s) 0) 7 =? 3); cbn; try reflexivity;
    destruct (Z.ltb_spec 16 (nth 1 (packetBuffer s) 0)),
             (Z.leb_spec (nth 1 (packetBuffer s) 0) 16); try lia; reflexivity.
Qed.

Lemma isGPSQualitySufficient_spec s :
  isGPSQualitySufficient gps s = true <-> qualityGate gps (config s).
Proof.
  unfold isGPSQualitySufficient, qualityGate.
  destruct (GPS.gd_timeValid gps); cbn; [|intuition discriminate].
  destruct (Z.ltb_spec (GPS.gd_satellites gps) (minSatellites (config s)));
    [intuition (try discriminate; lia)|].
  destruct (Flt.gt _ _); [intuition discriminate|].
  destruct (Z.ltb_spec (maxFixAge (config s)) (GPS.gd_updateAge gps));
    intuition (try discriminate; lia).
Qed.

(** *** The branches of [handleNTPRequests] for a datagram of frame size *)

Section Branches.
Variables (dg : Datagram) (s sg : NTPState) (admitted : bool).
Hypothesis Hsize : length (payload dg) = 48%nat.
Hypothesis Hglobal : checkGlobalRateLimit (received dg s) = (admitted, sg).

Lemma afterGlobal_frame :
  config sg = config s /\ clients sg = clients s /\ clientCount sg = clientCount s
  /\ packetBuffer sg = payload dg /\ sent sg = sent s /\ metrics sg = metrics s
  /\ ticks sg = Datatypes.S (Datatypes.S (ticks s)).
Proof.
  pose proof (checkGlobalRateLimit_frame (received dg s)) as Hf.
  cbv zeta in Hf. unfold exec in Hf. rewrite Hglobal in Hf. exact Hf.
Qed.

Lemma handle_start :
  handleNTPRequests gps (Some dg) s
  = (let clientIP := remoteIP dg in
     let clientPort := remotePort dg in
     if negb admitted then
       bind (setMetrics (fun m => m <| rateLimitedRequests ::= (fun n => u32 (n + 1)) |>))
            (fun _ => modify countDropped) sg
     else if negb (validFrame (payload dg)) then modify countInvalid sg
     else if negb (isGPSQualitySufficient gps sg) then
       bind (modify countNoGPS)
            (fun _ => sendKissOfDeath clientIP clientPort "DENY") sg
     else
       bind (if rateLimitEnabled (config sg)
             then checkClientRateLimit clientIP (extractPollInterval PacketBuffer sg)
             else ret true)
            (fun clientOk =>
               if negb clientOk then
                 bind (modify countRateLimited)
                      (fun _ => sendKissOfDeath clientIP clientPort "RATE")
               else
                 bind millis (fun requestStart =>
                 bind micros (fun _ =>
                 bind (sendNTPResponse gps clientIP clientPort PacketBuffer
                         (u32 (micros_at (ticks s)))) (fun _ =>
                 bind (setMetrics (fun m =>
                         m <| totalRequests ::= (fun n => u32 (n + 1)) |>
                           <| validResponses ::= (fun n => u32 (n + 1)) |>)) (fun _ =>
                 bind millis (fun now =>
                 bind (setMetrics (fun m => m <| lastRequestTime := now |>)) (fun _ =>
                 bind millis (fun now' =>
                 bind (recordResponseTime (u32 (now' - requestStart))) (fun _ =>
                 countVersionAndStratum))))))))) sg).
Proof.
  destruct afterGlobal_frame as (_ & _ & _ & Hbuf & _).
  unfold handleNTPRequests. rewrite Hsize.
  change (Z.of_nat 48 =? NTP_PACKET_SIZE) with true. cbn [negb].
  run. change (s <| ticks ::= Datatypes.S |> <| packetBuffer := payload dg |>)
    with (received dg s).
  rewrite (bind_run _ _ _ _ _ Hglobal). cbv zeta.
  destruct admitted; cbn [negb]; [|reflexivity].
  run. rewrite validateNTPRequest_spec, Hbuf.
  destruct (validFrame (payload dg)); cbn [negb]; [|reflexivity].
  run. destruct (isGPSQualitySufficient gps sg); cbn [negb]; [|reflexivity].
  run. reflexivity.
Qed.

End Branches.

(** ** Claims C2 and C1: the order of the checks and the quality gate *)

(** Claim C2, amended.  For a datagram of frame size the global
    one-second limiter is consulted, and charged, before the format is
    validated: a datagram that fails validation is counted as invalid
    only when the limiter admits it, having used one unit of the budget,
    and is dropped as rate-limited when the budget is used up.  Either
    way the per-client table is not touched and nothing is sent. *)
Theorem C2_check_order dg s admitted sg :
  length (payload dg) = 48%nat ->
  validFrame (payload dg) = false ->
  checkGlobalRateLimit (received dg s) = (admitted, sg) ->
  let s' := exec (handleNTPRequests gps (Some dg)) s in
  let window := windowAt (u32 (millis_at (Datatypes.S (ticks s)))) (globalRateLimit s) in
  s' = (if admitted then countInvalid sg else countDropped (countRateLimited sg))
  /\ (admitted = true ->
      requestsThisSecond (globalRateLimit s') = u32 (requestsThisSecond window + 1))
  /\ (admitted = false ->
      globalMaxRequestsPerSec (config s) <= requestsThisSecond window)
  /\ clients s' = clients s /\ clientCount s' = clientCount s /\ sent s' = sent s.
Proof.
  intros Hsize Hbad Hglobal s' window.
  destruct (afterGlobal_frame dg s sg admitted Hglobal) as (Hc & Hcl & Hn & Hb & Hs & Hm & Ht).
  assert (Hs' : s' = if admitted then countInvalid sg
                     else countDropped (countRateLimited sg)).
  { subst s'. unfold exec. rewrite (handle_start dg s sg admitted Hsize Hglobal).
    cbv zeta. rewrite Hbad. destruct admitted; reflexivity. }
  split; [exact Hs'|].
  pose proof (checkGlobalRateLimit_run (received dg s)) as Hrun. cbv zeta in Hrun.
  rewrite Hglobal in Hrun.
  change (ticks (received dg s)) with (Datatypes.S (ticks s)) in Hrun.
  change (globalRateLimit (received dg s)) with (globalRateLimit s) in Hrun.
  change (config (received dg s)) with (config s) in Hrun.
  fold window in Hrun.
  destruct (Z.leb_spec (globalMaxRequestsPerSec (config s)) (requestsThisSecond window));
    inversion Hrun; subst admitted sg; rewrite Hs'.
  - repeat split; try discriminate; try reflexivity. intros _. assumption.
  - repeat split; try discriminate; reflexivity.
Qed.

(** Claim C1, amended.  A request of frame size that the global limiter
    admits and that passes validation is answered with a normal reply
    only if the snapshot has valid time, at least the configured number
    of satellites, an HDOP that is not above the configured maximum and
    a fix age of at most the configured maximum.  When one of these
    fails the server sends a denial whose reference identifier is
    "DENY", counts the request in [noGPSDropped] (and the denial in
    [kodSent]) and does nothing else. *)
Theorem C1_quality_gate dg s sg :
  length (payload dg) = 48%nat ->
  checkGlobalRateLimit (received dg s) = (true, sg) ->
  validFrame (payload dg) = true ->
  let s' := exec (handleNTPRequests gps (Some dg)) s in
  (isGPSQualitySufficient gps sg = true <-> qualityGate gps (config s))
  /\ (~ qualityGate gps (config s) ->
      s' = denied "DENY" dg (countNoGPS sg)
      /\ referenceId (kissFrame "DENY") = codes "DENY")
  /\ (forall r, In r (sent s') -> ~ In r (sent s) -> sender r = NormalReply ->
      qualityGate gps (config s)).
Proof.
  intros Hsize Hglobal Hvalid s'.
  destruct (afterGlobal_frame dg s sg true Hglobal) as (Hc & Hcl & Hn & Hb & Hs & Hm & Ht).
  pose proof (isGPSQualitySufficient_spec sg) as Hq. rewrite Hc in Hq.
  assert (Hdeny : ~ qualityGate gps (config s) -> s' = denied "DENY" dg (countNoGPS sg)).
  { intros Hno. subst s'. unfold exec.
    rewrite (handle_start dg s sg true Hsize Hglobal). cbv zeta. cbn [negb].
    rewrite Hvalid. cbn [negb].
    destruct (isGPSQualitySufficient gps sg); [exfalso; apply Hno, Hq; reflexivity|].
    cbn [negb]. rewrite bind_modify.
    change (snd (sendKissOfDeath (remoteIP dg) (remotePort dg) "DENY" (countNoGPS sg)))
      with (exec (sendKissOfDeath (remoteIP dg) (remotePort dg) "DENY") (countNoGPS sg)).
    apply sendKissOfDeath_run.
    change (packetBuffer (countNoGPS sg)) with (packetBuffer sg).
    rewrite Hb. exact Hsize. }
  split; [exact Hq|]. split; [intros Hno; split; [auto | reflexivity]|].
  intros r Hin Hnew Hnormal.
  destruct (isGPSQualitySufficient gps sg) eqn:Hgate; [apply Hq; reflexivity|].
  exfalso. assert (Hno : ~ qualityGate gps (config s)) by (rewrite <- Hq; discriminate).
  rewrite (Hdeny Hno) in Hin.
  change (sent (denied "DENY" dg (countNoGPS sg)))
    with (sent sg ++ [{| sender := KissOfDeath; destIP := remoteIP dg;
                         destPort := remotePort dg; bytes := kissFrame "DENY" |}]) in Hin.
  rewrite Hs in Hin.
  apply in_app_or in Hin. destruct Hin as [Hin | [<- | []]]; [auto|].
  discriminate Hnormal.
Qed.

(** ** Claims C10 and C7: the per-client limiter *)

Lemma findOrCreateClient_tracked clientIP s i :
  trackedAt clientIP s = Some i -> findOrCreateClient clientIP s = (i, s).
Proof.
  intros Hi. unfold findOrCreateClient. rewrite bind_get.
  unfold trackedAt in Hi. rewrite Hi. reflexivity.
Qed.

(** The two writes of the denial branch, as one. *)
Lemma penalised_eq c :
  (fun c => if NTP_AGGRESSIVE_THRESHOLD <? aggressiveCount c
            then c <| aggressive := true |> else c)
    (c <| rateLimited := true |> <| aggressiveCount ::= (fun n => u16 (n + 1)) |>)
  = penalised c.
Proof.
  unfold penalised. destruct c as [a l r p v n g rl ver]. cbn.
  destruct (NTP_AGGRESSIVE_THRESHOLD <? u16 (n + 1)); cbn;
    rewrite ?orb_true_r, ?orb_false_r; reflexivity.
Qed.

Lemma client_alter (f : NTPClient -> NTPClient) i s :
  client i (s <| clients ::= alter f i |>)
  = if decide (i < length (clients s))%nat then f (client i s) else client i s.
Proof.
  unfold client. change (clients (s <| clients ::= alter f i |>))
    with (alter f i (clients s)).
  rewrite !nth_lookup. rewrite list_lookup_alter_eq.
  destruct (decide (i < length (clients s))%nat) as [Hlt|Hge].
  - destruct (lookup_lt_is_Some_2 _ _ Hlt) as [c Hc]. rewrite Hc. reflexivity.
  - rewrite lookup_ge_None_2 by lia. reflexivity.
Qed.

(** The limiter denies exactly when the request comes sooner than the
    minimum interval after [lastRequest], and then it only penalises the
    entry it was handed. *)
Lemma checkClientRateLimit_run clientIP pollInterval s :
  let i := eval (findOrCreateClient clientIP) s in
  let s1 := exec (findOrCreateClient clientIP) s in
  let now := u32 (millis_at (ticks s1)) in
  u32 (now - lastRequest (client i s1)) < perClientMinInterval (config s1) ->
  checkClientRateLimit clientIP pollInterval s
  = (false, s1 <| ticks ::= Datatypes.S |> <| clients ::= alter penalised i |>).
Proof.
  intros i s1 now Hsoon. unfold checkClientRateLimit.
  rewrite (bind_run _ _ _ _ _ (run_eq (findOrCreateClient clientIP) s)).
  fold i s1. rewrite bind_millis, bind_get. cbv zeta.
  change (client i (s1 <| ticks ::= Datatypes.S |>)) with (client i s1).
  change (config (s1 <| ticks ::= Datatypes.S |>)) with (config s1).
  fold now. destruct (Z.ltb_spec (u32 (now - lastRequest (client i s1)))
                                 (perClientMinInterval (config s1))); [|lia].
  unfold setClient. rewrite !bind_modify. unfold ret. f_equal.
  destruct s1 as [cfg m g cl n buf lb lc lu gu rq out k]. cbn.
  f_equal. rewrite list_alter_alter_eq.
  apply list_alter_ext; [|reflexivity]. intros c _. apply penalised_eq.
Qed.


Lemma first_index_bounds {A} (p : A -> bool) l k i :
  first_index p l k = Some i -> (k <= i < k + length l)%nat.
Proof.
  revert k. induction l as [|x l IH]; intros k; cbn; [discriminate|].
  destruct (p x).
  - intros [= <-]. lia.
  - intros Hi. apply IH in Hi. lia.
Qed.

Lemma trackedAt_bounds clientIP s i :
  trackedAt clientIP s = Some i -> (i < length (clients s))%nat.
Proof.
  intros Hi. apply first_index_bounds in Hi. rewrite length_take in Hi. lia.
Qed.









(** Claim C7, amended.  With per-client limiting enabled, a request that
    the global limiter admits, that passes validation and the quality
    gate and whose source is in the table, arriving sooner than the
    configured minimum interval after that source's [lastRequest], gets
    a denial with reference identifier "RATE" and no normal reply; the
    source's aggressive counter goes up by one modulo 2^16 (by exactly
    one below 65535) and its aggressive flag is set once the new count
    is above the threshold of 10, and is never cleared here. *)
Theorem C7_rate_denial dg s sg i :
  length (payload dg) = 48%nat ->
  checkGlobalRateLimit (received dg s) = (true, sg) ->
  validFrame (payload dg) = true ->
  qualityGate gps (config s) ->
  rateLimitEnabled (config s) = true ->
  trackedAt (remoteIP dg) s = Some i ->
  let now := u32 (millis_at (ticks sg)) in
  let c := client i s in
  u32 (now - lastRequest c) < perClientMinInterval (config s) ->
  let s' := exec (handleNTPRequests gps (Some dg)) s in
  s' = denied "RATE" dg
         (countRateLimited (sg <| ticks ::= Datatypes.S |> <| clients ::= alter penalised i |>))
  /\ referenceId (kissFrame "RATE") = codes "RATE"
  /\ (forall r, In r (sent s') -> ~ In r (sent s) ->
      sender r = KissOfDeath /\ bytes r = kissFrame "RATE")
  /\ client i s' = penalised c
  /\ aggressiveCount (client i s') = (aggressiveCount c + 1) mod 2 ^ 16
  /\ (0 <= aggressiveCount c < 65535 ->
      aggressiveCount (client i s') = aggressiveCount c + 1)
  /\ aggressive (client i s')
     = aggressive c || (NTP_AGGRESSIVE_THRESHOLD <? aggressiveCount (client i s')).
Proof.
  intros Hsize Hglobal Hvalid Hgate Hlimit Htracked now c Hsoon s'.
  destruct (afterGlobal_frame dg s sg true Hglobal) as (Hc & Hcl & Hn & Hb & Hs & Hm & Ht).
  assert (Htracked' : trackedAt (remoteIP dg) sg = Some i)
    by (unfold trackedAt in *; rewrite Hcl, Hn; exact Htracked).
  assert (Hclient : client i sg = c) by (unfold c, client; rewrite Hcl; reflexivity).
  assert (Hs' : s' = denied "RATE" dg
            (countRateLimited (sg <| ticks ::= Datatypes.S |> <| clients ::= alter penalised i |>))).
  { subst s'. unfold exec.
    rewrite (handle_start dg s sg true Hsize Hglobal). cbv zeta. cbn [negb].
    rewrite Hvalid. cbn [negb].
    rewrite (proj2 (isGPSQualitySufficient_spec sg)) by (rewrite Hc; exact Hgate).
    cbn [negb]. rewrite Hc, Hlimit.
    pose proof (checkClientRateLimit_run (remoteIP dg)
                  (extractPollInterval PacketBuffer sg) sg) as Hrun.
    cbv zeta in Hrun. unfold eval, exec in Hrun.
    rewrite (findOrCreateClient_tracked _ _ _ Htracked') in Hrun. cbn [fst snd] in Hrun.
    rewrite Hclient, Hc in Hrun. specialize (Hrun Hsoon).
    rewrite (bind_run _ _ _ _ _ Hrun). cbn [negb]. rewrite bind_modify.
    match goal with
    | |- snd (sendKissOfDeath ?a ?b ?code ?st) = _ =>
        change (snd (sendKissOfDeath a b code st)) with (exec (sendKissOfDeath a b code) st)
    end.
    apply sendKissOfDeath_run.
    change (length (packetBuffer sg) = 48%nat). rewrite Hb. exact Hsize. }
  assert (Hpen : client i s' = penalised c).
  { rewrite Hs'.
    change (client i (denied "RATE" dg
              (countRateLimited (sg <| ticks ::= Datatypes.S |> <| clients ::= alter penalised i |>))))
      with (client i ((sg <| ticks ::= Datatypes.S |>) <| clients ::= alter penalised i |>)).
    rewrite client_alter.
    change (clients (sg <| ticks ::= Datatypes.S |>)) with (clients sg).
    change (client i (sg <| ticks ::= Datatypes.S |>)) with (client i sg).
    pose proof (trackedAt_bounds _ _ _ Htracked').
    destruct (decide _); [rewrite Hclient; reflexivity | lia]. }
  split; [exact Hs'|]. split; [reflexivity|]. split; [|split; [exact Hpen|]].
  - intros r Hin Hnew. rewrite Hs' in Hin.
    change (In r (sent sg ++ [{| sender := KissOfDeath; destIP := remoteIP dg;
                                 destPort := remotePort dg;
                                 bytes := kissFrame "RATE" |}])) in Hin.
    rewrite Hs in Hin. apply in_app_or in Hin.
    destruct Hin as [Hin | [<- | []]]; [contradiction|]. split; reflexivity.
  - rewrite Hpen. unfold penalised. cbn.
    split; [reflexivity|]. split; [|reflexivity].
    intros Hrange. apply u16_small. lia.
Qed.

End NTPRuns.

(** ** The claims on the NTP server at concrete requests *)

(** The scenarios use a millisecond clock that reads 5000 at the first
    read: the global check of a call reads 5001, the per-client check 5002. *)

(** C2 at a version-2 datagram arriving at the fresh server. *)
Lemma C2_check_order_witness :
  (length (NTP.payload Scenario.version2Request) = 48%nat
   /\ Wire.validFrame (NTP.payload Scenario.version2Request) = false
   /\ fst (@NTP.checkGlobalRateLimit (Scenario.platform 5000 5000000)
             (Wire.received Scenario.version2Request Scenario.fresh)) = true)
  /\ exec (@NTP.handleNTPRequests (Scenario.platform 5000 5000000) Scenario.goodFix
             (Some Scenario.version2Request)) Scenario.fresh
     = Wire.countInvalid
         (snd (@NTP.checkGlobalRateLimit (Scenario.platform 5000 5000000)
                 (Wire.received Scenario.version2Request Scenario.fresh))).
Proof.
  split; [repeat split; reflexivity|].
  exact (proj1 (@C2_check_order (Scenario.platform 5000 5000000) Scenario.goodFix
                  Scenario.version2Request Scenario.fresh true _
                  eq_refl eq_refl eq_refl)).
Defined.

(** Claim C2 as stated fails: a datagram that fails validation (version
    2) uses up a unit of the global budget at the fresh server, where it
    is the first request of its second, and is dropped as rate-limited,
    not as invalid, at the server whose budget is used up. *)
Lemma C2_counterexample :
  length (NTP.payload Scenario.version2Request) = 48%nat
  /\ Wire.validFrame (NTP.payload Scenario.version2Request) = false
  /\ (let s' := exec (@NTP.handleNTPRequests (Scenario.platform 5000 5000000)
                       Scenario.goodFix (Some Scenario.version2Request))
                     Scenario.fresh in
      NTP.requestsThisSecond (NTP.globalRateLimit s') = 1
      /\ NTP.invalidRequests (NTP.metrics s') = 1)
  /\ (let s' := exec (@NTP.handleNTPRequests (Scenario.platform 5000 5000000)
                       Scenario.goodFix (Some Scenario.version2Request))
                     Scenario.flooded in
      NTP.rateLimitedRequests (NTP.metrics s') = 1
      /\ NTP.droppedThisSecond (NTP.globalRateLimit s') = 1
      /\ NTP.invalidRequests (NTP.metrics s') = 0).
Proof. repeat split; vm_compute; reflexivity. Qed.

(** C1 at a request arriving at the fresh server while three satellites
    are in use and four are required: a "DENY" denial and nothing else. *)
Lemma C1_quality_gate_witness :
  (length (NTP.payload Scenario.clientRequest) = 48%nat
   /\ Wire.validFrame (NTP.payload Scenario.clientRequest) = true
   /\ fst (@NTP.checkGlobalRateLimit (Scenario.platform 5000 5000000)
             (Wire.received Scenario.clientRequest Scenario.fresh)) = true
   /\ GPS.gd_satellites Scenario.threeSatellites = 3
   /\ NTP.minSatellites (NTP.config Scenario.fresh) = 4)
  /\ exec (@NTP.handleNTPRequests (Scenario.platform 5000 5000000)
             Scenario.threeSatellites (Some Scenario.clientRequest)) Scenario.fresh
     = Wire.denied "DENY" Scenario.clientRequest
         (Wire.countNoGPS
            (snd (@NTP.checkGlobalRateLimit (Scenario.platform 5000 5000000)
                    (Wire.received Scenario.clientRequest Scenario.fresh)))).
Proof.
  split; [repeat split; reflexivity|].
  refine (proj1 (proj1 (proj2 (@C1_quality_gate (Scenario.platform 5000 5000000)
                                 Scenario.threeSatellites Scenario.clientRequest
                                 Scenario.fresh _ eq_refl eq_refl eq_refl)) _)).
  intros (_ & Hsat & _). exact (Hsat eq_refl).
Defined.

(** Claim C1 as stated fails in two places.  While the global budget is
    used up, a well-formed request that arrives with three satellites in
    use and four required gets no denial at all: nothing is sent and it
    is counted as rate-limited.  And a request is answered with a normal
    reply while the HDOP is not a number, which is not "at most the
    maximum": the gate only refuses an HDOP above the maximum. *)
Lemma C1_counterexample :
  (length (NTP.payload Scenario.clientRequest) = 48%nat
   /\ Wire.validFrame (NTP.payload Scenario.clientRequest) = true
   /\ GPS.gd_satellites Scenario.threeSatellites = 3
   /\ NTP.minSatellites (NTP.config Scenario.flooded) = 4)
  /\ (let s' := exec (@NTP.handleNTPRequests (Scenario.platform 5000 5000000)
                       Scenario.threeSatellites (Some Scenario.clientRequest))
                     Scenario.flooded in
      NTP.sent s' = [] /\ NTP.noGPSDropped (NTP.metrics s') = 0
      /\ NTP.rateLimitedRequests (NTP.metrics s') = 1)
  /\ (let s' := exec (@NTP.handleNTPRequests (Scenario.platform 5000 5000000)
                       Scenario.hdopNaN (Some Scenario.clientRequest))
                     Scenario.fresh in
      map NTP.sender (NTP.sent s') = [NTP.NormalReply]
      /\ Flt.le (GPS.gd_hdop Scenario.hdopNaN)
                (Flt.f64_of_f32 (NTP.maxHDOP (NTP.config Scenario.fresh))) = false).
Proof. repeat split; vm_compute; reflexivity. Qed.

(** C7 at a request from a source served 102 ms earlier, with three
    denials on its record: a "RATE" denial, four denials on record. *)
Lemma C7_rate_denial_witness :
  (length (NTP.payload Scenario.clientRequest) = 48%nat
   /\ Wire.validFrame (NTP.payload Scenario.clientRequest) = true
   /\ fst (@NTP.checkGlobalRateLimit (Scenario.platform 5000 5000000)
             (Wire.received Scenario.clientRequest
                (Scenario.withClient 3 Scenario.fresh))) = true
   /\ Wire.qualityGate Scenario.goodFix (NTP.config Scenario.fresh)
   /\ Wire.trackedAt (NTP.remoteIP Scenario.clientRequest)
        (Scenario.withClient 3 Scenario.fresh) = Some 0%nat
   /\ 5002 - NTP.lastRequest (NTP.client 0 (Scenario.withClient 3 Scenario.fresh))
      < NTP.perClientMinInterval (NTP.config Scenario.fresh))
  /\ (let s' := exec (@NTP.handleNTPRequests (Scenario.platform 5000 5000000)
                       Scenario.goodFix (Some Scenario.clientRequest))
                     (Scenario.withClient 3 Scenario.fresh) in
      NTP.client 0 s' = Wire.penalised (Scenario.knownClient 3)
      /\ NTP.aggressiveCount (NTP.client 0 s') = 3 + 1).
Proof.
  assert (Hgate : Wire.qualityGate Scenario.goodFix (NTP.config Scenario.fresh)).
  { unfold Wire.qualityGate. vm_compute. repeat split; try reflexivity; discriminate. }
  split.
  { split; [reflexivity|]. split; [reflexivity|]. split; [reflexivity|].
    split; [exact Hgate|]. split; [reflexivity|]. vm_compute. reflexivity. }
  pose proof (@C7_rate_denial (Scenario.platform 5000 5000000) Scenario.goodFix
                Scenario.clientRequest (Scenario.withClient 3 Scenario.fresh) _ 0%nat
                eq_refl eq_refl eq_refl Hgate eq_refl eq_refl) as Hthm.
  cbv zeta in Hthm.
  destruct (Hthm ltac:(vm_compute; reflexivity)) as (_ & _ & _ & Hpen & _ & Hone & _).
  split; [exact Hpen|]. apply Hone. vm_compute. split; [discriminate | reflexivity].
Defined.

(** Claim C7 as stated fails in two places.  At 65535 denials on record
    the next denial leaves 0, not one more.  And while the global budget
    is used up the early request gets no "RATE" denial: nothing is sent
    and the record of its source is not touched. *)
Lemma C7_counterexample :
  (let s := Scenario.withClient 65535 Scenario.fresh in
   let s' := exec (@NTP.handleNTPRequests (Scenario.platform 5000 5000000)
                     Scenario.goodFix (Some Scenario.clientRequest)) s in
   map (fun r => Wire.referenceId (NTP.bytes r)) (NTP.sent s') = [Wire.codes "RATE"]
   /\ NTP.aggressiveCount (NTP.client 0 s) = 65535
   /\ NTP.aggressiveCount (NTP.client 0 s') = 0)
  /\ (let s := Scenario.withClient 3 Scenario.flooded in
      let s' := exec (@NTP.handleNTPRequests (Scenario.platform 5000 5000000)
                        Scenario.goodFix (Some Scenario.clientRequest)) s in
      NTP.sent s' = []
      /\ NTP.client 0 s' = NTP.client 0 s
      /\ NTP.rateLimitedRequests (NTP.metrics s') = 1).
Proof. repeat split; vm_compute; reflexivity. Qed.



(** ** The reply frame (claims C8 and C9) *)

Ltac same_close :=
  unfold same, Wire.wire; first [reflexivity | destruct (negb _); reflexivity].

Section NTPReplies.
Import NTP Wire.
Context `{Platform} (gps : GPS.GPSData).

(** *** Reads of the request while the reply is being written *)

Lemma microsToNTP_buffers t s :
  packetBuffer (exec (microsToNTP gps t) s) = packetBuffer s
  /\ request (exec (microsToNTP gps t) s) = request s.
Proof.
  unfold microsToNTP. rewrite exec_bind. cbn [modify exec eval fst snd].
  rewrite exec_bind. cbn [get exec eval fst snd]. cbv zeta.
  destruct (4294967295 <? _); cbn [ret exec snd];
    destruct (negb _); split; reflexivity.
Qed.

(** The receive and transmit timestamps are written behind byte 31. *)
Lemma writeNTPTimestamp_head off ts s :
  (32 <= off)%nat ->
  take 32 (packetBuffer (exec (writeNTPTimestamp PacketBuffer off ts) s))
  = take 32 (packetBuffer s).
Proof.
  intros Hoff. destruct s as [cfg m g cl n buf lb lc lu gu rq out k].
  cbn. rewrite !take_insert_ge by lia. reflexivity.
Qed.

Lemma extractPollInterval_clamp p s :
  extractPollInterval p s = clampPoll (load p 2 s).
Proof.
  unfold extractPollInterval, clampPoll. cbv zeta.
  destruct (Z.ltb_spec (load p 2 s) 4).
  - destruct (Z.ltb_spec 10 4); lia.
  - destruct (Z.ltb_spec 10 (load p 2 s)); lia.
Qed.

Lemma extractVersion_range p s : 0 <= extractVersion p s <= 7.
Proof.
  unfold extractVersion. change (Z.land ?x 7) with (Z.land x (Z.ones 3)).
  rewrite Z.land_ones by lia. change (2 ^ 3) with 8.
  pose proof (Z.mod_pos_bound (Z.shiftr (load p 0 s) 3) 8 eq_refl). lia.
Qed.

(** The version bits of the first byte, as [buildNTPPacket] packs them. *)
Lemma version_bits (li v : Z) :
  li = 0 \/ li = 3 -> 0 <= v <= 7 ->
  Z.land (Z.shiftr (u8 (Z.lor (Z.lor (Z.shiftl li 6) (Z.shiftl v 3)) 4)) 3) 7 = v.
Proof.
  intros Hli Hv.
  assert (Hcases : v = 0 \/ v = 1 \/ v = 2 \/ v = 3 \/ v = 4 \/ v = 5 \/ v = 6 \/ v = 7)
    by lia.
  destruct Hli as [-> | ->];
    repeat (destruct Hcases as [-> | Hcases]; [reflexivity|]); subst v; reflexivity.
Qed.

(** The first byte, the poll byte and the originate field lie in the
    first 32 bytes of a frame. *)
Lemma field_of_head (b : list byte) :
  pollByte b = nth 2 (take 32 b) 0
  /\ originateTimestamp b = drop 24 (take 32 b)
  /\ nth 0 b 0 = nth 0 (take 32 b) 0.
Proof.
  unfold pollByte, originateTimestamp. rewrite take_drop_commute.
  do 3 (destruct b as [|? b]; [repeat split; reflexivity|]).
  repeat split; reflexivity.
Qed.

(** From the buffer after [buildNTPPacket] to its first 32 bytes as the
    copy of the originate timestamp leaves them. *)
Ltac to_head :=
  unfold buildNTPPacket;
  cbv zeta; unfold calculateRootDelayDispersion; cbv zeta; cbv beta iota;
  repeat rewrite exec_bind;
  rewrite writeNTPTimestamp_head by lia;
  rewrite (proj1 (microsToNTP_buffers _ _));
  rewrite writeNTPTimestamp_head by lia;
  rewrite (proj1 (microsToNTP_buffers _ _)).

(** [request] and [packet] are the same array, as in the call of
    [sendNTPResponse] by [handleNTPRequests]: the frame is zeroed before
    the request is read, so the version is echoed as 0, the poll
    exponent is that of a zero byte, and the originate timestamp is
    copied from the zeroed bytes 40 .. 47. *)
Lemma buildNTPPacket_aliased s rx tx :
  length (packetBuffer s) = 48%nat ->
  let b := packetBuffer (exec (buildNTPPacket gps PacketBuffer PacketBuffer rx tx) s) in
  Z.land (Z.shiftr (nth 0 b 0) 3) 7 = 0
  /\ pollByte b = 4
  /\ originateTimestamp b = replicate 8 0.
Proof.
  intros Hl b. destruct (field_of_head b) as (-> & -> & ->). subst b.
  to_head. rewrite memset0_run by exact Hl.
  destruct s as [cfg m g cl n buf lb lc lu gu rq out k].
  destruct cfg as [a1 a2 a3 a4 a5 a6 a7 a8 a9 a10 a11 a12 a13 a14].
  clear Hl.
  destruct (negb (GPS.gd_timeValid gps) || (2000 <? GPS.gd_updateAge gps));
    destruct a11 as [|r1 [|r2 [|r3 [|r4 rr]]]]; repeat split; reflexivity.
Qed.

(** [request] is an array of its own, as in [sendBroadcast]: version,
    clamped poll exponent and transmit timestamp of the request are in
    the frame. *)
Lemma buildNTPPacket_distinct s rx tx :
  length (packetBuffer s) = 48%nat ->
  let b := packetBuffer
             (exec (buildNTPPacket gps PacketBuffer BroadcastRequest rx tx) s) in
  Z.land (Z.shiftr (nth 0 b 0) 3) 7 = extractVersion BroadcastRequest s
  /\ pollByte b = clampPoll (pollByte (request s))
  /\ originateTimestamp b = map (fun i => nth i (request s) 0) (seq 40 8).
Proof.
  intros Hl b.
  rewrite <- (extractPollInterval_clamp BroadcastRequest s
              : _ = clampPoll (pollByte (request s))).
  destruct (field_of_head b) as (-> & -> & ->). subst b.
  to_head. rewrite memset0_run by exact Hl.
  pose proof (extractVersion_range BroadcastRequest s) as Hv.
  destruct s as [cfg m g cl n buf lb lc lu gu rq out k].
  destruct cfg as [a1 a2 a3 a4 a5 a6 a7 a8 a9 a10 a11 a12 a13 a14].
  clear Hl.
  split; [|destruct a11 as [|r1 [|r2 [|r3 [|r4 rr]]]]; split; reflexivity].
  destruct a11 as [|r1 [|r2 [|r3 [|r4 rr]]]]; cbn;
    (apply version_bits; [destruct (negb _ || _); auto | exact Hv]).
Qed.

(** *** What reaches the socket *)

Lemma keeps_wire_millis : keeps (same wire) millis.
Proof. intros s. reflexivity. Qed.

Lemma keeps_wire_setMetrics f : keeps (same wire) (setMetrics f).
Proof. intros s. reflexivity. Qed.

Lemma keeps_wire_setClient i f : keeps (same wire) (setClient i f).
Proof. intros s. reflexivity. Qed.

Lemma keeps_wire_findOrCreateClient clientIP :
  keeps (same wire) (findOrCreateClient clientIP).
Proof.
  unfold findOrCreateClient.
  repeat first [ apply keeps_wire_setClient | keeps_step same_close ].
Qed.

Lemma keeps_wire_checkClientRateLimit clientIP pollInterval :
  keeps (same wire) (checkClientRateLimit clientIP pollInterval).
Proof.
  unfold checkClientRateLimit, updateClientStats.
  repeat first [ apply keeps_wire_setClient | apply keeps_wire_millis
               | apply keeps_wire_findOrCreateClient | keeps_step same_close ].
Qed.

(** The statistics kept once the reply has been sent. *)
Lemma keeps_wire_bookkeeping requestStart :
  keeps (same wire)
    (bind (setMetrics (fun m =>
             m <| totalRequests ::= (fun n => u32 (n + 1)) |>
               <| validResponses ::= (fun n => u32 (n + 1)) |>)) (fun _ =>
     bind millis (fun now =>
     bind (setMetrics (fun m => m <| lastRequestTime := now |>)) (fun _ =>
     bind millis (fun now' =>
     bind (recordResponseTime (u32 (now' - requestStart))) (fun _ =>
     countVersionAndStratum)))))).
Proof.
  unfold recordResponseTime, countVersionAndStratum.
  repeat first [ apply keeps_wire_setMetrics | apply keeps_wire_millis
               | keeps_step same_close ].
Qed.

Lemma keeps_sent_store p i v : keeps (same sent) (store p i v).
Proof. intros s. destruct p; reflexivity. Qed.

Ltac sent_step :=
  lazymatch goal with
  | |- keeps _ (store _ _ _) => apply keeps_sent_store
  | |- keeps _ (for_loop _ _ _) => apply keeps_for_loop; [exact _ | intros ?]
  | |- keeps _ (writeWord _ _ _) => unfold writeWord
  | |- keeps _ (writeNTPTimestamp _ _ _) => unfold writeNTPTimestamp
  | |- keeps _ (memset0 _) => unfold memset0
  | |- keeps _ (memcpy _ _ _ _ _) => unfold memcpy
  | |- keeps _ (memcpy_const _ _ _) => unfold memcpy_const
  | |- keeps _ (microsToNTP _ _) => unfold microsToNTP
  | |- _ => keeps_step same_close
  end.

Lemma keeps_sent_buildNTPPacket p r rx tx :
  keeps (same sent) (buildNTPPacket gps p r rx tx).
Proof. unfold buildNTPPacket. repeat sent_step. Qed.

(** The reply to a request held in [packetBuffer]. *)
Lemma sendNTPResponse_aliased clientIP clientPort rx s :
  length (packetBuffer s) = 48%nat ->
  exists r,
    sent (exec (sendNTPResponse gps clientIP clientPort PacketBuffer rx) s)
    = sent s ++ [r]
    /\ sender r = NormalReply /\ destIP r = clientIP /\ destPort r = clientPort
    /\ Z.land (Z.shiftr (nth 0 (bytes r) 0) 3) 7 = 0
    /\ pollByte (bytes r) = 4
    /\ originateTimestamp (bytes r) = replicate 8 0.
Proof.
  intros Hl. unfold sendNTPResponse, exec at 1. rewrite bind_micros.
  set (s1 := s <| ticks ::= Datatypes.S |>). set (tx := u32 _).
  change (snd (bind ?m ?k ?x)) with (exec (bind m k) x). rewrite exec_bind.
  assert (Hl1 : length (packetBuffer s1) = 48%nat) by exact Hl.
  pose proof (buildNTPPacket_aliased s1 rx tx Hl1) as Hb. cbv zeta in Hb.
  pose proof (keeps_sent_buildNTPPacket PacketBuffer PacketBuffer rx tx s1) as Hs.
  set (s2 := exec (buildNTPPacket gps PacketBuffer PacketBuffer rx tx) s1) in *.
  unfold same in Hs. clearbody s2.
  exists {| sender := NormalReply; destIP := clientIP; destPort := clientPort;
            bytes := take 48 (packetBuffer s2) |}.
  split.
  - change (sent s) with (sent s1). rewrite <- Hs. reflexivity.
  - cbn [sender destIP destPort bytes]. repeat split.
    all: destruct (field_of_head (take 48 (packetBuffer s2))) as (Hp & Ho & Hv);
         destruct (field_of_head (packetBuffer s2)) as (Hp' & Ho' & Hv');
         rewrite take_take in Hp, Ho, Hv; cbn [Nat.min] in Hp, Ho, Hv.
    + rewrite Hv, <- Hv'. apply Hb.
    + rewrite Hp, <- Hp'. apply Hb.
    + rewrite Ho, <- Ho'. apply Hb.
Qed.

(** Whatever the request, the server state and the snapshot: a datagram
    of frame size adds to the frames sent either nothing, or a kiss of
    death, or a normal reply whose version bits are 0, whose poll
    exponent is 4 and whose originate timestamp is zero. *)
Lemma replies_lose_request dg s :
  length (payload dg) = 48%nat ->
  exists out,
    sent (exec (handleNTPRequests gps (Some dg)) s) = sent s ++ out
    /\ Forall (fun r => sender r = NormalReply ->
                 Z.land (Z.shiftr (nth 0 (bytes r) 0) 3) 7 = 0
                 /\ pollByte (bytes r) = 4
                 /\ originateTimestamp (bytes r) = replicate 8 0) out.
Proof.
  intros Hsize.
  destruct (checkGlobalRateLimit (received dg s)) as [admitted sg] eqn:Hglobal.
  destruct (afterGlobal_frame dg s sg admitted Hglobal) as (_ & _ & _ & Hbuf & Hsent & _).
  assert (Hlen : length (packetBuffer sg) = 48%nat) by (rewrite Hbuf; exact Hsize).
  assert (Hkiss : forall code s0, wire s0 = wire sg ->
            exists out,
              sent (exec (sendKissOfDeath (remoteIP dg) (remotePort dg) code) s0)
              = sent s ++ out
              /\ Forall (fun r => sender r = NormalReply ->
                   Z.land (Z.shiftr (nth 0 (bytes r) 0) 3) 7 = 0
                   /\ pollByte (bytes r) = 4
                   /\ originateTimestamp (bytes r) = replicate 8 0) out).
  { intros code s0 Hw.
    assert (Hb0 : packetBuffer s0 = packetBuffer sg) by exact (f_equal fst Hw).
    assert (Hs0 : sent s0 = sent sg) by exact (f_equal snd Hw).
    rewrite sendKissOfDeath_run by (rewrite Hb0; exact Hlen).
    exists [{| sender := KissOfDeath; destIP := remoteIP dg; destPort := remotePort dg;
               bytes := kissFrame code |}].
    split.
    - rewrite <- Hsent, <- Hs0. reflexivity.
    - constructor; [discriminate | constructor]. }
  unfold exec at 1. rewrite (handle_start gps dg s sg admitted Hsize Hglobal). cbv zeta.
  destruct admitted; cbn [negb].
  2:{ exists []. rewrite app_nil_r. split; [exact Hsent | constructor]. }
  destruct (validFrame (payload dg)); cbn [negb].
  2:{ exists []. rewrite app_nil_r. split; [exact Hsent | constructor]. }
  destruct (isGPSQualitySufficient gps sg); cbn [negb].
  2:{ rewrite bind_modify. apply Hkiss. reflexivity. }
  change (snd (bind ?m ?k ?x)) with (exec (bind m k) x). rewrite exec_bind.
  set (check := if rateLimitEnabled (config sg) then _ else _).
  assert (Hcheck : wire (exec check sg) = wire sg).
  { subst check. destruct (rateLimitEnabled (config sg)).
    - apply keeps_wire_checkClientRateLimit.
    - reflexivity. }
  destruct (eval check sg); cbn [negb].
  2:{ unfold exec at 1. rewrite bind_modify. apply Hkiss. exact Hcheck. }
  unfold exec at 1. rewrite bind_millis, bind_micros.
  change (snd (bind ?m ?k ?x)) with (exec (bind m k) x). rewrite exec_bind.
  set (s1 := (exec check sg) <| ticks ::= Datatypes.S |> <| ticks ::= Datatypes.S |>).
  assert (Hb1 : packetBuffer (exec check sg) = packetBuffer sg)
    by exact (f_equal fst Hcheck).
  assert (Hs1 : sent (exec check sg) = sent sg) by exact (f_equal snd Hcheck).
  destruct (sendNTPResponse_aliased (remoteIP dg) (remotePort dg)
              (u32 (micros_at (ticks s))) s1) as (r & Hr & _ & _ & _ & Hfields).
  { change (packetBuffer s1) with (packetBuffer (exec check sg)).
    rewrite Hb1. exact Hlen. }
  exists [r]. split.
  - set (sr := exec (sendNTPResponse gps _ _ _ _) s1) in *.
    transitivity (sent sr); [exact (f_equal snd (keeps_wire_bookkeeping _ sr))|].
    rewrite Hr. change (sent s1) with (sent (exec check sg)).
    rewrite Hs1, Hsent. reflexivity.
  - constructor; [intros _; exact Hfields | constructor].
Qed.

End NTPReplies.

(** Claim C8.  A version-4 request with poll exponent 6 and transmit
    timestamp E9 8C 41 C0 12 34 56 78 arrives at the fresh server while
    the fix is good.  One frame is sent, a normal reply, and its
    originate timestamp is eight zero bytes, not the transmit timestamp
    of the request: [sendNTPResponse] hands [packetBuffer] to
    [buildNTPPacket] as the request and as the frame to fill, and the
    frame is zeroed before the timestamp is copied. *)
Theorem C8_originate_echo :
  let s' := exec (@NTP.handleNTPRequests (Scenario.platform 5000 5000000)
                    Scenario.goodFix (Some Scenario.clientRequest))
                 Scenario.fresh in
  Wire.transmitTimestamp (NTP.payload Scenario.clientRequest)
  = [233; 140; 65; 192; 18; 52; 86; 120]
  /\ map NTP.sender (NTP.sent s') = [NTP.NormalReply]
  /\ map (fun r => Wire.originateTimestamp (NTP.bytes r)) (NTP.sent s')
     = [[0; 0; 0; 0; 0; 0; 0; 0]].
Proof. repeat split; vm_compute; reflexivity. Qed.

(** Claim C9.  The same request carries the poll exponent 6, which lies
    in 4 .. 10 and is its own clamped value.  The poll byte of the normal
    reply is 4: the exponent is read in the frame after it was zeroed, and
    a zero byte is clamped to 4. *)
Theorem C9_poll_clamp :
  let s' := exec (@NTP.handleNTPRequests (Scenario.platform 5000 5000000)
                    Scenario.goodFix (Some Scenario.clientRequest))
                 Scenario.fresh in
  Wire.pollByte (NTP.payload Scenario.clientRequest) = 6
  /\ Wire.clampPoll (Wire.pollByte (NTP.payload Scenario.clientRequest)) = 6
  /\ map NTP.sender (NTP.sent s') = [NTP.NormalReply]
  /\ map (fun r => Wire.pollByte (NTP.bytes r)) (NTP.sent s') = [4].
Proof. repeat split; vm_compute; reflexivity. Qed.

(* ---------------------------------------------------------------------- *)
(** ** Further properties of the NTP server                                 *)
(* ---------------------------------------------------------------------- *)

(** Closing a goal [same f s (g s)] where [g] writes members that [f]
    does not read. *)
Ltac untouched :=
  unfold same; try reflexivity; cbn;
  repeat match goal with
         | |- context [match ?x with _ => _ end] =>
             lazymatch x with
             | context [match _ with _ => _ end] => fail
             | _ => destruct x
             end
         end;
  reflexivity.

(** The same for the length of a buffer under writes of single bytes. *)
Ltac same_length :=
  unfold same; cbn;
  repeat match goal with
         | |- context [match ?x with _ => _ end] =>
             lazymatch x with
             | context [match _ with _ => _ end] => fail
             | _ => destruct x
             end
         end;
  cbn; rewrite ?length_insert; reflexivity.

(** One structural step on a goal [keeps R m] for a method of [NTP]. *)
Ltac ntp_step_with close :=
  lazymatch goal with
  | |- keeps _ (NTP.store _ _ _) => unfold NTP.store
  | |- keeps _ (for_loop _ _ _) => apply keeps_for_loop; [exact _ | intros ?]
  | |- keeps _ (NTP.writeWord _ _ _) => unfold NTP.writeWord
  | |- keeps _ (NTP.writeNTPTimestamp _ _ _) => unfold NTP.writeNTPTimestamp
  | |- keeps _ (NTP.memset0 _) => unfold NTP.memset0
  | |- keeps _ (NTP.memcpy _ _ _ _ _) => unfold NTP.memcpy
  | |- keeps _ (NTP.memcpy_const _ _ _) => unfold NTP.memcpy_const
  | |- keeps _ (NTP.microsToNTP _ _) => unfold NTP.microsToNTP
  | |- keeps _ (NTP.setMetrics _) => unfold NTP.setMetrics
  | |- keeps _ (NTP.setClient _ _) => unfold NTP.setClient
  | |- keeps _ NTP.millis => intros ?; close
  | |- keeps _ NTP.micros => intros ?; close
  | |- _ => keeps_step close
  end.

Ltac ntp_step := ntp_step_with untouched.

(** *** One datagram: who is answered, and where it is counted *)

Section NTPDatagram.
Import NTP Wire.
Context `{Platform} (gps : GPS.GPSData).

Lemma keeps_sent_kiss_frame code :
  keeps (same sent)
    (bind (memset0 PacketBuffer) (fun _ =>
     bind (store PacketBuffer 0 220) (fun _ =>
     bind (store PacketBuffer 1 0) (fun _ =>
     memcpy_const PacketBuffer 12 code)))).
Proof. repeat ntp_step. Qed.

Lemma keeps_sent_checkClientRateLimit clientIP pollInterval :
  keeps (same sent) (checkClientRateLimit clientIP pollInterval).
Proof.
  unfold checkClientRateLimit, updateClientStats, findOrCreateClient. repeat ntp_step.
Qed.

Lemma sendKissOfDeath_sent clientIP clientPort code s :
  exists b,
    sent (exec (sendKissOfDeath clientIP clientPort code) s)
    = sent s ++ [{| sender := KissOfDeath; destIP := clientIP; destPort := clientPort;
                    bytes := b |}].
Proof.
  unfold sendKissOfDeath. repeat rewrite exec_bind.
  set (s1 := exec (memcpy_const _ _ _) _).
  exists (take 48 (packetBuffer s1)).
  transitivity (sent s1 ++ [{| sender := KissOfDeath; destIP := clientIP;
                               destPort := clientPort;
                               bytes := take 48 (packetBuffer s1) |}]);
    [reflexivity|].
  f_equal. subst s1.
  pose proof (keeps_sent_kiss_frame
                (take 4 (map (fun c => Z.of_N (N_of_ascii c)) (list_ascii_of_string code))) s)
    as Hk.
  unfold same in Hk. repeat rewrite exec_bind in Hk. exact Hk.
Qed.

Lemma sendNTPResponse_sent clientIP clientPort rx s :
  exists b,
    sent (exec (sendNTPResponse gps clientIP clientPort PacketBuffer rx) s)
    = sent s ++ [{| sender := NormalReply; destIP := clientIP; destPort := clientPort;
                    bytes := b |}].
Proof.
  unfold sendNTPResponse, exec at 1. rewrite bind_micros.
  set (s1 := s <| ticks ::= Datatypes.S |>). set (tx := u32 _).
  change (snd (bind ?m ?k ?x)) with (exec (bind m k) x). rewrite exec_bind.
  pose proof (keeps_sent_buildNTPPacket gps PacketBuffer PacketBuffer rx tx s1) as Hs.
  set (s2 := exec (buildNTPPacket gps PacketBuffer PacketBuffer rx tx) s1) in *.
  unfold same in Hs. clearbody s2.
  exists (take 48 (packetBuffer s2)).
  change (sent s) with (sent s1). rewrite <- Hs. reflexivity.
Qed.

(** Whatever arrives, a call of [handleNTPRequests] puts at most one frame
    on the socket, a normal reply or a kiss of death, and that frame goes
    to the address and port the datagram came from.  A datagram that is
    not 48 bytes long is never answered. *)
Theorem handle_answers_source incoming s :
  let s' := exec (handleNTPRequests gps incoming) s in
  sent s' = sent s
  \/ exists dg kind b,
       incoming = Some dg /\ length (payload dg) = 48%nat
       /\ (kind = NormalReply \/ kind = KissOfDeath)
       /\ sent s' = sent s ++ [{| sender := kind; destIP := remoteIP dg;
                                  destPort := remotePort dg; bytes := b |}].
Proof.
  intros s'. subst s'.
  destruct incoming as [dg|]; [|left; reflexivity].
  destruct (decide (length (payload dg) = 48%nat)) as [Hsize|Hsize].
  2:{ left. unfold handleNTPRequests.
      destruct (Z.eqb_spec (Z.of_nat (length (payload dg))) NTP_PACKET_SIZE) as [Heq|Hne].
      - exfalso. apply Hsize. unfold NTP_PACKET_SIZE in Heq. lia.
      - cbn [negb]. destruct (0 <? _); reflexivity. }
  destruct (checkGlobalRateLimit (received dg s)) as [admitted sg] eqn:Hglobal.
  destruct (afterGlobal_frame dg s sg admitted Hglobal) as (_ & _ & _ & _ & Hsent & _).
  unfold exec. rewrite (handle_start gps dg s sg admitted Hsize Hglobal). cbv zeta.
  destruct admitted; cbn [negb]; [|left; exact Hsent].
  destruct (validFrame (payload dg)); cbn [negb]; [|left; exact Hsent].
  destruct (isGPSQualitySufficient gps sg); cbn [negb].
  2:{ right. rewrite bind_modify.
      destruct (sendKissOfDeath_sent (remoteIP dg) (remotePort dg) "DENY" (countNoGPS sg))
        as [b Hb].
      exists dg, KissOfDeath, b. repeat split; auto.
      unfold exec in Hb. rewrite Hb. change (sent (countNoGPS sg)) with (sent sg).
      rewrite Hsent. reflexivity. }
  change (snd (bind ?m ?k ?x)) with (exec (bind m k) x). rewrite exec_bind.
  set (check := if rateLimitEnabled (config sg) then _ else _).
  assert (Hcheck : sent (exec check sg) = sent sg).
  { subst check. destruct (rateLimitEnabled (config sg)).
    - apply keeps_sent_checkClientRateLimit.
    - reflexivity. }
  right. destruct (eval check sg); cbn [negb].
  - unfold exec at 1. rewrite bind_millis, bind_micros.
    change (snd (bind ?m ?k ?x)) with (exec (bind m k) x). rewrite exec_bind.
    set (s1 := (exec check sg) <| ticks ::= Datatypes.S |> <| ticks ::= Datatypes.S |>).
    destruct (sendNTPResponse_sent (remoteIP dg) (remotePort dg)
                (u32 (micros_at (ticks s))) s1) as [b Hb].
    exists dg, NormalReply, b. repeat split; auto.
    set (sr := exec (sendNTPResponse gps _ _ _ _) s1) in *.
    transitivity (sent sr); [exact (f_equal snd (keeps_wire_bookkeeping _ sr))|].
    rewrite Hb. change (sent s1) with (sent (exec check sg)).
    rewrite Hcheck, Hsent. reflexivity.
  - unfold exec at 1. rewrite bind_modify.
    destruct (sendKissOfDeath_sent (remoteIP dg) (remotePort dg) "RATE"
                (countRateLimited (exec check sg))) as [b Hb].
    exists dg, KissOfDeath, b. repeat split; auto.
    unfold exec in Hb at 1. rewrite Hb.
    change (sent (countRateLimited (exec check sg))) with (sent (exec check sg)).
    rewrite Hcheck, Hsent. reflexivity.
Qed.

Lemma keeps_tally_checkClientRateLimit clientIP pollInterval :
  keeps (same tally) (checkClientRateLimit clientIP pollInterval).
Proof.
  unfold checkClientRateLimit, updateClientStats, findOrCreateClient. repeat ntp_step.
Qed.

Lemma keeps_tally_sendKissOfDeath clientIP clientPort code :
  keeps (same tally) (sendKissOfDeath clientIP clientPort code).
Proof. unfold sendKissOfDeath, udpSend. repeat ntp_step. Qed.

Lemma keeps_tally_sendNTPResponse clientIP clientPort p rx :
  keeps (same tally) (sendNTPResponse gps clientIP clientPort p rx).
Proof. unfold sendNTPResponse, buildNTPPacket, udpSend. repeat ntp_step. Qed.

Lemma keeps_tally_statistics requestStart :
  keeps (same tally)
    (bind millis (fun now =>
     bind (setMetrics (fun m => m <| lastRequestTime := now |>)) (fun _ =>
     bind millis (fun now' =>
     bind (recordResponseTime (u32 (now' - requestStart))) (fun _ =>
     countVersionAndStratum))))).
Proof. unfold recordResponseTime, countVersionAndStratum. repeat ntp_step. Qed.

(** A datagram that is not empty is counted exactly once: as invalid, as
    rate-limited, as dropped for want of a good fix, or as answered, each
    counter going up by one modulo 2^32 and the other three staying put.
    [totalRequests] moves with [validResponses] only: it counts the
    requests answered, not the requests received. *)
Theorem handle_counts_once dg s :
  (0 < length (payload dg))%nat ->
  let s' := exec (handleNTPRequests gps (Some dg)) s in
  let '(i, r, n, v, t) := tally s in
  tally s' = (u32 (i + 1), r, n, v, t)
  \/ tally s' = (i, u32 (r + 1), n, v, t)
  \/ tally s' = (i, r, u32 (n + 1), v, t)
  \/ tally s' = (i, r, n, u32 (v + 1), u32 (t + 1)).
Proof.
  intros Hpos s'. subst s'.
  destruct (tally s) as [[[[i r] n] v] t] eqn:Htally.
  destruct (decide (length (payload dg) = 48%nat)) as [Hsize|Hsize].
  2:{ left. unfold handleNTPRequests.
      destruct (Z.eqb_spec (Z.of_nat (length (payload dg))) NTP_PACKET_SIZE) as [Heq|Hne].
      - exfalso. apply Hsize. unfold NTP_PACKET_SIZE in Heq. lia.
      - cbn [negb]. destruct (Z.ltb_spec 0 (Z.of_nat (length (payload dg)))); [|lia].
        unfold tally in *. injection Htally as <- <- <- <- <-. reflexivity. }
  destruct (checkGlobalRateLimit (received dg s)) as [admitted sg] eqn:Hglobal.
  destruct (afterGlobal_frame dg s sg admitted Hglobal) as (_ & _ & _ & _ & _ & Hm & _).
  assert (Hsg : tally sg = (i, r, n, v, t)).
  { unfold tally in *. rewrite Hm. exact Htally. }
  clear Htally.
  unfold exec. rewrite (handle_start gps dg s sg admitted Hsize Hglobal). cbv zeta.
  destruct admitted; cbn [negb].
  2:{ right; left. unfold tally in *. injection Hsg as <- <- <- <- <-. reflexivity. }
  destruct (validFrame (payload dg)); cbn [negb].
  2:{ left. unfold tally in *. injection Hsg as <- <- <- <- <-. reflexivity. }
  destruct (isGPSQualitySufficient gps sg); cbn [negb].
  2:{ right; right; left. rewrite bind_modify.
      change (snd (?m ?x)) with (exec m x).
      rewrite (keeps_tally_sendKissOfDeath _ _ _ (countNoGPS sg)).
      unfold tally in *. injection Hsg as <- <- <- <- <-. reflexivity. }
  change (snd (bind ?m ?k ?x)) with (exec (bind m k) x). rewrite exec_bind.
  set (check := if rateLimitEnabled (config sg) then _ else _).
  assert (Hcheck : tally (exec check sg) = tally sg).
  { subst check. destruct (rateLimitEnabled (config sg)).
    - apply keeps_tally_checkClientRateLimit.
    - reflexivity. }
  rewrite Hsg in Hcheck.
  destruct (eval check sg); cbn [negb].
  - right; right; right.
    unfold exec at 1. rewrite bind_millis, bind_micros.
    change (snd (bind ?m ?k ?x)) with (exec (bind m k) x). rewrite exec_bind.
    set (s1 := (exec check sg) <| ticks ::= Datatypes.S |> <| ticks ::= Datatypes.S |>).
    assert (H1 : tally s1 = (i, r, n, v, t)) by exact Hcheck.
    pose proof (keeps_tally_sendNTPResponse (remoteIP dg) (remotePort dg) PacketBuffer
                  (u32 (micros_at (ticks s))) s1) as Hr.
    unfold same in Hr. rewrite H1 in Hr.
    set (sr := exec (sendNTPResponse gps _ _ _ _) s1) in *.
    rewrite exec_bind.
    rewrite (keeps_tally_statistics _ _).
    unfold tally in *. injection Hr as <- <- <- <- <-. reflexivity.
  - right; left. unfold exec at 1. rewrite bind_modify.
    change (snd (?m ?x)) with (exec m x).
    rewrite (keeps_tally_sendKissOfDeath _ _ _ (countRateLimited (exec check sg))).
    unfold tally in *. injection Hcheck as <- <- <- <- <-. reflexivity.
Qed.

End NTPDatagram.

(** The request of the scenarios at the fresh server is counted as
    answered. *)
Lemma handle_counts_once_witness :
  (0 < length (NTP.payload Scenario.clientRequest))%nat
  /\ Wire.tally (exec (@NTP.handleNTPRequests (Scenario.platform 5000 5000000)
                         Scenario.goodFix (Some Scenario.clientRequest)) Scenario.fresh)
     = (0, 0, 0, 1, 1).
Proof.
  split; [vm_compute; lia|].
  pose proof (@handle_counts_once (Scenario.platform 5000 5000000) Scenario.goodFix
                Scenario.clientRequest Scenario.fresh ltac:(vm_compute; lia)) as Hthm.
  vm_compute in Hthm. vm_compute.
  destruct Hthm as [Hc | [Hc | [Hc | Hc]]]; exact Hc || discriminate Hc.
Defined.

(** *** The table of sources *)

Lemma first_index_None_lookup {A} (p : A -> bool) l k :
  first_index p l k = None -> forall j y, l !! j = Some y -> p y = false.
Proof.
  revert k. induction l as [|x l IH]; intros k Hnone j y Hj; [discriminate|].
  cbn in Hnone. destruct (p x) eqn:Hx; [discriminate|].
  destruct j as [|j]; cbn in Hj.
  - injection Hj as <-. exact Hx.
  - eapply IH; eauto.
Qed.

Lemma first_index_Some_lookup {A} (p : A -> bool) l k i :
  first_index p l k = Some i ->
  exists x, l !! (i - k)%nat = Some x /\ p x = true
            /\ forall j y, (j < i - k)%nat -> l !! j = Some y -> p y = false.
Proof.
  revert k. induction l as [|x l IH]; intros k Hi; [discriminate|].
  cbn in Hi. destruct (p x) eqn:Hx.
  - injection Hi as <-. exists x. replace (k - k)%nat with 0%nat by lia.
    repeat split; auto. intros j y Hj. lia.
  - pose proof (first_index_bounds _ _ _ _ Hi) as Hb.
    destruct (IH _ Hi) as (y & Hy & Hpy & Hbefore).
    exists y. replace (i - k)%nat with (Datatypes.S (i - Datatypes.S k)) by lia.
    repeat split; auto.
    intros j z Hj Hz. destruct j as [|j]; cbn in Hz.
    + injection Hz as <-. exact Hx.
    + apply (Hbefore j); [lia | exact Hz].
Qed.

(** Rewriting slot [i] into an entry the predicate accepts, when it
    accepts none of the entries in front of it. *)
Lemma first_index_alter_hit {A} (p : A -> bool) (f : A -> A) l i k x :
  (forall j y, (j < i)%nat -> l !! j = Some y -> p y = false) ->
  l !! i = Some x -> p (f x) = true ->
  first_index p (alter f i l) k = Some (k + i)%nat.
Proof.
  revert i k. induction l as [|y l IH]; intros i k Hbefore Hi Hp; [discriminate|].
  destruct i as [|i]; cbn in *.
  - injection Hi as ->. rewrite Hp. f_equal. lia.
  - rewrite (Hbefore 0%nat y) by (reflexivity || lia).
    rewrite (IH i (Datatypes.S k)
               (fun j z Hj Hz => Hbefore (Datatypes.S j) z ltac:(lia) Hz) Hi Hp).
    f_equal. lia.
Qed.

Section NTPClients.
Import NTP Wire.
Context `{Platform}.

(** The scan for the least [lastRequest], from slot [a] on. *)
Lemma oldest_scan (lr : nat -> Z) k a best idx :
  (idx < a)%nat -> best = lr idx ->
  (forall j, (j < a)%nat -> best <= lr j) ->
  (forall j, (j < idx)%nat -> best < lr j) ->
  let r := fold_left (fun '(oldestTime, oldestIndex) i =>
                        if lr i <? oldestTime then (lr i, i)
                        else (oldestTime, oldestIndex))
                     (seq a k) (best, idx) in
  (snd r < a + k)%nat /\ fst r = lr (snd r)
  /\ (forall j, (j < a + k)%nat -> fst r <= lr j)
  /\ (forall j, (j < snd r)%nat -> fst r < lr j).
Proof.
  revert a best idx. induction k as [|k IH]; intros a best idx Hidx Hbest Hmin Hfirst.
  - cbn. repeat split; auto; try lia. intros j Hj. apply Hmin. lia.
  - cbn [seq fold_left]. destruct (Z.ltb_spec (lr a) best) as [Hlt|Hge].
    + specialize (IH (Datatypes.S a) (lr a) a ltac:(lia) eq_refl).
      cbv zeta in IH. replace (a + Datatypes.S k)%nat with (Datatypes.S a + k)%nat by lia.
      apply IH.
      * intros j Hj. destruct (decide (j = a)) as [->|]; [lia|].
        specialize (Hmin j ltac:(lia)). lia.
      * intros j Hj. specialize (Hmin j Hj). lia.
    + specialize (IH (Datatypes.S a) best idx ltac:(lia) Hbest).
      cbv zeta in IH. replace (a + Datatypes.S k)%nat with (Datatypes.S a + k)%nat by lia.
      apply IH.
      * intros j Hj. destruct (decide (j = a)) as [->|]; [lia|].
        apply Hmin. lia.
      * exact Hfirst.
Qed.

Lemma oldestClient_spec s :
  0 < maxClients (config s) ->
  let i := oldestClient s in
  (i < Z.to_nat (maxClients (config s)))%nat
  /\ (forall j, (j < Z.to_nat (maxClients (config s)))%nat ->
        lastRequest (client i s) <= lastRequest (client j s))
  /\ (forall j, (j < i)%nat -> lastRequest (client i s) < lastRequest (client j s)).
Proof.
  intros Hpos i. subst i. unfold oldestClient.
  pose proof (oldest_scan (fun j => lastRequest (client j s))
                (Z.to_nat (maxClients (config s)) - 1) 1
                (lastRequest (client 0 s)) 0%nat ltac:(lia) eq_refl) as Hscan.
  cbv zeta in Hscan.
  destruct Hscan as (Hlt & Hbest & Hmin & Hfirst).
  - intros j Hj. replace j with 0%nat by lia. lia.
  - intros j Hj. lia.
  - replace (1 + (Z.to_nat (maxClients (config s)) - 1))%nat
      with (Z.to_nat (maxClients (config s))) in * by lia.
    rewrite <- Hbest. repeat split; auto.
Qed.

(** A source that is not in the table: the next free slot while there
    is one, else the slot of the scan. *)
Lemma findOrCreateClient_new clientIP s :
  trackedAt clientIP s = None ->
  findOrCreateClient clientIP s
  = if clientCount s <? maxClients (config s)
    then (Z.to_nat (clientCount s),
          s <| clientCount ::= Z.succ |>
            <| clients ::= alter (resetClient clientIP) (Z.to_nat (clientCount s)) |>
            <| metrics ::= (fun m => m <| uniqueClients := u32 (Z.succ (clientCount s)) |>) |>)
    else (oldestClient s, s <| clients ::= alter (resetClient clientIP) (oldestClient s) |>).
Proof.
  intros Hnone. unfold findOrCreateClient. rewrite bind_get.
  unfold trackedAt in Hnone. rewrite Hnone.
  destruct (clientCount s <? maxClients (config s)); reflexivity.
Qed.

(** Lookup after insertion.  In a table that fits, [findOrCreateClient]
    returns the index of an entry below [clientCount] that carries the
    address it was asked for, and a later search for that address finds
    this entry; the table still fits and no other entry is written.  A
    known source is returned as it is; a new one gets an entry with the
    counters reset, in the next free slot while there is one. *)
Theorem findOrCreateClient_spec clientIP s :
  tableFits s ->
  let i := eval (findOrCreateClient clientIP) s in
  let s' := exec (findOrCreateClient clientIP) s in
  tableFits s'
  /\ trackedAt clientIP s' = Some i
  /\ (i < Z.to_nat (clientCount s'))%nat
  /\ ip (client i s') = clientIP
  /\ (forall j, j <> i -> clients s' !! j = clients s !! j)
  /\ match trackedAt clientIP s with
     | Some k => i = k /\ s' = s
     | None =>
         client i s' = resetClient clientIP (client i s)
         /\ (if clientCount s <? maxClients (config s)
             then i = Z.to_nat (clientCount s) /\ clientCount s' = clientCount s + 1
             else i = oldestClient s /\ clientCount s' = clientCount s)
     end.
Proof.
  intros (Hpos & Hcount & Hlen) i s'. subst i s'. unfold eval, exec.
  destruct (trackedAt clientIP s) as [k|] eqn:Htracked.
  - rewrite (findOrCreateClient_tracked _ _ _ Htracked). cbn [fst snd].
    pose proof Htracked as Hk. unfold trackedAt in Hk.
    pose proof (first_index_bounds _ _ _ _ Hk) as Hb. rewrite length_take in Hb.
    destruct (first_index_Some_lookup _ _ _ _ Hk) as (c & Hc & Hp & _).
    rewrite Nat.sub_0_r in Hc. apply lookup_take_Some in Hc as [Hc _].
    repeat split; auto; try lia.
    unfold client. rewrite nth_lookup, Hc. cbn. apply Z.eqb_eq. exact Hp.
  - rewrite (findOrCreateClient_new _ _ Htracked).
    pose proof (first_index_None_lookup _ _ _ Htracked) as Hbefore.
    destruct (Z.ltb_spec (clientCount s) (maxClients (config s))) as [Hroom|Hfull];
      cbn [fst snd].
    + set (i := Z.to_nat (clientCount s)).
      assert (Hi : (i < length (clients s))%nat) by lia.
      destruct (lookup_lt_is_Some_2 _ _ Hi) as [c Hc].
      set (s1 := s <| clientCount ::= Z.succ |> <| clients ::= _ |> <| metrics ::= _ |>).
      assert (Hn1 : clientCount s1 = Z.succ (clientCount s)) by reflexivity.
      assert (Hcl : clients s1 = alter (resetClient clientIP) i (clients s)) by reflexivity.
      assert (Hcfg : config s1 = config s) by reflexivity.
      clearbody s1. unfold tableFits, trackedAt, client.
      rewrite Hn1, Hcl, Hcfg, length_alter, !nth_lookup, list_lookup_alter_eq, Hc.
      replace (Z.to_nat (Z.succ (clientCount s))) with (Datatypes.S i) by lia.
      repeat split; auto; try lia.
      * rewrite take_alter_lt by lia.
        rewrite (first_index_alter_hit _ _ _ i 0%nat c).
        -- reflexivity.
        -- intros j y Hj Hy. apply (Hbefore j).
           apply lookup_take_Some in Hy as [Hy _].
           apply lookup_take_Some. split; [exact Hy | lia].
        -- apply lookup_take_Some. split; [exact Hc | lia].
        -- cbn. apply Z.eqb_refl.
      * intros j Hj. apply list_lookup_alter_ne. auto.
    + destruct (oldestClient_spec s Hpos) as (Hi & _).
      set (i := oldestClient s) in *.
      assert (Hn : clientCount s = maxClients (config s)) by lia.
      assert (Hil : (i < length (clients s))%nat) by lia.
      destruct (lookup_lt_is_Some_2 _ _ Hil) as [c Hc].
      set (s1 := s <| clients ::= _ |>).
      assert (Hn1 : clientCount s1 = clientCount s) by reflexivity.
      assert (Hcl : clients s1 = alter (resetClient clientIP) i (clients s)) by reflexivity.
      assert (Hcfg : config s1 = config s) by reflexivity.
      clearbody s1 i. unfold tableFits, trackedAt, client.
      rewrite Hn1, Hcl, Hcfg, length_alter, !nth_lookup, list_lookup_alter_eq, Hc.
      repeat split; auto; try lia.
      * rewrite take_alter_lt by lia.
        rewrite (first_index_alter_hit _ _ _ i 0%nat c).
        -- reflexivity.
        -- intros j y Hj Hy. apply (Hbefore j). exact Hy.
        -- apply lookup_take_Some. split; [exact Hc | lia].
        -- cbn. apply Z.eqb_refl.
      * intros j Hj. apply list_lookup_alter_ne. auto.
Qed.

(** Eviction.  When the table is full and the source is new, the entry
    that is overwritten is one whose [lastRequest] is least among all
    entries, and the first such entry. *)
Theorem eviction_takes_least_recent clientIP s :
  tableFits s -> trackedAt clientIP s = None ->
  clientCount s = maxClients (config s) ->
  let i := eval (findOrCreateClient clientIP) s in
  (i < Z.to_nat (clientCount s))%nat
  /\ (forall j, (j < Z.to_nat (clientCount s))%nat ->
        lastRequest (client i s) <= lastRequest (client j s))
  /\ (forall j, (j < i)%nat -> lastRequest (client i s) < lastRequest (client j s)).
Proof.
  intros (Hpos & _ & _) Hnone Hfull i. subst i. unfold eval.
  rewrite (findOrCreateClient_new _ _ Hnone).
  destruct (Z.ltb_spec (clientCount s) (maxClients (config s))); [lia|].
  cbn [fst]. rewrite Hfull. apply oldestClient_spec. exact Hpos.
Qed.

(** The entry of a new source has [lastRequest] 0; neither the
    configuration nor the clock is touched. *)
Lemma new_entry_is_reset clientIP s :
  tableFits s -> trackedAt clientIP s = None ->
  let i := eval (findOrCreateClient clientIP) s in
  let s1 := exec (findOrCreateClient clientIP) s in
  lastRequest (client i s1) = 0 /\ config s1 = config s /\ ticks s1 = ticks s.
Proof.
  intros (Hpos & Hcount & Hlen) Hnone i s1. subst i s1. unfold eval, exec.
  rewrite (findOrCreateClient_new _ _ Hnone).
  destruct (Z.ltb_spec (clientCount s) (maxClients (config s))) as [Hroom|Hfull];
    cbn [fst snd]; (split; [|split; reflexivity]).
  - unfold client. rewrite nth_lookup.
    match goal with
    | |- context [clients ?x !! _] =>
        change (clients x)
          with (alter (resetClient clientIP) (Z.to_nat (clientCount s)) (clients s))
    end.
    rewrite list_lookup_alter_eq.
    destruct (lookup_lt_is_Some_2 (clients s) (Z.to_nat (clientCount s)) ltac:(lia))
      as [c Hc].
    rewrite Hc. reflexivity.
  - rewrite client_alter.
    destruct (oldestClient_spec s Hpos) as (Hi & _).
    destruct (decide (oldestClient s < length (clients s))%nat) as [_|Hn];
      [reflexivity | lia].
Qed.

(** The first request of a source.  A source that is not in the table
    is let through by the per-client check exactly when the millisecond
    clock has reached the minimum interval: its entry starts with
    [lastRequest] 0, so during the first [perClientMinInterval]
    milliseconds after the clock started (or wrapped) every new source is
    turned away. *)
Theorem first_request_of_a_source clientIP pollInterval s :
  tableFits s -> trackedAt clientIP s = None ->
  eval (checkClientRateLimit clientIP pollInterval) s = true
  <-> perClientMinInterval (config s) <= u32 (millis_at (ticks s)).
Proof.
  intros Hfits Hnone.
  destruct (new_entry_is_reset clientIP s Hfits Hnone) as (Hreset & Hcfg & Hticks).
  unfold eval at 1. unfold checkClientRateLimit.
  rewrite (bind_run _ _ _ _ _ (run_eq (findOrCreateClient clientIP) s)).
  set (i := eval (findOrCreateClient clientIP) s) in *.
  set (s1 := exec (findOrCreateClient clientIP) s) in *.
  rewrite bind_millis, bind_get. cbv zeta.
  change (client i (s1 <| ticks ::= Datatypes.S |>)) with (client i s1).
  change (config (s1 <| ticks ::= Datatypes.S |>)) with (config s1).
  rewrite Hreset, Hcfg, Hticks, Z.sub_0_r.
  pose proof (u32_range (millis_at (ticks s))) as Hr.
  rewrite (u32_small (u32 (millis_at (ticks s)))) by lia.
  destruct (Z.ltb_spec (u32 (millis_at (ticks s))) (perClientMinInterval (config s))).
  - unfold setClient, bind, modify, ret. cbn. split; [discriminate | lia].
  - unfold updateClientStats, setClient, bind, modify, millis, ret. cbn.
    split; [lia | reflexivity].
Qed.

(** The global limiter.  While the counter of the running window is
    within the configured rate, a call leaves it within the rate.  In a
    window that is not over (at most 1000 ms since its start) a request
    is admitted exactly when the counter is below the rate, and then
    counted; a call more than 1000 ms after the start of the window
    starts a new window at that time, with this request as its first. *)
Theorem checkGlobalRateLimit_cap s :
  let cap := globalMaxRequestsPerSec (config s) in
  let g := globalRateLimit s in
  let now := u32 (millis_at (ticks s)) in
  0 <= requestsThisSecond g <= cap -> cap < 2 ^ 32 ->
  let ok := eval checkGlobalRateLimit s in
  let g' := globalRateLimit (exec checkGlobalRateLimit s) in
  0 <= requestsThisSecond g' <= cap
  /\ (if 1000 <? u32 (now - lastSecondReset g)
      then lastSecondReset g' = now
           /\ (ok = true <-> 0 < cap)
           /\ requestsThisSecond g' = (if ok then 1 else 0)
      else lastSecondReset g' = lastSecondReset g
           /\ (ok = true <-> requestsThisSecond g < cap)
           /\ requestsThisSecond g' = requestsThisSecond g + (if ok then 1 else 0)).
Proof.
  intros cap g now Hcount Hcap ok g'. subst ok g'. unfold eval, exec.
  rewrite checkGlobalRateLimit_run. cbv zeta. fold now. unfold windowAt. fold g.
  destruct (1000 <? u32 (now - lastSecondReset g)).
  - cbn [requestsThisSecond]. fold cap.
    destruct (Z.leb_spec cap 0) as [Hle|Hgt]; cbn [fst snd].
    + change (0 <= 0 <= cap /\ now = now /\ (false = true <-> 0 < cap) /\ 0 = 0).
      repeat split; auto; try lia; try discriminate.
    + change (0 <= u32 (0 + 1) <= cap
              /\ now = now /\ (true = true <-> 0 < cap) /\ u32 (0 + 1) = 1).
      change (u32 (0 + 1)) with 1. repeat split; auto; lia.
  - fold cap. destruct (Z.leb_spec cap (requestsThisSecond g)) as [Hle|Hgt]; cbn [fst snd].
    + change (0 <= requestsThisSecond g <= cap
              /\ lastSecondReset g = lastSecondReset g
              /\ (false = true <-> requestsThisSecond g < cap)
              /\ requestsThisSecond g = requestsThisSecond g + 0).
      repeat split; auto; try lia; try discriminate.
    + change (0 <= u32 (requestsThisSecond g + 1) <= cap
              /\ lastSecondReset g = lastSecondReset g
              /\ (true = true <-> requestsThisSecond g < cap)
              /\ u32 (requestsThisSecond g + 1) = requestsThisSecond g + 1).
      rewrite u32_small by lia. repeat split; auto; lia.
Qed.

End NTPClients.

(** The table of the fresh server fits; so does the crowded one. *)
Lemma fresh_fits : Wire.tableFits Scenario.fresh.
Proof. unfold Wire.tableFits. vm_compute. repeat split; try discriminate; lia. Qed.

Lemma crowded_fits : Wire.tableFits Scenario.crowded.
Proof. unfold Wire.tableFits. vm_compute. repeat split; try discriminate; lia. Qed.

(** A first request at the fresh server: slot 0, one source counted. *)
Lemma findOrCreateClient_witness :
  Wire.tableFits Scenario.fresh
  /\ (let s' := exec (NTP.findOrCreateClient Scenario.stranger) Scenario.fresh in
      Wire.trackedAt Scenario.stranger s' = Some 0%nat /\ NTP.clientCount s' = 1).
Proof.
  split; [exact fresh_fits|].
  destruct (findOrCreateClient_spec Scenario.stranger Scenario.fresh fresh_fits)
    as (_ & Hfound & _ & _ & _ & Hnew).
  cbv zeta. split; [exact Hfound|].
  change (Wire.trackedAt Scenario.stranger Scenario.fresh) with (@None nat) in Hnew.
  cbv beta iota in Hnew. destruct Hnew as (_ & Hroom).
  change (NTP.clientCount Scenario.fresh <? NTP.maxClients (NTP.config Scenario.fresh))
    with true in Hroom.
  cbv iota in Hroom. destruct Hroom as (_ & Hcount). exact Hcount.
Defined.

(** In the crowded table the stranger takes the slot of 10.0.0.1, the
    entry served longest ago. *)
Lemma eviction_witness :
  (Wire.tableFits Scenario.crowded
   /\ Wire.trackedAt Scenario.stranger Scenario.crowded = None
   /\ NTP.clientCount Scenario.crowded = NTP.maxClients (NTP.config Scenario.crowded))
  /\ (let i := eval (NTP.findOrCreateClient Scenario.stranger) Scenario.crowded in
      i = 1%nat
      /\ forall j, (j < 2)%nat ->
           NTP.lastRequest (NTP.client i Scenario.crowded)
           <= NTP.lastRequest (NTP.client j Scenario.crowded)).
Proof.
  split; [split; [exact crowded_fits | split; reflexivity]|].
  destruct (eviction_takes_least_recent Scenario.stranger Scenario.crowded
              crowded_fits eq_refl eq_refl) as (_ & Hleast & _).
  cbv zeta. split; [reflexivity | exact Hleast].
Defined.

(** At the fresh server a stranger is let through once the clock reads
    1000 ms: at 5000 ms it is. *)
Lemma first_request_witness :
  (Wire.tableFits Scenario.fresh
   /\ Wire.trackedAt Scenario.stranger Scenario.fresh = None)
  /\ @eval _ _ (@NTP.checkClientRateLimit (Scenario.platform 5000 5000000)
                  Scenario.stranger 6) Scenario.fresh = true.
Proof.
  split; [split; [exact fresh_fits | reflexivity]|].
  apply (@first_request_of_a_source (Scenario.platform 5000 5000000)
           Scenario.stranger 6 Scenario.fresh fresh_fits eq_refl).
  vm_compute. discriminate.
Defined.

(** The flooded server: the window is 101 ms old, the counter is at the
    rate of 1000 and the request is refused. *)
Lemma checkGlobalRateLimit_witness :
  (0 <= NTP.requestsThisSecond (NTP.globalRateLimit Scenario.flooded)
        <= NTP.globalMaxRequestsPerSec (NTP.config Scenario.flooded)
   /\ NTP.globalMaxRequestsPerSec (NTP.config Scenario.flooded) < 2 ^ 32)
  /\ @eval _ _ (@NTP.checkGlobalRateLimit (Scenario.platform 5000 5000000))
           Scenario.flooded = false.
Proof.
  split; [vm_compute; repeat split; try discriminate; reflexivity|].
  destruct (@checkGlobalRateLimit_cap (Scenario.platform 5000 5000000) Scenario.flooded
              ltac:(vm_compute; split; discriminate) ltac:(vm_compute; reflexivity))
    as (_ & Hwindow).
  change (1000 <? u32 (u32 (@millis_at (Scenario.platform 5000 5000000)
                              (NTP.ticks Scenario.flooded))
                       - NTP.lastSecondReset (NTP.globalRateLimit Scenario.flooded)))
    with false in Hwindow.
  cbv iota in Hwindow. destruct Hwindow as (_ & Hok & _).
  destruct (@eval _ _ (@NTP.checkGlobalRateLimit (Scenario.platform 5000 5000000))
                  Scenario.flooded); [|reflexivity].
  exfalso. pose proof (proj1 Hok eq_refl) as Hlt. vm_compute in Hlt. discriminate Hlt.
Defined.

(** *** Timestamps on the wire *)

Lemma byteOf_mod w k : 0 <= k -> NTP.byteOf w k = (w / 2 ^ k) mod 256.
Proof.
  intros Hk. unfold NTP.byteOf. rewrite Z.shiftr_div_pow2 by exact Hk.
  change 255 with (Z.ones 8). rewrite Z.land_ones by lia. reflexivity.
Qed.

Lemma low_byte_mod w : Z.land w 255 = w mod 256.
Proof. change 255 with (Z.ones 8). rewrite Z.land_ones by lia. reflexivity. Qed.

(** The four bytes of a word, read most significant byte first, are the
    word modulo 2^32. *)
Lemma word_bytes w : Wire.bigEndian (Wire.wordBytes w) = u32 w.
Proof.
  unfold Wire.bigEndian, Wire.wordBytes. cbn [fold_left].
  rewrite !byteOf_mod, low_byte_mod by lia.
  unfold u32, wrap.
  change (2 ^ 24) with (256 * 256 * 256). change (2 ^ 16) with (256 * 256).
  change (2 ^ 8) with 256. change (2 ^ 32) with (256 * (256 * (256 * 256))).
  rewrite (Z.rem_mul_r w 256 (256 * (256 * 256))) by lia.
  rewrite (Z.rem_mul_r (w / 256) 256 (256 * 256)) by lia.
  rewrite (Z.rem_mul_r (w / 256 / 256) 256 256) by lia.
  rewrite <- !Z.div_div by lia. ring.
Qed.

Lemma four_from (l : list NTP.byte) off a b c d :
  l !! off = Some a -> l !! (off + 1)%nat = Some b ->
  l !! (off + 2)%nat = Some c -> l !! (off + 3)%nat = Some d ->
  take 4 (drop off l) = [a; b; c; d].
Proof.
  intros Ha Hb Hc Hd.
  assert (Ha' : drop off l !! 0%nat = Some a)
    by (rewrite lookup_drop, Nat.add_0_r; exact Ha).
  assert (Hb' : drop off l !! 1%nat = Some b) by (rewrite lookup_drop; exact Hb).
  assert (Hc' : drop off l !! 2%nat = Some c) by (rewrite lookup_drop; exact Hc).
  assert (Hd' : drop off l !! 3%nat = Some d) by (rewrite lookup_drop; exact Hd).
  destruct (drop off l) as [|x0 [|x1 [|x2 [|x3 r]]]]; try discriminate.
  injection Ha' as ->. injection Hb' as ->. injection Hc' as ->. injection Hd' as ->.
  reflexivity.
Qed.

Section NTPTimestamps.
Import NTP Wire.
Context `{Platform} (gps : GPS.GPSData).

Lemma buffer_store p i v s :
  buffer p (exec (store p i v) s) = <[i := v]> (buffer p s).
Proof. destruct p; reflexivity. Qed.

Lemma buffer_writeWord p off w s :
  buffer p (exec (writeWord p off w) s)
  = <[(off + 3)%nat := Z.land w 255]>
      (<[(off + 2)%nat := byteOf w 8]>
         (<[(off + 1)%nat := byteOf w 16]>
            (<[(off + 0)%nat := byteOf w 24]> (buffer p s)))).
Proof. unfold writeWord. rewrite !exec_bind, !buffer_store. reflexivity. Qed.

Lemma writeWord_encodes p off w s :
  (off + 4 <= length (buffer p s))%nat ->
  let b := buffer p (exec (writeWord p off w) s) in
  bigEndian (take 4 (drop off b)) = u32 w
  /\ length b = length (buffer p s)
  /\ (forall j, (j < off \/ off + 4 <= j)%nat -> b !! j = buffer p s !! j).
Proof.
  intros Hlen b. subst b. rewrite buffer_writeWord.
  set (l := buffer p s) in *.
  split; [|split].
  - rewrite (four_from _ off (byteOf w 24) (byteOf w 16) (byteOf w 8) (Z.land w 255)).
    + apply word_bytes.
    + rewrite !list_lookup_insert_ne by lia. rewrite Nat.add_0_r.
      apply list_lookup_insert_eq. lia.
    + rewrite !list_lookup_insert_ne by lia.
      apply list_lookup_insert_eq. rewrite !length_insert. lia.
    + rewrite !list_lookup_insert_ne by lia.
      apply list_lookup_insert_eq. rewrite !length_insert. lia.
    + apply list_lookup_insert_eq. rewrite !length_insert. lia.
  - rewrite !length_insert. reflexivity.
  - intros j Hj. rewrite !list_lookup_insert_ne by lia. reflexivity.
Qed.

(** Encoding.  [writeNTPTimestamp] at an offset with eight bytes of room
    leaves, most significant byte first, the seconds in the four bytes at
    the offset and the fraction in the next four, each modulo 2^32; the
    buffer keeps its length and no other byte is written. *)
Theorem writeNTPTimestamp_encodes p off ts s :
  (off + 8 <= length (buffer p s))%nat ->
  let b := buffer p (exec (writeNTPTimestamp p off ts) s) in
  bigEndian (take 4 (drop off b)) = u32 (seconds ts)
  /\ bigEndian (take 4 (drop (off + 4) b)) = u32 (fraction ts)
  /\ length b = length (buffer p s)
  /\ (forall j, (j < off \/ off + 8 <= j)%nat -> b !! j = buffer p s !! j).
Proof.
  intros Hlen b. subst b. unfold writeNTPTimestamp. rewrite exec_bind.
  set (s1 := exec (writeWord p off (seconds ts)) s).
  destruct (writeWord_encodes p off (seconds ts) s ltac:(lia)) as (Hs & Hl1 & Hf1).
  fold s1 in Hs, Hl1, Hf1.
  destruct (writeWord_encodes p (off + 4) (fraction ts) s1 ltac:(lia)) as (Hf & Hl2 & Hf2).
  set (b := buffer p (exec (writeWord p (off + 4) (fraction ts)) s1)) in *.
  repeat split.
  - rewrite <- Hs. f_equal.
    apply list_eq. intros j. rewrite !lookup_take, !lookup_drop.
    destruct (decide (j < 4)%nat); [|reflexivity].
    apply Hf2. lia.
  - exact Hf.
  - lia.
  - intros j Hj. rewrite Hf2 by lia. apply Hf1. lia.
Qed.

Lemma gpsTimeToNTP_range :
  0 <= seconds (gpsTimeToNTP gps) < 2 ^ 32 /\ 0 <= fraction (gpsTimeToNTP gps) < 2 ^ 32.
Proof. unfold gpsTimeToNTP. cbn. split; apply u32_range. Qed.

(** Adding the elapsed time.  The timestamp [microsToNTP] returns is, as
    a 64-bit fixed-point number, the GPS time of the snapshot plus the
    microseconds elapsed since the reference reading of the clock,
    converted to units of 2^-32 s and rounded down; the sum wraps at
    2^64 and the difference of the two clock readings at 2^32.  The
    reference reading is latched at the first call after the snapshot's
    [lastUpdateMillis] has changed: that call returns the GPS time
    itself. *)
Theorem microsToNTP_adds_elapsed t s :
  let latch := negb (GPS.gd_lastUpdateMillis gps =? gpsUpdateMillis s) in
  let reference := if latch then t else lastGPSUpdateMicros s in
  let elapsed := u32 (t - reference) in
  let ts := eval (microsToNTP gps t) s in
  let s' := exec (microsToNTP gps t) s in
  fixed64 ts = (fixed64 (gpsTimeToNTP gps) + elapsed * 2 ^ 32 / 1000000) mod 2 ^ 64
  /\ 0 <= seconds ts < 2 ^ 32 /\ 0 <= fraction ts < 2 ^ 32
  /\ lastGPSUpdateMicros s' = reference
  /\ gpsUpdateMillis s' = GPS.gd_lastUpdateMillis gps
  /\ (latch = true -> ts = gpsTimeToNTP gps).
Proof.
  intros latch reference elapsed ts s'. subst ts s'. unfold eval, exec, microsToNTP.
  rewrite bind_modify, bind_get. cbv zeta. fold latch.
  assert (Hstate :
    lastGPSUpdateMicros
      (if latch then s <| lastGPSUpdateMicros := t |>
                        <| gpsUpdateMillis := GPS.gd_lastUpdateMillis gps |> else s)
    = reference
    /\ gpsUpdateMillis
         (if latch then s <| lastGPSUpdateMicros := t |>
                          <| gpsUpdateMillis := GPS.gd_lastUpdateMillis gps |> else s)
       = GPS.gd_lastUpdateMillis gps).
  { subst reference latch.
    destruct (Z.eqb_spec (GPS.gd_lastUpdateMillis gps) (gpsUpdateMillis s));
      cbn [negb]; split; auto. }
  destruct Hstate as [Href Hupd]. rewrite Href. fold elapsed.
  destruct gpsTimeToNTP_range as [Hsec Hfrac].
  set (base := gpsTimeToNTP gps) in *.
  pose proof (u32_range (t - reference)) as Hel. fold elapsed in Hel.
  assert (Hu64 : u64 (elapsed * 4294967296) = elapsed * 4294967296).
  { apply Z.mod_small. change (2 ^ 64) with (4294967296 * 4294967296).
    change (2 ^ 32) with 4294967296 in Hel. nia. }
  rewrite Hu64.
  assert (Hq : Z.quot (elapsed * 4294967296) 1000000 = elapsed * 2 ^ 32 / 1000000).
  { rewrite Z.quot_div_nonneg by lia. reflexivity. }
  rewrite Hq. set (mf := elapsed * 2 ^ 32 / 1000000).
  assert (Hmf : 0 <= mf < 2 ^ 32 * 4295).
  { subst mf. split; [apply Z.div_pos; lia|].
    apply Z.div_lt_upper_bound; [lia|]. change (2 ^ 32) with 4294967296 in *. nia. }
  assert (Hnew : u64 (fraction base + mf) = fraction base + mf).
  { apply Z.mod_small. change (2 ^ 64) with (2 ^ 32 * 2 ^ 32).
    change (2 ^ 32) with 4294967296 in *. lia. }
  rewrite Hnew. unfold fixed64.
  assert (Hzero : latch = true -> mf = 0).
  { intros Hl. subst mf elapsed reference. rewrite Hl, Z.sub_diag. reflexivity. }
  destruct (Z.ltb_spec 4294967295 (fraction base + mf)) as [Hcarry|Hnone];
    unfold ret; cbn [fst snd seconds fraction].
  - change 4294967295 with (Z.ones 32). rewrite Z.land_ones, Z.shiftr_div_pow2 by lia.
    pose proof (u32_range (seconds base + (fraction base + mf) / 2 ^ 32)) as Hs'.
    pose proof (Z.mod_pos_bound (fraction base + mf) (2 ^ 32) eq_refl) as Hf'.
    repeat split; try lia; auto.
    + unfold u32, wrap. change (2 ^ 64) with (2 ^ 32 * 2 ^ 32).
      rewrite (Z.rem_mul_r (seconds base * 2 ^ 32 + fraction base + mf) (2 ^ 32) (2 ^ 32))
        by lia.
      replace (seconds base * 2 ^ 32 + fraction base + mf)
        with ((fraction base + mf) + seconds base * 2 ^ 32) by ring.
      rewrite Z.mod_add, Z.div_add by lia.
      rewrite (Z.add_comm ((fraction base + mf) / 2 ^ 32) (seconds base)). ring.
    + intros Hl. specialize (Hzero Hl). change (Z.ones 32) with 4294967295 in *. lia.
  - rewrite u32_small by lia.
    repeat split; try lia; auto.
    + rewrite Z.mod_small; [ring|].
      change (2 ^ 64) with (2 ^ 32 * 2 ^ 32). change (2 ^ 32) with 4294967296 in *. nia.
    + intros Hl. rewrite (Hzero Hl), Z.add_0_r. destruct base; reflexivity.
Qed.

End NTPTimestamps.

(** Eight bytes written at offset 40 of the buffer of the fresh server. *)
Lemma writeNTPTimestamp_witness :
  (40 + 8 <= length (NTP.buffer NTP.PacketBuffer Scenario.fresh))%nat
  /\ (let b := NTP.packetBuffer
                 (exec (NTP.writeNTPTimestamp NTP.PacketBuffer 40
                          {| NTP.seconds := 3918283200; NTP.fraction := 2147483648 |})
                       Scenario.fresh) in
      Wire.bigEndian (take 4 (drop 40 b)) = 3918283200
      /\ Wire.bigEndian (take 4 (drop 44 b)) = 2147483648).
Proof.
  split; [vm_compute; lia|].
  destruct (writeNTPTimestamp_encodes NTP.PacketBuffer 40
              {| NTP.seconds := 3918283200; NTP.fraction := 2147483648 |}
              Scenario.fresh ltac:(vm_compute; lia)) as (Hs & Hf & _).
  cbv zeta. split; [exact Hs | exact Hf].
Defined.

(** *** Frames *)

Lemma mode_patch b0 : Z.land (Z.lor (Z.land b0 248) 5) 7 = 5.
Proof.
  rewrite Z.land_lor_distr_l, <- Z.land_assoc.
  change (Z.land 248 7) with 0. change (Z.land 5 7) with 5.
  rewrite Z.land_0_r. reflexivity.
Qed.

Lemma version_patch b0 :
  Z.land (Z.shiftr (Z.lor (Z.land b0 248) 5) 3) 7 = Z.land (Z.shiftr b0 3) 7.
Proof.
  rewrite Z.shiftr_lor, Z.shiftr_land.
  change (Z.shiftr 248 3) with 31. change (Z.shiftr 5 3) with 0.
  rewrite Z.lor_0_r, <- Z.land_assoc. reflexivity.
Qed.

Section NTPFrames.
Import NTP Wire.
Context `{Platform} (gps : GPS.GPSData).

Lemma keeps_metrics_buildNTPPacket p r rx tx :
  keeps (same metrics) (buildNTPPacket gps p r rx tx).
Proof. unfold buildNTPPacket. repeat ntp_step. Qed.

Lemma keeps_length_buildNTPPacket r rx tx :
  keeps (same (fun s => length (packetBuffer s)))
        (buildNTPPacket gps PacketBuffer r rx tx).
Proof. unfold buildNTPPacket. repeat ntp_step_with same_length. Qed.

(** Broadcast.  With broadcasting enabled and a fix that passes the
    quality gate, [sendBroadcast] sends one frame of 48 bytes to
    255.255.255.255, port 123: mode 5, version 4, poll exponent 6, a
    zero originate timestamp; and it counts the broadcast.  Otherwise it
    does nothing at all. *)
Theorem sendBroadcast_frame s :
  length (packetBuffer s) = 48%nat ->
  let s' := exec (sendBroadcast gps) s in
  if broadcastEnabled (config s) && isGPSQualitySufficient gps s then
    exists r,
      sent s' = sent s ++ [r]
      /\ sender r = Broadcast /\ destIP r = 4294967295 /\ destPort r = NTP_PORT
      /\ length (bytes r) = 48%nat
      /\ Z.land (nth 0 (bytes r) 0) 7 = 5
      /\ Z.land (Z.shiftr (nth 0 (bytes r) 0) 3) 7 = 4
      /\ pollByte (bytes r) = 6
      /\ originateTimestamp (bytes r) = replicate 8 0
      /\ broadcastsSent (metrics s') = u32 (broadcastsSent (metrics s) + 1)
  else s' = s.
Proof.
  intros Hlen s'.
  assert (E : s' = exec (sendBroadcast gps) s) by reflexivity. clearbody s'.
  unfold exec, sendBroadcast in E. rewrite bind_get in E.
  destruct (broadcastEnabled (config s)); cbn [negb andb] in *; [|exact E].
  destruct (isGPSQualitySufficient gps s); cbn [negb] in *; [|exact E].
  rewrite bind_modify in E.
  unfold store at 1 2 in E. rewrite !bind_modify, bind_micros in E.
  set (s1 := _ <| ticks ::= Datatypes.S |>) in E. set (now := u32 _) in E.
  change (snd (bind ?m ?k ?x)) with (exec (bind m k) x) in E. rewrite exec_bind in E.
  assert (Hl1 : length (packetBuffer s1) = 48%nat) by exact Hlen.
  destruct (buildNTPPacket_distinct gps s1 now now Hl1) as (Hv & Hp & Ho).
  pose proof (keeps_sent_buildNTPPacket gps PacketBuffer BroadcastRequest now now s1) as Hs.
  unfold same in Hs.
  assert (Hm : metrics (exec (buildNTPPacket gps PacketBuffer BroadcastRequest now now) s1)
               = metrics s).
  { exact (keeps_metrics_buildNTPPacket PacketBuffer BroadcastRequest now now s1). }
  assert (Hl2 : length (packetBuffer
                          (exec (buildNTPPacket gps PacketBuffer BroadcastRequest now now) s1))
                = 48%nat).
  { rewrite (keeps_length_buildNTPPacket BroadcastRequest now now s1). exact Hl1. }
  set (s2 := exec (buildNTPPacket gps PacketBuffer BroadcastRequest now now) s1) in *.
  change (extractVersion BroadcastRequest s1) with 4 in Hv.
  change (clampPoll (pollByte (request s1))) with 6 in Hp.
  change (map (fun i => nth i (request s1) 0) (seq 40 8)) with (replicate 8 0) in Ho.
  clearbody s2.
  set (b := <[0%nat := Z.lor (Z.land (nth 0 (packetBuffer s2) 0) 248) 5]> (packetBuffer s2)).
  assert (Hsent : sent s'
                  = sent s2 ++ [{| sender := Broadcast; destIP := 4294967295;
                                   destPort := NTP_PORT; bytes := take 48 b |}])
    by (rewrite E; reflexivity).
  assert (Hmet : broadcastsSent (metrics s') = u32 (broadcastsSent (metrics s2) + 1))
    by (rewrite E; reflexivity).
  clear E.
  exists {| sender := Broadcast; destIP := 4294967295; destPort := NTP_PORT;
            bytes := take 48 b |}.
  cbn [sender destIP destPort bytes].
  split; [rewrite Hsent, Hs; reflexivity|].
  rewrite Hmet, Hm. subst b.
  destruct (packetBuffer s2) as [|b0 rest] eqn:Hbuf; [discriminate Hl2|].
  assert (Hb : take 48 (<[0%nat := Z.lor (Z.land (nth 0 (b0 :: rest) 0) 248) 5]> (b0 :: rest))
               = Z.lor (Z.land b0 248) 5 :: rest).
  { cbn [nth]. cbn. rewrite firstn_all2; [reflexivity|]. cbn in Hl2. lia. }
  rewrite Hb. cbn [nth] in *. repeat split.
  - cbn in *. lia.
  - apply mode_patch.
  - rewrite version_patch. exact Hv.
  - exact Hp.
  - exact Ho.
Qed.

(** Kiss of death.  For a code of four characters or more the frame is
    48 bytes: the first is DC (leap indicator 3, version 3, mode 4), the
    stratum is 0, bytes 12 to 15 are the first four characters of the
    code and every other byte is zero; it goes to the given address and
    port and is counted in [kodSent]. *)
Theorem kiss_of_death_frame clientIP clientPort (code : string) s :
  length (packetBuffer s) = 48%nat -> (4 <= String.length code)%nat ->
  let s' := exec (sendKissOfDeath clientIP clientPort code) s in
  exists r,
    sent s' = sent s ++ [r]
    /\ sender r = KissOfDeath /\ destIP r = clientIP /\ destPort r = clientPort
    /\ bytes r = [220; 0; 0; 0; 0; 0; 0; 0; 0; 0; 0; 0] ++ take 4 (codes code)
                 ++ replicate 32 0
    /\ length (bytes r) = 48%nat
    /\ Z.shiftr (nth 0 (bytes r) 0) 6 = 3
    /\ Z.land (Z.shiftr (nth 0 (bytes r) 0) 3) 7 = 3
    /\ Z.land (nth 0 (bytes r) 0) 7 = 4
    /\ kodSent (metrics s') = u32 (kodSent (metrics s) + 1).
Proof.
  intros Hlen Hcode s'. subst s'.
  pose proof (sendKissOfDeath_run code {| remoteIP := clientIP; remotePort := clientPort;
                                          payload := [] |} s Hlen) as Hrun.
  cbn [remoteIP remotePort] in Hrun. rewrite Hrun. clear Hrun.
  destruct code as [|c1 [|c2 [|c3 [|c4 rest]]]]; cbn in Hcode; try lia.
  eexists. split; [reflexivity|]. repeat split.
Qed.

Lemma microsToNTP_reads_statics t s1 s2 :
  lastGPSUpdateMicros s1 = lastGPSUpdateMicros s2 ->
  gpsUpdateMillis s1 = gpsUpdateMillis s2 ->
  eval (microsToNTP gps t) s1 = eval (microsToNTP gps t) s2
  /\ lastGPSUpdateMicros (exec (microsToNTP gps t) s1)
     = lastGPSUpdateMicros (exec (microsToNTP gps t) s2)
  /\ gpsUpdateMillis (exec (microsToNTP gps t) s1)
     = gpsUpdateMillis (exec (microsToNTP gps t) s2).
Proof.
  intros Hl Hg. unfold eval, exec, microsToNTP.
  rewrite !bind_modify, !bind_get. cbv zeta. rewrite Hg.
  destruct (negb (GPS.gd_lastUpdateMillis gps =? gpsUpdateMillis s2)).
  - cbn [lastGPSUpdateMicros]. destruct (4294967295 <? _); cbn; auto.
  - rewrite Hl. destruct (4294967295 <? _); cbn; auto.
Qed.

Lemma packetBuffer_writeNTPTimestamp off ts s :
  packetBuffer (exec (writeNTPTimestamp PacketBuffer off ts) s)
  = <[(off + 4 + 3)%nat := Z.land (fraction ts) 255]>
      (<[(off + 4 + 2)%nat := byteOf (fraction ts) 8]>
      (<[(off + 4 + 1)%nat := byteOf (fraction ts) 16]>
      (<[(off + 4 + 0)%nat := byteOf (fraction ts) 24]>
      (<[(off + 3)%nat := Z.land (seconds ts) 255]>
      (<[(off + 2)%nat := byteOf (seconds ts) 8]>
      (<[(off + 1)%nat := byteOf (seconds ts) 16]>
      (<[(off + 0)%nat := byteOf (seconds ts) 24]> (packetBuffer s)))))))).
Proof. destruct s. reflexivity. Qed.

Lemma statics_writeNTPTimestamp off ts s :
  lastGPSUpdateMicros (exec (writeNTPTimestamp PacketBuffer off ts) s)
  = lastGPSUpdateMicros s
  /\ gpsUpdateMillis (exec (writeNTPTimestamp PacketBuffer off ts) s) = gpsUpdateMillis s.
Proof. destruct s. split; reflexivity. Qed.

(** The reply, byte by byte.  When [buildNTPPacket] fills the buffer that
    also holds the request (the call [sendNTPResponse] makes for
    [handleNTPRequests]), the 48 bytes are: the flags byte, C4 when the
    time is not valid or the fix is more than 2000 ms old and 04
    otherwise (version bits 0, mode 4); the configured stratum; poll
    exponent 4; precision EC; root delay and root dispersion; the first
    four bytes of the reference identifier; the reference timestamp; eight
    zero bytes in the originate field; and the receive and transmit
    timestamps that [microsToNTP] computes, one after the other, from the
    two clock readings. *)
Theorem reply_frame rx tx s :
  length (packetBuffer s) = 48%nat ->
  (4 <= length (referenceID (config s)))%nat ->
  let alarm := negb (GPS.gd_timeValid gps) || (2000 <? GPS.gd_updateAge gps) in
  let reference :=
    {| seconds := u32 (GPS.gd_unixTime gps + NTP_EPOCH_OFFSET);
       fraction := u32 (Z.quot (u64 (GPS.gd_lockAcquiredFraction gps * 4294967296)) 100) |} in
  let received := eval (microsToNTP gps rx) s in
  let transmitted := eval (microsToNTP gps tx) (exec (microsToNTP gps rx) s) in
  packetBuffer (exec (buildNTPPacket gps PacketBuffer PacketBuffer rx tx) s)
  = [if alarm then 196 else 4; stratum (config s); 4; 236]
    ++ wordBytes (fixed16_16 (fst (calculateRootDelayDispersion gps)))
    ++ wordBytes (fixed16_16 (snd (calculateRootDelayDispersion gps)))
    ++ take 4 (referenceID (config s))
    ++ stampBytes reference
    ++ replicate 8 0
    ++ stampBytes received
    ++ stampBytes transmitted.
Proof.
  intros Hl Hid alarm reference received transmitted.
  unfold buildNTPPacket.
  cbv zeta. unfold calculateRootDelayDispersion. cbv zeta. cbv beta iota.
  repeat rewrite exec_bind.
  rewrite memset0_run by exact Hl.
  rewrite !packetBuffer_writeNTPTimestamp.
  rewrite (proj1 (microsToNTP_buffers _ _ _)).
  rewrite !packetBuffer_writeNTPTimestamp.
  rewrite (proj1 (microsToNTP_buffers _ _ _)).
  match goal with
  | |- context [packetBuffer (exec (memcpy PacketBuffer 24 PacketBuffer 40 8) ?x)] =>
      set (sA := exec (memcpy PacketBuffer 24 PacketBuffer 40 8) x)
  end.
  assert (HA : packetBuffer sA
               = [if alarm then 196 else 4; stratum (config s); 4; 236]
                 ++ wordBytes (fixed16_16 (fst (calculateRootDelayDispersion gps)))
                 ++ wordBytes (fixed16_16 (snd (calculateRootDelayDispersion gps)))
                 ++ take 4 (referenceID (config s))
                 ++ stampBytes reference ++ replicate 24 0
               /\ lastGPSUpdateMicros sA = lastGPSUpdateMicros s
               /\ gpsUpdateMillis sA = gpsUpdateMillis s).
  { subst sA alarm reference. clear received transmitted Hl.
    destruct s as [cfg m g cl n buf lb lc lu gu rq out k].
    destruct cfg as [a1 a2 a3 a4 a5 a6 a7 a8 a9 a10 a11 a12 a13 a14].
    cbn [config referenceID] in Hid.
    destruct a11 as [|r1 [|r2 [|r3 [|r4 rr]]]]; cbn in Hid; try lia.
    destruct (negb (GPS.gd_timeValid gps) || (2000 <? GPS.gd_updateAge gps));
      repeat split; reflexivity. }
  destruct HA as (Hbuf & Hlu & Hgu).
  destruct (microsToNTP_reads_statics rx sA s Hlu Hgu) as (Ht1 & Hlu1 & Hgu1).
  rewrite Ht1. fold received.
  set (sB := exec (writeNTPTimestamp PacketBuffer 32 received)
                  (exec (microsToNTP gps rx) sA)).
  destruct (statics_writeNTPTimestamp 32 received (exec (microsToNTP gps rx) sA))
    as (Hlu2 & Hgu2). fold sB in Hlu2, Hgu2.
  destruct (microsToNTP_reads_statics tx sB (exec (microsToNTP gps rx) s)
              ltac:(congruence) ltac:(congruence)) as (Ht2 & _).
  rewrite Ht2. fold transmitted.
  rewrite Hbuf.
  destruct (referenceID (config s)) as [|r1 [|r2 [|r3 [|r4 rr]]]]; cbn in Hid; try lia.
  reflexivity.
Qed.

End NTPFrames.

(** The broadcasting server with a good fix sends one broadcast frame. *)
Lemma sendBroadcast_witness :
  length (NTP.packetBuffer Scenario.broadcasting) = 48%nat
  /\ exists r,
       NTP.sent (exec (@NTP.sendBroadcast (Scenario.platform 5000 5000000)
                         Scenario.goodFix) Scenario.broadcasting) = [r]
       /\ NTP.sender r = NTP.Broadcast
       /\ Z.land (nth 0 (NTP.bytes r) 0) 7 = 5
       /\ Wire.pollByte (NTP.bytes r) = 6.
Proof.
  split; [reflexivity|].
  pose proof (@sendBroadcast_frame (Scenario.platform 5000 5000000) Scenario.goodFix
                Scenario.broadcasting eq_refl) as Hthm.
  cbv zeta in Hthm.
  change (NTP.broadcastEnabled (NTP.config Scenario.broadcasting)
          && NTP.isGPSQualitySufficient Scenario.goodFix Scenario.broadcasting)
    with true in Hthm.
  cbv iota in Hthm.
  destruct Hthm as (r & Hsent & Hsender & _ & _ & _ & Hmode & _ & Hpoll & _).
  exists r. repeat split; assumption.
Defined.

(** The "DENY" frame sent from the fresh server. *)
Lemma kiss_of_death_witness :
  (length (NTP.packetBuffer Scenario.fresh) = 48%nat /\ (4 <= String.length "DENY"%string)%nat)
  /\ exists r,
       NTP.sent (exec (NTP.sendKissOfDeath 3232235786 40000 "DENY") Scenario.fresh) = [r]
       /\ Wire.referenceId (NTP.bytes r) = Wire.codes "DENY"
       /\ nth 1 (NTP.bytes r) 0 = 0.
Proof.
  split; [split; [reflexivity | vm_compute; lia]|].
  destruct (kiss_of_death_frame 3232235786 40000 "DENY" Scenario.fresh eq_refl
              ltac:(vm_compute; lia)) as (r & Hsent & _ & _ & _ & Hbytes & _).
  exists r. split; [exact Hsent|]. rewrite Hbytes. split; reflexivity.
Defined.

(** The reply to the request of the scenarios: poll exponent 4, a zero
    originate timestamp, flags 04. *)
Lemma reply_frame_witness :
  (length (NTP.packetBuffer Scenario.fresh) = 48%nat
   /\ (4 <= length (NTP.referenceID (NTP.config Scenario.fresh)))%nat)
  /\ take 4 (NTP.packetBuffer
               (exec (@NTP.buildNTPPacket (Scenario.platform 5000 5000000)
                        Scenario.goodFix NTP.PacketBuffer NTP.PacketBuffer
                        5000040 5000200) Scenario.fresh))
     = [4; 1; 4; 236].
Proof.
  split; [split; [reflexivity | vm_compute; lia]|].
  rewrite (@reply_frame (Scenario.platform 5000 5000000) Scenario.goodFix
             5000040 5000200 Scenario.fresh eq_refl ltac:(vm_compute; lia)).
  reflexivity.
Defined.

(* ---------------------------------------------------------------------- *)
(** ** Housekeeping of the NTP server                                       *)
(* ---------------------------------------------------------------------- *)

Section NTPTable.
Import NTP Wire.

Lemma shift_loop (n : nat) : forall (i : nat) (s : NTPState),
  (i + n < length (clients s))%nat ->
  exec (for_loop i n (fun j =>
          modify (fun s => s <| clients ::= <[j := client (j + 1) s]> |>))) s
  = s <| clients := take i (clients s) ++ take n (drop (S i) (clients s))
                    ++ drop (i + n) (clients s) |>.
Proof.
  induction n as [|n IH]; intros i s Hlen.
  - cbn [for_loop]. rewrite Nat.add_0_r, take_0. cbn [app]. rewrite take_drop.
    destruct s; reflexivity.
  - cbn [for_loop]. rewrite exec_bind.
    unfold exec at 2. cbn [modify snd].
    set (s1 := s <| clients ::= _ |>).
    assert (Hc : clients s1 = <[i := client (i + 1) s]> (clients s)) by reflexivity.
    rewrite IH by (rewrite Hc, length_insert; lia).
    assert (Hx : clients s !! S i = Some (client (i + 1) s)).
    { unfold client. rewrite Nat.add_1_r, nth_lookup.
      destruct (lookup_lt_is_Some_2 (clients s) (S i) ltac:(lia)) as [x ->]. reflexivity. }
    rewrite Hc.
    rewrite (take_S_r _ i (client (i + 1) s))
      by (apply list_lookup_insert_eq; lia).
    rewrite take_insert_ge by lia.
    rewrite !drop_insert_lt by lia.
    rewrite (drop_S _ _ _ Hx). cbn [take].
    rewrite <- app_assoc. cbn [app].
    replace (i + S n)%nat with (S i + n)%nat by lia.
    destruct s; reflexivity.
Qed.

Lemma shiftDown_run (i : nat) (s : NTPState) :
  (i < Z.to_nat (clientCount s) <= length (clients s))%nat ->
  exec (shiftDown i) s
  = s <| clients := take i (clients s)
                    ++ drop (S i) (take (Z.to_nat (clientCount s)) (clients s))
                    ++ drop (Z.to_nat (clientCount s) - 1) (clients s) |>.
Proof.
  intros Hi. unfold shiftDown. rewrite exec_bind. unfold eval, exec at 2, gets.
  cbn [fst snd].
  rewrite shift_loop by lia.
  rewrite take_drop_commute.
  replace (S i + (Z.to_nat (clientCount s - 1) - i))%nat
    with (Z.to_nat (clientCount s)) by lia.
  replace (i + (Z.to_nat (clientCount s - 1) - i))%nat
    with (Z.to_nat (clientCount s) - 1)%nat by lia.
  reflexivity.
Qed.

Lemma keeps_count_shiftDown i : keeps (same clientCount) (shiftDown i).
Proof. unfold shiftDown. repeat ntp_step_with ltac:(untouched). Qed.

Lemma scan_step now fuel i r s :
  bind (shiftDown i) (fun _ =>
    bind (modify (fun s => s <| clientCount ::= Z.pred |>)) (fun _ =>
      staleScan fuel now i (r + 1))) s
  = staleScan fuel now i (r + 1) ((exec (shiftDown i) s) <| clientCount ::= Z.pred |>).
Proof. unfold bind at 1. rewrite (run_eq (shiftDown i) s). reflexivity. Qed.

(** The fuel [cleanupStaleClients] runs its scan with is enough: more
    fuel than [clientCount - i] changes nothing. *)
Lemma staleScan_fuel now (f1 : nat) : forall (f2 i : nat) r s,
  (Z.to_nat (clientCount s) - i <= f1)%nat ->
  (Z.to_nat (clientCount s) - i <= f2)%nat ->
  staleScan f1 now i r s = staleScan f2 now i r s.
Proof.
  induction f1 as [|f1 IH]; intros [|f2] i r s H1 H2; try reflexivity.
  - cbn [staleScan]. rewrite bind_get.
    destruct (Z.of_nat i <? clientCount s) eqn:E; [apply Z.ltb_lt in E; lia | reflexivity].
  - cbn [staleScan]. rewrite bind_get.
    destruct (Z.of_nat i <? clientCount s) eqn:E; [apply Z.ltb_lt in E; lia | reflexivity].
  - cbn [staleScan]. rewrite !bind_get.
    destruct (Z.of_nat i <? clientCount s) eqn:E; [apply Z.ltb_lt in E | reflexivity].
    destruct (NTP_CLIENT_TIMEOUT <? _).
    + rewrite !scan_step.
      pose proof (keeps_count_shiftDown i s) as Hc. unfold same in Hc.
      apply IH;
        match goal with
        | |- context [clientCount ?x] =>
            change (clientCount x) with (Z.pred (clientCount (exec (shiftDown i) s)))
        end; rewrite Hc; lia.
    + apply IH; lia.
Qed.

Lemma staleScan_spec now (fuel : nat) : forall (i : nat) r s,
  Z.of_nat i <= clientCount s ->
  (Z.to_nat (clientCount s) <= length (clients s))%nat ->
  (Z.to_nat (clientCount s) - i <= fuel)%nat ->
  let rest := drop i (liveClients s) in
  let kept := filter (recent now) rest in
  let s' := exec (staleScan fuel now i r) s in
  liveClients s' = take i (clients s) ++ kept
  /\ clientCount s' = Z.of_nat (i + length kept)
  /\ eval (staleScan fuel now i r) s = r + Z.of_nat (length rest - length kept)
  /\ length (clients s') = length (clients s)
  /\ s' <| clients := clients s |> <| clientCount := clientCount s |> = s.
Proof.
  induction fuel as [|fuel IH]; intros i r s Hi Hn Hf; cbv zeta.
  - assert (E : drop i (liveClients s) = []).
    { apply drop_ge. unfold liveClients. rewrite length_take. lia. }
    rewrite E. cbn [staleScan].
    unfold exec, eval, ret. cbn [fst snd]. rewrite filter_nil, app_nil_r.
    cbn [length]. repeat split; try lia.
    + unfold liveClients. f_equal. lia.
    + destruct s; reflexivity.
  - cbn [staleScan]. unfold exec, eval. rewrite !bind_get.
    destruct (Z.of_nat i <? clientCount s) eqn:E.
    2:{ apply Z.ltb_ge in E.
        assert (E' : drop i (liveClients s) = []).
        { apply drop_ge. unfold liveClients. rewrite length_take. lia. }
        rewrite E'. unfold ret. cbn [fst snd]. rewrite filter_nil, app_nil_r.
        cbn [length]. repeat split; try lia.
        + unfold liveClients. f_equal. lia.
        + destruct s; reflexivity. }
    apply Z.ltb_lt in E.
    destruct (lookup_lt_is_Some_2 (clients s) i ltac:(lia)) as [c Hc].
    assert (Hci : client i s = c).
    { unfold client. rewrite nth_lookup, Hc. reflexivity. }
    assert (Hrest : drop i (liveClients s) = c :: drop (S i) (liveClients s)).
    { apply drop_S. unfold liveClients. rewrite lookup_take_lt by lia. exact Hc. }
    rewrite Hrest, Hci.
    destruct (NTP_CLIENT_TIMEOUT <? u32 (now - lastRequest c)) eqn:St.
    + apply Z.ltb_lt in St.
      rewrite filter_cons_False by (unfold recent; lia).
      rewrite (scan_step now fuel i r s).
      rewrite shiftDown_run by lia.
      set (s2 := _ <| clientCount ::= Z.pred |>).
      assert (Hcl : clients s2 = take i (clients s)
                    ++ drop (S i) (liveClients s)
                    ++ drop (Z.to_nat (clientCount s) - 1) (clients s)) by reflexivity.
      assert (Hcn : clientCount s2 = Z.pred (clientCount s)) by reflexivity.
      assert (Hfr : s2 <| clients := clients s |> <| clientCount := clientCount s |> = s)
        by (destruct s; reflexivity).
      clearbody s2.
      assert (Hlen : length (clients s2) = length (clients s)).
      { rewrite Hcl. unfold liveClients.
        rewrite !length_app, !length_drop, !length_take. lia. }
      assert (Hlive2 : drop i (liveClients s2) = drop (S i) (liveClients s)).
      { unfold liveClients at 1. rewrite Hcl, Hcn.
        rewrite app_assoc, take_app_le.
        2:{ rewrite length_app, length_take, length_drop. unfold liveClients.
            rewrite length_take. lia. }
        rewrite take_ge.
        2:{ rewrite length_app, length_take, length_drop. unfold liveClients.
            rewrite length_take. lia. }
        rewrite drop_app_length'; [reflexivity | rewrite length_take; lia]. }
      assert (Htk : take i (clients s2) = take i (clients s)).
      { rewrite Hcl. rewrite take_app_length'; [reflexivity | rewrite length_take; lia]. }
      destruct (IH i (r + 1) s2) as (A & B & C & D & F); try lia.
      unfold exec, eval in A, B, C, D, F.
      rewrite Hlive2, Htk in *.
      cbn [length].
      repeat split; try assumption; try lia.
      * rewrite C. pose proof (length_filter (recent now) (drop (S i) (liveClients s))). lia.
      * clear - F Hfr.
        set (x := (staleScan fuel now i (r + 1) s2).2) in *. clearbody x.
        destruct x, s2, s. cbn in F, Hfr |- *. congruence.
    + apply Z.ltb_ge in St.
      rewrite filter_cons_True by (unfold recent; lia).
      destruct (IH (S i) r s) as (A & B & C & D & F); try lia.
      unfold exec, eval in A, B, C, D, F.
      cbn [length].
      rewrite (take_S_r _ _ _ Hc) in A. rewrite <- app_assoc in A.
      repeat split; try assumption; try lia.
Qed.

End NTPTable.

Section NTPHousekeeping.
Import NTP Wire.
Context `{Platform} (gps : GPS.GPSData).

(** Pruning.  On a table whose entries in use fit the array,
    [cleanupStaleClients] keeps exactly the entries whose last request is
    at most [NTP_CLIENT_TIMEOUT] milliseconds old on the 32-bit clock, in
    the order they had; [clientCount] is their number, the array keeps its
    size, and [uniqueClients] is set to the new count when, and only
    when, an entry went. *)
Theorem cleanupStaleClients_filters s :
  0 <= clientCount s ->
  (Z.to_nat (clientCount s) <= length (clients s))%nat ->
  let now := eval millis s in
  let s' := exec cleanupStaleClients s in
  liveClients s' = filter (recent now) (liveClients s)
  /\ clientCount s' = Z.of_nat (length (liveClients s'))
  /\ length (clients s') = length (clients s)
  /\ uniqueClients (metrics s')
     = if clientCount s' <? clientCount s then u32 (clientCount s')
       else uniqueClients (metrics s).
Proof.
  intros H0 Hn now s'. subst s'.
  unfold cleanupStaleClients, exec. rewrite bind_millis, bind_gets.
  change (eval millis s) with (u32 (millis_at (ticks s))) in now.
  fold now.
  set (s0 := s <| ticks ::= S |>).
  assert (Hc0 : clientCount s0 = clientCount s) by reflexivity.
  assert (Hl0 : clients s0 = clients s) by reflexivity.
  assert (Hm0 : metrics s0 = metrics s) by reflexivity.
  assert (Hv0 : liveClients s0 = liveClients s) by reflexivity.
  clearbody s0.
  destruct (staleScan_spec now (Z.to_nat (clientCount s0)) 0 0 s0)
    as (A & B & C & D & F); [lia | rewrite Hc0, Hl0; lia | lia |].
  rewrite drop_0, Hv0 in A, B, C. cbn [take app] in A.
  rewrite Hl0 in D.
  set (kept := filter (recent now) (liveClients s)) in *.
  assert (Hk : (length kept <= Z.to_nat (clientCount s))%nat).
  { subst kept. etransitivity; [apply length_filter|].
    unfold liveClients. rewrite length_take. lia. }
  assert (Hall : length (liveClients s) = Z.to_nat (clientCount s)).
  { unfold liveClients. rewrite length_take. lia. }
  unfold bind. rewrite (run_eq (staleScan _ _ _ _) s0).
  set (s1 := exec (staleScan _ _ _ _) s0) in *.
  rewrite C. clearbody s1.
  assert (Hm1 : metrics s1 = metrics s).
  { rewrite <- Hm0, <- F. reflexivity. }
  rewrite Hall.
  destruct (0 <? 0 + Z.of_nat (Z.to_nat (clientCount s) - length kept)) eqn:R.
  - apply Z.ltb_lt in R.
    cbn [modify snd].
    set (s2 := s1 <| metrics ::= _ |>).
    assert (Hv2 : liveClients s2 = liveClients s1) by reflexivity.
    assert (Hc2 : clientCount s2 = clientCount s1) by reflexivity.
    assert (Hl2 : clients s2 = clients s1) by reflexivity.
    assert (Hu2 : uniqueClients (metrics s2) = u32 (clientCount s1)) by reflexivity.
    clearbody s2. rewrite Hv2, Hc2, Hl2, Hu2, A.
    repeat split; try assumption.
    destruct (clientCount s1 <? clientCount s) eqn:Q; [reflexivity|].
    apply Z.ltb_ge in Q. lia.
  - apply Z.ltb_ge in R. unfold ret. cbn [snd].
    rewrite A, Hm1.
    repeat split; try assumption.
    destruct (clientCount s1 <? clientCount s) eqn:Q; [|reflexivity].
    apply Z.ltb_lt in Q. lia.
Qed.

Section TableFrame.
Context {X : Type} (f : NTPState -> X).
Hypothesis f_ticks : forall s g, f (s <| ticks ::= g |>) = f s.
Hypothesis f_clients : forall s g, f (s <| clients ::= g |>) = f s.
Hypothesis f_count : forall s g, f (s <| clientCount ::= g |>) = f s.
Hypothesis f_metrics : forall s g, f (s <| metrics ::= g |>) = f s.

Lemma keeps_shiftDown i : keeps (same f) (shiftDown i).
Proof. unfold shiftDown. repeat ntp_step_with ltac:(unfold same; apply f_clients). Qed.

Lemma keeps_staleScan fuel now : forall i r, keeps (same f) (staleScan fuel now i r).
Proof.
  induction fuel as [|fuel IH]; intros i r; cbn [staleScan].
  - apply keeps_ret; exact _.
  - apply keeps_bind; [exact _ | apply keeps_get; exact _ | intros s].
    destruct (_ <? _); [|apply keeps_ret; exact _].
    destruct (_ <? _); [|apply IH].
    apply keeps_bind; [exact _ | apply keeps_shiftDown | intros _].
    apply keeps_bind; [exact _ | | intros _; apply IH].
    apply keeps_modify. intros ?. apply f_count.
Qed.

Lemma keeps_cleanupStaleClients : keeps (same f) cleanupStaleClients.
Proof.
  unfold cleanupStaleClients.
  apply keeps_bind; [exact _ | intros s; apply f_ticks | intros now].
  apply keeps_bind; [exact _ | apply keeps_gets; exact _ | intros n].
  apply keeps_bind; [exact _ | apply keeps_staleScan | intros removed].
  destruct (0 <? removed); [|apply keeps_ret; exact _].
  apply keeps_modify. intros ?. apply f_metrics.
Qed.
End TableFrame.

Lemma keeps_sent_cleanupStaleClients : keeps (same sent) cleanupStaleClients.
Proof. apply keeps_cleanupStaleClients; reflexivity. Qed.

Lemma keeps_config_cleanupStaleClients : keeps (same config) cleanupStaleClients.
Proof. apply keeps_cleanupStaleClients; reflexivity. Qed.

Lemma keeps_config_handleNTPRequests incoming :
  keeps (same config) (handleNTPRequests gps incoming).
Proof.
  unfold handleNTPRequests, checkGlobalRateLimit, sendKissOfDeath, sendNTPResponse,
    checkClientRateLimit, updateClientStats, findOrCreateClient, buildNTPPacket,
    recordResponseTime, countVersionAndStratum, udpSend.
  destruct incoming; repeat ntp_step_with ltac:(untouched).
Qed.

Lemma keeps_config_sendBroadcast : keeps (same config) (sendBroadcast gps).
Proof.
  unfold sendBroadcast, buildNTPPacket, udpSend.
  repeat ntp_step_with ltac:(untouched).
Qed.

Lemma sendBroadcast_sent s :
  sent (exec (sendBroadcast gps) s) = sent s
  \/ exists b,
       broadcastEnabled (config s) = true /\ isGPSQualitySufficient gps s = true
       /\ sent (exec (sendBroadcast gps) s)
          = sent s ++ [{| sender := Broadcast; destIP := 4294967295;
                          destPort := NTP_PORT; bytes := b |}].
Proof.
  unfold exec, sendBroadcast. rewrite bind_get.
  destruct (broadcastEnabled (config s)); cbn [negb]; [|left; reflexivity].
  destruct (isGPSQualitySufficient gps s); cbn [negb]; [|left; reflexivity].
  right. rewrite bind_modify.
  unfold store at 1 2. rewrite !bind_modify, bind_micros.
  set (s1 := _ <| ticks ::= Datatypes.S |>). set (now := u32 _).
  change (snd (bind ?m ?k ?x)) with (exec (bind m k) x). rewrite exec_bind.
  pose proof (keeps_sent_buildNTPPacket gps PacketBuffer BroadcastRequest now now s1) as Hs.
  set (s2 := exec (buildNTPPacket gps PacketBuffer BroadcastRequest now now) s1) in *.
  unfold same in Hs. change (sent s1) with (sent s) in Hs. clearbody s2.
  unfold exec. rewrite bind_gets. unfold store. rewrite bind_modify.
  unfold udpSend. rewrite bind_modify, bind_millis, bind_modify.
  unfold setMetrics, modify. cbn [snd].
  eexists. repeat split. rewrite <- Hs. reflexivity.
Qed.

Lemma updateMetricsState_run s :
  let s' := exec (updateMetricsState gps) s in
  isServing s' = isGPSQualitySufficient gps s
  /\ sent s' = sent s /\ config s' = config s.
Proof.
  unfold updateMetricsState, exec. rewrite !bind_gets. unfold setMetrics.
  rewrite bind_modify.
  destruct (isGPSQualitySufficient gps s), (currentlyServing (metrics s));
    cbn [andb negb]; repeat split.
Qed.

(** One call of [process].  A disabled server does nothing.  An enabled
    one handles the datagram at hand and after that sends at most one
    more frame, a broadcast, and only if broadcasting is configured to
    run by itself and the fix passes the quality gate; the pruning of the
    client table and the update of the serving state send nothing.
    Afterwards [isServing] is the verdict of the quality gate. *)
Theorem process_sends incoming s :
  let handled := exec (handleNTPRequests gps incoming) s in
  let s' := exec (process gps incoming) s in
  if enabled (config s) then
    (sent s' = sent handled
     \/ exists b,
          broadcastEnabled (config s) && autoBroadcast (config s) = true
          /\ isGPSQualitySufficient gps s = true
          /\ sent s' = sent handled
                       ++ [{| sender := Broadcast; destIP := 4294967295;
                              destPort := NTP_PORT; bytes := b |}])
    /\ config s' = config s
    /\ isServing s' = isGPSQualitySufficient gps s
  else s' = s.
Proof.
  intros handled s'.
  assert (E : s' = exec (process gps incoming) s) by reflexivity. clearbody s'.
  unfold process, exec in E. rewrite bind_gets in E.
  destruct (enabled (config s)); cbn [negb] in E; [|exact E].
  change (snd (bind ?m ?k ?x)) with (exec (bind m k) x) in E.
  rewrite exec_bind in E. fold handled in E.
  pose proof (keeps_config_handleNTPRequests incoming s) as Hc. fold handled in Hc.
  unfold same in Hc. clearbody handled.
  cbv beta in E. unfold exec at 1 in E. rewrite bind_gets in E.
  change (snd (bind ?m ?k ?x)) with (exec (bind m k) x) in E. rewrite exec_bind in E.
  set (cast := if _ && _ then _ else _) in E.
  assert (Hcast : (sent (exec cast handled) = sent handled
                   \/ exists b,
                        broadcastEnabled (config s) && autoBroadcast (config s) = true
                        /\ isGPSQualitySufficient gps s = true
                        /\ sent (exec cast handled) = sent handled
                             ++ [{| sender := Broadcast; destIP := 4294967295;
                                    destPort := NTP_PORT; bytes := b |}])
                  /\ config (exec cast handled) = config s).
  { subst cast. rewrite Hc.
    destruct (broadcastEnabled (config s) && autoBroadcast (config s)) eqn:Hb;
      [|split; [left; reflexivity | exact Hc]].
    unfold exec. rewrite bind_millis, bind_gets.
    set (h1 := handled <| ticks ::= Datatypes.S |>).
    destruct (_ <? _); [|split; [left; reflexivity | exact Hc]].
    split.
    - destruct (sendBroadcast_sent h1) as [Hs | (b & _ & Hq & Hs)].
      + left. exact Hs.
      + right. exists b. repeat split; [|exact Hs].
        unfold isGPSQualitySufficient in Hq |- *.
        change (config h1) with (config handled) in Hq. rewrite Hc in Hq. exact Hq.
    - transitivity (config h1); [exact (keeps_config_sendBroadcast h1) | exact Hc]. }
  set (s2 := exec cast handled) in *. clearbody s2. clear cast.
  destruct Hcast as (Hs2 & Hc2).
  unfold exec at 1 in E. rewrite bind_millis, bind_gets in E.
  change (snd (bind ?m ?k ?x)) with (exec (bind m k) x) in E. rewrite exec_bind in E.
  set (s3 := s2 <| ticks ::= Datatypes.S |>) in E.
  set (prune := if _ <? _ then _ else _) in E.
  assert (Hp : sent (exec prune s3) = sent s2 /\ config (exec prune s3) = config s).
  { subst prune. destruct (_ <? _); [|split; [reflexivity | exact Hc2]].
    rewrite exec_bind. unfold exec at 1 3. rewrite !bind_millis. cbn [modify snd].
    split.
    - exact (keeps_sent_cleanupStaleClients s3).
    - rewrite <- Hc2. exact (keeps_config_cleanupStaleClients s3). }
  set (s4 := exec prune s3) in *. clearbody s4. clear prune.
  destruct Hp as (Hs4 & Hc4).
  destruct (updateMetricsState_run s4) as (Hserving & Hsent & Hconfig).
  rewrite <- E in Hserving, Hsent, Hconfig.
  rewrite Hsent, Hs4, Hconfig, Hc4, Hserving.
  repeat split; [exact Hs2|].
  unfold isGPSQualitySufficient. rewrite Hc4. reflexivity.
Qed.

(** The status text.  It is "Disabled" exactly when the server is
    switched off and the "Serving" line exactly when it is on and the fix
    passes the quality gate; the fallback text "GPS Quality Insufficient"
    is never returned, since one of the four named reasons always
    applies when the gate fails. *)
Theorem getStatusString_cases s :
  getStatusString gps s <> CStr.chars "GPS Quality Insufficient"
  /\ (getStatusString gps s = CStr.chars "Disabled" <-> enabled (config s) = false)
  /\ (getStatusString gps s = CStr.chars "Serving - Stratum " ++ fmt_d (stratum (config s))
      <-> enabled (config s) = true /\ isGPSQualitySufficient gps s = true).
Proof.
  unfold getStatusString, isGPSQualitySufficient.
  destruct (enabled (config s)); cbn [negb].
  2:{ repeat split; try discriminate; try reflexivity. intros [? _]. discriminate. }
  destruct (GPS.gd_timeValid gps); cbn [negb].
  2:{ repeat split; try discriminate; intros [_ ?]; discriminate. }
  destruct (GPS.gd_satellites gps <? minSatellites (config s)); cbn [negb].
  1:{ repeat split; try discriminate; intros [_ ?]; discriminate. }
  destruct (Flt.gt _ _); cbn [negb].
  1:{ repeat split; try discriminate; intros [_ ?]; discriminate. }
  destruct (maxFixAge (config s) <? GPS.gd_updateAge gps); cbn [negb].
  1:{ repeat split; try discriminate; intros [_ ?]; discriminate. }
  repeat split; try discriminate.
Qed.

End NTPHousekeeping.

(** At 3604000 ms the entry last served at 3000 ms has timed out and the
    one served at 4900 ms has not. *)
Lemma cleanupStaleClients_witness :
  (0 <= NTP.clientCount Scenario.crowded
   /\ (Z.to_nat (NTP.clientCount Scenario.crowded)
       <= length (NTP.clients Scenario.crowded))%nat)
  /\ Wire.liveClients
       (exec (@NTP.cleanupStaleClients (Scenario.platform 3604000 0)) Scenario.crowded)
     = [Scenario.knownClient 3].
Proof.
  split; [split; vm_compute; [discriminate | lia]|].
  destruct (@cleanupStaleClients_filters (Scenario.platform 3604000 0) Scenario.crowded
              ltac:(vm_compute; discriminate) ltac:(vm_compute; lia)) as (Hlive & _).
  rewrite Hlive. vm_compute. reflexivity.
Defined.

(* ---------------------------------------------------------------------- *)
(** ** Further properties of the GPS engine                                 *)
(* ---------------------------------------------------------------------- *)

(** One structural step on a goal [keeps R m] for a method of [GPS]. *)
Ltac gps_step_with close :=
  lazymatch goal with
  | |- keeps _ GPS.millis => intros ?; close
  | |- keeps _ (GPS.setData _) => unfold GPS.setData
  | |- keeps _ (GPS.setTracking _) => unfold GPS.setTracking
  | |- keeps _ (GPS.setSatellite _ _) => unfold GPS.setSatellite
  | |- keeps _ (GPS.setHealth _) => unfold GPS.setHealth
  | |- keeps _ (GPS.setStatics _) => unfold GPS.setStatics
  | |- keeps _ (GPS.setAlert _ _ _) => unfold GPS.setAlert
  | |- keeps _ (GPS.shouldFireEvent _) => unfold GPS.shouldFireEvent
  | |- keeps _ (GPS.addEvent _ _) => unfold GPS.addEvent
  | |- keeps _ (GPS.fireIf _ _ _) => unfold GPS.fireIf
  | |- keeps _ (GPS.paceLog _ _ _) => unfold GPS.paceLog
  | |- keeps _ (GPS.parseDOP _ _) => unfold GPS.parseDOP
  | |- keeps _ (GPS.storeVisible _ _ _ _) => unfold GPS.storeVisible
  | |- keeps _ (GPS.markInUse _ _) => unfold GPS.markInUse
  | |- keeps _ (GPS.updateFixQuality) => unfold GPS.updateFixQuality
  | |- keeps _ (GPS.updateAlerts) => unfold GPS.updateAlerts
  | |- _ => keeps_step close
  end.

(** *** The snapshot after a cycle *)

Section GPSCycle.
Import GPS CStr.
Context `{Platform} `{Decoder}.

Lemma keeps_data_checkHeartbeat : keeps (same gpsData) checkHeartbeat.
Proof. unfold checkHeartbeat. repeat gps_step_with ltac:(untouched). Qed.

Lemma keeps_data_calculateHealth : keeps (same gpsData) calculateHealth.
Proof. unfold calculateHealth. repeat gps_step_with ltac:(untouched). Qed.

Lemma keeps_data_fireIf cond type message : keeps (same gpsData) (fireIf cond type message).
Proof. repeat gps_step_with ltac:(untouched). Qed.

(** Staleness.  After a processing cycle the snapshot is either at most
    [GPS_DATA_TIMEOUT] milliseconds old by its own [updateAge], or both
    its [valid] and its [timeValid] flag are down: [checkStaleness]
    clears them, and neither [checkHeartbeat] nor [calculateHealth]
    writes the snapshot afterwards. *)
Theorem process_marks_stale_data available s :
  let d := gpsData (exec (process available) s) in
  gd_updateAge d <= GPS_DATA_TIMEOUT
  \/ (gd_valid d = false /\ gd_timeValid d = false).
Proof.
  cbv zeta. unfold process.
  do 4 rewrite exec_bind.
  set (s4 := exec addHistoricalPoint _). clearbody s4.
  do 2 rewrite exec_bind.
  rewrite (keeps_data_calculateHealth _), (keeps_data_checkHeartbeat _).
  unfold checkStaleness, exec. rewrite bind_get.
  destruct (GPS_DATA_TIMEOUT <? gd_updateAge (gpsData s4)) eqn:E.
  - right.
    change (snd (bind ?m ?k ?x)) with (exec (bind m k) x). rewrite exec_bind.
    split; reflexivity.
  - left. apply Z.ltb_ge in E. exact E.
Qed.

Lemma keeps_total_gsvSatellites n : forall p, keeps (same inUseTotal) (gsvSatellites n p).
Proof.
  induction n as [|n IH]; intros p; cbn [gsvSatellites].
  - apply keeps_ret; exact _.
  - repeat first [apply IH | gps_step_with ltac:(untouched)].
Qed.

Lemma keeps_total_gsaSatellites n : forall p c,
  keeps (same inUseTotal) (gsaSatellites n p c).
Proof.
  induction n as [|n IH]; intros p c; cbn [gsaSatellites].
  - apply keeps_ret; exact _.
  - repeat first [apply IH | gps_step_with ltac:(untouched)].
Qed.

Lemma keeps_total_parseGSVSentence sentence c :
  keeps (same inUseTotal) (parseGSVSentence sentence c).
Proof.
  unfold parseGSVSentence.
  repeat first [apply keeps_total_gsvSatellites | gps_step_with ltac:(untouched)].
Qed.

Lemma keeps_total_markSatellitesInUse sentence c :
  keeps (same inUseTotal) (markSatellitesInUse sentence c).
Proof.
  unfold markSatellitesInUse.
  repeat first [apply keeps_total_gsaSatellites | gps_step_with ltac:(untouched)].
Qed.

Lemma keeps_total_parseNMEASentence sentence :
  keeps (same inUseTotal) (parseNMEASentence sentence).
Proof.
  unfold parseNMEASentence, parseGPGSVSentence, parseGLGSVSentence,
    parseGAGSVSentence, parseGBGSVSentence, parseGPGSASentence,
    parseGNGSVSentence, parseGNGSASentence, detectCapabilities.
  repeat first [ apply keeps_total_parseGSVSentence
               | apply keeps_total_markSatellitesInUse
               | gps_step_with ltac:(untouched) ].
Qed.

Lemma keeps_total_readLoop available : keeps (same inUseTotal) (readLoop available).
Proof.
  induction available as [|c rest IH]; cbn [readLoop].
  - apply keeps_ret; exact _.
  - unfold processChar.
    repeat first [ apply IH | apply keeps_total_parseNMEASentence
                 | gps_step_with ltac:(untouched) ].
Qed.

Lemma keeps_tracking_updateTime v : keeps (same satTracking) (updateTime v).
Proof. unfold updateTime. repeat gps_step_with ltac:(untouched). Qed.

Lemma keeps_tracking_updatePosition v : keeps (same satTracking) (updatePosition v).
Proof. unfold updatePosition. repeat gps_step_with ltac:(untouched). Qed.

Lemma keeps_tracking_tail :
  keeps (same satTracking)
    (bind addHistoricalPoint (fun _ => bind checkStaleness (fun _ =>
       bind checkHeartbeat (fun _ => calculateHealth)))).
Proof.
  unfold addHistoricalPoint, checkStaleness, checkHeartbeat, calculateHealth.
  repeat gps_step_with ltac:(untouched).
Qed.

Lemma keeps_shown_tail :
  keeps (same satellitesShown)
    (bind updateConstellationCounts (fun _ =>
       bind addHistoricalPoint (fun _ => bind checkStaleness (fun _ =>
         bind checkHeartbeat (fun _ => calculateHealth))))).
Proof.
  unfold updateConstellationCounts, addHistoricalPoint, checkStaleness, checkHeartbeat,
    calculateHealth.
  repeat gps_step_with ltac:(untouched).
Qed.

Lemma fold_countInUse_total l : forall t,
  trk_totalInUse (fold_left countInUse l t)
  = trk_totalInUse t + Z.of_nat (length (List.filter counted l)).
Proof.
  induction l as [|sat l IH]; intros t; cbn [fold_left List.filter length].
  - lia.
  - rewrite IH. unfold countInUse, counted.
    destruct (tracked sat), (inUse sat); cbn [negb andb length]; try lia.
    replace (trk_totalInUse _) with (Z.succ (trk_totalInUse t)); [lia|].
    destruct (constellation sat) as [|p|p]; try reflexivity.
    do 3 (try destruct p as [p|p|]); reflexivity.
Qed.

Lemma fold_countInUse_count l : forall t,
  trk_count (fold_left countInUse l t) = trk_count t.
Proof.
  induction l as [|sat l IH]; intros t; cbn [fold_left]; [reflexivity|].
  rewrite IH. unfold countInUse.
  destruct (tracked sat), (inUse sat); cbn; try reflexivity.
  destruct (constellation sat) as [|p|p]; try reflexivity.
  do 3 (try destruct p as [p|p|]); reflexivity.
Qed.

(** The satellite count lags by one cycle.  The count a cycle writes to
    the snapshot is the in-use total the table held when the cycle began,
    because the sentences read in the cycle do not touch that total and
    [updateConstellationCounts] runs only after [updateGPSData].  The
    total the cycle leaves behind is the number of entries among the
    first [count] that are tracked and in use. *)
Theorem process_satellite_count available s :
  let s' := exec (process available) s in
  let t' := satTracking s' in
  gd_satellites (gpsData s') = trk_totalInUse (satTracking s)
  /\ trk_totalInUse t'
     = Z.of_nat (length (List.filter counted
                           (take (Z.to_nat (trk_count t')) (trk_satellites t')))).
Proof.
  cbv zeta. unfold process. rewrite exec_bind.
  pose proof (keeps_total_readLoop available s) as Hread. unfold same, inUseTotal in Hread.
  rewrite <- Hread.
  set (s1 := exec (readLoop available) s). clearbody s1. clear Hread.
  rewrite exec_bind. split.
  - change (gd_satellites (gpsData ?x)) with (satellitesShown x). cbv beta.
    etransitivity; [apply (keeps_shown_tail _)|].
    unfold updateGPSData. rewrite exec_bind.
    unfold gets at 1, eval at 1, exec at 2. cbn [fst snd].
    do 2 rewrite exec_bind.
    set (s2 := exec (updatePosition _) _).
    assert (Ht : satTracking s2 = satTracking s1).
    { subst s2. rewrite (keeps_tracking_updatePosition _ _).
      apply keeps_tracking_updateTime. }
    clearbody s2. rewrite exec_bind.
    unfold exec at 2, modify. cbn [snd].
    set (s3 := s2 <| gpsData ::= _ |>).
    assert (Hs : satellitesShown s3 = trk_totalInUse (satTracking s1)).
    { rewrite <- Ht. reflexivity. }
    clearbody s3. rewrite <- Hs.
    match goal with |- satellitesShown (exec ?m s3) = _ =>
      enough (Hk : keeps (same satellitesShown) m) by apply Hk end.
    repeat gps_step_with ltac:(untouched).
  - set (s2 := exec updateGPSData s1). clearbody s2.
    set (t2 := satTracking s2).
    assert (Ht : satTracking
                   (exec (bind updateConstellationCounts (fun _ =>
                      bind addHistoricalPoint (fun _ => bind checkStaleness (fun _ =>
                        bind checkHeartbeat (fun _ => calculateHealth))))) s2)
                 = fold_left countInUse (take (Z.to_nat (trk_count t2)) (trk_satellites t2))
                     (t2 <| trk_gpsCount := 0 |> <| trk_glonassCount := 0 |>
                         <| trk_galileoCount := 0 |> <| trk_beidouCount := 0 |>
                         <| trk_qzssCount := 0 |> <| trk_totalInUse := 0 |>)).
    { rewrite exec_bind. cbv beta. rewrite (keeps_tracking_tail _).
      unfold updateConstellationCounts. rewrite exec_bind.
      match goal with |- satTracking (exec ?m ?x) = _ =>
        assert (Hk : keeps (same satTracking) m)
          by repeat gps_step_with ltac:(untouched);
        rewrite (Hk x)
      end.
      reflexivity. }
    rewrite Ht.
    rewrite fold_countInUse_total, fold_countInUse_count, fold_countInUse_table.
    reflexivity.
Qed.

End GPSCycle.

(** *** The bounds of the arrays *)

#[local] Instance staysWellFormed_preorder : PreOrder staysWellFormed.
Proof.
  split.
  - intros s Hs. exact Hs.
  - intros s1 s2 s3 H12 H23 Hs. apply H23, H12, Hs.
Qed.

(** Closes [staysWellFormed s (g s)] when [g] writes none of the members
    the invariant reads. *)
Ltac wf_untouched :=
  let Hwf := fresh "Hwf" in
  unfold staysWellFormed; intros Hwf;
  first [ exact Hwf
        | repeat match goal with
                 | |- context [match ?x with _ => _ end] =>
                     lazymatch x with
                     | context [match _ with _ => _ end] => fail
                     | _ => destruct x
                     end
                 end; exact Hwf ].

Section GPSBounds.
Import GPS CStr.
Context `{Platform} `{Decoder}.

Lemma wf_shouldFireEvent type : keeps staysWellFormed (shouldFireEvent type).
Proof.
  unfold shouldFireEvent.
  apply keeps_bind; [exact _ | intros s; wf_untouched | intros now].
  apply keeps_bind; [exact _ | apply keeps_gets; exact _ | intros last].
  destruct (_ <? _); [apply keeps_ret; exact _|].
  apply keeps_bind; [exact _ | intros s; wf_untouched | intros now'].
  apply keeps_bind; [exact _ | | intros _; apply keeps_ret; exact _].
  apply keeps_modify. intros s (Ht & Hl & Hh & Hc & Hb).
  repeat split; try assumption; try apply Ht; try apply Hl; try apply Hh.
  cbn. rewrite length_insert. exact Hc.
Qed.

Lemma wf_addEvent type message : keeps staysWellFormed (addEvent type message).
Proof.
  unfold addEvent.
  apply keeps_bind; [exact _ | intros s; wf_untouched | intros now].
  apply keeps_modify. intros s (Ht & (Hl1 & Hl2 & Hl3) & Hh & Hc & Hb).
  split; [exact Ht|]. split; [|repeat split; try assumption; apply Hh].
  match goal with
  | |- logOk (eventLog (s <| eventLog ::= ?f |>)) => change (logOk (f (eventLog s)))
  end.
  cbv beta zeta. unfold logOk, MAX_EVENTS in *. cbn [log_events log_head log_count].
  rewrite length_insert. split; [exact Hl1|]. split.
  - apply Z.rem_bound_pos; lia.
  - destruct (log_count (eventLog s) <? 50) eqn:E; [apply Z.ltb_lt in E|]; lia.
Qed.

Lemma wf_fireIf cond type message : keeps staysWellFormed (fireIf cond type message).
Proof.
  unfold fireIf. destruct cond; [|apply keeps_ret; exact _].
  apply keeps_bind; [exact _ | apply wf_shouldFireEvent | intros fire].
  destruct fire; [apply wf_addEvent | apply keeps_ret; exact _].
Qed.

Ltac wf_step :=
  lazymatch goal with
  | |- keeps _ (fireIf _ _ _) => apply wf_fireIf
  | |- keeps _ (shouldFireEvent _) => apply wf_shouldFireEvent
  | |- keeps _ (addEvent _ _) => apply wf_addEvent
  | |- _ => gps_step_with ltac:(wf_untouched)
  end.

Lemma wf_updateGPSData : keeps staysWellFormed updateGPSData.
Proof. unfold updateGPSData, updateTime, updatePosition. repeat wf_step. Qed.

Lemma wf_tracking (g : SatelliteTracking -> SatelliteTracking) :
  (forall t, tableOk t -> tableOk (g t)) ->
  forall s, staysWellFormed s (s <| satTracking ::= g |>).
Proof. intros Hg s (Ht & Hrest). split; [apply Hg, Ht | exact Hrest]. Qed.

Lemma tableOk_same t t' :
  trk_satellites t' = trk_satellites t -> trk_count t' = trk_count t ->
  tableOk t -> tableOk t'.
Proof. unfold tableOk. intros -> ->. auto. Qed.

Lemma tableOk_alter t t' f i :
  trk_satellites t' = alter f i (trk_satellites t) -> trk_count t' = trk_count t ->
  tableOk t -> tableOk t'.
Proof. unfold tableOk. intros -> ->. rewrite length_alter. auto. Qed.

Lemma wf_updateConstellationCounts : keeps staysWellFormed updateConstellationCounts.
Proof.
  unfold updateConstellationCounts, setTracking.
  apply keeps_bind; [exact _ | | intros _; repeat wf_step].
  apply keeps_modify. apply wf_tracking. intros t.
  apply tableOk_same.
  - rewrite fold_countInUse_table. reflexivity.
  - rewrite fold_countInUse_count. reflexivity.
Qed.

Lemma wf_addHistoricalPoint : keeps staysWellFormed addHistoricalPoint.
Proof.
  unfold addHistoricalPoint.
  apply keeps_bind; [exact _ | intros s; wf_untouched | intros now].
  apply keeps_bind; [exact _ | apply keeps_gets; exact _ | intros last].
  destruct (_ <? _); [apply keeps_ret; exact _|].
  apply keeps_bind; [exact _ | intros s; wf_untouched | intros stamp].
  apply keeps_bind; [exact _ | | intros _].
  - apply keeps_modify. intros s (Ht & Hl & (Hh1 & Hh2 & Hh3) & Hc & Hb).
    split; [exact Ht|]. split; [exact Hl|]. split; [|split; assumption].
    match goal with
    | |- historyOk (history (s <| history ::= ?f |>)) => change (historyOk (f (history s)))
    end.
    cbv beta zeta. unfold historyOk, HISTORY_BUFFER_SIZE in *.
    destruct (history s) as [points head count lastRecord].
    cbn [hist_points hist_head hist_count] in *. cbn.
    rewrite length_insert. split; [exact Hh1|]. split.
    + unfold constant. apply Z.rem_bound_pos; lia.
    + unfold constant. destruct (count <? 60) eqn:E; [apply Z.ltb_lt in E|]; lia.
  - apply keeps_bind; [exact _ | intros s; wf_untouched | intros now'].
    apply keeps_modify. intros s (Ht & Hl & Hh & Hc & Hb).
    split; [exact Ht|]. split; [exact Hl|]. split; [|split; assumption].
    exact Hh.
Qed.

Lemma wf_tail :
  keeps staysWellFormed
    (bind checkStaleness (fun _ => bind checkHeartbeat (fun _ => calculateHealth))).
Proof.
  unfold checkStaleness, checkHeartbeat, calculateHealth. repeat wf_step.
Qed.

Lemma first_index_lt {A} (p : A -> bool) l k i :
  first_index p l k = Some i -> (k <= i < k + length l)%nat.
Proof.
  revert k. induction l as [|x l IH]; intros k; cbn [first_index length]; [discriminate|].
  destruct (p x).
  - intros [= <-]. lia.
  - intros Hi. apply IH in Hi. lia.
Qed.

Lemma tableOk_storeVisible prnv elevationv azimuthv snrv t :
  tableOk t ->
  tableOk
    (let known := take (Z.to_nat (trk_count t)) (trk_satellites t) in
     let '(slotIndex, t) :=
       match first_index (fun sat => prn sat =? prnv) known 0 with
       | Some i => (Some i, t)
       | None =>
           match first_index (fun sat => negb (tracked sat))
                             (take (Z.to_nat MAX_SATELLITES) (trk_satellites t)) 0 with
           | Some i =>
               (Some i, if trk_count t <=? Z.of_nat i
                        then t <| trk_count := Z.of_nat i + 1 |> else t)
           | None => (None, t)
           end
       end in
     match slotIndex with
     | Some i =>
         if Z.of_nat i <? MAX_SATELLITES
         then t <| trk_satellites ::= alter (visibleEntry prnv elevationv azimuthv snrv) i |>
         else t
     | None => t
     end).
Proof.
  intros Hok. cbv zeta.
  destruct (first_index _ (take (Z.to_nat (trk_count t)) _) 0) as [i|].
  - destruct (Z.of_nat i <? MAX_SATELLITES); [|exact Hok].
    eapply tableOk_alter; [reflexivity | reflexivity | exact Hok].
  - destruct (first_index _ (take (Z.to_nat MAX_SATELLITES) _) 0) as [i|] eqn:E;
      [|exact Hok].
    apply first_index_lt in E. rewrite length_take in E.
    destruct Hok as (Hlen & Hcount). unfold MAX_SATELLITES in *.
    assert (Hi : (i < 32)%nat) by lia. clear E.
    destruct (trk_count t <=? Z.of_nat i) eqn:Q.
    + destruct (Z.of_nat i <? 32); unfold tableOk; destruct t; cbn in *;
        unfold constant, MAX_SATELLITES; rewrite ?length_alter; split; try assumption; lia.
    + destruct (Z.of_nat i <? 32); [|split; assumption].
      eapply tableOk_alter; [reflexivity | reflexivity | split; assumption].
Qed.

Lemma wf_storeVisible prnv elevationv azimuthv snrv :
  keeps staysWellFormed (storeVisible prnv elevationv azimuthv snrv).
Proof.
  unfold storeVisible, setTracking. apply keeps_modify. apply wf_tracking.
  intros t. apply tableOk_storeVisible.
Qed.

Lemma wf_markInUse prnv constellationType :
  keeps staysWellFormed (markInUse prnv constellationType).
Proof.
  unfold markInUse, setTracking. apply keeps_modify. apply wf_tracking.
  intros t Hok. cbv zeta.
  destruct (first_index _ _ 0) as [j|].
  - eapply tableOk_alter; [reflexivity | reflexivity | exact Hok].
  - destruct (trk_count t <? MAX_SATELLITES) eqn:E; [|exact Hok].
    apply Z.ltb_lt in E. destruct Hok as (Hlen & Hcount).
    unfold tableOk. destruct t; cbn in *. rewrite length_alter.
    split; [assumption | lia].
Qed.

Lemma wf_gsvSatellites n : forall p, keeps staysWellFormed (gsvSatellites n p).
Proof.
  induction n as [|n IH]; intros p; cbn [gsvSatellites].
  - apply keeps_ret; exact _.
  - repeat first [apply IH | apply wf_storeVisible | wf_step].
Qed.

Lemma wf_gsaSatellites n : forall p c, keeps staysWellFormed (gsaSatellites n p c).
Proof.
  induction n as [|n IH]; intros p c; cbn [gsaSatellites].
  - apply keeps_ret; exact _.
  - repeat first [apply IH | apply wf_markInUse | wf_step].
Qed.

Lemma wf_lastUpdate now :
  keeps staysWellFormed (setTracking (fun t => t <| trk_lastUpdate := now |>)).
Proof.
  unfold setTracking. apply keeps_modify. apply wf_tracking. intros t.
  apply tableOk_same; reflexivity.
Qed.

Lemma wf_parseGSVSentence sentence c : keeps staysWellFormed (parseGSVSentence sentence c).
Proof.
  unfold parseGSVSentence.
  repeat first [apply wf_gsvSatellites | apply wf_lastUpdate | wf_step].
Qed.

Lemma wf_markSatellitesInUse sentence c :
  keeps staysWellFormed (markSatellitesInUse sentence c).
Proof.
  unfold markSatellitesInUse.
  repeat first [apply wf_gsaSatellites | wf_step].
Qed.

Lemma wf_clearInUse :
  keeps staysWellFormed
    (setTracking (fun t =>
       t <| trk_satellites ::= (fun l =>
              map (fun sat => sat <| inUse := false |>)
                  (take (Z.to_nat (trk_count t)) l)
              ++ drop (Z.to_nat (trk_count t)) l) |>)).
Proof.
  unfold setTracking. apply keeps_modify. apply wf_tracking.
  intros t (Hlen & Hcount). unfold tableOk. destruct t; cbn in *.
  rewrite length_app, length_map, length_take, length_drop. split; [lia | assumption].
Qed.

Lemma wf_parseNMEASentence sentence : keeps staysWellFormed (parseNMEASentence sentence).
Proof.
  unfold parseNMEASentence, parseGPGSVSentence, parseGLGSVSentence,
    parseGAGSVSentence, parseGBGSVSentence, parseGPGSASentence,
    parseGNGSVSentence, parseGNGSASentence, detectCapabilities.
  repeat first [ apply wf_parseGSVSentence | apply wf_markSatellitesInUse
               | apply wf_clearInUse | wf_step ].
Qed.

Lemma wf_buffer s b :
  Z.of_nat (length b) <= GPS_BUFFER_MAX -> staysWellFormed s (s <| gpsBuffer := b |>).
Proof.
  intros Hb (Ht & Hl & Hh & Hc & _).
  split; [exact Ht|]. split; [exact Hl|]. split; [exact Hh|]. split; [exact Hc|].
  exact Hb.
Qed.

Lemma wf_processChar c : keeps staysWellFormed (processChar c).
Proof.
  unfold processChar.
  apply keeps_bind; [exact _ | intros s; wf_untouched | intros now].
  apply keeps_bind; [exact _ | apply keeps_modify; intros s; wf_untouched | intros _].
  apply keeps_bind; [exact _ | apply keeps_gets; exact _ | intros unresponsive].
  apply keeps_bind; [exact _ | destruct unresponsive; repeat wf_step | intros _].
  apply keeps_bind; [exact _ | apply keeps_modify; intros s; wf_untouched | intros _].
  apply keeps_bind; [exact _ | | intros _].
  - apply keeps_modify. intros s.
    destruct (Ascii.eqb c "$"); [apply wf_buffer; vm_compute; discriminate|].
    destruct (Ascii.eqb c "010"); [wf_untouched|].
    destruct (Z.of_nat (length (gpsBuffer s)) <? GPS_BUFFER_MAX) eqn:E.
    + apply Z.ltb_lt in E. apply (wf_buffer s (gpsBuffer s ++ [c])).
      rewrite length_app. cbn [length]. lia.
    + apply wf_buffer. vm_compute. discriminate.
  - apply keeps_bind; [exact _ | apply keeps_gets; exact _ | intros ready].
    destruct ready; [|apply keeps_ret; exact _].
    apply keeps_bind; [exact _ | apply keeps_modify; intros s; wf_untouched | intros _].
    apply keeps_bind; [exact _ | apply keeps_gets; exact _ | intros line].
    apply keeps_bind; [exact _ | apply wf_parseNMEASentence | intros _].
    apply keeps_modify. intros s. apply wf_buffer. vm_compute. discriminate.
Qed.

Lemma wf_readLoop available : keeps staysWellFormed (readLoop available).
Proof.
  induction available as [|c rest IH]; cbn [readLoop].
  - apply keeps_ret; exact _.
  - apply keeps_bind; [exact _ | apply wf_processChar | intros _; exact IH].
Qed.

(** The bounds are an invariant of the processing cycle: whatever the
    serial link delivers, the satellite table keeps its 32 entries and a
    count between 0 and 32, the event log its 50 entries with the head
    below 50 and the count at most 50, the history its 60 points with
    the head below 60, the cooldown table its 12 stamps, and the sentence
    buffer at most [GPS_BUFFER_MAX] characters.  So no index the cycle
    computes falls outside its array. *)
Theorem process_keeps_bounds available s :
  wellFormed s -> wellFormed (exec (process available) s).
Proof.
  revert s. change (keeps staysWellFormed (process available)).
  unfold process.
  apply keeps_bind; [exact _ | apply wf_readLoop | intros _].
  apply keeps_bind; [exact _ | apply wf_updateGPSData | intros _].
  apply keeps_bind; [exact _ | apply wf_updateConstellationCounts | intros _].
  apply keeps_bind; [exact _ | apply wf_addHistoricalPoint | intros _].
  apply wf_tail.
Qed.
End GPSBounds.

(** *** The ring buffers and their readers *)

Lemma mod_wrap x n : - n <= x < 0 -> x mod n = x + n.
Proof.
  intros Hx. rewrite <- (Z_mod_plus_full x 1 n), Z.mul_1_l.
  apply Z.mod_small. lia.
Qed.

(** Stepping back [i + 1] places from the slot after [h] is stepping back [i]
    places from [h], and never arrives at [h] itself. *)
Lemma ring_back n h i :
  0 <= h < n -> 0 <= i < n - 1 ->
  let idx := Z.rem (Z.rem (h - 1 + n) n - i + n) n in
  Z.rem (Z.rem (Z.rem (h + 1) n - 1 + n) n - (i + 1) + n) n = idx
  /\ idx <> h /\ 0 <= idx < n.
Proof.
  intros Hh Hi. cbv zeta.
  assert (Hn : 0 < n) by lia.
  assert (E1 : Z.rem (h - 1 + n) n = (h - 1) mod n).
  { rewrite Z.rem_mod_nonneg by lia. rewrite <- (Z_mod_plus_full (h - 1) 1 n).
    f_equal. lia. }
  assert (E2 : Z.rem (h + 1) n = (h + 1) mod n) by (apply Z.rem_mod_nonneg; lia).
  assert (B1 : 0 <= (h - 1) mod n < n) by (apply Z.mod_pos_bound; lia).
  assert (B2 : 0 <= (h + 1) mod n < n) by (apply Z.mod_pos_bound; lia).
  assert (E3 : Z.rem ((h + 1) mod n - 1 + n) n = h).
  { rewrite Z.rem_mod_nonneg by lia.
    rewrite <- Z.add_sub_swap, <- Z.add_sub_assoc.
    rewrite Zplus_mod_idemp_l.
    replace (h + 1 + (n - 1)) with (h + 1 * n) by lia.
    rewrite Z_mod_plus_full. apply Z.mod_small. lia. }
  rewrite E2, E3, E1.
  assert (E4 : (h - 1) mod n = if h =? 0 then n - 1 else h - 1).
  { destruct (Z.eqb_spec h 0) as [->|Hne].
    - rewrite mod_wrap by lia. lia.
    - apply Z.mod_small. lia. }
  rewrite E4.
  rewrite !Z.rem_mod_nonneg by (destruct (h =? 0); lia).
  destruct (Z.eqb_spec h 0) as [->|Hne].
  - replace (0 - (i + 1) + n) with (n - 1 - i) by lia.
    replace (n - 1 - i + n) with (n - 1 - i + 1 * n) by lia.
    rewrite Z_mod_plus_full, Z.mod_small by lia. lia.
  - destruct (Z_lt_le_dec (h - 1 - i) 0) as [Hneg|Hpos].
    + replace (h - (i + 1) + n) with (h - 1 - i + n) by lia.
      rewrite Z.mod_small by lia. lia.
    + replace (h - (i + 1) + n) with (h - 1 - i + 1 * n) by lia.
      replace (h - 1 - i + n) with (h - 1 - i + 1 * n) by lia.
      rewrite Z_mod_plus_full, Z.mod_small by lia. lia.
Qed.

Lemma rem_fold a n : 0 <= a < 2 * n -> Z.rem a n = if a <? n then a else a - n.
Proof.
  intros Ha. rewrite Z.rem_mod_nonneg by lia.
  destruct (Z.ltb_spec a n).
  - apply Z.mod_small. lia.
  - replace a with (a - n + 1 * n) at 1 by lia.
    rewrite Z_mod_plus_full. apply Z.mod_small. lia.
Qed.

(** While the ring is filling, the reader's start does not move, its
    first [c] steps stay clear of the slot [h] being written and step
    [c] arrives there. *)
Lemma ring_filling n h c i :
  0 <= h < n -> 0 <= c < n -> 0 <= i <= c ->
  let start := Z.rem (h - c + n) n in
  Z.rem (Z.rem (h + 1) n - (c + 1) + n) n = start
  /\ 0 <= Z.rem (start + i) n < n
  /\ (Z.rem (start + i) n = h <-> i = c).
Proof.
  intros Hh Hc Hi. cbv zeta.
  rewrite (rem_fold (h + 1)) by lia.
  rewrite (rem_fold (h - c + n)) by lia.
  destruct (Z.ltb_spec (h + 1) n), (Z.ltb_spec (h - c + n) n);
    rewrite !rem_fold by lia;
    repeat match goal with |- context [?a <? ?b] => destruct (Z.ltb_spec a b) end; lia.
Qed.

(** Once it is full, the start moves on with the head. *)
Lemma ring_full n h i :
  0 <= h < n -> 0 <= i < n ->
  let start := Z.rem (h - n + n) n in
  let start' := Z.rem (Z.rem (h + 1) n - n + n) n in
  0 <= Z.rem (start' + i) n < n
  /\ (Z.rem (start' + i) n = h <-> i = n - 1)
  /\ (i < n - 1 -> Z.rem (start' + i) n = Z.rem (start + (i + 1)) n).
Proof.
  intros Hh Hi. cbv zeta.
  replace (h - n + n) with h by lia.
  replace (Z.rem (h + 1) n - n + n) with (Z.rem (h + 1) n) by lia.
  rewrite (Z.rem_small h n) by lia.
  rewrite (rem_fold (h + 1)) by lia.
  destruct (Z.ltb_spec (h + 1) n).
  - rewrite (Z.rem_small (h + 1) n) by lia.
    rewrite !rem_fold by lia.
    repeat match goal with |- context [?a <? ?b] => destruct (Z.ltb_spec a b) end; lia.
  - rewrite (Z.rem_small (h + 1 - n) n) by lia.
    rewrite !rem_fold by lia.
    repeat match goal with |- context [?a <? ?b] => destruct (Z.ltb_spec a b) end; lia.
Qed.

Section GPSRings.
Import GPS CStr WebApi.
Context `{Platform} `{Decoder}.

Lemma bind_clock {B} (k : Z -> M GPSState B) s :
  bind millis k s = k (u32 (millis_at (ticks s))) (s <| ticks ::= Datatypes.S |>).
Proof. reflexivity. Qed.

Lemma nth_insert_ne {A} (l : list A) i j x d :
  i <> j -> nth j (<[i := x]> l) d = nth j l d.
Proof. intros Hne. rewrite !nth_lookup, list_lookup_insert_ne by exact Hne. reflexivity. Qed.

Lemma nth_insert_eq {A} (l : list A) i x d :
  (i < length l)%nat -> nth i (<[i := x]> l) d = x.
Proof. intros Hi. rewrite nth_lookup, list_lookup_insert_eq by exact Hi. reflexivity. Qed.

(** The event log as the events endpoint reads it.  After [addEvent] the
    reader visits the new event first and then the events it visited
    before, in the same order; the oldest one drops out once fifty are
    held.  The event carries the time of the call and the first 63
    characters of the message. *)
Theorem events_newest_first type message s :
  logOk (eventLog s) ->
  eventsVisited (eventLog (exec (addEvent type message) s))
  = take 50 ({| ev_type := type; ev_timestamp := u32 (millis_at (ticks s));
                ev_message := take 63 (c_str message) |}
             :: eventsVisited (eventLog s)).
Proof.
  intros (Hlen & Hhead & Hcount).
  unfold addEvent, exec. rewrite bind_clock.
  cbn [modify snd].
  set (e := {| ev_type := type; ev_timestamp := _; ev_message := _ |}).
  destruct (eventLog s) as [events head count] eqn:El.
  cbn [log_events log_head log_count] in *.
  match goal with
  | |- eventsVisited (eventLog (?x <| eventLog ::= ?f |>)) = _ =>
      change (eventLog (x <| eventLog ::= f |>)) with (f (eventLog x));
      change (eventLog x) with (eventLog s)
  end.
  rewrite El. cbv beta zeta. cbn [log_events log_head log_count].
  unfold eventsVisited, MAX_EVENTS in *. cbn [log_events log_head log_count].
  set (m := Z.to_nat (Z.min count 49)).
  assert (Hn : Z.to_nat (if count <? 50 then count + 1 else count) = S m).
  { subst m. destruct (count <? 50) eqn:E; [apply Z.ltb_lt in E | apply Z.ltb_ge in E]; lia. }
  rewrite Hn. cbn [seq map take].
  f_equal.
  - replace (Z.rem (Z.rem (head + 1) 50 - 1 + 50) 50 - Z.of_nat 0 + 50)
      with (Z.rem (Z.rem (head + 1) 50 - 1 + 50) 50 + 1 * 50) by lia.
    assert (E : Z.rem (Z.rem (Z.rem (head + 1) 50 - 1 + 50) 50 + 1 * 50) 50 = head).
    { assert (0 <= Z.rem (head + 1) 50 < 50) by (apply Z.rem_bound_pos; lia).
      assert (0 <= Z.rem (Z.rem (head + 1) 50 - 1 + 50) 50 < 50)
        by (apply Z.rem_bound_pos; lia).
      rewrite (Z.rem_mod_nonneg (_ + 1 * 50)) by lia.
      rewrite Z_mod_plus_full, Z.mod_small by lia.
      rewrite Z.rem_mod_nonneg by lia.
      rewrite (Z.rem_mod_nonneg (head + 1)) by lia.
      destruct (Z.eq_dec head 49) as [->|Hne]; [reflexivity|].
      rewrite (Z.mod_small (head + 1)) by lia.
      replace (head + 1 - 1 + 50) with (head + 1 * 50) by lia.
      rewrite Z_mod_plus_full. apply Z.mod_small. lia. }
    rewrite E. apply nth_insert_eq. lia.
  - rewrite <- fmap_S_seq, <- list_fmap_compose.
    rewrite <- fmap_take, take_seq.
    replace (49 `min` Z.to_nat count)%nat with m by lia.
    apply map_ext_in. intros i Hi. apply in_seq in Hi. unfold compose.
    destruct (ring_back 50 head (Z.of_nat i)) as (E & Hne & Hb); [lia | lia |].
    replace (Z.of_nat (S i)) with (Z.of_nat i + 1) by lia.
    rewrite E. apply nth_insert_ne. lia.
Qed.

(** The history as the history endpoint reads it.  When less than
    [HISTORY_INTERVAL] milliseconds have passed since the last record,
    [addHistoricalPoint] leaves the history alone.  Otherwise the reader
    afterwards visits the points it visited before, without the oldest
    one if sixty were held, and then the new point, which is stamped with
    the second clock read and holds the snapshot's satellite count
    truncated to a byte. *)
Theorem history_oldest_first s :
  historyOk (history s) ->
  let now := u32 (millis_at (ticks s)) in
  let s' := exec addHistoricalPoint s in
  if u32 (now - hist_lastRecordTime (history s)) <? HISTORY_INTERVAL
  then history s' = history s
  else exists p,
         hp_timestamp p = u32 (millis_at (S (ticks s)))
         /\ hp_satelliteCount p = u8 (gd_satellites (gpsData s))
         /\ hp_hasValidFix p = gd_valid (gpsData s)
         /\ pointsVisited (history s')
            = (if hist_count (history s) <? HISTORY_BUFFER_SIZE
               then pointsVisited (history s)
               else drop 1 (pointsVisited (history s))) ++ [p]
         /\ hist_lastRecordTime (history s') = u32 (millis_at (S (S (ticks s)))).
Proof.
  intros (Hlen & Hhead & Hcount). cbv zeta.
  unfold addHistoricalPoint, exec. rewrite bind_clock, bind_gets.
  change (hist_lastRecordTime (history (s <| ticks ::= Datatypes.S |>)))
    with (hist_lastRecordTime (history s)).
  destruct (_ <? HISTORY_INTERVAL); [reflexivity|].
  rewrite bind_clock, bind_modify, bind_clock. cbn [modify snd].
  set (p := {| hp_timestamp := u32 (millis_at (S (ticks s)));
               hp_satelliteCount := u8 (gd_satellites (gpsData s));
               hp_hdop := Flt.f32_of_f64 (gd_hdop (gpsData s));
               hp_pdop := Flt.f32_of_f64 (gd_pdop (gpsData s));
               hp_fixQuality := gd_fixQuality (gpsData s);
               hp_fixMode := gd_fixMode (gpsData s);
               hp_avgSNR := getAverageSNR 0 s;
               hp_hasValidFix := gd_valid (gpsData s) |}).
  match goal with
  | |- exists q, _ /\ _ /\ _ /\ pointsVisited (history ?x) = _ /\ _ =>
      assert (Hfin : history x
                     = {| hist_points := <[Z.to_nat (hist_head (history s)) := p]>
                                           (hist_points (history s));
                          hist_head := Z.rem (hist_head (history s) + 1) HISTORY_BUFFER_SIZE;
                          hist_count := if hist_count (history s) <? HISTORY_BUFFER_SIZE
                                        then hist_count (history s) + 1
                                        else hist_count (history s);
                          hist_lastRecordTime := u32 (millis_at (S (S (ticks s)))) |})
        by reflexivity;
      rewrite Hfin; clear Hfin
  end.
  exists p. split; [|split; [|split; [|split]]]; cycle 3.
  - destruct (history s) as [points head count lastRecord] eqn:Eh.
    cbn [hist_points hist_head hist_count] in *.
    cbv beta zeta.
    unfold pointsVisited, HISTORY_BUFFER_SIZE in *.
    cbn [hist_points hist_head hist_count].
    destruct (Z.ltb_spec count 60) as [Hlt|Hge].
    + replace (Z.to_nat (count + 1)) with (S (Z.to_nat count)) by lia.
      rewrite seq_S, map_app. cbn [map Nat.add].
      f_equal.
      * apply map_ext_in. intros i Hi. apply in_seq in Hi.
        destruct (ring_filling 60 head count (Z.of_nat i)) as (E & Hb & Hne);
          [lia | lia | lia |].
        rewrite E. apply nth_insert_ne. lia.
      * destruct (ring_filling 60 head count count) as (E & Hb & Hne);
          [lia | lia | lia |].
        rewrite E, Z2Nat.id by lia.
        rewrite (proj2 Hne eq_refl). f_equal. apply nth_insert_eq. lia.
    + assert (count = 60) as -> by lia.
      change (Z.to_nat 60) with 60%nat.
      change (seq 0 60) with (seq 0 59 ++ [59%nat]) at 1.
      change (seq 0 60) with (0%nat :: seq 1 59).
      rewrite map_app. cbn [map drop].
      f_equal.
      * rewrite <- fmap_S_seq, <- list_fmap_compose.
        apply map_ext_in. intros i Hi. apply in_seq in Hi. unfold compose.
        destruct (ring_full 60 head (Z.of_nat i)) as (Hb & Hne & E); [lia | lia |].
        specialize (E ltac:(lia)). rewrite E in Hb, Hne. rewrite E.
        replace (Z.of_nat (S i)) with (Z.of_nat i + 1) by lia.
        apply nth_insert_ne. intros Q.
        assert (Q' : Z.rem (Z.rem (head - 60 + 60) 60 + (Z.of_nat i + 1)) 60 = head) by lia.
        apply Hne in Q'. lia.
      * destruct (ring_full 60 head 59) as (Hb & Hne & _); [lia | lia |].
        change (Z.of_nat 59) with 59.
        rewrite (proj2 Hne eq_refl). f_equal. apply nth_insert_eq. lia.
  - reflexivity.
  - reflexivity.
  - reflexivity.
  - reflexivity.
Qed.
End GPSRings.

(** *** The satellite table, the health record and the queries *)

Lemma u8_range x : 0 <= u8 x < 256.
Proof. unfold u8, wrap. apply Z.mod_pos_bound. reflexivity. Qed.

Lemma first_index_none_all {A} (p : A -> bool) l k :
  (forall j x, l !! j = Some x -> p x = false) -> first_index p l k = None.
Proof.
  revert k. induction l as [|x l IH]; intros k Hall; cbn [first_index]; [reflexivity|].
  rewrite (Hall 0%nat x) by reflexivity. apply IH. intros j y Hy. apply (Hall (S j)). exact Hy.
Qed.

Lemma first_index_split {A} (p : A -> bool) l k i :
  first_index p l k = Some i ->
  exists x, l !! (i - k)%nat = Some x /\ p x = true /\ (k <= i)%nat
            /\ forall y, In y (take (i - k) l) -> p y = false.
Proof.
  revert k. induction l as [|x l IH]; intros k; cbn [first_index]; [discriminate|].
  destruct (p x) eqn:Px.
  - intros [= <-]. exists x. rewrite Nat.sub_diag. cbn. repeat split; auto.
    intros y [].
  - intros Hi. destruct (IH _ Hi) as (y & Hy & Py & Hk & Hbefore).
    exists y. replace (i - k)%nat with (S (i - S k)) by lia.
    cbn. repeat split; auto; try lia.
    intros z [<-|Hz]; auto.
Qed.

Lemma filter_alter_count {A} (p : A -> bool) (f : A -> A) l i x :
  l !! i = Some x -> p x = false -> p (f x) = true ->
  length (List.filter p (alter f i l)) = S (length (List.filter p l)).
Proof.
  revert i. induction l as [|y l IH]; intros [|i]; cbn; try discriminate.
  - intros [= ->] Hx Hfx. rewrite Hx, Hfx. reflexivity.
  - intros Hi Hx Hfx. change (list_alter f i l) with (alter f i l).
    destruct (p y); cbn; rewrite (IH i) by assumption; reflexivity.
Qed.

Section GPSTable.
Import GPS CStr.
Context `{Platform} `{Decoder}.

(** Identifiers above 255.  The table stores an identifier in a byte but
    [parseGSVSentence] looks a satellite up by the untruncated number.
    So a satellite numbered 256 or more (Galileo and BeiDou in the
    numbering of [detectConstellationFromPRN]) is never found again: each
    visibility sentence that lists it fills the first untracked slot
    with a further entry for it, holding the number modulo 256, until
    no untracked slot is left; then the sentence changes nothing. *)
Theorem wide_prn_takes_new_slot prnv elevationv azimuthv snrv s :
  let t := satTracking s in
  let t' := satTracking (exec (storeVisible prnv elevationv azimuthv snrv) s) in
  tableOk t -> prnsFit t -> 256 <= prnv ->
  prnsFit t'
  /\ match first_index (fun sat => negb (tracked sat)) (trk_satellites t) 0 with
     | Some i =>
         trk_satellites t'
         = alter (visibleEntry prnv elevationv azimuthv snrv) i (trk_satellites t)
         /\ trk_count t' = Z.max (trk_count t) (Z.of_nat i + 1)
         /\ trackedEntries t' = S (trackedEntries t)
     | None => t' = t
     end.
Proof.
  intros t t' (Hlen & Hcount) Hfit Hwide.
  assert (Et : t' = satTracking (exec (storeVisible prnv elevationv azimuthv snrv) s))
    by reflexivity.
  clearbody t'.
  unfold storeVisible, setTracking, exec, modify in Et. cbn [snd] in Et.
  match type of Et with
  | _ = satTracking (s <| satTracking ::= ?g |>) =>
      change (satTracking (s <| satTracking ::= g |>)) with (g t) in Et
  end.
  cbv beta zeta in Et.
  rewrite first_index_none_all in Et.
  2:{ intros j sat Hj. apply Z.eqb_neq.
      apply lookup_take_Some in Hj as (Hj & _).
      unfold prnsFit in Hfit. rewrite Forall_lookup in Hfit.
      specialize (Hfit _ _ Hj). cbv beta in Hfit. lia. }
  rewrite (take_ge (trk_satellites t)) in Et by (unfold MAX_SATELLITES; lia).
  destruct (first_index (fun sat => negb (tracked sat)) (trk_satellites t) 0) as [i|] eqn:Ef.
  2:{ subst t'. split; [exact Hfit | reflexivity]. }
  destruct (first_index_split _ _ _ _ Ef) as (x & Hx & Px & _ & _).
  rewrite Nat.sub_0_r in Hx. apply lookup_lt_Some in Hx as Hi.
  assert (Hlt : (Z.of_nat i <? MAX_SATELLITES) = true)
    by (apply Z.ltb_lt; unfold MAX_SATELLITES; lia).
  assert (Hsats : trk_satellites t'
                  = alter (visibleEntry prnv elevationv azimuthv snrv) i (trk_satellites t)).
  { subst t'. destruct (trk_count t <=? Z.of_nat i); rewrite Hlt; reflexivity. }
  assert (Hcnt : trk_count t' = Z.max (trk_count t) (Z.of_nat i + 1)).
  { subst t'. destruct (Z.leb_spec (trk_count t) (Z.of_nat i)); rewrite Hlt.
    - change (trk_count (t <| trk_count := Z.of_nat i + 1 |>
                           <| trk_satellites ::= _ |>)) with (Z.of_nat i + 1). lia.
    - change (trk_count (t <| trk_satellites ::= _ |>)) with (trk_count t). lia. }
  split; [|split; [exact Hsats | split; [exact Hcnt|]]].
  - unfold prnsFit in *. rewrite Hsats. rewrite Forall_lookup in *.
    intros j sat Hj. destruct (decide (i = j)) as [<-|Hne].
    + rewrite list_lookup_alter_eq, Hx in Hj. injection Hj as <-.
      cbn. apply u8_range.
    + rewrite list_lookup_alter_ne in Hj by exact Hne. exact (Hfit _ _ Hj).
  - unfold trackedEntries. rewrite Hsats.
    apply (filter_alter_count tracked _ _ _ x Hx).
    + apply negb_true_iff in Px. exact Px.
    + reflexivity.
Qed.

(** *** Health *)

Lemma score_values s :
  let step x := x = 0 \/ x = 10 \/ x = 20 \/ x = 40 \/ x = 60 \/ x = 80 \/ x = 100 in
  step (calculateSatelliteScore s) /\ step (calculateHDOPScore s)
  /\ step (calculateSNRScore s) /\ step (calculateFixAgeScore s)
  /\ step (calculateFixModeScore s).
Proof.
  cbv zeta. unfold calculateSatelliteScore, calculateHDOPScore, calculateSNRScore,
    calculateFixAgeScore, calculateFixModeScore.
  repeat split.
  - repeat match goal with |- context [if ?b then _ else _] => destruct b end; tauto.
  - repeat match goal with |- context [if ?b then _ else _] => destruct b end; tauto.
  - repeat match goal with |- context [if ?b then _ else _] => destruct b end; tauto.
  - repeat match goal with |- context [if ?b then _ else _] => destruct b end; tauto.
  - destruct (gd_fixMode (gpsData s)) as [|p|p]; try tauto.
    do 2 (try destruct p as [p|p|]); tauto.
Qed.

(** Health.  For every state the five component scores stored by
    [calculateHealth] are the values of the five score functions (the
    casts to a byte lose nothing), and the overall score, which is also
    the GPS score, is the weighted sum
    (30 sat + 25 hdop + 20 snr + 15 age + 10 mode) / 100, rounded down;
    it lies between the least and the greatest component. *)
Theorem health_is_weighted_mean s :
  let '(sat, hdop, snr, age, mode, overall) := scores (exec calculateHealth s) in
  sat = calculateSatelliteScore s /\ hdop = calculateHDOPScore s
  /\ snr = calculateSNRScore s /\ age = calculateFixAgeScore s
  /\ mode = calculateFixModeScore s
  /\ overall = (30 * sat + 25 * hdop + 20 * snr + 15 * age + 10 * mode) / 100
  /\ Z.min sat (Z.min hdop (Z.min snr (Z.min age mode))) <= overall
     <= Z.max sat (Z.max hdop (Z.max snr (Z.max age mode)))
  /\ hl_gpsScore (health (exec calculateHealth s)) = overall.
Proof.
  pose proof (calculateHealth_scores s) as Hs. cbv zeta in Hs.
  assert (Hg : hl_gpsScore (health (exec calculateHealth s))
               = hl_overallScore (health (exec calculateHealth s))).
  { set (f := fun x : GPSState => hl_overallScore (health x) - hl_gpsScore (health x)).
    enough (Hf : f (exec calculateHealth s) = 0) by (unfold f in Hf; lia).
    unfold calculateHealth. do 3 rewrite exec_bind.
    match goal with
    | |- f (exec ?m ?x) = 0 =>
        assert (Hk : keeps (same f) m)
          by (unfold updateAlerts; repeat gps_step_with ltac:(untouched));
        rewrite (Hk x)
    end.
    unfold f, setHealth, modify, exec. cbn [snd].
    match goal with
    | |- hl_overallScore (health (?x <| health ::= ?g |>)) - _ = 0 =>
        change (health (x <| health ::= g |>)) with (g (health x))
    end.
    cbv beta. apply Z.sub_diag. }
  rewrite Hg. clear Hg.
  destruct (score_values s) as (V1 & V2 & V3 & V4 & V5). cbv beta in *.
  unfold scores in *.
  injection Hs as -> -> -> -> -> ->.
  unfold HEALTH_WEIGHT_SATELLITES, HEALTH_WEIGHT_HDOP, HEALTH_WEIGHT_SNR,
    HEALTH_WEIGHT_FIX_AGE, HEALTH_WEIGHT_FIX_MODE.
  set (a := calculateSatelliteScore s) in *. set (b := calculateHDOPScore s) in *.
  set (c := calculateSNRScore s) in *. set (d := calculateFixAgeScore s) in *.
  set (e := calculateFixModeScore s) in *. clearbody a b c d e.
  assert (Ra : 0 <= a <= 100) by lia. assert (Rb : 0 <= b <= 100) by lia.
  assert (Rc : 0 <= c <= 100) by lia. assert (Rd : 0 <= d <= 100) by lia.
  assert (Re : 0 <= e <= 100) by lia. clear V1 V2 V3 V4 V5.
  assert (Ha : u8 a = a) by (apply u8_small; lia).
  assert (Hb : u8 b = b) by (apply u8_small; lia).
  assert (Hc : u8 c = c) by (apply u8_small; lia).
  assert (Hd : u8 d = d) by (apply u8_small; lia).
  assert (He : u8 e = e) by (apply u8_small; lia).
  rewrite Ha, Hb, Hc, Hd, He.
  rewrite Z.quot_div_nonneg by lia.
  assert (Hq : 0 <= (a * 30 + b * 25 + c * 20 + d * 15 + e * 10) / 100 <= 100).
  { split; [apply Z.div_pos; lia | apply Z.div_le_upper_bound; lia]. }
  rewrite (u8_small _) by lia.
  replace (30 * a + 25 * b + 20 * c + 15 * d + 10 * e)
    with (a * 30 + b * 25 + c * 20 + d * 15 + e * 10) by lia.
  repeat split; try reflexivity.
  - apply Z.div_le_lower_bound; lia.
  - apply Z.div_le_upper_bound; lia.
Qed.

(** *** Queries *)

Lemma copy_scan (keep : SatelliteInfo -> bool) maxCount l : forall found,
  fold_left (fun found sat =>
               if (Z.of_nat (length found) <? maxCount) && keep sat
               then found ++ [sat] else found) l found
  = found ++ take (Z.to_nat maxCount - length found) (List.filter keep l).
Proof.
  induction l as [|sat l IH]; intros found; cbn [fold_left List.filter].
  - rewrite take_nil, app_nil_r. reflexivity.
  - rewrite IH. destruct (Z.ltb_spec (Z.of_nat (length found)) maxCount) as [Hlt|Hge];
      destruct (keep sat); cbn [andb]; try reflexivity.
    + rewrite length_app. cbn [length]. rewrite <- app_assoc. cbn [app].
      replace (Z.to_nat maxCount - length found)%nat
        with (S (Z.to_nat maxCount - (length found + 1))) by lia.
      reflexivity.
    + replace (Z.to_nat maxCount - length found)%nat with 0%nat by lia.
      reflexivity.
Qed.

(** [getSatellitesInUse] and [getSatellitesByConstellation] copy the
    first [maxCount] matching entries among the first [count], in table
    order; nothing is copied for a [maxCount] of zero or less. *)
Theorem queries_copy_first_matches maxCount constellationId s :
  let live := take (Z.to_nat (trk_count (satTracking s))) (trk_satellites (satTracking s)) in
  getSatellitesInUse maxCount s
  = take (Z.to_nat maxCount) (List.filter counted live)
  /\ getSatellitesByConstellation constellationId maxCount s
     = take (Z.to_nat maxCount)
         (List.filter (fun sat => tracked sat && (constellation sat =? constellationId)) live).
Proof.
  cbv zeta. unfold getSatellitesInUse, getSatellitesByConstellation, copyMatching.
  rewrite !copy_scan. cbn [app length]. rewrite Nat.sub_0_r. split; reflexivity.
Qed.

Lemma best_scan constellationId l : forall best bestSNR,
  let r := fold_left (strongerOf constellationId) l (best, bestSNR) in
  (forall x, In x (List.filter (candidate constellationId) l) -> snr x <= snd r)
  /\ bestSNR <= snd r
  /\ ((fst r = best /\ snd r = bestSNR)
      \/ exists b, fst r = Some b /\ In b (List.filter (candidate constellationId) l)
                   /\ snd r = snr b /\ bestSNR < snr b).
Proof.
  induction l as [|sat l IH]; intros best bestSNR; cbn [fold_left List.filter].
  - cbn. split; [intros x [] | split; [lia | left; auto]].
  - assert (Hskip : candidate constellationId sat = false ->
                    strongerOf constellationId (best, bestSNR) sat = (best, bestSNR)).
    { unfold candidate, strongerOf.
      destruct (tracked sat), (constellationId =? 0), (constellation sat =? constellationId);
        cbn; intros; congruence. }
    assert (Htake : candidate constellationId sat = true ->
                    strongerOf constellationId (best, bestSNR) sat
                    = if bestSNR <? snr sat then (Some sat, snr sat) else (best, bestSNR)).
    { unfold candidate, strongerOf.
      destruct (tracked sat), (constellationId =? 0), (constellation sat =? constellationId);
        cbn; intros; congruence. }
    destruct (candidate constellationId sat) eqn:Hc.
    2:{ rewrite Hskip by reflexivity. exact (IH best bestSNR). }
    rewrite Htake by reflexivity. clear Hskip Htake.
    destruct (Z.ltb_spec bestSNR (snr sat)) as [Hlt|Hge].
    + destruct (IH (Some sat) (snr sat)) as (Hall & Hle & Hcase). cbv zeta in *.
      split; [|split; [lia|]].
      * intros x [<-|Hx]; [exact Hle | exact (Hall x Hx)].
      * right. destruct Hcase as [(Hf & Hs) | (b & Hf & Hin & Hs & Hb)].
        -- exists sat. repeat split; auto. left. reflexivity.
        -- exists b. repeat split; auto; [right; exact Hin | lia].
    + destruct (IH best bestSNR) as (Hall & Hle & Hcase). cbv zeta in *.
      split; [|split; [lia|]].
      * intros x [<-|Hx]; [lia | exact (Hall x Hx)].
      * destruct Hcase as [(Hf & Hs) | (b & Hf & Hin & Hs & Hb)]; [left; auto|].
        right. exists b. repeat split; auto. right. exact Hin.
Qed.

(** [getBestSatellite] returns an entry of the wanted constellation that
    is tracked and has a positive signal strength no other such entry
    exceeds.  It returns the null pointer when no such entry has a
    positive signal strength, even if some are tracked. *)
Theorem getBestSatellite_strongest constellationId s :
  let live := take (Z.to_nat (trk_count (satTracking s))) (trk_satellites (satTracking s)) in
  let candidates := List.filter (candidate constellationId) live in
  match getBestSatellite constellationId s with
  | Some b => In b candidates /\ 0 < snr b /\ Forall (fun x => snr x <= snr b) candidates
  | None => Forall (fun x => snr x <= 0) candidates
  end.
Proof.
  cbv zeta. unfold getBestSatellite.
  destruct (best_scan constellationId
              (take (Z.to_nat (trk_count (satTracking s))) (trk_satellites (satTracking s)))
              None 0) as (Hall & Hle & Hcase).
  cbv zeta in *.
  destruct Hcase as [(Hf & Hs) | (b & Hf & Hin & Hs & Hb)].
  - rewrite Hf. apply List.Forall_forall. intros x Hx. rewrite <- Hs. exact (Hall x Hx).
  - rewrite Hf. split; [exact Hin | split; [lia|]].
    apply List.Forall_forall. intros x Hx. rewrite <- Hs. exact (Hall x Hx).
Qed.

Lemma filter_tracked_cleared l :
  List.filter tracked (map (fun sat => sat <| tracked := false |>) l) = [].
Proof. induction l as [|x l IH]; cbn; [reflexivity | exact IH]. Qed.

(** [reset] leaves both readers with nothing to visit, no entry tracked
    and a zero snapshot, within the bounds; the cooldown stamps, the
    unresponsive flag and the health record survive it. *)
Theorem reset_empties s :
  wellFormed s ->
  let s' := exec reset s in
  wellFormed s'
  /\ WebApi.eventsVisited (eventLog s') = []
  /\ WebApi.pointsVisited (history s') = []
  /\ trackedEntries (satTracking s') = 0%nat
  /\ gpsData s' = zeroData
  /\ watchdog s' = watchdog s /\ health s' = health s.
Proof.
  intros ((Hlen & Hcount) & (Hl1 & Hl2 & Hl3) & (Hh1 & Hh2 & Hh3) & Hc & Hb) s'.
  assert (Ht : satTracking s'
               = (satTracking s)
                   <| trk_count := 0 |> <| trk_gpsCount := 0 |> <| trk_glonassCount := 0 |>
                   <| trk_galileoCount := 0 |> <| trk_beidouCount := 0 |>
                   <| trk_qzssCount := 0 |> <| trk_totalInUse := 0 |>
                   <| trk_satellites ::=
                        (fun l => map (fun sat => sat <| tracked := false |>)
                                      (take (Z.to_nat MAX_SATELLITES) l)
                                  ++ drop (Z.to_nat MAX_SATELLITES) l) |>) by reflexivity.
  assert (Hl : eventLog s' = (eventLog s) <| log_head := 0 |> <| log_count := 0 |>)
    by reflexivity.
  assert (Hh : history s' = (history s) <| hist_head := 0 |> <| hist_count := 0 |>
                              <| hist_lastRecordTime := 0 |>) by reflexivity.
  assert (Hd : gpsData s' = zeroData) by reflexivity.
  assert (Hw : watchdog s' = watchdog s) by reflexivity.
  assert (Hhl : health s' = health s) by reflexivity.
  assert (Hbuf : gpsBuffer s' = []) by reflexivity.
  clearbody s'.
  assert (Hsats : trk_satellites (satTracking s')
                  = map (fun sat => sat <| tracked := false |>)
                        (trk_satellites (satTracking s))).
  { rewrite Ht. destruct (satTracking s) as [sats ? ? ? ? ? ? ? ?]. cbn in *.
    rewrite take_ge, drop_ge, app_nil_r by (unfold MAX_SATELLITES; lia). reflexivity. }
  assert (Ec : trk_count (satTracking s') = 0) by (rewrite Ht; reflexivity).
  assert (El1 : log_events (eventLog s') = log_events (eventLog s))
    by (rewrite Hl; reflexivity).
  assert (El2 : log_head (eventLog s') = 0) by (rewrite Hl; reflexivity).
  assert (El3 : log_count (eventLog s') = 0) by (rewrite Hl; reflexivity).
  assert (Eh1 : hist_points (history s') = hist_points (history s))
    by (rewrite Hh; reflexivity).
  assert (Eh2 : hist_head (history s') = 0) by (rewrite Hh; reflexivity).
  assert (Eh3 : hist_count (history s') = 0) by (rewrite Hh; reflexivity).
  unfold wellFormed, tableOk, logOk, historyOk, WebApi.eventsVisited, WebApi.pointsVisited,
    trackedEntries.
  rewrite Ec, El1, El2, El3, Eh1, Eh2, Eh3, Hw, Hbuf, Hsats, length_map,
    filter_tracked_cleared.
  unfold MAX_SATELLITES, MAX_EVENTS, HISTORY_BUFFER_SIZE, GPS_BUFFER_MAX.
  cbn [length seq map Z.to_nat].
  repeat split; try assumption; try reflexivity; lia.
Qed.
End GPSTable.

(** *** The cooldown of the events *)

#[local] Instance ticksGrow_preorder : PreOrder ticksGrow.
Proof. split; [intros s; unfold ticksGrow; lia | intros a b c; unfold ticksGrow; lia]. Qed.

#[local] Instance quietUntil_preorder `{Platform} K : PreOrder (quietUntil K).
Proof.
  split.
  - intros s. split; [lia|]. intros _ _ _. repeat split.
  - intros s1 s2 s3 (T12 & H12) (T23 & H23). split; [lia|].
    intros HK Hu Hc.
    destruct (H12 ltac:(lia) Hu Hc) as (E1 & E2 & E3).
    destruct (H23 HK) as (F1 & F2 & F3).
    + rewrite E2. exact Hu.
    + rewrite E1. intros k Hk. apply Hc. lia.
    + unfold eventsKept. rewrite F1, F2, F3. auto.
Qed.

Ltac ticks_close := unfold ticksGrow; cbn;
  repeat match goal with
         | |- context [match ?x with _ => _ end] =>
             lazymatch x with
             | context [match _ with _ => _ end] => fail
             | _ => destruct x
             end
         end; cbn; lia.

Section GPSPlain.
Import GPS CStr.
Context `{Platform} `{Decoder}.

Lemma ticks_addEvent type message : keeps ticksGrow (addEvent type message).
Proof. repeat gps_step_with ltac:(ticks_close). Qed.

Lemma ticks_shouldFireEvent type : keeps ticksGrow (shouldFireEvent type).
Proof. repeat gps_step_with ltac:(ticks_close). Qed.

Context (R : relation GPSState) `{!PreOrder R}.

(** Writes that leave the event log, the cooldown stamps and the
    unresponsive flag alone and do not turn the clock back. *)
Hypothesis R_plain : forall s s',
  (ticks s <= ticks s')%nat -> eventsKept s s' -> R s s'.
Hypothesis R_guarded : forall type (A : M GPSState unit),
  keeps ticksGrow A ->
  keeps R (bind (shouldFireEvent type) (fun fire => if fire then A else ret tt)).
Hypothesis R_recover : forall (A : M GPSState unit),
  keeps ticksGrow A ->
  keeps R (bind (gets (fun s => wd_unresponsive (watchdog s)))
                (fun u => if u then A else ret tt)).

Ltac plain_close :=
  apply R_plain;
  [ ticks_close
  | unfold eventsKept, stamps;
    repeat match goal with
           | |- context [match ?x with _ => _ end] =>
               lazymatch x with
               | context [match _ with _ => _ end] => fail
               | _ => destruct x
               end
           end; repeat split ].

Lemma plain_fireIf cond type message : keeps R (fireIf cond type message).
Proof.
  unfold fireIf. destruct cond; [|apply keeps_ret; exact _].
  apply R_guarded, ticks_addEvent.
Qed.

Ltac plain_step :=
  lazymatch goal with
  | |- keeps _ (fireIf _ _ _) => apply plain_fireIf
  | |- _ => gps_step_with ltac:(plain_close)
  end.

Lemma plain_updateGPSData : keeps R updateGPSData.
Proof. unfold updateGPSData, updateTime, updatePosition. repeat plain_step. Qed.

Lemma plain_updateConstellationCounts : keeps R updateConstellationCounts.
Proof. unfold updateConstellationCounts. repeat plain_step. Qed.

Lemma plain_addHistoricalPoint : keeps R addHistoricalPoint.
Proof. unfold addHistoricalPoint. repeat plain_step. Qed.

Lemma plain_checkStaleness : keeps R checkStaleness.
Proof. unfold checkStaleness. repeat plain_step. Qed.

Lemma plain_checkHeartbeat : keeps R checkHeartbeat.
Proof.
  unfold checkHeartbeat.
  apply keeps_bind; [exact _ | intros s; plain_close | intros now].
  apply keeps_bind; [exact _ | apply keeps_get; exact _ | intros s].
  destruct (_ <? _); [|apply keeps_ret; exact _].
  destruct (negb _); [|apply keeps_ret; exact _].
  apply R_guarded. repeat gps_step_with ltac:(ticks_close).
Qed.

Lemma plain_calculateHealth : keeps R calculateHealth.
Proof. unfold calculateHealth. repeat plain_step. Qed.

Lemma plain_gsvSatellites n : forall p, keeps R (gsvSatellites n p).
Proof.
  induction n as [|n IH]; intros p; cbn [gsvSatellites].
  - apply keeps_ret; exact _.
  - repeat first [apply IH | plain_step].
Qed.

Lemma plain_gsaSatellites n : forall p c, keeps R (gsaSatellites n p c).
Proof.
  induction n as [|n IH]; intros p c; cbn [gsaSatellites].
  - apply keeps_ret; exact _.
  - repeat first [apply IH | plain_step].
Qed.

Lemma plain_parseGSVSentence sentence c : keeps R (parseGSVSentence sentence c).
Proof. unfold parseGSVSentence. repeat first [apply plain_gsvSatellites | plain_step]. Qed.

Lemma plain_markSatellitesInUse sentence c : keeps R (markSatellitesInUse sentence c).
Proof. unfold markSatellitesInUse. repeat first [apply plain_gsaSatellites | plain_step]. Qed.

Lemma plain_parseNMEASentence sentence : keeps R (parseNMEASentence sentence).
Proof.
  unfold parseNMEASentence, parseGPGSVSentence, parseGLGSVSentence,
    parseGAGSVSentence, parseGBGSVSentence, parseGPGSASentence,
    parseGNGSVSentence, parseGNGSASentence, detectCapabilities.
  repeat first [ apply plain_parseGSVSentence | apply plain_markSatellitesInUse
               | plain_step ].
Qed.

Lemma plain_processChar c : keeps R (processChar c).
Proof.
  unfold processChar.
  apply keeps_bind; [exact _ | intros s; plain_close | intros now].
  apply keeps_bind; [exact _ | apply keeps_modify; intros s; plain_close | intros _].
  intros s.
  match goal with
  | |- R s (exec (bind (gets ?f) (fun u => bind (if u then ?A else ret tt) ?K)) s) =>
      change (R s (exec (bind (bind (gets f) (fun u => if u then A else ret tt)) K) s));
      revert s;
      change (keeps R (bind (bind (gets f) (fun u => if u then A else ret tt)) K))
  end.
  apply keeps_bind; [exact _ | | intros _].
  - apply R_recover. repeat gps_step_with ltac:(ticks_close).
  - repeat first [apply plain_parseNMEASentence | plain_step].
Qed.

Lemma plain_readLoop available : keeps R (readLoop available).
Proof.
  induction available as [|c rest IH]; cbn [readLoop].
  - apply keeps_ret; exact _.
  - apply keeps_bind; [exact _ | apply plain_processChar | intros _; exact IH].
Qed.

Lemma plain_process available : keeps R (process available).
Proof.
  unfold process.
  repeat first [ apply plain_readLoop | apply plain_updateGPSData
               | apply plain_updateConstellationCounts | apply plain_addHistoricalPoint
               | apply plain_checkStaleness | apply plain_checkHeartbeat
               | apply plain_calculateHealth | plain_step ].
Qed.
End GPSPlain.

Section GPSQuiet.
Import GPS CStr.
Context `{Platform} `{Decoder}.

Lemma ticks_process available : keeps ticksGrow (process available).
Proof.
  apply plain_process.
  - exact _.
  - intros s s' Ht _. exact Ht.
  - intros type A HA.
    apply keeps_bind; [exact _ | apply ticks_shouldFireEvent | intros fire].
    destruct fire; [exact HA | apply keeps_ret; exact _].
  - intros A HA.
    apply keeps_bind; [exact _ | apply keeps_gets; exact _ | intros u].
    destruct u; [exact HA | apply keeps_ret; exact _].
Qed.

Lemma shouldFireEvent_cooling type s :
  coolingDown (stamps s) (ticks s) ->
  shouldFireEvent type s = (false, s <| ticks ::= Datatypes.S |>).
Proof.
  intros Hc. unfold shouldFireEvent.
  unfold bind at 1, millis at 1. unfold bind at 1, gets at 1.
  specialize (Hc (event_index type)). unfold stamps in Hc.
  change (wd_lastEventTime (watchdog (s <| ticks ::= Datatypes.S |>)))
    with (wd_lastEventTime (watchdog s)).
  apply Z.ltb_lt in Hc. rewrite Hc. reflexivity.
Qed.

(** Cooldown.  If the module is not flagged unresponsive and every clock
    read of a processing cycle falls less than [EVENT_COOLDOWN]
    milliseconds after each of the twelve cooldown stamps, the cycle
    logs no event and moves no stamp, whatever it reads and whatever the
    fix does.  As [begin] leaves all stamps at zero, this is the case for
    every cycle in the first minute of uptime. *)
Theorem quiet_while_cooling available s :
  let s' := exec (process available) s in
  wd_unresponsive (watchdog s) = false ->
  (forall k, (ticks s <= k < ticks s')%nat -> coolingDown (stamps s) k) ->
  eventLog s' = eventLog s /\ stamps s' = stamps s.
Proof.
  intros s' Hu Hc.
  assert (HR : quietUntil (ticks s') s s').
  { subst s'. generalize (ticks (exec (process available) s)). intros K.
    apply plain_process.
    - exact _.
    - intros s1 s2 Ht Hk. split; [exact Ht | intros _ _ _; exact Hk].
    - intros type A HA s1.
      assert (Hg : ticksGrow s1 (exec (bind (shouldFireEvent type)
                                         (fun fire => if fire then A else ret tt)) s1)).
      { revert s1. change (keeps ticksGrow (bind (shouldFireEvent type)
                                               (fun fire => if fire then A else ret tt))).
        apply keeps_bind; [exact _ | apply ticks_shouldFireEvent | intros fire].
        destruct fire; [exact HA | apply keeps_ret; exact _]. }
      split; [exact Hg|]. intros HK Hu1 Hc1.
      assert (Hlt : (ticks s1 < K)%nat).
      { unfold exec, bind in HK.
        destruct (shouldFireEvent type s1) as [fire s2] eqn:Es.
        assert (Ht2 : (Datatypes.S (ticks s1) <= ticks s2)%nat).
        { unfold shouldFireEvent, bind, millis, gets in Es.
          destruct (_ <? _); injection Es as <- <-;
            [exact (le_n _) | exact (le_S _ _ (le_n _))]. }
        assert (Ht3 : (ticks s2 <= ticks (snd ((if fire then A else ret tt) s2)))%nat).
        { destruct fire; [apply (HA s2) | cbn; lia]. }
        lia. }
      unfold exec, bind.
      rewrite (shouldFireEvent_cooling type s1 (Hc1 _ (conj (le_n _) Hlt))).
      repeat split.
    - intros A HA s1.
      assert (Hg : ticksGrow s1 (exec (bind (gets (fun s => wd_unresponsive (watchdog s)))
                                         (fun u => if u then A else ret tt)) s1)).
      { revert s1.
        change (keeps ticksGrow (bind (gets (fun s => wd_unresponsive (watchdog s)))
                                      (fun u => if u then A else ret tt))).
        apply keeps_bind; [exact _ | apply keeps_gets; exact _ | intros u].
        destruct u; [exact HA | apply keeps_ret; exact _]. }
      split; [exact Hg|]. intros _ Hu1 _.
      unfold exec, bind, gets. rewrite Hu1. repeat split. }
  destruct HR as (_ & HR). destruct (HR (le_n _) Hu Hc) as (E1 & _ & E3).
  split; [exact E3 | exact E1].
Qed.
End GPSQuiet.

(** *** In-use sentences and alerts *)

Section GPSAlerts.
Import GPS CStr.
Context `{Platform} `{Decoder}.

(** The same in the in-use sentences.  [markSatellitesInUse] too looks a
    satellite up by the untruncated number, so for a satellite numbered
    256 or more it marks no entry the table holds: while the table has
    room it appends a further entry at index [count], in use and
    tracked, with the number modulo 256 and no signal strength, and
    leaves the entries below untouched; a full table is left as it is. *)
Theorem wide_prn_in_use_appends prnv constellationType s :
  let t := satTracking s in
  let t' := satTracking (exec (markInUse prnv constellationType) s) in
  tableOk t -> prnsFit t -> 256 <= prnv ->
  prnsFit t'
  /\ if trk_count t <? MAX_SATELLITES then
       trk_count t' = trk_count t + 1
       /\ take (Z.to_nat (trk_count t)) (trk_satellites t')
          = take (Z.to_nat (trk_count t)) (trk_satellites t)
       /\ exists sat,
            trk_satellites t' !! Z.to_nat (trk_count t) = Some sat
            /\ prn sat = prnv mod 256 /\ inUse sat = true /\ tracked sat = true
            /\ constellation sat = constellationType /\ snr sat = 0
     else t' = t.
Proof.
  intros t t' (Hlen & Hcount) Hfit Hwide.
  assert (Et : t' = satTracking (exec (markInUse prnv constellationType) s))
    by reflexivity.
  clearbody t'.
  unfold markInUse, setTracking, exec, modify in Et. cbn [snd] in Et.
  match type of Et with
  | _ = satTracking (s <| satTracking ::= ?g |>) =>
      change (satTracking (s <| satTracking ::= g |>)) with (g t) in Et
  end.
  cbv beta zeta in Et.
  rewrite first_index_none_all in Et.
  2:{ intros j sat Hj. apply Z.eqb_neq.
      apply lookup_take_Some in Hj as (Hj & _).
      unfold prnsFit in Hfit. rewrite Forall_lookup in Hfit.
      specialize (Hfit _ _ Hj). cbv beta in Hfit. lia. }
  destruct (Z.ltb_spec (trk_count t) MAX_SATELLITES) as [Hlt|Hge].
  2:{ subst t'. split; [exact Hfit | reflexivity]. }
  unfold MAX_SATELLITES in *.
  destruct (lookup_lt_is_Some_2 (trk_satellites t) (Z.to_nat (trk_count t)) ltac:(lia))
    as [old Hold].
  assert (Hsats : trk_satellites t'
                  = alter (fun sat => sat <| prn := u8 prnv |>
                                         <| constellation := constellationType |>
                                         <| inUse := true |> <| tracked := true |>
                                         <| elevation := 0 |> <| azimuth := 0 |>
                                         <| snr := 0 |>)
                          (Z.to_nat (trk_count t)) (trk_satellites t))
    by (subst t'; reflexivity).
  assert (Hcnt : trk_count t' = Z.succ (trk_count t)) by (subst t'; reflexivity).
  split; [|split; [lia | split]].
  - unfold prnsFit in *. rewrite Hsats. rewrite Forall_lookup in *.
    intros j sat Hj. destruct (decide (Z.to_nat (trk_count t) = j)) as [<-|Hne].
    + rewrite list_lookup_alter_eq, Hold in Hj. injection Hj as <-.
      cbn. apply u8_range.
    + rewrite list_lookup_alter_ne in Hj by exact Hne. exact (Hfit _ _ Hj).
  - rewrite Hsats. apply take_alter_ge. lia.
  - eexists. rewrite Hsats, list_lookup_alter_eq, Hold. cbn [fmap option_fmap option_map].
    split; [reflexivity|]. repeat split.
Qed.

(** Alerts.  While the clock reads less than [minUptime], [updateAlerts]
    leaves the health record alone.  After that it raises the critical
    alert exactly when the module is unresponsive, or neither the time
    nor the position is valid, or the snapshot is older than
    [GPS_DATA_TIMEOUT]; the critical and the warning alert are never
    raised together, the message is empty exactly when neither is
    raised, and the scores are not touched. *)
Theorem alerts_are_exclusive s :
  let now := u32 (millis_at (ticks s)) in
  let d := gpsData s in
  let h' := health (exec updateAlerts s) in
  if now <? th_minUptime (thresholds s) then h' = health s
  else
    hl_criticalAlert h'
    = wd_unresponsive (watchdog s)
      || (negb (gd_timeValid d) && negb (gd_valid d))
      || (GPS_DATA_TIMEOUT <? gd_updateAge d)
    /\ hl_criticalAlert h' && hl_warningAlert h' = false
    /\ (hl_alertMessage h' = [] <-> hl_criticalAlert h' || hl_warningAlert h' = false)
    /\ scores (exec updateAlerts s) = scores s.
Proof.
  cbv zeta. unfold updateAlerts, exec. rewrite bind_clock, bind_get.
  change (thresholds (s <| ticks ::= Datatypes.S |>)) with (thresholds s).
  destruct (_ <? th_minUptime _); [reflexivity|].
  cbv zeta.
  change (watchdog (s <| ticks ::= Datatypes.S |>)) with (watchdog s).
  change (gpsData (s <| ticks ::= Datatypes.S |>)) with (gpsData s).
  change (thresholds (s <| ticks ::= Datatypes.S |>)) with (thresholds s).
  unfold setAlert, setHealth, modify. cbn [snd].
  destruct (wd_unresponsive (watchdog s)); cbn [orb];
    [repeat split; try reflexivity; discriminate|].
  destruct (gd_timeValid (gpsData s)), (gd_valid (gpsData s)); cbn [negb andb orb];
    try (repeat split; try reflexivity; discriminate).
  all: destruct (GPS_DATA_TIMEOUT <? gd_updateAge (gpsData s));
    [repeat split; try reflexivity; discriminate|].
  all: destruct (gd_satellites (gpsData s) <? _);
    [repeat split; try reflexivity; discriminate|].
  all: destruct (Flt.gt (gd_hdop (gpsData s)) _);
    [repeat split; try reflexivity; discriminate|].
  all: destruct (Flt.gt (gd_pdop (gpsData s)) _);
    [repeat split; try reflexivity; discriminate|].
  all: destruct (_ && _); repeat split; try reflexivity; discriminate.
Qed.
End GPSAlerts.

(** *** Sentences on the serial link *)

Section GPSLines.
Import GPS CStr.
Context `{Platform} `{Decoder}.

Lemma processChar_plain c s :
  wd_unresponsive (watchdog s) = false -> gpsLineReady s = false ->
  c <> "$"%char -> c <> "010"%char ->
  Z.of_nat (length (gpsBuffer s)) < GPS_BUFFER_MAX ->
  exec (processChar c) s = absorbed [c] s.
Proof.
  intros Hu Hr Hd Hn Hroom.
  unfold processChar, exec. rewrite bind_clock, bind_modify, bind_gets.
  match goal with
  | |- context [wd_unresponsive (watchdog ?x)] =>
      change (wd_unresponsive (watchdog x)) with (wd_unresponsive (watchdog s))
  end.
  rewrite Hu. rewrite bind_ret, !bind_modify.
  apply Ascii.eqb_neq in Hd, Hn. rewrite Hd, Hn.
  match goal with
  | |- context [Z.of_nat (length (gpsBuffer ?x)) <? _] =>
      change (gpsBuffer x) with (gpsBuffer s)
  end.
  apply Z.ltb_lt in Hroom. rewrite Hroom.
  rewrite bind_gets.
  match goal with
  | |- context [if gpsLineReady ?x then _ else _] =>
      change (gpsLineReady x) with (gpsLineReady s)
  end.
  rewrite Hr. unfold ret, absorbed. cbn [snd length].
  destruct s as [fed cfg d t h l hl th w b r st k]. destruct w. cbn. unfold constant.
  repeat first [reflexivity | lia | progress f_equal].
Qed.

Lemma absorbed_nil s : absorbed [] s = s.
Proof.
  unfold absorbed. destruct s as [fed cfg d t h l hl th w b r st k]. destruct w. cbn.
  rewrite !app_nil_r, Nat.add_0_r. reflexivity.
Qed.

Lemma absorbed_cons c chars s : absorbed chars (absorbed [c] s) = absorbed (c :: chars) s.
Proof.
  unfold absorbed. destruct s as [fed cfg d t h l hl th w b r st k]. destruct w.
  destruct chars as [|c' chars]; cbn; rewrite <- ?app_assoc; cbn; unfold constant;
    repeat first [reflexivity | lia | progress f_equal].
Qed.

Lemma readLoop_plain chars : forall s rest,
  wd_unresponsive (watchdog s) = false -> gpsLineReady s = false ->
  Forall (fun c => c <> "$"%char /\ c <> "010"%char) chars ->
  Z.of_nat (length (gpsBuffer s) + length chars) <= GPS_BUFFER_MAX ->
  exec (readLoop (chars ++ rest)) s = exec (readLoop rest) (absorbed chars s).
Proof.
  induction chars as [|c chars IH]; intros s rest Hu Hr Hclean Hroom.
  - rewrite absorbed_nil. reflexivity.
  - apply Forall_cons in Hclean as ((Hd & Hn) & Hclean).
    cbn [app readLoop length] in *. rewrite exec_bind.
    rewrite processChar_plain by (auto; lia).
    rewrite IH; [rewrite absorbed_cons; reflexivity | exact Hu | exact Hr | exact Hclean |].
    change (gpsBuffer (absorbed [c] s)) with (gpsBuffer s ++ [c]).
    rewrite length_app. cbn [length]. lia.
Qed.

(** Reassembly.  When the module is responsive and no line is pending, a
    dollar sign, up to 119 characters that are neither a dollar sign nor
    a line feed, and a line feed make the read loop hand exactly the
    dollar sign and these characters to [parseNMEASentence], once, after
    the line feed was read, and empty the buffer afterwards.  A carriage
    return before the line feed is part of what is handed over. *)
Theorem sentence_reaches_parser body s :
  wd_unresponsive (watchdog s) = false -> gpsLineReady s = false ->
  Forall (fun c => c <> "$"%char /\ c <> "010"%char) body ->
  (length body < 120)%nat ->
  exec (readLoop ("$"%char :: body ++ ["010"%char])) s
  = (exec (parseNMEASentence ("$"%char :: body)) (lineRead body s)) <| gpsBuffer := [] |>.
Proof.
  intros Hu Hr Hclean Hlen.
  cbn [readLoop]. rewrite exec_bind.
  set (s1 := exec (processChar "$") s).
  assert (E1 : s1 = s <| ticks ::= Datatypes.S |>
                      <| watchdog ::= (fun w =>
                           w <| wd_lastCharReceived := u32 (millis_at (ticks s)) |>) |>
                      <| tinyGPS ::= (fun fed => fed ++ ["$"%char]) |>
                      <| gpsBuffer := ["$"%char] |>).
  { subst s1. unfold processChar, exec. rewrite bind_clock, bind_modify, bind_gets.
    match goal with
    | |- context [wd_unresponsive (watchdog ?x)] =>
        change (wd_unresponsive (watchdog x)) with (wd_unresponsive (watchdog s))
    end.
    rewrite Hu. rewrite bind_ret, !bind_modify.
    change (Ascii.eqb "$" "$") with true. cbv iota.
    rewrite bind_gets.
    match goal with
    | |- context [if gpsLineReady ?x then _ else _] =>
        change (gpsLineReady x) with (gpsLineReady s)
    end.
    rewrite Hr. reflexivity. }
  clearbody s1.
  rewrite readLoop_plain; [| subst s1; exact Hu | subst s1; exact Hr | exact Hclean |].
  2:{ subst s1. cbn [length]. unfold GPS_BUFFER_MAX.
      change (gpsBuffer _) with ["$"%char]. cbn [length]. lia. }
  cbn [readLoop]. rewrite exec_bind. unfold ret at 1.
  unfold exec at 1. cbn [snd].
  set (s2 := absorbed body s1).
  unfold processChar, exec. rewrite bind_clock, bind_modify, bind_gets.
  match goal with
  | |- context [wd_unresponsive (watchdog ?x)] =>
      change (wd_unresponsive (watchdog x)) with (wd_unresponsive (watchdog s2))
  end.
  assert (Hu2 : wd_unresponsive (watchdog s2) = false) by (subst s2 s1; exact Hu).
  rewrite Hu2. rewrite bind_ret, !bind_modify.
  change (Ascii.eqb "010" "$") with false. change (Ascii.eqb "010" "010") with true.
  cbv iota. rewrite bind_gets.
  match goal with
  | |- context [if gpsLineReady ?x then _ else _] =>
      change (gpsLineReady x) with true
  end.
  cbv iota. rewrite bind_modify, bind_gets.
  match goal with
  | |- snd (bind (parseNMEASentence ?line) _ ?x) = _ =>
      assert (El : line = "$"%char :: body) by (subst s2 s1; reflexivity);
      assert (Ex : x = lineRead body s)
  end.
  { subst s2 s1. unfold absorbed, lineRead.
    destruct s as [fed cfg d t h l hl th w b r st k]. destruct w.
    cbn in Hr |- *. subst r.
    destruct body as [|c body]; cbn; rewrite <- ?app_assoc; cbn; unfold constant;
      repeat first [reflexivity | lia | progress f_equal]. }
  rewrite El, Ex.
  change (snd (bind ?m ?k ?x)) with (exec (bind m k) x). rewrite exec_bind.
  reflexivity.
Qed.
End GPSLines.

(** *** The age of the fix *)

#[local] Instance ageKept_preorder : PreOrder ageKept.
Proof.
  split.
  - intros s. repeat split. lia.
  - intros a b c (T1 & L1 & A1) (T2 & L2 & A2). repeat split; [lia | congruence | congruence].
Qed.

(** Closes [ageKept s (g s)] for a write that leaves the two members alone. *)
Ltac age_close :=
  unfold ageKept;
  repeat match goal with
         | |- context [match ?x with _ => _ end] =>
             lazymatch x with
             | context [match _ with _ => _ end] => fail
             | _ => destruct x
             end
         end;
  split; [first [exact (le_n _) | exact (le_S _ _ (le_n _)) | cbn; lia] | split; reflexivity].

Section GPSAge.
Import GPS CStr.
Context `{Platform} `{Decoder}.

Lemma age_fireIf cond type message : keeps ageKept (fireIf cond type message).
Proof. repeat gps_step_with ltac:(age_close). Qed.

Lemma age_tail :
  keeps ageKept
    (bind updateConstellationCounts (fun _ =>
       bind addHistoricalPoint (fun _ => bind checkStaleness (fun _ =>
         bind checkHeartbeat (fun _ => calculateHealth))))).
Proof.
  unfold updateConstellationCounts, addHistoricalPoint, checkStaleness, checkHeartbeat,
    calculateHealth.
  repeat gps_step_with ltac:(age_close).
Qed.

(** The stamp [updateTime] leaves when the decoder's time and date are
    valid is a clock read made by this very call. *)
Lemma updateTime_stamps v s :
  tg_time_isValid v && tg_date_isValid v = true ->
  let s' := exec (updateTime v) s in
  exists k, (ticks s <= k < ticks s')%nat
            /\ gd_lastUpdateMillis (gpsData s') = u32 (millis_at k).
Proof.
  intros Hv s'.
  assert (E : s' = exec (updateTime v) s) by reflexivity. clearbody s'.
  unfold updateTime in E. rewrite Hv in E.
  unfold exec in E. rewrite bind_gets in E. unfold setData at 1 in E.
  rewrite bind_modify in E.
  change (snd (bind ?m ?k ?x)) with (exec (bind m k) x) in E. rewrite exec_bind in E.
  match type of E with
  | _ = exec _ (exec ?m ?x) => set (s1 := exec m x) in E
  end.
  assert (Ht1 : (ticks s <= ticks s1)%nat).
  { subst s1. destruct (negb (gd_timeValid (gpsData s)));
      [exact (le_S _ _ (le_n _)) | exact (le_n _)]. }
  clearbody s1. cbv beta in E.
  unfold exec, setData in E. rewrite !bind_modify, bind_clock, bind_modify in E.
  change (snd (?m ?x)) with (exec m x) in E.
  match type of E with
  | s' = exec (fireIf ?c ?t ?m) ?x =>
      destruct (age_fireIf c t m x) as (T & L & _); rewrite <- E in T, L
  end.
  exists (ticks s1). split.
  - split; [exact Ht1|]. revert T. apply Nat.lt_le_trans. exact (le_n _).
  - rewrite L. reflexivity.
Qed.

Lemma updatePosition_stamps v s :
  let s' := exec (updatePosition v) s in
  (ticks s <= ticks s')%nat
  /\ if tg_location_isValid v
     then gd_lastUpdateMillis (gpsData s') = u32 (millis_at (ticks s))
          /\ (ticks s < ticks s')%nat
     else gd_lastUpdateMillis (gpsData s') = gd_lastUpdateMillis (gpsData s).
Proof.
  intros s'.
  assert (E : s' = exec (updatePosition v) s) by reflexivity. clearbody s'.
  unfold updatePosition in E. destruct (tg_location_isValid v).
  - unfold exec, setData in E. rewrite bind_gets, !bind_modify, bind_clock, bind_modify in E.
    change (snd (?m ?x)) with (exec m x) in E.
    match type of E with
    | s' = exec (fireIf ?c ?t ?m) ?x =>
        destruct (age_fireIf c t m x) as (T & L & _); rewrite <- E in T, L
    end.
    assert (Hlt : (ticks s < ticks s')%nat)
      by (revert T; apply Nat.lt_le_trans; exact (le_n _)).
    split; [lia|]. split; [rewrite L; reflexivity | exact Hlt].
  - assert (Hk : keeps ageKept
                   (bind (gets (fun s => gd_valid (gpsData s))) (fun wasValid =>
                      bind (fireIf wasValid EVENT_GPS_FIX_LOST (chars "GPS position fix lost"))
                           (fun _ => setData (fun d => d <| gd_valid := false |>)))))
      by repeat gps_step_with ltac:(age_close).
    destruct (Hk s) as (T & L & _). rewrite <- E in T, L. split; assumption.
Qed.

Lemma keeps_then (Q : relation GPSState) {A B} (m : M GPSState A) (k : A -> M GPSState B) :
  keeps ageKept m -> (forall a, keeps Q (k a)) ->
  (forall s s1 s2, ageKept s s1 -> Q s1 s2 -> Q s s2) ->
  keeps Q (bind m k).
Proof.
  intros Hm Hk Hc s. rewrite exec_bind. eapply Hc; [apply Hm | apply Hk].
Qed.

Lemma ageRenewed_after s s1 s2 : ageKept s s1 -> ageRenewed s1 s2 -> ageRenewed s s2.
Proof.
  intros (T1 & L1 & _) (T2 & L2 & A2). split; [lia|]. split; [congruence|].
  rewrite <- L1. intros Hpos. destruct (A2 Hpos) as (k & Hk & Ha).
  exists k. split; [lia | exact Ha].
Qed.

(** The age of the fix restarts in every cycle.  Whenever the decoder
    holds a valid time and date, or a valid position, at the end of the
    read loop, whether or not anything was received in this cycle, the
    cycle sets [lastUpdateMillis] to a clock read of its own; unless
    that read is zero, [updateAge] is then the distance between two
    clock reads of this one cycle.  So the age measures the time
    [updateGPSData] takes, not the time since the receiver last
    reported. *)
Theorem age_restarts_every_cycle available s :
  let s1 := exec (readLoop available) s in
  let v := tinygps_view (tinyGPS s1) in
  let s' := exec (process available) s in
  (tg_time_isValid v && tg_date_isValid v) || tg_location_isValid v = true ->
  exists k,
    (ticks s1 <= k < ticks s')%nat
    /\ gd_lastUpdateMillis (gpsData s') = u32 (millis_at k)
    /\ (0 < u32 (millis_at k) ->
        exists k', (k < k' < ticks s')%nat
                   /\ gd_updateAge (gpsData s')
                      = u32 (u32 (millis_at k') - u32 (millis_at k))).
Proof.
  intros s1 v s' Hv.
  assert (E : s' = exec (bind updateGPSData (fun _ =>
                     bind updateConstellationCounts (fun _ =>
                       bind addHistoricalPoint (fun _ => bind checkStaleness (fun _ =>
                         bind checkHeartbeat (fun _ => calculateHealth)))))) s1).
  { subst s' s1. unfold process. rewrite exec_bind. reflexivity. }
  clearbody s'. rewrite exec_bind in E. cbv beta in E.
  set (s4 := exec updateGPSData s1) in E.
  destruct (age_tail s4) as (T4 & L4 & A4). rewrite <- E in T4, L4, A4. clear E.
  assert (E4 : s4 = exec updateGPSData s1) by reflexivity. clearbody s4.
  unfold updateGPSData in E4. rewrite exec_bind in E4.
  change (eval (gets (fun s0 => tinygps_view (tinyGPS s0))) s1) with v in E4.
  change (exec (gets (fun s0 => tinygps_view (tinyGPS s0))) s1) with s1 in E4.
  do 2 rewrite exec_bind in E4. cbv beta in E4.
  set (s2 := exec (updateTime v) s1) in E4.
  set (s3 := exec (updatePosition v) s2) in E4.
  assert (Hstamp : exists k, (ticks s1 <= k < ticks s3)%nat
                             /\ gd_lastUpdateMillis (gpsData s3) = u32 (millis_at k)).
  { destruct (updatePosition_stamps v s2) as (T3 & P). fold s3 in T3, P.
    destruct (tg_location_isValid v).
    - destruct P as (L3 & Hlt). exists (ticks s2). split; [|exact L3].
      assert (T2 : (ticks s1 <= ticks s2)%nat).
      { destruct (tg_time_isValid v && tg_date_isValid v) eqn:Ht.
        - destruct (updateTime_stamps v s1 Ht) as (k & Hk & _). fold s2 in Hk. lia.
        - subst s2. unfold updateTime. rewrite Ht. exact (le_n _). }
      lia.
    - rewrite orb_false_r in Hv.
      destruct (updateTime_stamps v s1 Hv) as (k & Hk & Lk). fold s2 in Hk, Lk.
      exists k. split; [lia | congruence]. }
  clearbody s2 s3.
  destruct Hstamp as (k & Hk & Lk).
  match type of E4 with
  | _ = exec ?m s3 => assert (Hren : keeps ageRenewed m)
  end.
  { do 10 (apply keeps_then;
           [repeat gps_step_with ltac:(age_close) | intros ? | exact ageRenewed_after]).
    intros s0. unfold exec. rewrite bind_gets.
    destruct (Z.ltb_spec 0 (gd_lastUpdateMillis (gpsData s0))) as [Hpos|Hno].
    - rewrite bind_clock. unfold setData, modify. cbn [snd].
      split; [exact (le_S _ _ (le_n _))|]. split; [reflexivity|].
      intros _. exists (ticks s0). split; [|reflexivity].
      split; [exact (le_n _) | exact (le_n _)].
    - split; [exact (le_n _)|]. split; [reflexivity|]. intros Hpos. lia. }
  destruct (Hren s3) as (T & L & A). rewrite <- E4 in T, L, A.
  exists k. split; [lia|]. split; [congruence|].
  intros Hpos. rewrite Lk in A. destruct (A Hpos) as (k' & Hk' & Ha).
  exists k'. split; [lia | congruence].
Qed.
End GPSAge.

(** *** The scenarios *)

Lemma started_wellFormed : wellFormed Scenario.started.
Proof.
  unfold wellFormed, tableOk, logOk, historyOk. vm_compute.
  repeat split; try reflexivity; discriminate.
Qed.

(** The bounds hold after the cycle that reads the visibility sentence. *)
Lemma process_keeps_bounds_witness :
  wellFormed Scenario.started /\ wellFormed Scenario.afterVisibility.
Proof.
  split; [exact started_wellFormed|].
  exact (@process_keeps_bounds (Scenario.platform 1000 1000000)
           (Scenario.decoder Scenario.noFix) (Scenario.line Scenario.visibilityText)
           Scenario.started started_wellFormed).
Defined.

(** The first event of the started receiver. *)
Lemma events_newest_first_witness :
  logOk (GPS.eventLog Scenario.started)
  /\ map GPS.ev_timestamp
       (WebApi.eventsVisited
          (GPS.eventLog
             (exec (@GPS.addEvent (Scenario.platform 5000 5000000)
                      GPS.EVENT_SYSTEM_BOOT (CStr.chars "GPS initialized"))
                   Scenario.started)))
     = [5000].
Proof.
  assert (Hlog : logOk (GPS.eventLog Scenario.started)) by apply started_wellFormed.
  split; [exact Hlog|].
  rewrite (@events_newest_first (Scenario.platform 5000 5000000)
             GPS.EVENT_SYSTEM_BOOT (CStr.chars "GPS initialized") Scenario.started Hlog).
  reflexivity.
Defined.

(** At 20000 ms the started receiver records its first point. *)
Lemma history_oldest_first_witness :
  historyOk (GPS.history Scenario.started)
  /\ map GPS.hp_timestamp
       (WebApi.pointsVisited
          (GPS.history
             (exec (@GPS.addHistoricalPoint (Scenario.platform 20000 0)) Scenario.started)))
     = [20001].
Proof.
  assert (Hh : historyOk (GPS.history Scenario.started)) by apply started_wellFormed.
  split; [exact Hh|].
  pose proof (@history_oldest_first (Scenario.platform 20000 0) Scenario.started Hh) as T.
  cbv zeta in T.
  change (u32 (u32 (@millis_at (Scenario.platform 20000 0) (GPS.ticks Scenario.started))
               - GPS.hist_lastRecordTime (GPS.history Scenario.started))
          <? GPS.HISTORY_INTERVAL) with false in T.
  destruct T as (p & Hstamp & _ & _ & Hvisited & _).
  rewrite Hvisited, map_app. cbn [map]. rewrite Hstamp. reflexivity.
Defined.

Lemma galileo_fits : tableOk (GPS.satTracking (Scenario.galileo Scenario.started))
                     /\ prnsFit (GPS.satTracking (Scenario.galileo Scenario.started)).
Proof.
  split.
  - split; vm_compute; [reflexivity | split; discriminate].
  - unfold prnsFit. apply List.Forall_forall. intros sat Hin.
    vm_compute in Hin.
    repeat (destruct Hin as [<-|Hin]; [vm_compute; split; [discriminate | reflexivity]|]).
    destruct Hin.
Qed.

(** Satellite 301 listed twice is tracked twice. *)
Lemma wide_prn_witness :
  (tableOk (GPS.satTracking (Scenario.galileo Scenario.started))
   /\ prnsFit (GPS.satTracking (Scenario.galileo Scenario.started)) /\ 256 <= 301)
  /\ trackedEntries (GPS.satTracking (Scenario.galileo (Scenario.galileo Scenario.started))) = 2%nat.
Proof.
  destruct galileo_fits as (Hok & Hfit).
  split; [split; [exact Hok | split; [exact Hfit | lia]]|].
  destruct (wide_prn_takes_new_slot 301 45 120 38 (Scenario.galileo Scenario.started)
              Hok Hfit ltac:(lia)) as (_ & T).
  change (first_index (fun sat => negb (GPS.tracked sat))
            (GPS.trk_satellites (GPS.satTracking (Scenario.galileo Scenario.started))) 0)
    with (Some 1%nat) in T.
  destruct T as (_ & _ & Hn).
  unfold Scenario.galileo at 1. rewrite Hn. reflexivity.
Defined.

Lemma afterVisibility_fits : wellFormed Scenario.afterVisibility.
Proof.
  unfold wellFormed, tableOk, logOk, historyOk. vm_compute.
  repeat split; try reflexivity; discriminate.
Qed.

(** After a reset the three satellites of the visibility sentence are
    no longer tracked. *)
Lemma reset_empties_witness :
  wellFormed Scenario.afterVisibility
  /\ (trackedEntries (GPS.satTracking Scenario.afterVisibility) = 3%nat
      /\ trackedEntries (GPS.satTracking (exec GPS.reset Scenario.afterVisibility)) = 0%nat).
Proof.
  split; [exact afterVisibility_fits|]. split; [reflexivity|].
  apply (reset_empties Scenario.afterVisibility afterVisibility_fits).
Defined.

(** A fix that arrives five seconds after the start is not logged: the
    snapshot's time is valid after the cycle and the log is still empty. *)
Lemma quiet_while_cooling_witness :
  (GPS.wd_unresponsive (GPS.watchdog Scenario.started) = false
   /\ forall k,
        (GPS.ticks Scenario.started <= k
         < GPS.ticks (exec (@GPS.process (Scenario.platform 5000 5000000)
                              (Scenario.decoder (Scenario.fixAt 2024 3 1 12 0 0))
                              (Scenario.line Scenario.visibilityText))
                           Scenario.started))%nat ->
        @coolingDown (Scenario.platform 5000 5000000) (stamps Scenario.started) k)
  /\ GPS.gd_timeValid
       (GPS.gpsData (exec (@GPS.process (Scenario.platform 5000 5000000)
                             (Scenario.decoder (Scenario.fixAt 2024 3 1 12 0 0))
                             (Scenario.line Scenario.visibilityText))
                          Scenario.started)) = true
  /\ GPS.log_count
       (GPS.eventLog (exec (@GPS.process (Scenario.platform 5000 5000000)
                              (Scenario.decoder (Scenario.fixAt 2024 3 1 12 0 0))
                              (Scenario.line Scenario.visibilityText))
                           Scenario.started)) = 0.
Proof.
  set (s' := exec _ Scenario.started).
  assert (Hc : forall k, (GPS.ticks Scenario.started <= k < GPS.ticks s')%nat ->
             @coolingDown (Scenario.platform 5000 5000000) (stamps Scenario.started) k).
  { assert (Hn : (GPS.ticks s' < 1000)%nat) by (vm_compute; lia).
    revert Hn. generalize (GPS.ticks s'). intros N Hn k Hk i.
    assert (Hz : nth i (stamps Scenario.started) 0 = 0).
    { change (stamps Scenario.started) with (replicate 12 0).
      do 12 (destruct i as [|i]; [reflexivity|]). destruct i; reflexivity. }
    rewrite Hz.
    change (@millis_at (Scenario.platform 5000 5000000) k) with (5000 + Z.of_nat k).
    unfold GPS.EVENT_COOLDOWN.
    rewrite (u32_small (5000 + Z.of_nat k)) by lia.
    rewrite u32_small by lia. lia. }
  split; [split; [reflexivity | exact Hc]|].
  split; [vm_compute; reflexivity|].
  destruct (@quiet_while_cooling (Scenario.platform 5000 5000000)
              (Scenario.decoder (Scenario.fixAt 2024 3 1 12 0 0))
              (Scenario.line Scenario.visibilityText)
              Scenario.started eq_refl Hc) as (Hlog & _).
  fold s' in Hlog. rewrite Hlog. reflexivity.
Defined.

(** In the table that holds the visibility entry of satellite 301, the
    in-use sentence adds a second entry and the first is still not in
    use. *)
Lemma wide_prn_in_use_witness :
  (tableOk (GPS.satTracking (Scenario.galileo Scenario.started))
   /\ prnsFit (GPS.satTracking (Scenario.galileo Scenario.started)) /\ 256 <= 301)
  /\ (GPS.trk_count
        (GPS.satTracking (exec (GPS.markInUse 301 3) (Scenario.galileo Scenario.started)))
      = 2
      /\ GPS.inUse <$> take 1 (GPS.trk_satellites
                                 (GPS.satTracking
                                    (exec (GPS.markInUse 301 3)
                                          (Scenario.galileo Scenario.started))))
         = [false]).
Proof.
  destruct galileo_fits as (Hok & Hfit).
  split; [split; [exact Hok | split; [exact Hfit | lia]]|].
  destruct (wide_prn_in_use_appends 301 3 (Scenario.galileo Scenario.started)
              Hok Hfit ltac:(lia)) as (_ & T).
  change (GPS.trk_count (GPS.satTracking (Scenario.galileo Scenario.started))
          <? GPS.MAX_SATELLITES) with true in T.
  destruct T as (Hcount & Hbelow & _).
  split; [rewrite Hcount; reflexivity|].
  change (GPS.trk_count (GPS.satTracking (Scenario.galileo Scenario.started)))
    with 1 in Hbelow.
  change (Z.to_nat 1) with 1%nat in Hbelow. rewrite Hbelow. reflexivity.
Defined.

(** The visibility sentence of the scenarios, carriage return included. *)
Lemma sentence_reaches_parser_witness :
  (GPS.wd_unresponsive (GPS.watchdog Scenario.started) = false
   /\ GPS.gpsLineReady Scenario.started = false
   /\ Forall (fun c => c <> "$"%char /\ c <> "010"%char)
         (drop 1 (CStr.chars Scenario.visibilityText) ++ [Scenario.CR])
   /\ (length (drop 1 (CStr.chars Scenario.visibilityText) ++ [Scenario.CR]) < 120)%nat)
  /\ exec (@GPS.readLoop (Scenario.platform 1000 1000000)
             (Scenario.line Scenario.visibilityText))
          Scenario.started
     = (exec (@GPS.parseNMEASentence (Scenario.platform 1000 1000000)
                (CStr.chars Scenario.visibilityText ++ [Scenario.CR]))
             (@lineRead (Scenario.platform 1000 1000000)
                (drop 1 (CStr.chars Scenario.visibilityText) ++ [Scenario.CR])
                Scenario.started))
         <| GPS.gpsBuffer := [] |>.
Proof.
  assert (Hclean : Forall (fun c => c <> "$"%char /\ c <> "010"%char)
                     (drop 1 (CStr.chars Scenario.visibilityText) ++ [Scenario.CR])).
  { vm_compute. repeat (constructor; [split; discriminate|]). constructor. }
  assert (Hlen : (length (drop 1 (CStr.chars Scenario.visibilityText) ++ [Scenario.CR])
                  < 120)%nat) by (vm_compute; lia).
  split; [repeat split; [exact Hclean | exact Hlen]|].
  exact (@sentence_reaches_parser (Scenario.platform 1000 1000000)
           (drop 1 (CStr.chars Scenario.visibilityText) ++ [Scenario.CR])
           Scenario.started eq_refl eq_refl Hclean Hlen).
Defined.

(** Nothing is received, the decoder holds a fix: the age is renewed. *)
Lemma age_restarts_witness :
  (tg_time_isValid (Scenario.fixAt 2024 3 1 12 0 0)
   && tg_date_isValid (Scenario.fixAt 2024 3 1 12 0 0)
   || tg_location_isValid (Scenario.fixAt 2024 3 1 12 0 0) = true)
  /\ exists k,
       (GPS.ticks Scenario.started <= k
        < GPS.ticks (exec (@GPS.process (Scenario.platform 5000 5000000)
                             (Scenario.decoder (Scenario.fixAt 2024 3 1 12 0 0)) [])
                          Scenario.started))%nat
       /\ GPS.gd_lastUpdateMillis
            (GPS.gpsData (exec (@GPS.process (Scenario.platform 5000 5000000)
                                  (Scenario.decoder (Scenario.fixAt 2024 3 1 12 0 0)) [])
                               Scenario.started))
          = u32 (@millis_at (Scenario.platform 5000 5000000) k)
       /\ (0 < u32 (@millis_at (Scenario.platform 5000 5000000) k) ->
           exists k',
             (k < k'
              < GPS.ticks (exec (@GPS.process (Scenario.platform 5000 5000000)
                                   (Scenario.decoder (Scenario.fixAt 2024 3 1 12 0 0)) [])
                                Scenario.started))%nat
             /\ GPS.gd_updateAge
                  (GPS.gpsData (exec (@GPS.process (Scenario.platform 5000 5000000)
                                        (Scenario.decoder (Scenario.fixAt 2024 3 1 12 0 0))
                                        [])
                                     Scenario.started))
                = u32 (u32 (@millis_at (Scenario.platform 5000 5000000) k')
                       - u32 (@millis_at (Scenario.platform 5000 5000000) k))).
Proof.
  split; [reflexivity|].
  exact (@age_restarts_every_cycle (Scenario.platform 5000 5000000)
           (Scenario.decoder (Scenario.fixAt 2024 3 1 12 0 0)) [] Scenario.started
           eq_refl).
Defined.
